(** * AEM asset generator: upload client, folder creation and structure replication

    A shallow embedding of [aem_uploader.py], [customer_structure.py] and the
    upload hook of [image_processor.py].

    Python objects are records whose attributes may be absent (reading an
    absent attribute raises [AttributeError]); every method is a computation
    in a state, exception and event-output monad.  The remote service, the
    local image generation and [random.choice] are the environment: their
    answers are fields of the state that the code consumes in order.  Worker
    threads are interleavings of atomic actions, picked by a schedule that
    the run takes as an argument. *)

From Stdlib Require Import ZArith Lia Bool Ascii String List.
From stdpp Require Import base tactics option list gmap strings.

Local Open Scope Z_scope.

(** ** Python strings

    A Python [str] is a sequence of code points; a [string] holds the UTF-8
    bytes of one, and [Unicode.decode] reads the code points off it.  What
    [str] does by character ([len], [strip], [lower], [title], [split],
    [isdigit], [int]) is done here on the code points.  The character
    properties and case mappings are those of the Unicode Character Database
    14.0.0, which CPython 3.11 carries. *)

Module Unicode.

Local Open Scope N_scope.

(** *** The character database *)

(** White space: [Py_UNICODE_ISSPACE]. *)
Definition space_ranges : list (N * N) :=
  [ (9, 13); (28, 32); (133, 133); (160, 160); (5760, 5760); (8192, 8202);
    (8232, 8233); (8239, 8239); (8287, 8287); (12288, 12288) ]%N.

(** The digit zero of every decimal script; its nine successors are the
    digits 1 to 9. *)
Definition decimal_zeros : list N :=
  [ 48; 1632; 1776; 1984; 2406; 2534; 2662; 2790; 2918; 3046; 3174; 3302;
    3430; 3558; 3664; 3792; 3872; 4160; 4240; 6112; 6160; 6470; 6608; 6784;
    6800; 6992; 7088; 7232; 7248; 42528; 43216; 43264; 43472; 43504; 43600;
    44016; 65296; 66720; 68912; 69734; 69872; 69942; 70096; 70384; 70736;
    70864; 71248; 71360; 71472; 71904; 72016; 72784; 73040; 73120; 92768;
    92864; 93008; 120782; 120792; 120802; 120812; 120822; 123200; 123632;
    125264; 130032 ]%N.

(** Characters with a digit value: [str.isdigit]. *)
Definition digit_ranges : list (N * N) :=
  [ (48, 57); (178, 179); (185, 185); (1632, 1641); (1776, 1785);
    (1984, 1993); (2406, 2415); (2534, 2543); (2662, 2671); (2790, 2799);
    (2918, 2927); (3046, 3055); (3174, 3183); (3302, 3311); (3430, 3439);
    (3558, 3567); (3664, 3673); (3792, 3801); (3872, 3881); (4160, 4169);
    (4240, 4249); (4969, 4977); (6112, 6121); (6160, 6169); (6470, 6479);
    (6608, 6618); (6784, 6793); (6800, 6809); (6992, 7001); (7088, 7097);
    (7232, 7241); (7248, 7257); (8304, 8304); (8308, 8313); (8320, 8329);
    (9312, 9320); (9332, 9340); (9352, 9360); (9450, 9450); (9461, 9469);
    (9471, 9471); (10102, 10110); (10112, 10120); (10122, 10130);
    (42528, 42537); (43216, 43225); (43264, 43273); (43472, 43481);
    (43504, 43513); (43600, 43609); (44016, 44025); (65296, 65305);
    (66720, 66729); (68160, 68163); (68912, 68921); (69216, 69224);
    (69714, 69722); (69734, 69743); (69872, 69881); (69942, 69951);
    (70096, 70105); (70384, 70393); (70736, 70745); (70864, 70873);
    (71248, 71257); (71360, 71369); (71472, 71481); (71904, 71913);
    (72016, 72025); (72784, 72793); (73040, 73049); (73120, 73129);
    (92768, 92777); (92864, 92873); (93008, 93017); (120782, 120831);
    (123200, 123209); (123632, 123641); (125264, 125273); (127232, 127242);
    (130032, 130041) ]%N.

(** The property Cased. *)
Definition cased_ranges : list (N * N) :=
  [ (65, 90); (97, 122); (170, 170); (181, 181); (186, 186); (192, 214);
    (216, 246); (248, 442); (444, 447); (452, 659); (661, 696); (704, 705);
    (736, 740); (837, 837); (880, 883); (886, 887); (890, 893); (895, 895);
    (902, 902); (904, 906); (908, 908); (910, 929); (931, 1013); (1015, 1153);
    (1162, 1327); (1329, 1366); (1376, 1416); (4256, 4293); (4295, 4295);
    (4301, 4301); (4304, 4346); (4349, 4351); (5024, 5109); (5112, 5117);
    (7296, 7304); (7312, 7354); (7357, 7359); (7424, 7615); (7680, 7957);
    (7960, 7965); (7968, 8005); (8008, 8013); (8016, 8023); (8025, 8025);
    (8027, 8027); (8029, 8029); (8031, 8061); (8064, 8116); (8118, 8124);
    (8126, 8126); (8130, 8132); (8134, 8140); (8144, 8147); (8150, 8155);
    (8160, 8172); (8178, 8180); (8182, 8188); (8305, 8305); (8319, 8319);
    (8336, 8348); (8450, 8450); (8455, 8455); (8458, 8467); (8469, 8469);
    (8473, 8477); (8484, 8484); (8486, 8486); (8488, 8488); (8490, 8493);
    (8495, 8500); (8505, 8505); (8508, 8511); (8517, 8521); (8526, 8526);
    (8544, 8575); (8579, 8580); (9398, 9449); (11264, 11492); (11499, 11502);
    (11506, 11507); (11520, 11557); (11559, 11559); (11565, 11565);
    (42560, 42605); (42624, 42653); (42786, 42887); (42891, 42894);
    (42896, 42954); (42960, 42961); (42963, 42963); (42965, 42969);
    (42997, 42998); (43000, 43002); (43824, 43866); (43868, 43880);
    (43888, 43967); (64256, 64262); (64275, 64279); (65313, 65338);
    (65345, 65370); (66560, 66639); (66736, 66771); (66776, 66811);
    (66928, 66938); (66940, 66954); (66956, 66962); (66964, 66965);
    (66967, 66977); (66979, 66993); (66995, 67001); (67003, 67004);
    (67456, 67456); (67459, 67461); (67463, 67504); (67506, 67514);
    (68736, 68786); (68800, 68850); (71840, 71903); (93760, 93823);
    (119808, 119892); (119894, 119964); (119966, 119967); (119970, 119970);
    (119973, 119974); (119977, 119980); (119982, 119993); (119995, 119995);
    (119997, 120003); (120005, 120069); (120071, 120074); (120077, 120084);
    (120086, 120092); (120094, 120121); (120123, 120126); (120128, 120132);
    (120134, 120134); (120138, 120144); (120146, 120485); (120488, 120512);
    (120514, 120538); (120540, 120570); (120572, 120596); (120598, 120628);
    (120630, 120654); (120656, 120686); (120688, 120712); (120714, 120744);
    (120746, 120770); (120772, 120779); (122624, 122633); (122635, 122654);
    (125184, 125251); (127280, 127305); (127312, 127337); (127344, 127369) ]%N.

(** The property Case_Ignorable. *)
Definition case_ignorable_ranges : list (N * N) :=
  [ (39, 39); (46, 46); (58, 58); (94, 94); (96, 96); (168, 168); (173, 173);
    (175, 175); (180, 180); (183, 184); (688, 879); (884, 885); (890, 890);
    (900, 901); (903, 903); (1155, 1161); (1369, 1369); (1375, 1375);
    (1425, 1469); (1471, 1471); (1473, 1474); (1476, 1477); (1479, 1479);
    (1524, 1524); (1536, 1541); (1552, 1562); (1564, 1564); (1600, 1600);
    (1611, 1631); (1648, 1648); (1750, 1757); (1759, 1768); (1770, 1773);
    (1807, 1807); (1809, 1809); (1840, 1866); (1958, 1968); (2027, 2037);
    (2042, 2042); (2045, 2045); (2070, 2093); (2137, 2139); (2184, 2184);
    (2192, 2193); (2200, 2207); (2249, 2306); (2362, 2362); (2364, 2364);
    (2369, 2376); (2381, 2381); (2385, 2391); (2402, 2403); (2417, 2417);
    (2433, 2433); (2492, 2492); (2497, 2500); (2509, 2509); (2530, 2531);
    (2558, 2558); (2561, 2562); (2620, 2620); (2625, 2626); (2631, 2632);
    (2635, 2637); (2641, 2641); (2672, 2673); (2677, 2677); (2689, 2690);
    (2748, 2748); (2753, 2757); (2759, 2760); (2765, 2765); (2786, 2787);
    (2810, 2815); (2817, 2817); (2876, 2876); (2879, 2879); (2881, 2884);
    (2893, 2893); (2901, 2902); (2914, 2915); (2946, 2946); (3008, 3008);
    (3021, 3021); (3072, 3072); (3076, 3076); (3132, 3132); (3134, 3136);
    (3142, 3144); (3146, 3149); (3157, 3158); (3170, 3171); (3201, 3201);
    (3260, 3260); (3263, 3263); (3270, 3270); (3276, 3277); (3298, 3299);
    (3328, 3329); (3387, 3388); (3393, 3396); (3405, 3405); (3426, 3427);
    (3457, 3457); (3530, 3530); (3538, 3540); (3542, 3542); (3633, 3633);
    (3636, 3642); (3654, 3662); (3761, 3761); (3764, 3772); (3782, 3782);
    (3784, 3789); (3864, 3865); (3893, 3893); (3895, 3895); (3897, 3897);
    (3953, 3966); (3968, 3972); (3974, 3975); (3981, 3991); (3993, 4028);
    (4038, 4038); (4141, 4144); (4146, 4151); (4153, 4154); (4157, 4158);
    (4184, 4185); (4190, 4192); (4209, 4212); (4226, 4226); (4229, 4230);
    (4237, 4237); (4253, 4253); (4348, 4348); (4957, 4959); (5906, 5908);
    (5938, 5939); (5970, 5971); (6002, 6003); (6068, 6069); (6071, 6077);
    (6086, 6086); (6089, 6099); (6103, 6103); (6109, 6109); (6155, 6159);
    (6211, 6211); (6277, 6278); (6313, 6313); (6432, 6434); (6439, 6440);
    (6450, 6450); (6457, 6459); (6679, 6680); (6683, 6683); (6742, 6742);
    (6744, 6750); (6752, 6752); (6754, 6754); (6757, 6764); (6771, 6780);
    (6783, 6783); (6823, 6823); (6832, 6862); (6912, 6915); (6964, 6964);
    (6966, 6970); (6972, 6972); (6978, 6978); (7019, 7027); (7040, 7041);
    (7074, 7077); (7080, 7081); (7083, 7085); (7142, 7142); (7144, 7145);
    (7149, 7149); (7151, 7153); (7212, 7219); (7222, 7223); (7288, 7293);
    (7376, 7378); (7380, 7392); (7394, 7400); (7405, 7405); (7412, 7412);
    (7416, 7417); (7468, 7530); (7544, 7544); (7579, 7679); (8125, 8125);
    (8127, 8129); (8141, 8143); (8157, 8159); (8173, 8175); (8189, 8190);
    (8203, 8207); (8216, 8217); (8228, 8228); (8231, 8231); (8234, 8238);
    (8288, 8292); (8294, 8303); (8305, 8305); (8319, 8319); (8336, 8348);
    (8400, 8432); (11388, 11389); (11503, 11505); (11631, 11631);
    (11647, 11647); (11744, 11775); (11823, 11823); (12293, 12293);
    (12330, 12333); (12337, 12341); (12347, 12347); (12441, 12446);
    (12540, 12542); (40981, 40981); (42232, 42237); (42508, 42508);
    (42607, 42610); (42612, 42621); (42623, 42623); (42652, 42655);
    (42736, 42737); (42752, 42785); (42864, 42864); (42888, 42890);
    (42994, 42996); (43000, 43001); (43010, 43010); (43014, 43014);
    (43019, 43019); (43045, 43046); (43052, 43052); (43204, 43205);
    (43232, 43249); (43263, 43263); (43302, 43309); (43335, 43345);
    (43392, 43394); (43443, 43443); (43446, 43449); (43452, 43453);
    (43471, 43471); (43493, 43494); (43561, 43566); (43569, 43570);
    (43573, 43574); (43587, 43587); (43596, 43596); (43632, 43632);
    (43644, 43644); (43696, 43696); (43698, 43700); (43703, 43704);
    (43710, 43711); (43713, 43713); (43741, 43741); (43756, 43757);
    (43763, 43764); (43766, 43766); (43867, 43871); (43881, 43883);
    (44005, 44005); (44008, 44008); (44013, 44013); (64286, 64286);
    (64434, 64450); (65024, 65039); (65043, 65043); (65056, 65071);
    (65106, 65106); (65109, 65109); (65279, 65279); (65287, 65287);
    (65294, 65294); (65306, 65306); (65342, 65342); (65344, 65344);
    (65392, 65392); (65438, 65439); (65507, 65507); (65529, 65531);
    (66045, 66045); (66272, 66272); (66422, 66426); (67456, 67461);
    (67463, 67504); (67506, 67514); (68097, 68099); (68101, 68102);
    (68108, 68111); (68152, 68154); (68159, 68159); (68325, 68326);
    (68900, 68903); (69291, 69292); (69446, 69456); (69506, 69509);
    (69633, 69633); (69688, 69702); (69744, 69744); (69747, 69748);
    (69759, 69761); (69811, 69814); (69817, 69818); (69821, 69821);
    (69826, 69826); (69837, 69837); (69888, 69890); (69927, 69931);
    (69933, 69940); (70003, 70003); (70016, 70017); (70070, 70078);
    (70089, 70092); (70095, 70095); (70191, 70193); (70196, 70196);
    (70198, 70199); (70206, 70206); (70367, 70367); (70371, 70378);
    (70400, 70401); (70459, 70460); (70464, 70464); (70502, 70508);
    (70512, 70516); (70712, 70719); (70722, 70724); (70726, 70726);
    (70750, 70750); (70835, 70840); (70842, 70842); (70847, 70848);
    (70850, 70851); (71090, 71093); (71100, 71101); (71103, 71104);
    (71132, 71133); (71219, 71226); (71229, 71229); (71231, 71232);
    (71339, 71339); (71341, 71341); (71344, 71349); (71351, 71351);
    (71453, 71455); (71458, 71461); (71463, 71467); (71727, 71735);
    (71737, 71738); (71995, 71996); (71998, 71998); (72003, 72003);
    (72148, 72151); (72154, 72155); (72160, 72160); (72193, 72202);
    (72243, 72248); (72251, 72254); (72263, 72263); (72273, 72278);
    (72281, 72283); (72330, 72342); (72344, 72345); (72752, 72758);
    (72760, 72765); (72767, 72767); (72850, 72871); (72874, 72880);
    (72882, 72883); (72885, 72886); (73009, 73014); (73018, 73018);
    (73020, 73021); (73023, 73029); (73031, 73031); (73104, 73105);
    (73109, 73109); (73111, 73111); (73459, 73460); (78896, 78904);
    (92912, 92916); (92976, 92982); (92992, 92995); (94031, 94031);
    (94095, 94111); (94176, 94177); (94179, 94180); (110576, 110579);
    (110581, 110587); (110589, 110590); (113821, 113822); (113824, 113827);
    (118528, 118573); (118576, 118598); (119143, 119145); (119155, 119170);
    (119173, 119179); (119210, 119213); (119362, 119364); (121344, 121398);
    (121403, 121452); (121461, 121461); (121476, 121476); (121499, 121503);
    (121505, 121519); (122880, 122886); (122888, 122904); (122907, 122913);
    (122915, 122916); (122918, 122922); (123184, 123197); (123566, 123566);
    (123628, 123631); (125136, 125142); (125252, 125259); (127995, 127999);
    (917505, 917505); (917536, 917631); (917760, 917999) ]%N.

(** Lower-case mappings to one character, as [(lo, hi, step, to)]: every
    [step]-th character from [lo] to [hi] maps to the character as far from
    [to] as it is from [lo]. *)
Definition lower_runs : list (N * N * N * N) :=
  [ (65, 90, 1, 97); (192, 214, 1, 224); (216, 222, 1, 248);
    (256, 302, 2, 257); (306, 310, 2, 307); (313, 327, 2, 314);
    (330, 374, 2, 331); (376, 376, 1, 255); (377, 381, 2, 378);
    (385, 385, 1, 595); (386, 388, 2, 387); (390, 390, 1, 596);
    (391, 391, 1, 392); (393, 394, 1, 598); (395, 395, 1, 396);
    (398, 398, 1, 477); (399, 399, 1, 601); (400, 400, 1, 603);
    (401, 401, 1, 402); (403, 403, 1, 608); (404, 404, 1, 611);
    (406, 406, 1, 617); (407, 407, 1, 616); (408, 408, 1, 409);
    (412, 412, 1, 623); (413, 413, 1, 626); (415, 415, 1, 629);
    (416, 420, 2, 417); (422, 422, 1, 640); (423, 423, 1, 424);
    (425, 425, 1, 643); (428, 428, 1, 429); (430, 430, 1, 648);
    (431, 431, 1, 432); (433, 434, 1, 650); (435, 437, 2, 436);
    (439, 439, 1, 658); (440, 440, 1, 441); (444, 444, 1, 445);
    (452, 452, 1, 454); (453, 453, 1, 454); (455, 455, 1, 457);
    (456, 456, 1, 457); (458, 458, 1, 460); (459, 475, 2, 460);
    (478, 494, 2, 479); (497, 497, 1, 499); (498, 500, 2, 499);
    (502, 502, 1, 405); (503, 503, 1, 447); (504, 542, 2, 505);
    (544, 544, 1, 414); (546, 562, 2, 547); (570, 570, 1, 11365);
    (571, 571, 1, 572); (573, 573, 1, 410); (574, 574, 1, 11366);
    (577, 577, 1, 578); (579, 579, 1, 384); (580, 580, 1, 649);
    (581, 581, 1, 652); (582, 590, 2, 583); (880, 882, 2, 881);
    (886, 886, 1, 887); (895, 895, 1, 1011); (902, 902, 1, 940);
    (904, 906, 1, 941); (908, 908, 1, 972); (910, 911, 1, 973);
    (913, 929, 1, 945); (931, 939, 1, 963); (975, 975, 1, 983);
    (984, 1006, 2, 985); (1012, 1012, 1, 952); (1015, 1015, 1, 1016);
    (1017, 1017, 1, 1010); (1018, 1018, 1, 1019); (1021, 1023, 1, 891);
    (1024, 1039, 1, 1104); (1040, 1071, 1, 1072); (1120, 1152, 2, 1121);
    (1162, 1214, 2, 1163); (1216, 1216, 1, 1231); (1217, 1229, 2, 1218);
    (1232, 1326, 2, 1233); (1329, 1366, 1, 1377); (4256, 4293, 1, 11520);
    (4295, 4295, 1, 11559); (4301, 4301, 1, 11565); (5024, 5103, 1, 43888);
    (5104, 5109, 1, 5112); (7312, 7354, 1, 4304); (7357, 7359, 1, 4349);
    (7680, 7828, 2, 7681); (7838, 7838, 1, 223); (7840, 7934, 2, 7841);
    (7944, 7951, 1, 7936); (7960, 7965, 1, 7952); (7976, 7983, 1, 7968);
    (7992, 7999, 1, 7984); (8008, 8013, 1, 8000); (8025, 8031, 2, 8017);
    (8040, 8047, 1, 8032); (8072, 8079, 1, 8064); (8088, 8095, 1, 8080);
    (8104, 8111, 1, 8096); (8120, 8121, 1, 8112); (8122, 8123, 1, 8048);
    (8124, 8124, 1, 8115); (8136, 8139, 1, 8050); (8140, 8140, 1, 8131);
    (8152, 8153, 1, 8144); (8154, 8155, 1, 8054); (8168, 8169, 1, 8160);
    (8170, 8171, 1, 8058); (8172, 8172, 1, 8165); (8184, 8185, 1, 8056);
    (8186, 8187, 1, 8060); (8188, 8188, 1, 8179); (8486, 8486, 1, 969);
    (8490, 8490, 1, 107); (8491, 8491, 1, 229); (8498, 8498, 1, 8526);
    (8544, 8559, 1, 8560); (8579, 8579, 1, 8580); (9398, 9423, 1, 9424);
    (11264, 11311, 1, 11312); (11360, 11360, 1, 11361);
    (11362, 11362, 1, 619); (11363, 11363, 1, 7549); (11364, 11364, 1, 637);
    (11367, 11371, 2, 11368); (11373, 11373, 1, 593); (11374, 11374, 1, 625);
    (11375, 11375, 1, 592); (11376, 11376, 1, 594); (11378, 11378, 1, 11379);
    (11381, 11381, 1, 11382); (11390, 11391, 1, 575);
    (11392, 11490, 2, 11393); (11499, 11501, 2, 11500);
    (11506, 11506, 1, 11507); (42560, 42604, 2, 42561);
    (42624, 42650, 2, 42625); (42786, 42798, 2, 42787);
    (42802, 42862, 2, 42803); (42873, 42875, 2, 42874);
    (42877, 42877, 1, 7545); (42878, 42886, 2, 42879);
    (42891, 42891, 1, 42892); (42893, 42893, 1, 613);
    (42896, 42898, 2, 42897); (42902, 42920, 2, 42903);
    (42922, 42922, 1, 614); (42923, 42923, 1, 604); (42924, 42924, 1, 609);
    (42925, 42925, 1, 620); (42926, 42926, 1, 618); (42928, 42928, 1, 670);
    (42929, 42929, 1, 647); (42930, 42930, 1, 669); (42931, 42931, 1, 43859);
    (42932, 42946, 2, 42933); (42948, 42948, 1, 42900);
    (42949, 42949, 1, 642); (42950, 42950, 1, 7566); (42951, 42953, 2, 42952);
    (42960, 42960, 1, 42961); (42966, 42968, 2, 42967);
    (42997, 42997, 1, 42998); (65313, 65338, 1, 65345);
    (66560, 66599, 1, 66600); (66736, 66771, 1, 66776);
    (66928, 66938, 1, 66967); (66940, 66954, 1, 66979);
    (66956, 66962, 1, 66995); (66964, 66965, 1, 67003);
    (68736, 68786, 1, 68800); (71840, 71871, 1, 71872);
    (93760, 93791, 1, 93792); (125184, 125217, 1, 125218) ]%N.

(** Lower-case mappings to several characters. *)
Definition lower_special : list (N * list N) :=
  [ (304, [105; 775]) ]%N.

(** Title-case mappings to one character. *)
Definition title_runs : list (N * N * N * N) :=
  [ (97, 122, 1, 65); (181, 181, 1, 924); (224, 246, 1, 192);
    (248, 254, 1, 216); (255, 255, 1, 376); (257, 303, 2, 256);
    (305, 305, 1, 73); (307, 311, 2, 306); (314, 328, 2, 313);
    (331, 375, 2, 330); (378, 382, 2, 377); (383, 383, 1, 83);
    (384, 384, 1, 579); (387, 389, 2, 386); (392, 392, 1, 391);
    (396, 396, 1, 395); (402, 402, 1, 401); (405, 405, 1, 502);
    (409, 409, 1, 408); (410, 410, 1, 573); (414, 414, 1, 544);
    (417, 421, 2, 416); (424, 424, 1, 423); (429, 429, 1, 428);
    (432, 432, 1, 431); (436, 438, 2, 435); (441, 441, 1, 440);
    (445, 445, 1, 444); (447, 447, 1, 503); (452, 452, 1, 453);
    (454, 454, 1, 453); (455, 455, 1, 456); (457, 457, 1, 456);
    (458, 458, 1, 459); (460, 476, 2, 459); (477, 477, 1, 398);
    (479, 495, 2, 478); (497, 497, 1, 498); (499, 501, 2, 498);
    (505, 543, 2, 504); (547, 563, 2, 546); (572, 572, 1, 571);
    (575, 576, 1, 11390); (578, 578, 1, 577); (583, 591, 2, 582);
    (592, 592, 1, 11375); (593, 593, 1, 11373); (594, 594, 1, 11376);
    (595, 595, 1, 385); (596, 596, 1, 390); (598, 599, 1, 393);
    (601, 601, 1, 399); (603, 603, 1, 400); (604, 604, 1, 42923);
    (608, 608, 1, 403); (609, 609, 1, 42924); (611, 611, 1, 404);
    (613, 613, 1, 42893); (614, 614, 1, 42922); (616, 616, 1, 407);
    (617, 617, 1, 406); (618, 618, 1, 42926); (619, 619, 1, 11362);
    (620, 620, 1, 42925); (623, 623, 1, 412); (625, 625, 1, 11374);
    (626, 626, 1, 413); (629, 629, 1, 415); (637, 637, 1, 11364);
    (640, 640, 1, 422); (642, 642, 1, 42949); (643, 643, 1, 425);
    (647, 647, 1, 42929); (648, 648, 1, 430); (649, 649, 1, 580);
    (650, 651, 1, 433); (652, 652, 1, 581); (658, 658, 1, 439);
    (669, 669, 1, 42930); (670, 670, 1, 42928); (837, 837, 1, 921);
    (881, 883, 2, 880); (887, 887, 1, 886); (891, 893, 1, 1021);
    (940, 940, 1, 902); (941, 943, 1, 904); (945, 961, 1, 913);
    (962, 962, 1, 931); (963, 971, 1, 931); (972, 972, 1, 908);
    (973, 974, 1, 910); (976, 976, 1, 914); (977, 977, 1, 920);
    (981, 981, 1, 934); (982, 982, 1, 928); (983, 983, 1, 975);
    (985, 1007, 2, 984); (1008, 1008, 1, 922); (1009, 1009, 1, 929);
    (1010, 1010, 1, 1017); (1011, 1011, 1, 895); (1013, 1013, 1, 917);
    (1016, 1016, 1, 1015); (1019, 1019, 1, 1018); (1072, 1103, 1, 1040);
    (1104, 1119, 1, 1024); (1121, 1153, 2, 1120); (1163, 1215, 2, 1162);
    (1218, 1230, 2, 1217); (1231, 1231, 1, 1216); (1233, 1327, 2, 1232);
    (1377, 1414, 1, 1329); (5112, 5117, 1, 5104); (7296, 7296, 1, 1042);
    (7297, 7297, 1, 1044); (7298, 7298, 1, 1054); (7299, 7300, 1, 1057);
    (7301, 7301, 1, 1058); (7302, 7302, 1, 1066); (7303, 7303, 1, 1122);
    (7304, 7304, 1, 42570); (7545, 7545, 1, 42877); (7549, 7549, 1, 11363);
    (7566, 7566, 1, 42950); (7681, 7829, 2, 7680); (7835, 7835, 1, 7776);
    (7841, 7935, 2, 7840); (7936, 7943, 1, 7944); (7952, 7957, 1, 7960);
    (7968, 7975, 1, 7976); (7984, 7991, 1, 7992); (8000, 8005, 1, 8008);
    (8017, 8023, 2, 8025); (8032, 8039, 1, 8040); (8048, 8049, 1, 8122);
    (8050, 8053, 1, 8136); (8054, 8055, 1, 8154); (8056, 8057, 1, 8184);
    (8058, 8059, 1, 8170); (8060, 8061, 1, 8186); (8064, 8071, 1, 8072);
    (8080, 8087, 1, 8088); (8096, 8103, 1, 8104); (8112, 8113, 1, 8120);
    (8115, 8115, 1, 8124); (8126, 8126, 1, 921); (8131, 8131, 1, 8140);
    (8144, 8145, 1, 8152); (8160, 8161, 1, 8168); (8165, 8165, 1, 8172);
    (8179, 8179, 1, 8188); (8526, 8526, 1, 8498); (8560, 8575, 1, 8544);
    (8580, 8580, 1, 8579); (9424, 9449, 1, 9398); (11312, 11359, 1, 11264);
    (11361, 11361, 1, 11360); (11365, 11365, 1, 570); (11366, 11366, 1, 574);
    (11368, 11372, 2, 11367); (11379, 11379, 1, 11378);
    (11382, 11382, 1, 11381); (11393, 11491, 2, 11392);
    (11500, 11502, 2, 11499); (11507, 11507, 1, 11506);
    (11520, 11557, 1, 4256); (11559, 11559, 1, 4295); (11565, 11565, 1, 4301);
    (42561, 42605, 2, 42560); (42625, 42651, 2, 42624);
    (42787, 42799, 2, 42786); (42803, 42863, 2, 42802);
    (42874, 42876, 2, 42873); (42879, 42887, 2, 42878);
    (42892, 42892, 1, 42891); (42897, 42899, 2, 42896);
    (42900, 42900, 1, 42948); (42903, 42921, 2, 42902);
    (42933, 42947, 2, 42932); (42952, 42954, 2, 42951);
    (42961, 42961, 1, 42960); (42967, 42969, 2, 42966);
    (42998, 42998, 1, 42997); (43859, 43859, 1, 42931);
    (43888, 43967, 1, 5024); (65345, 65370, 1, 65313);
    (66600, 66639, 1, 66560); (66776, 66811, 1, 66736);
    (66967, 66977, 1, 66928); (66979, 66993, 1, 66940);
    (66995, 67001, 1, 66956); (67003, 67004, 1, 66964);
    (68800, 68850, 1, 68736); (71872, 71903, 1, 71840);
    (93792, 93823, 1, 93760); (125218, 125251, 1, 125184) ]%N.

(** Title-case mappings to several characters. *)
Definition title_special : list (N * list N) :=
  [ (223, [83; 115]); (329, [700; 78]); (496, [74; 780]);
    (912, [921; 776; 769]); (944, [933; 776; 769]); (1415, [1333; 1410]);
    (7830, [72; 817]); (7831, [84; 776]); (7832, [87; 778]);
    (7833, [89; 778]); (7834, [65; 702]); (8016, [933; 787]);
    (8018, [933; 787; 768]); (8020, [933; 787; 769]); (8022, [933; 787; 834]);
    (8114, [8122; 837]); (8116, [902; 837]); (8118, [913; 834]);
    (8119, [913; 834; 837]); (8130, [8138; 837]); (8132, [905; 837]);
    (8134, [919; 834]); (8135, [919; 834; 837]); (8146, [921; 776; 768]);
    (8147, [921; 776; 769]); (8150, [921; 834]); (8151, [921; 776; 834]);
    (8162, [933; 776; 768]); (8163, [933; 776; 769]); (8164, [929; 787]);
    (8166, [933; 834]); (8167, [933; 776; 834]); (8178, [8186; 837]);
    (8180, [911; 837]); (8182, [937; 834]); (8183, [937; 834; 837]);
    (64256, [70; 102]); (64257, [70; 105]); (64258, [70; 108]);
    (64259, [70; 102; 105]); (64260, [70; 102; 108]); (64261, [83; 116]);
    (64262, [83; 116]); (64275, [1348; 1398]); (64276, [1348; 1381]);
    (64277, [1348; 1387]); (64278, [1358; 1398]); (64279, [1348; 1389]) ]%N.

(** *** Code points *)

Definition byte (b : ascii) : N := N_of_ascii b.

(** A byte of the form [10xxxxxx]. *)
Definition continuation (b : ascii) : bool := (128 <=? byte b) && (byte b <? 192).

Definition low6 (b : ascii) : N := byte b mod 64.

(** A byte that belongs to no well-formed sequence is kept, as a value
    above every code point; no Python string holds one. *)
Definition stray (b : ascii) : N := 1114112 + byte b.

(** The code points of a string: sequences of one to four bytes, the
    shortest form only; a surrogate, which a [str] may hold, has its
    three-byte form. *)
Fixpoint decode (s : string) : list N :=
  match s with
  | EmptyString => []
  | String b0 r0 =>
      let n0 := byte b0 in
      if n0 <? 128 then n0 :: decode r0
      else
        match r0 with
        | String b1 r1 =>
            if negb (continuation b1) then stray b0 :: decode r0
            else if (194 <=? n0) && (n0 <? 224) then
              ((n0 - 192) * 64 + low6 b1) :: decode r1
            else
              match r1 with
              | String b2 r2 =>
                  let c3 := (n0 - 224) * 4096 + low6 b1 * 64 + low6 b2 in
                  if negb (continuation b2) then stray b0 :: decode r0
                  else if (224 <=? n0) && (n0 <? 240) && (2048 <=? c3) then
                    c3 :: decode r2
                  else
                    match r2 with
                    | String b3 r3 =>
                        let c4 := (n0 - 240) * 262144 + low6 b1 * 4096
                                  + low6 b2 * 64 + low6 b3 in
                        if continuation b3 && (240 <=? n0) && (65536 <=? c4)
                           && (c4 <? 1114112)
                        then c4 :: decode r3
                        else stray b0 :: decode r0
                    | EmptyString => stray b0 :: decode r0
                    end
              | EmptyString => stray b0 :: decode r0
              end
        | EmptyString => stray b0 :: decode r0
        end
  end.

Definition encode_char (c : N) : string :=
  if c <? 128 then String (ascii_of_N c) EmptyString
  else if c <? 2048 then
    String (ascii_of_N (192 + c / 64))
      (String (ascii_of_N (128 + c mod 64)) EmptyString)
  else if c <? 65536 then
    String (ascii_of_N (224 + c / 4096))
      (String (ascii_of_N (128 + (c / 64) mod 64))
         (String (ascii_of_N (128 + c mod 64)) EmptyString))
  else if c <? 1114112 then
    String (ascii_of_N (240 + c / 262144))
      (String (ascii_of_N (128 + (c / 4096) mod 64))
         (String (ascii_of_N (128 + (c / 64) mod 64))
            (String (ascii_of_N (128 + c mod 64)) EmptyString)))
  else String (ascii_of_N (c - 1114112)) EmptyString.

(** The string of a sequence of code points. *)
Fixpoint encode (cs : list N) : string :=
  match cs with
  | [] => EmptyString
  | c :: r => encode_char c +:+ encode r
  end.

(** *** Properties and mappings of a character *)

(** Membership in a table of ranges in ascending order. *)
Fixpoint in_ranges (c : N) (ranges : list (N * N)) : bool :=
  match ranges with
  | [] => false
  | (lo, hi) :: rest =>
      if c <? lo then false else if c <=? hi then true else in_ranges c rest
  end.

Fixpoint in_runs (c : N) (runs : list (N * N * N * N)) : option N :=
  match runs with
  | [] => None
  | (lo, hi, step, to) :: rest =>
      if (lo <=? c) && (c <=? hi) && ((c - lo) mod step =? 0)
      then Some (to + (c - lo)) else in_runs c rest
  end.

Fixpoint in_special (c : N) (special : list (N * list N)) : option (list N) :=
  match special with
  | [] => None
  | (c', to) :: rest => if c =? c' then Some to else in_special c rest
  end.

(** [Py_UNICODE_ISSPACE] *)
Definition isspace (c : N) : bool := in_ranges c space_ranges.

(** [Py_UNICODE_TODECIMAL] *)
Fixpoint decimal_from (c : N) (zeros : list N) : option N :=
  match zeros with
  | [] => None
  | zero :: rest =>
      if (zero <=? c) && (c <? zero + 10) then Some (c - zero)
      else decimal_from c rest
  end.

Definition decimal (c : N) : option N := decimal_from c decimal_zeros.

(** [Py_UNICODE_ISDIGIT], the test of [str.isdigit] *)
Definition isdigit (c : N) : bool := in_ranges c digit_ranges.

Definition cased (c : N) : bool := in_ranges c cased_ranges.

Definition case_ignorable (c : N) : bool := in_ranges c case_ignorable_ranges.

(** The full lower-case and title-case mappings of one character. *)
Definition tolower (c : N) : list N :=
  match in_special c lower_special with
  | Some to => to
  | None => match in_runs c lower_runs with Some to => [to] | None => [c] end
  end.

Definition totitle (c : N) : list N :=
  match in_special c title_special with
  | Some to => to
  | None => match in_runs c title_runs with Some to => [to] | None => [c] end
  end.

(** *** What [str] does, on code points *)

(** The first character that is not case-ignorable. *)
Fixpoint skip_ignorable (cs : list N) : option N :=
  match cs with
  | [] => None
  | c :: r => if case_ignorable c then skip_ignorable r else Some c
  end.

(** A capital sigma is in final position when a cased letter stands before
    it and none after it, case-ignorable characters set aside. *)
Definition final_sigma (before after : list N) : bool :=
  match skip_ignorable before with
  | Some c =>
      cased c &&
      match skip_ignorable after with
      | Some c' => negb (cased c')
      | None => true
      end
  | None => false
  end.

(** The lower case of [c] where it stands: [before] are the characters
    before it, the nearest first, [after] those after it. *)
Definition lower_at (before : list N) (c : N) (after : list N) : list N :=
  if c =? 931 then [if final_sigma before after then 962 else 963]
  else tolower c.

Fixpoint do_lower (before cs : list N) : list N :=
  match cs with
  | [] => []
  | c :: r => lower_at before c r ++ do_lower (c :: before) r
  end.

Fixpoint do_title (previous_is_cased : bool) (before cs : list N) : list N :=
  match cs with
  | [] => []
  | c :: r =>
      (if previous_is_cased then lower_at before c r else totitle c)
      ++ do_title (cased c) (c :: before) r
  end.

Fixpoint lstrip (cs : list N) : list N :=
  match cs with
  | [] => []
  | c :: r => if isspace c then lstrip r else cs
  end.

Definition strip (cs : list N) : list N := rev (lstrip (rev (lstrip cs))).

(** The maximal runs of characters that are no white space; [word] holds
    the characters of the run being read, the last first. *)
Fixpoint split_whitespace (word cs : list N) : list (list N) :=
  match cs with
  | [] => match word with [] => [] | _ => [rev word] end
  | c :: r =>
      if isspace c then
        match word with
        | [] => split_whitespace [] r
        | _ => rev word :: split_whitespace [] r
        end
      else split_whitespace (c :: word) r
  end.

(** [_PyUnicode_TransformDecimalAndSpaceToASCII] past its test for an ASCII
    string: white space becomes a space and a decimal digit of any script
    its ASCII digit; at any other character above 126 the result ends with
    a question mark. *)
Fixpoint decimal_and_space_to_ascii (cs : list N) : list N :=
  match cs with
  | [] => []
  | c :: r =>
      if c <? 127 then c :: decimal_and_space_to_ascii r
      else if isspace c then 32 :: decimal_and_space_to_ascii r
      else
        match decimal c with
        | Some d => (48 + d) :: decimal_and_space_to_ascii r
        | None => [63]
        end
  end.

End Unicode.

Module PyStr.

(** [str.isascii] *)
Fixpoint isascii (s : string) : bool :=
  match s with
  | EmptyString => true
  | String c r => (Unicode.byte c <? 128)%N && isascii r
  end.

(** The characters of a string, and [len(s)]. *)
Definition chars (s : string) : list N := Unicode.decode s.

Definition len (s : string) : nat := length (chars s).

(** [str.lower] on the ASCII range. *)
Definition lower_ascii (c : ascii) : ascii :=
  let n := nat_of_ascii c in
  if (Nat.leb 65 n && Nat.leb n 90)%bool then ascii_of_nat (n + 32) else c.

Fixpoint lower_bytes (s : string) : string :=
  match s with
  | EmptyString => EmptyString
  | String c r => String (lower_ascii c) (lower_bytes r)
  end.

(** [s.lower()]: byte by byte on an ASCII string, as CPython does it. *)
Definition lower (s : string) : string :=
  if isascii s then lower_bytes s
  else Unicode.encode (Unicode.do_lower [] (Unicode.decode s)).

(** White space on the ASCII range: tab, LF, VT, FF, CR, FS, GS, RS, US and
    the space. *)
Definition isspace (c : ascii) : bool :=
  let n := nat_of_ascii c in
  ((Nat.leb 9 n && Nat.leb n 13) || (Nat.leb 28 n && Nat.leb n 32))%bool.

(** White space for C's [isspace], which the parser of [int] uses: tab, LF,
    VT, FF, CR and the space. *)
Definition isspace_c (c : ascii) : bool :=
  let n := nat_of_ascii c in
  ((Nat.leb 9 n && Nat.leb n 13) || Nat.eqb n 32)%bool.

Fixpoint lstrip (space : ascii -> bool) (s : string) : string :=
  match s with
  | EmptyString => EmptyString
  | String c r => if space c then lstrip space r else s
  end.

Fixpoint rstrip (space : ascii -> bool) (s : string) : string :=
  match s with
  | EmptyString => EmptyString
  | String c r =>
      match rstrip space r with
      | EmptyString => if space c then EmptyString else String c EmptyString
      | r' => String c r'
      end
  end.

(** [s.strip()] *)
Definition strip (s : string) : string :=
  if isascii s then rstrip isspace (lstrip isspace s)
  else Unicode.encode (Unicode.strip (Unicode.decode s)).

(** [s.startswith(p)] *)
Definition startswith (s p : string) : bool := String.prefix p s.

(** [s.split(sep)] for a one-character separator: the pieces between the
    separators, empty pieces included; always at least one piece. *)
Fixpoint split (sep : ascii) (s : string) : list string :=
  match s with
  | EmptyString => [EmptyString]
  | String c r =>
      if Ascii.eqb c sep then EmptyString :: split sep r
      else match split sep r with
           | [] => [String c EmptyString]
           | p :: ps => String c p :: ps
           end
  end.

(** Truth value of a string: the empty string is false. *)
Definition truthy (s : string) : bool :=
  match s with EmptyString => false | _ => true end.

Definition digit_val (c : ascii) : option Z :=
  let n := nat_of_ascii c in
  if (Nat.leb 48 n && Nat.leb n 57)%bool then Some (Z.of_nat (n - 48)) else None.

(** Digits of a decimal literal; [prev_digit] says whether the character
    before was a digit, since an underscore must stand between two digits. *)
Fixpoint int_digits (acc : Z) (prev_digit : bool) (s : string) : option Z :=
  match s with
  | EmptyString => if prev_digit then Some acc else None
  | String c r =>
      match digit_val c with
      | Some d => int_digits (10 * acc + d) true r
      | None =>
          if (Ascii.eqb c "_"%char && prev_digit)%bool then
            match r with
            | String c' _ =>
                match digit_val c' with
                | Some _ => int_digits acc false r
                | None => None
                end
            | EmptyString => None
            end
          else None
      end
  end.

(** The digits a literal starts with, underscores not counted. *)
Fixpoint count_digits (s : string) : N :=
  match s with
  | EmptyString => 0
  | String c r =>
      match digit_val c with
      | Some _ => N.succ (count_digits r)
      | None => if Ascii.eqb c "_"%char then count_digits r else 0
      end
  end%N.

(** [sys.int_info.default_max_str_digits] *)
Definition max_str_digits : N := 4300.

(** The string [int] parses: an ASCII string as it is, of any other the
    white space and decimal digits brought to ASCII. *)
Definition ascii_decimal (s : string) : string :=
  if isascii s then s
  else Unicode.encode (Unicode.decimal_and_space_to_ascii (Unicode.decode s)).

(** [int(s)] on a string, base 10: surrounding white space, an optional
    sign, decimal digits with single underscores between digits, no more
    digits than the interpreter's limit.  [None] stands for [ValueError]. *)
Definition int (s : string) : option Z :=
  let literal (t : string) : option Z :=
    if (max_str_digits <? count_digits t)%N then None else int_digits 0 false t in
  match rstrip isspace_c (lstrip isspace_c (ascii_decimal s)) with
  | String "-"%char r => option_map Z.opp (literal r)
  | String "+"%char r => literal r
  | t => literal t
  end.

Definition digit_char (d : Z) : ascii := ascii_of_nat (48 + Z.to_nat d).

Fixpoint dec_go (fuel : nat) (n : Z) (acc : string) : string :=
  match fuel with
  | O => acc
  | S f =>
      let acc' := String (digit_char (n mod 10)) acc in
      if n / 10 =? 0 then acc' else dec_go f (n / 10) acc'
  end.

(** [str(n)] for a natural number. *)
Definition dec (n : Z) : string := dec_go (S (Z.to_nat n)) n EmptyString.

(** [str(n).zfill(2)] *)
Definition dec2 (n : Z) : string := if n <? 10 then "0" +:+ dec n else dec n.

End PyStr.

(** ** Values shared by the three modules *)

(** The exceptions the modelled code can meet; all of them are subclasses of
    Python's [Exception]. *)
Inductive exn :=
| AttributeError (attr : string)
| ValueError
| KeyError (key : string)
| ConnectionError
| OSError
| IndexError.

Definition exn_str (e : exn) : string :=
  match e with
  | AttributeError a => "object has no attribute '" +:+ a +:+ "'"
  | ValueError => "ValueError"
  | KeyError k => "'" +:+ k +:+ "'"
  | ConnectionError => "ConnectionError"
  | OSError => "OSError"
  | IndexError => "IndexError"
  end.

(** [datetime], as far as [strftime('%Y')] and [strftime('%m')] read it.
    Generated dates lie between 2010-01-01 and today, so the year has four
    digits. *)
Record datetime := { year : Z; month : Z; day : Z }.

Definition strftime_Y (d : datetime) : string := PyStr.dec (year d).
Definition strftime_m (d : datetime) : string := PyStr.dec2 (month d).

(** A local file as a [Path]: its name and whether it can be read. *)
Record path := { name : string; readable : bool }.

(** The parsed JSON answer of the initiate endpoint, split along the cases
    the client tells apart: a body that is no JSON ([json()] raises), a falsy
    value such as an empty object, or an object in which each of
    [files[0].uploadURIs], [files[0].uploadToken] and [completeURI] is
    present or not. *)
Inductive json :=
| JInvalid
| JFalsy
| JInfo (uploadURIs : option (list string)) (uploadToken : option string)
        (completeURI : option string).

(** What one HTTP request meets: a response with a status code and a body,
    or a transport error raised by [requests]. *)
Inductive reply :=
| Resp (status_code : Z) (body : json)
| Fault (e : exn).

Inductive method := GET | POST | PUT.

(** The protocol step on whose behalf a request is issued. *)
Inductive step := FolderCheck | FolderCreate | Initiate | Transfer | Complete.

Inductive level := INFO | WARNING | ERROR.

Definition level_no (l : level) : Z :=
  match l with INFO => 20 | WARNING => 30 | ERROR => 40 end.

(** A task of the replication queue: [(folder_path, asset_count, source_image)]. *)
Definition task : Type := string * Z * path.

(** Observable effects, in the order they happen. *)
Inductive event :=
| ECall (m : method) (st : step) (url : string) (r : reply)
| ESleep (secs : Z)
| ELog (logger_name : string) (lvl : level) (msg : string).

#[global] Instance method_eq_dec : EqDecision method.
Proof. solve_decision. Defined.
#[global] Instance step_eq_dec : EqDecision step.
Proof. solve_decision. Defined.

(** ** The monad: state, exceptions, emitted events *)

Inductive outcome (A : Type) :=
| Ret (a : A)
| Raise (e : exn).
Arguments Ret {A} a.
Arguments Raise {A} e.

Definition M (S A : Type) : Type := S -> outcome A * S * list event.

#[global] Instance M_ret {S} : MRet (M S) := fun A a s => (Ret a, s, []).

#[global] Instance M_bind {S} : MBind (M S) := fun A B f m s =>
  match m s with
  | (Ret a, s1, ev1) =>
      match f a s1 with
      | (r, s2, ev2) => (r, s2, ev1 ++ ev2)
      end
  | (Raise e, s1, ev1) => (Raise e, s1, ev1)
  end.

Definition raise {S A} (e : exn) : M S A := fun s => (Raise e, s, []).
Definition emit {S} (ev : event) : M S unit := fun s => (Ret tt, s, [ev]).
Definition get {S} : M S S := fun s => (Ret s, s, []).
Definition put {S} (s : S) : M S unit := fun _ => (Ret tt, s, []).
Definition modify {S} (f : S -> S) : M S unit := fun s => (Ret tt, f s, []).

(** [try: m  except Exception as e: h e] *)
Definition try_except {S A} (m : M S A) (h : exn -> M S A) : M S A := fun s =>
  match m s with
  | (Ret a, s1, ev1) => (Ret a, s1, ev1)
  | (Raise e, s1, ev1) =>
      match h e s1 with
      | (r, s2, ev2) => (r, s2, ev1 ++ ev2)
      end
  end.

(** [try: m  finally: fin].  The clean-up runs on every exit; an exception
    of the clean-up itself replaces the one in flight. *)
Definition try_finally {S A} (m : M S A) (fin : M S unit) : M S A := fun s =>
  match m s with
  | (r, s1, ev1) =>
      match fin s1 with
      | (Ret _, s2, ev2) => (r, s2, ev1 ++ ev2)
      | (Raise e, s2, ev2) => (Raise e, s2, ev1 ++ ev2)
      end
  end.

(** Reading an attribute that [__init__] may not have set. *)
Definition getattr {S A} (attr : string) (v : option A) : M S A :=
  match v with
  | Some a => mret a
  | None => raise (AttributeError attr)
  end.

(** Run a computation of a component inside a larger state. *)
Definition lift {S T A} (proj : T -> S) (upd : S -> T -> T) (m : M S A) : M T A :=
  fun t => match m (proj t) with (r, s', ev) => (r, upd s' t, ev) end.

(** How a loop iteration or a guarded block ends: the enclosing function
    returns a value, or control goes on ([continue], or falling through). *)
Inductive flow (A : Type) :=
| Return_ (a : A)
| Continue.
Arguments Return_ {A} a.
Arguments Continue {A}.

(** ** aem_uploader.py *)

(** An [AEMUploader] instance.  [__init__] always sets [aem_enabled]; the
    other attributes exist only when it ran with uploads enabled.  The token
    is what [get_aem_token] returned, which may be Python's [None]. *)
Record AEMUploader := {
  aem_enabled : bool;
  aem_host : option string;
  aem_token : option (option string);
  aem_destination : option string;
  put_into_date_folder : option bool;
  logger : option string
}.

(** [os.getenv(key, default)] *)
Definition getenv (env : gmap string string) (key dflt : string) : string :=
  default dflt (env !! key).

(** [AEMUploader.__init__] *)
Definition AEMUploader_init (env : gmap string string) (token : option string)
  : AEMUploader :=
  if String.eqb (PyStr.lower (getenv env "AEM_ENABLED" "false")) "true" then
    {| aem_enabled := true;
       aem_host := Some (getenv env "AEM_HOST" "http://localhost:4502");
       aem_token := Some token;
       aem_destination := Some (getenv env "AEM_DESTINATION" "/content/dam/images");
       put_into_date_folder :=
         Some (String.eqb (PyStr.lower (getenv env "AEM_PUT_INTO_DATE_FOLDER" "false")) "true");
       logger := Some "AEMUploader" |}
  else
    {| aem_enabled := false;
       aem_host := None;
       aem_token := None;
       aem_destination := None;
       put_into_date_folder := None;
       logger := None |}.

Definition set_aem_destination (d : string) (u : AEMUploader) : AEMUploader :=
  {| aem_enabled := aem_enabled u;
     aem_host := aem_host u;
     aem_token := aem_token u;
     aem_destination := Some d;
     put_into_date_folder := put_into_date_folder u;
     logger := logger u |}.

Definition set_put_into_date_folder (b : bool) (u : AEMUploader) : AEMUploader :=
  {| aem_enabled := aem_enabled u;
     aem_host := aem_host u;
     aem_token := aem_token u;
     aem_destination := aem_destination u;
     put_into_date_folder := Some b;
     logger := logger u |}.

(** What local image generation hands to the upload: the written file, the
    random capture date and the tags. *)
Record generated := {
  output_path : path;
  random_date : datetime;
  tags : list string
}.

(** The state the upload client and the image processor work on: the one
    shared [AEMUploader] object, the image processor's counter, and the
    environment: the answers the remote service will give to the next
    requests, and the outcomes of the next local image generations ([None]:
    the generation raises). *)
Record Sys := {
  uploader : AEMUploader;
  images_processed : Z;
  remote : list reply;
  studio : list (option generated)
}.

Definition set_uploader (u : AEMUploader) (s : Sys) : Sys :=
  {| uploader := u; images_processed := images_processed s;
     remote := remote s; studio := studio s |}.

Definition set_images_processed (n : Z) (s : Sys) : Sys :=
  {| uploader := uploader s; images_processed := n;
     remote := remote s; studio := studio s |}.

Definition set_remote (rs : list reply) (s : Sys) : Sys :=
  {| uploader := uploader s; images_processed := images_processed s;
     remote := rs; studio := studio s |}.

Definition set_studio (gs : list (option generated)) (s : Sys) : Sys :=
  {| uploader := uploader s; images_processed := images_processed s;
     remote := remote s; studio := gs |}.

(** [self.<attr>] on the uploader *)
Definition attr {A} (nm : string) (field : AEMUploader -> option A) : M Sys A :=
  s ← get; getattr nm (field (uploader s)).

(** [self.logger.<lvl>(msg)]: the call is recorded whatever the logger's
    threshold; without a [logger] attribute it raises.  Messages keep the
    format's fixed text and the paths; response bodies are left out. *)
Definition ulog (lvl : level) (msg : string) : M Sys unit :=
  lg ← attr "logger" logger; emit (ELog lg lvl msg).

(** One call of [requests.get], [requests.post] or [requests.put]: it takes
    the remote's next answer.  A remote with no answer left is unreachable. *)
Definition request (m : method) (st : step) (url : string) : M Sys (Z * json) :=
  fun s =>
    match remote s with
    | [] => (Raise ConnectionError, s, [ECall m st url (Fault ConnectionError)])
    | Fault e :: rs => (Raise e, set_remote rs s, [ECall m st url (Fault e)])
    | Resp c b :: rs => (Ret (c, b), set_remote rs s, [ECall m st url (Resp c b)])
    end.

(** [time.sleep(secs)]; a negative argument is a [ValueError]. *)
Definition sleep {S} (secs : Z) : M S unit :=
  if secs <? 0 then raise ValueError else emit (ESleep secs).

(** [status in codes] *)
Definition status_in (c : Z) (codes : list Z) : bool := existsb (Z.eqb c) codes.

Definition _get_destination_path (date : datetime) : M Sys string :=
  flag ← attr "put_into_date_folder" put_into_date_folder;
  if flag : bool then
    dest ← attr "aem_destination" aem_destination;
    mret (dest +:+ "/" +:+ strftime_Y date +:+ "/" +:+ strftime_m date)
  else attr "aem_destination" aem_destination.

(** The [except Exception] branch of the two retry loops. *)
Definition retry_or_fail {A} (attempt max_retries retry_delay : Z) (failed : A)
  : M Sys (flow A) :=
  if attempt <? max_retries - 1 then sleep retry_delay;; mret Continue
  else mret (Return_ failed).

(** One iteration of the loop of [_create_folder]. *)
Definition create_folder_attempt (folder_path : string)
    (max_retries retry_delay attempt : Z) : M Sys (flow bool) :=
  try_except
    (_ ← attr "aem_token" aem_token;
     host ← attr "aem_host" aem_host;
     resp ← request GET FolderCheck (host +:+ folder_path +:+ ".json");
     if fst resp =? 200 then
       ulog INFO ("Folder " +:+ folder_path +:+ " exists");;
       mret (Return_ true)
     else
       host' ← attr "aem_host" aem_host;
       ulog INFO ("Creating folder " +:+ folder_path);;
       resp' ← request POST FolderCreate (host' +:+ folder_path);
       if status_in (fst resp') [200; 201] then
         sleep retry_delay;;
         ulog INFO ("Successfully created folder " +:+ folder_path);;
         mret (Return_ true)
       else
         ulog WARNING ("Failed to create folder " +:+ folder_path);;
         retry_or_fail attempt max_retries retry_delay false)
    (fun e =>
       ulog ERROR ("Error creating folder " +:+ folder_path +:+ ": " +:+ exn_str e);;
       retry_or_fail attempt max_retries retry_delay false).

(** [for attempt in range(max_retries)] with [todo] iterations left; a loop
    that runs out falls off the end of the function, which returns [None]. *)
Fixpoint create_folder_loop (folder_path : string) (max_retries retry_delay : Z)
    (todo : nat) (attempt : Z) : M Sys (option bool) :=
  match todo with
  | O => mret None
  | S todo' =>
      r ← create_folder_attempt folder_path max_retries retry_delay attempt;
      match r with
      | Return_ b => mret (Some b)
      | Continue =>
          create_folder_loop folder_path max_retries retry_delay todo' (attempt + 1)
      end
  end.

Definition _create_folder (folder_path : string) (max_retries retry_delay : Z)
  : M Sys (option bool) :=
  create_folder_loop folder_path max_retries retry_delay (Z.to_nat max_retries) 0.

(** Truth value of what [_create_folder] returned: [None] counts as false. *)
Definition truth (r : option bool) : bool := default false r.

(** The loop of [_ensure_folders_exist]. *)
Fixpoint ensure_folders_loop (path_parts : list string) (current_path : string)
  : M Sys bool :=
  match path_parts with
  | [] => mret true
  | part :: rest =>
      if negb (PyStr.truthy part) then ensure_folders_loop rest current_path
      else
        let current_path := current_path +:+ "/" +:+ part in
        r ← _create_folder current_path 3 2;
        if negb (truth r) then mret false
        else ensure_folders_loop rest current_path
  end.

Definition _ensure_folders_exist (destination_path : string) : M Sys bool :=
  flag ← attr "put_into_date_folder" put_into_date_folder;
  if negb flag then mret true
  else ensure_folders_loop (PyStr.split "/" destination_path) "".

(** [image_path.stat()] and [open(image_path, 'rb')] *)
Definition read_file (p : path) : M Sys unit :=
  if readable p then mret tt else raise OSError.

(** One iteration of the loop of [_initiate_upload]; the function returns
    the parsed body, or [None]. *)
Definition initiate_attempt (image_path : path) (destination_path : string)
    (max_retries retry_delay attempt : Z) : M Sys (flow (option json)) :=
  try_except
    (_ ← attr "aem_token" aem_token;
     read_file image_path;;
     host ← attr "aem_host" aem_host;
     let url := host +:+ destination_path +:+ ".initiateUpload.json" in
     ulog INFO ("Initiating upload to " +:+ url);;
     resp ← request POST Initiate url;
     if fst resp =? 200 then
       ulog INFO "Upload initiation successful";;
       match snd resp with
       | JInvalid => raise ValueError
       | b => mret (Return_ (Some b))
       end
     else
       ulog WARNING "Failed to initiate upload";;
       retry_or_fail attempt max_retries retry_delay None)
    (fun e =>
       ulog ERROR ("Error during upload initiation: " +:+ exn_str e);;
       retry_or_fail attempt max_retries retry_delay None).

Fixpoint initiate_loop (image_path : path) (destination_path : string)
    (max_retries retry_delay : Z) (todo : nat) (attempt : Z) : M Sys (option json) :=
  match todo with
  | O => mret None
  | S todo' =>
      r ← initiate_attempt image_path destination_path max_retries retry_delay attempt;
      match r with
      | Return_ v => mret v
      | Continue =>
          initiate_loop image_path destination_path max_retries retry_delay todo'
            (attempt + 1)
      end
  end.

Definition _initiate_upload (image_path : path) (destination_path : string)
    (max_retries retry_delay : Z) : M Sys (option json) :=
  initiate_loop image_path destination_path max_retries retry_delay
    (Z.to_nat max_retries) 0.

(** Truth value of [upload_info]. *)
Definition info_truthy (v : option json) : bool :=
  match v with
  | Some (JInfo _ _ _) => true
  | _ => false
  end.

(** [upload_info['files'][0]['uploadURIs']] and the like. *)
Definition subscript {A} (key : string) (v : option A) : M Sys A :=
  match v with
  | Some a => mret a
  | None => raise (KeyError key)
  end.

Definition info_uris (v : option json) : option (list string) :=
  match v with Some (JInfo u _ _) => u | _ => None end.
Definition info_token (v : option json) : option string :=
  match v with Some (JInfo _ t _) => t | _ => None end.
Definition info_complete (v : option json) : option string :=
  match v with Some (JInfo _ _ c) => c | _ => None end.

(** The loop of [_upload_binary] over the signed URIs. *)
Fixpoint upload_binary_loop (upload_uris : list string) : M Sys bool :=
  match upload_uris with
  | [] =>
      ulog INFO "Binary upload completed successfully";;
      mret true
  | uri :: rest =>
      ulog INFO ("Uploading to URI: " +:+ uri);;
      resp ← request PUT Transfer uri;
      if negb (status_in (fst resp) [200; 201; 204]) then
        ulog ERROR "Failed to upload binary";;
        mret false
      else upload_binary_loop rest
  end.

Definition _upload_binary (image_path : path) (upload_info : option json)
  : M Sys bool :=
  try_except
    (upload_uris ← subscript "uploadURIs" (info_uris upload_info);
     ulog INFO "Uploading to URIs";;
     read_file image_path;;
     upload_binary_loop upload_uris)
    (fun e =>
       ulog ERROR ("Error during binary upload: " +:+ exn_str e);;
       mret false).

Definition _complete_upload (image_path : path) (upload_info : option json)
    (date : datetime) (tags : list string) : M Sys bool :=
  try_except
    (_ ← attr "aem_token" aem_token;
     _ ← subscript "uploadToken" (info_token upload_info);
     ulog INFO "Completing upload process";;
     host ← attr "aem_host" aem_host;
     completeURI ← subscript "completeURI" (info_complete upload_info);
     resp ← request POST Complete (host +:+ completeURI);
     if status_in (fst resp) [200; 201] then
       ulog INFO "Upload completed successfully";;
       mret true
     else
       ulog ERROR "Failed to complete upload";;
       mret false)
    (fun e =>
       ulog ERROR ("Error during upload completion: " +:+ exn_str e);;
       mret false).

(** The three protocol steps of [upload], after the folders. *)
Definition upload_session (image_path : path) (destination_path : string)
    (date : datetime) (tags : list string) : M Sys bool :=
  ulog INFO ("Step 1: Initiating upload for " +:+ name image_path
             +:+ " to " +:+ destination_path);;
  upload_info ← _initiate_upload image_path destination_path 3 2;
  if negb (info_truthy upload_info) then mret false
  else
    ulog INFO ("Step 2: Uploading binary for " +:+ name image_path);;
    ok ← _upload_binary image_path upload_info;
    if negb ok then mret false
    else
      ulog INFO ("Step 3: Completing upload for " +:+ name image_path);;
      _complete_upload image_path upload_info date tags.

Definition upload (image_path : path) (date : datetime) (tags : list string)
  : M Sys bool :=
  s ← get;
  if negb (aem_enabled (uploader s)) then
    ulog INFO "AEM upload is disabled";;
    mret true
  else
    try_except
      (destination_path ← _get_destination_path date;
       ok ← _ensure_folders_exist destination_path;
       if negb ok then
         ulog ERROR ("Failed to create required folders for " +:+ destination_path);;
         mret false
       else upload_session image_path destination_path date tags)
      (fun e =>
         ulog ERROR ("Failed to upload " +:+ name image_path +:+ " to AEM: "
                     +:+ exn_str e);;
         mret false).

(** ** image_processor.py: [ImageProcessor.process_image] *)

(** Name, date and tag generation, drawing, saving and the EXIF update are
    the environment's: each call takes the studio's next outcome. *)
Definition generate (image_path : path) : M Sys generated := fun s =>
  match studio s with
  | Some g :: gs => (Ret g, set_studio gs s, [])
  | None :: gs => (Raise OSError, set_studio gs s, [])
  | [] => (Raise OSError, s, [])
  end.

(** The module-level [logging.error] and [logging.info]. *)
Definition root_log {S} (lvl : level) (msg : string) : M S unit :=
  emit (ELog "root" lvl msg).

Definition process_image_failed (image_path : path) (e : exn) : M Sys unit :=
  root_log ERROR ("Error processing " +:+ name image_path +:+ ": " +:+ exn_str e).

(** Inside the [with Image.open(...)] block, up to and including the
    assignment to [aem_destination]. *)
Definition process_image_open (image_path : path) (target_folder : option string)
  : M Sys generated :=
  g ← generate image_path;
  s ← get;
  (if aem_enabled (uploader s) then
     match target_folder with
     | Some f =>
         if PyStr.truthy f then
           modify (fun s => set_uploader (set_aem_destination f (uploader s)) s)
         else mret tt
     | None => mret tt
     end
   else mret tt);;
  mret g.

(** The rest of the block: the upload and the counter. *)
Definition process_image_close (g : generated) : M Sys unit :=
  s ← get;
  (if aem_enabled (uploader s) then
     _ ← upload (output_path g) (random_date g) (tags g); mret tt
   else mret tt);;
  modify (fun s => set_images_processed (images_processed s + 1) s);;
  root_log INFO ("Processed: " +:+ name (output_path g)).

Definition process_image (image_path : path) (target_folder : option string)
  : M Sys unit :=
  try_except
    (g ← process_image_open image_path target_folder;
     process_image_close g)
    (process_image_failed image_path).

(** The same method cut in two at the point between the assignment to
    [aem_destination] and the call of [upload], where another thread can run.
    The first half says whether the second is still to come. *)
Definition process_image_prepare (image_path : path) (target_folder : option string)
  : M Sys (option generated) :=
  try_except
    (g ← process_image_open image_path target_folder; mret (Some g))
    (fun e => process_image_failed image_path e;; mret None).

Definition process_image_finish (image_path : path) (g : generated) : M Sys unit :=
  try_except (process_image_close g) (process_image_failed image_path).

(** [ImageProcessor.worker] run by one thread over the queued images: each
    is processed without a target folder. *)
Fixpoint process_images (queue : list path) : M Sys unit :=
  match queue with
  | [] => mret tt
  | image_path :: rest => process_image image_path None;; process_images rest
  end.

(** ** customer_structure.py *)

(** A row of the structure file as [csv.DictReader] gives it: a row with a
    single field has no [asset_count] (Python's [None]). *)
Record entry := { folder : string; asset_count : option string }.

(** Where a worker thread stands in its loop. *)
Inductive wstate :=
| Idle
| Holding (t : task)
| Prepared (t : task) (g : generated)
| Handled (t : task)
| Done
| Crashed (e : exn).

(** The replicator object with the image processor and uploader it holds,
    the control state of the threads it started, the history [invoked] of the
    calls of [process_image] the workers made (worker, task), and the
    environment: [structure_file] is what [read_structure_file] returns,
    [img_dir] what the two globs list, [dice] the draws of [random.choice],
    [environ] the process environment. *)
Record Repl := {
  enabled : bool;
  structure_file : list entry;
  task_queue : list task;
  processed_count : Z;
  threads : list nat;
  created_folders : gset string;
  workers : list wstate;
  invoked : list (nat * task);
  img_dir : list path;
  dice : list nat;
  environ : gmap string string;
  sys : Sys
}.

Definition set_task_queue (q : list task) (r : Repl) : Repl :=
  {| enabled := enabled r; structure_file := structure_file r; task_queue := q;
     processed_count := processed_count r; threads := threads r;
     created_folders := created_folders r; workers := workers r;
     invoked := invoked r; img_dir := img_dir r; dice := dice r;
     environ := environ r; sys := sys r |}.

Definition set_processed_count (n : Z) (r : Repl) : Repl :=
  {| enabled := enabled r; structure_file := structure_file r;
     task_queue := task_queue r; processed_count := n; threads := threads r;
     created_folders := created_folders r; workers := workers r;
     invoked := invoked r; img_dir := img_dir r; dice := dice r;
     environ := environ r; sys := sys r |}.

Definition set_threads (ts : list nat) (r : Repl) : Repl :=
  {| enabled := enabled r; structure_file := structure_file r;
     task_queue := task_queue r; processed_count := processed_count r;
     threads := ts; created_folders := created_folders r; workers := workers r;
     invoked := invoked r; img_dir := img_dir r; dice := dice r;
     environ := environ r; sys := sys r |}.

Definition set_created_folders (c : gset string) (r : Repl) : Repl :=
  {| enabled := enabled r; structure_file := structure_file r;
     task_queue := task_queue r; processed_count := processed_count r;
     threads := threads r; created_folders := c; workers := workers r;
     invoked := invoked r; img_dir := img_dir r; dice := dice r;
     environ := environ r; sys := sys r |}.

Definition set_workers (ws : list wstate) (r : Repl) : Repl :=
  {| enabled := enabled r; structure_file := structure_file r;
     task_queue := task_queue r; processed_count := processed_count r;
     threads := threads r; created_folders := created_folders r; workers := ws;
     invoked := invoked r; img_dir := img_dir r; dice := dice r;
     environ := environ r; sys := sys r |}.

Definition set_invoked (h : list (nat * task)) (r : Repl) : Repl :=
  {| enabled := enabled r; structure_file := structure_file r;
     task_queue := task_queue r; processed_count := processed_count r;
     threads := threads r; created_folders := created_folders r;
     workers := workers r; invoked := h; img_dir := img_dir r; dice := dice r;
     environ := environ r; sys := sys r |}.

Definition set_dice (d : list nat) (r : Repl) : Repl :=
  {| enabled := enabled r; structure_file := structure_file r;
     task_queue := task_queue r; processed_count := processed_count r;
     threads := threads r; created_folders := created_folders r;
     workers := workers r; invoked := invoked r; img_dir := img_dir r;
     dice := d; environ := environ r; sys := sys r |}.

Definition set_sys (s : Sys) (r : Repl) : Repl :=
  {| enabled := enabled r; structure_file := structure_file r;
     task_queue := task_queue r; processed_count := processed_count r;
     threads := threads r; created_folders := created_folders r;
     workers := workers r; invoked := invoked r; img_dir := img_dir r;
     dice := dice r; environ := environ r; sys := s |}.

(** [CustomerStructureReplicator.__init__], given the rows of the structure
    file, the source directory's listing and the draws to come. *)
Definition CustomerStructureReplicator_init (env : gmap string string)
    (rows : list entry) (images : list path) (draws : list nat) (s : Sys) : Repl :=
  {| enabled :=
       String.eqb (PyStr.lower (getenv env "REPLICATE_CUSTOMER_STRUCTURE" "false")) "true";
     structure_file := rows;
     task_queue := [];
     processed_count := 0;
     threads := [];
     created_folders := ∅;
     workers := [];
     invoked := [];
     img_dir := images;
     dice := draws;
     environ := env;
     sys := s |}.

(** Calls into the uploader and the image processor. *)
Definition in_sys {A} (m : M Sys A) : M Repl A := lift sys set_sys m.

(** [self.logger.<lvl>(msg)] on the replicator, whose logger always exists. *)
Definition rlog (lvl : level) (msg : string) : M Repl unit :=
  emit (ELog "CustomerStructureReplicator" lvl msg).

(** The loop of [create_folder_structure]. *)
Fixpoint folder_structure_loop (path_parts : list string) (current_path : string)
  : M Repl bool :=
  match path_parts with
  | [] => mret true
  | part :: rest =>
      if negb (PyStr.truthy part) then folder_structure_loop rest current_path
      else
        let current_path := current_path +:+ "/" +:+ part in
        r ← get;
        if bool_decide (current_path ∈ created_folders r) then
          folder_structure_loop rest current_path
        else
          rlog INFO ("-> Creating folder: " +:+ current_path);;
          ok ← in_sys (_create_folder current_path 3 2);
          if negb (truth ok) then
            rlog ERROR ("Failed to create folder: " +:+ current_path);;
            mret false
          else
            modify (fun r => set_created_folders ({[current_path]} ∪ created_folders r) r);;
            folder_structure_loop rest current_path
  end.

Definition create_folder_structure (folder_path : string) : M Repl bool :=
  try_except
    (let folder_path :=
       if negb (PyStr.startswith folder_path "/content/dam")
       then "/content/dam" +:+ folder_path else folder_path in
     folder_structure_loop (drop 3 (PyStr.split "/" folder_path)) "/content/dam")
    (fun e =>
       rlog ERROR ("Error creating folder structure: " +:+ exn_str e);;
       mret false).

(** [int(entry['asset_count'].strip())]: a missing field has no [strip]. *)
Definition int_asset_count (e : entry) : M Repl Z :=
  match asset_count e with
  | None => raise (AttributeError "strip")
  | Some c =>
      match PyStr.int (PyStr.strip c) with
      | Some n => mret n
      | None => raise ValueError
      end
  end.

(** [try: m  except ValueError: h] *)
Definition except_ValueError {S A} (m : M S A) (h : M S A) : M S A := fun s =>
  match m s with
  | (Raise ValueError, s1, ev1) =>
      match h s1 with
      | (r, s2, ev2) => (r, s2, ev1 ++ ev2)
      end
  | other => other
  end.

(** One iteration of the first loop of [replicate_structure]. *)
Definition create_entry_folders (e : entry) : M Repl unit :=
  let folder_path := PyStr.strip (folder e) in
  n ← except_ValueError
        (n ← int_asset_count e; mret (Some n))
        (rlog ERROR ("Invalid asset count for folder " +:+ folder_path +:+ ": "
                     +:+ default "None" (asset_count e));;
         mret None);
  match n with
  | None => mret tt
  | Some n =>
      if n =? 0 then mret tt
      else
        rlog INFO ("Creating folder structure for " +:+ folder_path);;
        ok ← create_folder_structure folder_path;
        if negb ok then
          rlog ERROR ("Failed to create folder structure for " +:+ folder_path)
        else mret tt
  end.

Fixpoint create_all_folders (structure : list entry) : M Repl unit :=
  match structure with
  | [] => mret tt
  | e :: rest => create_entry_folders e;; create_all_folders rest
  end.

(** [random.choice(seq)]: the next draw picks the index. *)
Definition random_choice (seq : list path) : M Repl path := fun r =>
  match seq !! (hd 0%nat (dice r) mod length seq)%nat with
  | Some p => (Ret p, set_dice (tl (dice r)) r, [])
  | None => (Raise IndexError, r, [])
  end.

(** [for _ in range(asset_count)]: choose, enqueue, count. *)
Fixpoint queue_tasks (todo : nat) (folder_path : string) (asset_count : Z)
    (source_images : list path) (total_assets : Z) : M Repl Z :=
  match todo with
  | O => mret total_assets
  | S todo' =>
      source_image ← random_choice source_images;
      modify (fun r =>
        set_task_queue (task_queue r ++ [(folder_path, asset_count, source_image)]) r);;
      queue_tasks todo' folder_path asset_count source_images (total_assets + 1)
  end.

(** One iteration of the second loop over the structure. *)
Definition queue_entry (e : entry) (source_images : list path) (total_assets : Z)
  : M Repl Z :=
  let folder_path := PyStr.strip (folder e) in
  n ← except_ValueError (n ← int_asset_count e; mret (Some n)) (mret None);
  match n with
  | None => mret total_assets
  | Some n =>
      if n =? 0 then mret total_assets
      else queue_tasks (Z.to_nat n) folder_path n source_images total_assets
  end.

Fixpoint queue_all (structure : list entry) (source_images : list path)
    (total_assets : Z) : M Repl Z :=
  match structure with
  | [] => mret total_assets
  | e :: rest =>
      total ← queue_entry e source_images total_assets;
      queue_all rest source_images total
  end.

Definition set_worker (i : nat) (w : wstate) : M Repl unit :=
  modify (fun r => set_workers (<[i := w]> (workers r)) r).

(** One atomic action of worker thread [i] in [worker]: the dequeue
    ([get_nowait] serialises on the queue's lock), [process_image] up to the
    destination override, the rest of [process_image], or the counter
    increment under [processed_lock].  An upload reads the uploader's
    attributes before its first request and is taken as one action: the
    requests of two uploads are not interleaved, the attribute writes and
    reads of two threads are. *)
Definition worker_step (i : nat) : M Repl unit :=
  r ← get;
  match workers r !! i with
  | Some Idle =>
      match task_queue r with
      | [] => set_worker i Done
      | t :: q => modify (set_task_queue q);; set_worker i (Holding t)
      end
  | Some (Holding t) =>
      modify (fun r => set_invoked (invoked r ++ [(i, t)]) r);;
      g ← in_sys (process_image_prepare (snd t) (Some (fst (fst t))));
      set_worker i (match g with Some g => Prepared t g | None => Handled t end)
  | Some (Prepared t g) =>
      in_sys (process_image_finish (snd t) g);;
      set_worker i (Handled t)
  | Some (Handled t) =>
      modify (fun r => set_processed_count (processed_count r + 1) r);;
      rlog INFO "Processed assets";;
      set_worker i Idle
  | _ => mret tt
  end.

(** An exception that leaves [worker] ends that thread and no other. *)
Definition thread_step (i : nat) : M Repl unit :=
  try_except (worker_step i) (fun e => set_worker i (Crashed e)).

Definition terminated (w : option wstate) : bool :=
  match w with
  | Some Done | Some (Crashed _) | None => true
  | _ => false
  end.

(** The threads run as the scheduler picks them. *)
Fixpoint run_schedule (schedule : list nat) : M Repl unit :=
  match schedule with
  | [] => mret tt
  | i :: rest => thread_step i;; run_schedule rest
  end.

(** [thread.join()]: thread [i] is given the processor until it ends. *)
Fixpoint run_thread (fuel : nat) (i : nat) : M Repl unit :=
  match fuel with
  | O => mret tt
  | S fuel' =>
      r ← get;
      if terminated (workers r !! i) then mret tt
      else thread_step i;; run_thread fuel' i
  end.

Definition join (i : nat) : M Repl unit :=
  r ← get; run_thread (4 * length (task_queue r) + 4) i.

Fixpoint join_all (ts : list nat) : M Repl unit :=
  match ts with
  | [] => mret tt
  | i :: rest => join i;; join_all rest
  end.

(** [thread.start()] in [for _ in range(num_threads)]. *)
Fixpoint start_threads (todo : nat) : M Repl unit :=
  match todo with
  | O => mret tt
  | S todo' =>
      modify (fun r =>
        set_threads (threads r ++ [length (workers r)])
          (set_workers (workers r ++ [Idle]) r));;
      start_threads todo'
  end.

(** [int(os.getenv('NUM_THREADS', '4'))] *)
Definition requested_threads : M Repl Z :=
  r ← get;
  match PyStr.int (getenv (environ r) "NUM_THREADS" "4") with
  | Some n => mret n
  | None => raise ValueError
  end.

(** The worker pool of [replicate_structure]: start [num_threads] threads,
    let them run, join every thread of [self.threads]. *)
Definition run_workers (num_threads : Z) (schedule : list nat) : M Repl unit :=
  start_threads (Z.to_nat num_threads);;
  run_schedule schedule;;
  r ← get;
  join_all (threads r).

(** The [try] block of [replicate_structure]; [Return_] is its early
    [return]. *)
Definition replicate_body (structure : list entry) (schedule : list nat)
  : M Repl (flow unit) :=
  create_all_folders structure;;
  r ← get;
  let source_images := img_dir r in
  if bool_decide (source_images = []) then
    rlog ERROR "No source images found for processing";;
    mret (Return_ tt)
  else
    total_assets ← queue_all structure source_images 0;
    requested ← requested_threads;
    let num_threads := Z.min requested total_assets in
    rlog INFO "Starting threads to process assets";;
    run_workers num_threads schedule;;
    mret Continue.

Definition write_put_into_date_folder (b : bool) : M Repl unit :=
  in_sys (modify (fun s => set_uploader (set_put_into_date_folder b (uploader s)) s)).

Definition replicate_structure (schedule : list nat) : M Repl unit :=
  r ← get;
  if negb (enabled r) then rlog INFO "Customer structure replication is disabled"
  else
    let structure := structure_file r in
    if bool_decide (structure = []) then rlog ERROR "No customer structure data found"
    else
      rlog INFO "Starting customer structure replication";;
      original_date_folder_setting ←
        in_sys (attr "put_into_date_folder" put_into_date_folder);
      write_put_into_date_folder false;;
      fl ← try_finally (replicate_body structure schedule)
             (write_put_into_date_folder original_date_folder_setting);
      match fl with
      | Return_ _ => mret tt
      | Continue => rlog INFO "Customer structure replication completed"
      end.

(** ** Reasoning about computations *)

(** [wp m s Q]: running [m] from [s] ends in an outcome, a state and a list
    of emitted events that satisfy [Q]. *)
Definition wp {S A} (m : M S A) (s : S)
    (Q : outcome A -> S -> list event -> Prop) : Prop :=
  Q (m s).1.1 (m s).1.2 (m s).2.

(** The final state and the events of a run. *)
Definition state_after {S A} (m : M S A) (s : S) : S := (m s).1.2.
Definition events_of {S A} (m : M S A) (s : S) : list event := (m s).2.
Definition outcome_of {S A} (m : M S A) (s : S) : outcome A := (m s).1.1.

(** An uploader as [__init__] leaves it when uploads are enabled: every
    attribute is there. *)
Definition configured (u : AEMUploader) : bool :=
  aem_enabled u && bool_decide (is_Some (aem_host u))
  && bool_decide (is_Some (aem_token u))
  && bool_decide (is_Some (aem_destination u))
  && bool_decide (is_Some (put_into_date_folder u))
  && bool_decide (is_Some (logger u)).

(** The host of a configured uploader. *)
Definition host_of (u : AEMUploader) : string := default "" (aem_host u).

(** Every request among [ev] satisfies [P]. *)
Definition calls_in (P : method -> step -> string -> reply -> Prop)
    (ev : list event) : Prop :=
  Forall (fun e => match e with ECall m st url r => P m st url r | _ => True end) ev.

(** The requests among the events, in order. *)
Definition is_call (e : event) : bool :=
  match e with ECall _ _ _ _ => true | _ => false end.

Definition calls (ev : list event) : list event := filter is_call ev.

Definition is_step (st : step) (e : event) : bool :=
  match e with ECall _ st' _ _ => bool_decide (st' = st) | _ => false end.

(** The requests of one protocol step. *)
Definition calls_of (st : step) (ev : list event) : list event :=
  filter (is_step st) ev.

(** The two requests [_create_folder] makes for [folder_path]. *)
Definition folder_call (host folder_path : string)
    (m : method) (st : step) (url : string) (r : reply) : Prop :=
  (m = GET /\ st = FolderCheck /\ url = host +:+ folder_path +:+ ".json")
  \/ (m = POST /\ st = FolderCreate /\ url = host +:+ folder_path).

(** The replies that make one attempt of [_create_folder] succeed: the
    existence check answers 200, or it answers something else and the
    creation answers 200 or 201. *)
Definition attempt_succeeds (rs : list reply) : bool :=
  match rs with
  | [Resp c _] => c =? 200
  | [Resp c _; Resp c' _] => negb (c =? 200) && status_in c' [200; 201]
  | _ => false
  end.

(** The replies that make one attempt fail: a transport error on either
    request, or a creation refused with another status. *)
Definition attempt_fails (rs : list reply) : bool :=
  match rs with
  | [Fault _] => true
  | [Resp c _; Fault _] => negb (c =? 200)
  | [Resp c _; Resp c' _] => negb (c =? 200) && negb (status_in c' [200; 201])
  | _ => false
  end.

Definition is_sleep (e : event) : bool :=
  match e with ESleep _ => true | _ => false end.

(** The pauses among the events. *)
Definition sleeps (ev : list event) : list event := filter is_sleep ev.

(** The attempts of [_create_folder] seen in its events: each attempt opens
    with one existence check. *)
Definition attempts (ev : list event) : nat := length (calls_of FolderCheck ev).

(** The body an initiate request was granted: a 200 answer carrying an
    object. *)
Definition grant (e : event) : option json :=
  match e with
  | ECall POST Initiate _ (Resp c (JInfo u t k)) =>
      if c =? 200 then Some (JInfo u t k) else None
  | _ => None
  end.

(** The first grant among the events, if any. *)
Definition granted (ev : list event) : option json := head (omap grant ev).

Definition call_url (e : event) : string :=
  match e with ECall _ _ url _ => url | _ => "" end.

(** A binary transfer that was accepted. *)
Definition put_ok (e : event) : bool :=
  match e with
  | ECall PUT Transfer _ (Resp c _) => status_in c [200; 201; 204]
  | _ => false
  end.

(** A finalize request that was accepted. *)
Definition complete_ok (e : event) : bool :=
  match e with
  | ECall POST Complete _ (Resp c _) => status_in c [200; 201]
  | _ => false
  end.

(** What the transfers [puts] of one upload look like against the signed
    URIs: they go to a prefix of the URIs, in order; on success to all of
    them and all accepted; on failure all but the last accepted. *)
Definition transfer_shape (uris : list string) (ok : bool) (puts : list event) : Prop :=
  map call_url puts = take (length puts) uris /\
  if ok then length puts = length uris /\ Forall (fun e => put_ok e = true) puts
  else exists accepted refused,
      puts = accepted ++ [refused] /\
      Forall (fun e => put_ok e = true) accepted /\ put_ok refused = false.

Definition folder_step (m : method) (st : step) (url : string) (r : reply) : Prop :=
  st = FolderCheck \/ st = FolderCreate.
Definition initiate_step (m : method) (st : step) (url : string) (r : reply) : Prop :=
  m = POST /\ st = Initiate.
Definition transfer_step (m : method) (st : step) (url : string) (r : reply) : Prop :=
  m = PUT /\ st = Transfer.
Definition complete_step (m : method) (st : step) (url : string) (r : reply) : Prop :=
  m = POST /\ st = Complete.

(** The initiate request of an upload to [destination_path]. *)
Definition initiate_call (host destination_path : string)
    (m : method) (st : step) (url : string) (r : reply) : Prop :=
  m = POST /\ st = Initiate /\ url = host +:+ destination_path +:+ ".initiateUpload.json".

(** The events of the three protocol steps of one upload, cut where one step
    hands over to the next, against the upload's result [ok]: each part holds
    the requests of its step only; without a grant nothing is transferred or
    finalized; a finalize request appears only after every signed URI of the
    grant got an accepted transfer, in order; a refused transfer or finalize
    makes the upload fail. *)
Definition session_shape (ok : bool) (evI evT evC : list event) : Prop :=
  calls_in initiate_step evI /\
  calls_in transfer_step evT /\
  calls_in complete_step evC /\
  (granted evI = None -> calls evT = [] /\ calls evC = [] /\ ok = false) /\
  (calls evC <> [] ->
   exists uris tok cu,
     granted evI = Some (JInfo (Some uris) tok cu) /\
     map call_url (calls evT) = uris /\
     Forall (fun e => put_ok e = true) (calls evT)) /\
  (Exists (fun e => put_ok e = false) (calls evT) ->
   calls evC = [] /\ ok = false) /\
  (Exists (fun e => complete_ok e = false) (calls evC) -> ok = false) /\
  (ok = true -> exists e, calls evC = [e] /\ complete_ok e = true).

(** The destination [_get_destination_path] computes. *)
Definition destination_of (u : AEMUploader) (date : datetime) : string :=
  let dest := default "" (aem_destination u) in
  if default false (put_into_date_folder u)
  then dest +:+ "/" +:+ strftime_Y date +:+ "/" +:+ strftime_m date
  else dest.

(** [m] never changes what [proj] reads off the state. *)
Definition preserves {S A X} (proj : S -> X) (m : M S A) : Prop :=
  forall s, proj (state_after m s) = proj s.

(** The date-partitioning flag of the upload client. *)
Definition flag_of (s : Sys) : option bool := put_into_date_folder (uploader s).

(** The date-partitioning flag as the replicator reaches it through its
    uploader. *)
Definition date_flag (r : Repl) : option bool := flag_of (sys r).

(** The replicator's state with the uploader's flag written. *)
Definition with_date_flag (b : bool) (r : Repl) : Repl :=
  set_sys (set_uploader (set_put_into_date_folder b (uploader (sys r))) (sys r)) r.

Definition log_started : event :=
  ELog "CustomerStructureReplicator" INFO "Starting customer structure replication".
Definition log_completed : event :=
  ELog "CustomerStructureReplicator" INFO "Customer structure replication completed".

(** How [replicate_structure] ends once its [try] block has ended with
    [res]: the flag is written back to [b] on every exit. *)
Definition finish_run (b : bool) (res : outcome (flow unit) * Repl * list event)
  : outcome unit * Repl * list event :=
  match res with
  | (Ret (Return_ _), r1, ev1) => (Ret tt, with_date_flag b r1, log_started :: ev1)
  | (Ret Continue, r1, ev1) =>
      (Ret tt, with_date_flag b r1, log_started :: ev1 ++ [log_completed])
  | (Raise e, r1, ev1) => (Raise e, with_date_flag b r1, log_started :: ev1)
  end.

(** The tasks one structure row gives rise to: for a count that parses to
    [n], [n] tasks (none when [n] is not positive), each naming the row's
    folder and a source image of the pool; none for a count that does not
    parse.  A row without a count field has no such block. *)
Definition block_for (pool : list path) (e : entry) (block : list task) : Prop :=
  match asset_count e with
  | None => False
  | Some c =>
      match PyStr.int (PyStr.strip c) with
      | Some n =>
          length block = Z.to_nat n /\
          Forall (fun t : task =>
                    t.1.1 = PyStr.strip (folder e) /\ t.1.2 = n /\ t.2 ∈ pool) block
      | None => block = []
      end
  end.

Definition log_invalid_count (e : entry) : event :=
  ELog "CustomerStructureReplicator" ERROR
    ("Invalid asset count for folder " +:+ PyStr.strip (folder e) +:+ ": "
     +:+ default "None" (asset_count e)).

Definition log_creating_structure (e : entry) : event :=
  ELog "CustomerStructureReplicator" INFO
    ("Creating folder structure for " +:+ PyStr.strip (folder e)).

Definition log_structure_failed (e : entry) : event :=
  ELog "CustomerStructureReplicator" ERROR
    ("Failed to create folder structure for " +:+ PyStr.strip (folder e)).

Definition log_no_sources : event :=
  ELog "CustomerStructureReplicator" ERROR "No source images found for processing".

(** Folder creation touches the set of created folders and what lies behind
    the uploader, nothing else of the replicator. *)
Definition folders_frame (r r' : Repl) : Prop :=
  r' = set_sys (sys r') (set_created_folders (created_folders r') r).

(** A count field that is there but no integer. *)
Definition non_numeric (e : entry) : Prop :=
  exists c, asset_count e = Some c /\ PyStr.int (PyStr.strip c) = None.

(** A count field that reads as [n]. *)
Definition counts (e : entry) (n : Z) : Prop :=
  exists c, asset_count e = Some c /\ PyStr.int (PyStr.strip c) = Some n.

(** The task a worker has dequeued and not yet handed to [process_image]. *)
Definition held (w : wstate) : list task :=
  match w with Holding t => [t] | _ => [] end.

(** The task a worker has handed to [process_image] and not yet counted. *)
Definition in_flight (w : wstate) : list task :=
  match w with Prepared t _ | Handled t => [t] | _ => [] end.

(** Atomic actions worker [i] still has before it, at most. *)
Definition rank (w : option wstate) : nat :=
  match w with
  | Some Idle => 1
  | Some (Holding _) => 4
  | Some (Prepared _ _) => 3
  | Some (Handled _) => 2
  | _ => 0
  end.

Definition work_left (i : nat) (r : Repl) : nat :=
  4 * length (task_queue r) + rank (workers r !! i).

(** What holds of the pool between any two atomic actions, for the tasks
    [tasks0] queued and the counter [c0] at its start: every task is either
    already handed to [process_image], held by a worker, or still queued; the
    counter lags the invocations by the tasks in flight; no worker has died;
    a worker has ended only once the queue was empty. *)
Record pool_inv (tasks0 : list task) (c0 : Z) (r : Repl) : Prop := {
  inv_threads : threads r = seq 0 (length (workers r));
  inv_alive : Forall (fun w => forall e, w <> Crashed e) (workers r);
  inv_tasks : map snd (invoked r) ++ (workers r ≫= held) ++ task_queue r ≡ₚ tasks0;
  inv_count :
    processed_count r + Z.of_nat (length (workers r ≫= in_flight))
    = c0 + Z.of_nat (length (invoked r));
  inv_drained : Done ∈ workers r -> task_queue r = []
}.

(** What any number of atomic actions, by whichever workers, keep. *)
Definition pool_kept (tasks0 : list task) (c0 : Z)
    (r : Repl) (res : outcome unit) (r' : Repl) : Prop :=
  res = Ret tt /\ pool_inv tasks0 c0 r' /\
  length (workers r') = length (workers r) /\
  (forall j, terminated (workers r !! j) = true ->
             workers r' !! j = workers r !! j) /\
  (length (task_queue r') <= length (task_queue r))%nat.

(** What a pool of [min(R, T)] workers does with the [T] tasks of the
    queue: that many threads are started and all end, the handler runs once
    per queued task, the counter advances by [T] and the queue is empty. *)
Definition workers_exhaustive (R : Z) (schedule : list nat) (r : Repl) : Prop :=
  let T := length (task_queue r) in
  let run := run_workers (Z.min R (Z.of_nat T)) schedule in
  outcome_of run r = Ret tt /\
  Z.of_nat (length (threads (state_after run r))) = Z.min R (Z.of_nat T) /\
  Forall (eq Done) (workers (state_after run r)) /\
  map snd (invoked (state_after run r)) ≡ₚ task_queue r /\
  length (invoked (state_after run r)) = T /\
  processed_count (state_after run r) = processed_count r + Z.of_nat T /\
  length (workers (state_after run r)) = length (threads (state_after run r)) /\
  task_queue (state_after run r) = [].

(** A replicator whose pool has not run yet, as [__init__] leaves it. *)
Definition pool_fresh (r : Repl) : Prop :=
  workers r = [] /\ threads r = [] /\ invoked r = [].

(** The claim about the pool, for a run of [replicate_structure] whose
    [NUM_THREADS] asks for [R] workers: the run returns; with [T] the number
    of tasks the rows give rise to, [min(R, T)] worker threads have been
    started and every one of them has ended; the queue is empty; the tasks
    handed to [process_image] are the tasks of the rows, each once; and the
    counter has advanced by [T]. *)
Definition pool_exhaustive (R : Z) (schedule : list nat) (r : Repl) : Prop :=
  let run := replicate_structure schedule in
  exists blocks,
    Forall2 (block_for (img_dir r)) (structure_file r) blocks /\
    outcome_of run r = Ret tt /\
    Z.of_nat (length (threads (state_after run r)))
    = Z.min R (Z.of_nat (length (concat blocks))) /\
    length (workers (state_after run r)) = length (threads (state_after run r)) /\
    Forall (eq Done) (workers (state_after run r)) /\
    task_queue (state_after run r) = [] /\
    map snd (invoked (state_after run r)) ≡ₚ concat blocks /\
    processed_count (state_after run r)
    = processed_count r + Z.of_nat (length (concat blocks)).

(** A request of [_create_folder] that settles the folder: the existence
    check answered 200, or the creation answered 200 or 201. *)
Definition folder_ok (e : event) : bool :=
  match e with
  | ECall GET FolderCheck _ (Resp c _) => c =? 200
  | ECall POST FolderCreate _ (Resp c _) => status_in c [200; 201]
  | _ => false
  end.

(** The path [create_folder_structure] works on. *)
Definition dam_path (folder_path : string) : string :=
  if negb (PyStr.startswith folder_path "/content/dam")
  then "/content/dam" +:+ folder_path else folder_path.

(** The paths built segment by segment below [cur]. *)
Fixpoint ancestors_from (cur : string) (segments : list string) : list string :=
  match segments with
  | [] => []
  | seg :: rest =>
      let cur := cur +:+ "/" +:+ seg in cur :: ancestors_from cur rest
  end.

(** The ancestors of a folder below the DAM root, outermost first: the
    non-empty segments after [/content/dam]. *)
Definition ancestors (folder_path : string) : list string :=
  ancestors_from "/content/dam"
    (filter (fun seg => PyStr.truthy seg = true)
       (drop 3 (PyStr.split "/" (dam_path folder_path)))).

(** The events of ensuring the folders [todo] in order: one block of events
    per folder, whose requests are the two requests for that folder only; a
    block that settles its folder is followed by the next folder's; a block
    that does not ends the events, and the result is false. *)
Inductive ensured (host : string) : list string -> bool -> list event -> Prop :=
| ensured_done : ensured host [] true []
| ensured_next a rest ok ev_a ev :
    calls_in (folder_call host a) ev_a ->
    existsb folder_ok ev_a = true ->
    ensured host rest ok ev ->
    ensured host (a :: rest) ok (ev_a ++ ev)
| ensured_stop a rest ev_a :
    calls_in (folder_call host a) ev_a ->
    existsb folder_ok ev_a = false ->
    ensured host (a :: rest) false ev_a.

(** The events of the first loop of [replicate_structure] over the rows,
    from the set [cached] of folders on record: nothing for a row with count
    0; one error message for a row whose count is no integer; for a row with
    any other count the announcement, the events of ensuring the ancestors
    of its folder that are not on record and, when that failed, an error
    message.  Every row has its turn, in the order of the file. *)
Inductive folders_created (host : string)
  : gset string -> list entry -> list event -> Prop :=
| created_nil cached : folders_created host cached [] []
| created_zero cached e rest ev :
    counts e 0 ->
    folders_created host cached rest ev ->
    folders_created host cached (e :: rest) ev
| created_invalid cached e rest ev :
    non_numeric e ->
    folders_created host cached rest ev ->
    folders_created host cached (e :: rest) (log_invalid_count e :: ev)
| created_row cached cached' e n rest ok ev_e ev :
    counts e n -> n <> 0 ->
    ensured host
      (filter (fun a => a ∉ cached) (ancestors (PyStr.strip (folder e)))) ok ev_e ->
    cached ⊆ cached' ->
    (ok = true ->
     cached' = cached ∪ list_to_set
                 (filter (fun a => a ∉ cached) (ancestors (PyStr.strip (folder e))))) ->
    folders_created host cached' rest ev ->
    folders_created host cached (e :: rest)
      (log_creating_structure e
       :: ev_e ++ (if ok then [] else [log_structure_failed e]) ++ ev).

(** The sources of the tasks are what [random.choice] picks from the pool
    for the draws, one draw per task, in order. *)
Definition drawn (pool : list path) (draws : list nat) (tasks : list task) : Prop :=
  Forall2 (fun (t : task) d => pool !! (d mod length pool)%nat = Some t.2)
    tasks (take (length tasks) draws).

(** An initiate request goes to a path below [root] on [host]. *)
Definition under_root (host root : string)
    (m : method) (st : step) (url : string) (r : reply) : Prop :=
  st = Initiate -> exists suffix, url = host +:+ root +:+ suffix.

(** Whether a transfer was accepted, read off the reply. *)
Definition reply_accepted (r : reply) : bool :=
  match r with
  | Resp c _ => status_in c [200; 201; 204]
  | Fault _ => false
  end.

(** ** Sample configurations *)

Definition demo_uploader : AEMUploader :=
  AEMUploader_init {[ "AEM_ENABLED" := "true" ]} (Some "token").

Definition demo_image : path := {| name := "sunset.jpg"; readable := true |}.

Definition demo_date : datetime := {| year := 2021; month := 3; day := 14 |}.

Definition demo_generated : generated :=
  {| output_path := {| name := "calm_river.jpg"; readable := true |};
     random_date := demo_date;
     tags := ["findme"; "sunset"] |}.

Definition demo_sys (u : AEMUploader) (answers : list reply)
    (outcomes : list (option generated)) : Sys :=
  {| uploader := u; images_processed := 0; remote := answers; studio := outcomes |}.

Definition demo_grant : json :=
  JInfo (Some ["https://blob/1"; "https://blob/2"; "https://blob/3"])
        (Some "upload-token") (Some "/content/dam/images.completeUpload.json").

Definition demo_env : gmap string string :=
  {[ "REPLICATE_CUSTOMER_STRUCTURE" := "true"; "NUM_THREADS" := "2" ]}.

Definition demo_rows : list entry :=
  [ {| folder := "/customers/acme"; asset_count := Some "3" |};
    {| folder := "/customers/beta"; asset_count := Some "0" |};
    {| folder := "/customers/gamma"; asset_count := Some "many" |} ].

Definition demo_pool : list path :=
  [ {| name := "a.jpg"; readable := true |}; {| name := "b.jpg"; readable := true |};
    {| name := "c.jpg"; readable := true |}; {| name := "d.jpeg"; readable := true |} ].

Definition demo_repl (rows : list entry) (images : list path) (u : AEMUploader) : Repl :=
  CustomerStructureReplicator_init demo_env rows images [5; 2; 7]%nat
    (demo_sys u [] [Some demo_generated; None]).


(** The run goes through all its phases: it returns normally and logs its
    completion. *)
Definition run_continues (schedule : list nat) (r : Repl) : Prop :=
  outcome_of (replicate_structure schedule) r = Ret tt /\
  log_completed ∈ events_of (replicate_structure schedule) r.

(** A replicator with one valid row and no source image on disk. *)
Definition demo_no_sources : Repl :=
  demo_repl [ {| folder := "/customers/acme"; asset_count := Some "3" |} ] []
    demo_uploader.

(** A fresh replicator with one row of one asset whose environment asks
    for no worker thread. *)
Definition demo_no_threads : Repl :=
  CustomerStructureReplicator_init
    {[ "REPLICATE_CUSTOMER_STRUCTURE" := "true"; "NUM_THREADS" := "0" ]}
    [ {| folder := "/customers/acme"; asset_count := Some "1" |} ]
    demo_pool [5; 2; 7]%nat (demo_sys demo_uploader [] [Some demo_generated]).

(** A replicator whose second row has no count field, on an uploader with
    date-partitioning on. *)
Definition demo_broken_row : Repl :=
  demo_repl [ {| folder := "/customers/acme"; asset_count := Some "2" |};
              {| folder := "/customers/beta"; asset_count := None |} ]
    demo_pool (set_put_into_date_folder true demo_uploader).
(** * Further parts of the program

    The other entry points of the three modules: [normalize_filename] and
    [get_random_tags], [read_structure_file], [ImageProcessor.__init__],
    [ImageProcessor.worker], [process_directory] and [main].  As before the
    libraries are the environment: [randomname.get_name], the [csv] reader
    and [random.choices] answer from lists given in advance.  Left to the
    environment as a whole are the drawing and the EXIF update of
    [process_image] and [get_random_date], which [generate] stands for. *)

(** ** More of Python's [str] *)

Module PyText.

(** [str.isdigit], [str.isalpha] and [str.isalnum] on the ASCII range. *)
Definition isdigit (c : ascii) : bool :=
  let n := nat_of_ascii c in (Nat.leb 48 n && Nat.leb n 57)%bool.

Definition isupper (c : ascii) : bool :=
  let n := nat_of_ascii c in (Nat.leb 65 n && Nat.leb n 90)%bool.

Definition islower (c : ascii) : bool :=
  let n := nat_of_ascii c in (Nat.leb 97 n && Nat.leb n 122)%bool.

Definition isalpha (c : ascii) : bool := (isupper c || islower c)%bool.

Definition isalnum (c : ascii) : bool := (isalpha c || isdigit c)%bool.

(** [ord(c) < 128] *)
Definition is_ascii (c : ascii) : bool := Nat.ltb (nat_of_ascii c) 128.

(** [''.join(c for c in s if f(c))] *)
Fixpoint keep (f : ascii -> bool) (s : string) : string :=
  match s with
  | EmptyString => EmptyString
  | String c r => if f c then String c (keep f r) else keep f r
  end.

(** [s.replace(old, new)] for one-character [old] and [new]. *)
Fixpoint replace (old new : ascii) (s : string) : string :=
  match s with
  | EmptyString => EmptyString
  | String c r => String (if Ascii.eqb c old then new else c) (replace old new r)
  end.

(** [s.title()]: a character that follows a cased character is lowered,
    any other is brought to title case. *)
Definition title (s : string) : string :=
  Unicode.encode (Unicode.do_title false [] (Unicode.decode s)).

(** [s.split()]: the maximal runs of characters that are no white space. *)
Definition split_ws (s : string) : list string :=
  map Unicode.encode (Unicode.split_whitespace [] (Unicode.decode s)).

End PyText.

(** ** image_processor.py: names and tags *)

(** [ImageProcessor.normalize_filename].  A character outside ASCII is, in
    the bytes of the string, made of bytes of 128 and above, which the first
    pass removes. *)
Definition normalize_filename (name : string) : string :=
  let normalized := PyText.keep PyText.is_ascii name in
  let normalized := PyText.replace " " "_" normalized in
  let normalized :=
    PyText.keep (fun c => (PyText.isalnum c || Ascii.eqb c "_")%bool) normalized in
  PyStr.lower normalized.

(** The first loop of [get_random_tags] over the words of the file name. *)
Fixpoint filename_tags (words : list string) : list string :=
  match words with
  | [] => []
  | word :: rest =>
      if ((PyStr.len word <? 3)%nat || existsb Unicode.isdigit (PyStr.chars word)
          || String.eqb word "firefly")%bool
      then filename_tags rest
      else word :: filename_tags rest
  end.

Definition log_tag_failed : event :=
  ELog "root" WARNING "Error generating random tag".

(** The [while len(tags) < self.min_tags] loop.  Each iteration takes the
    next answer of [randomname.get_name()], a name or ([None]) an exception.
    A name that is empty or holds no word adds nothing, so the answers given
    may not end the loop: [None] then says that it is still running. *)
Fixpoint random_tags_loop (min_tags : nat) (answers : list (option string))
    (tags : list string) : option (list string * list event) :=
  if (length tags <? min_tags)%nat then
    match answers with
    | [] => None
    | Some tag :: rest =>
        if PyStr.truthy tag then
          let tag := PyText.title (PyText.replace "-" " " tag) in
          let split_tags := PyText.split_ws tag in
          random_tags_loop min_tags rest (tags ++ split_tags)
        else random_tags_loop min_tags rest tags
    | None :: rest =>
        match
          random_tags_loop min_tags rest
            (tags ++ ["Tag_" +:+ PyStr.dec (Z.of_nat (length tags + 1))])
        with
        | Some (tags', ev) => Some (tags', log_tag_failed :: ev)
        | None => None
        end
    end
  else Some (tags, []).

(** [ImageProcessor.get_random_tags] for an image whose [stem] is given,
    with the processor's [min_tags] and [max_tags]. *)
Definition get_random_tags (min_tags max_tags : nat) (stem : string)
    (answers : list (option string)) : option (list string * list event) :=
  let tags := ["findme"] in
  let filename := PyStr.lower stem in
  let words := PyStr.split " " filename in
  let tags := tags ++ filename_tags words in
  match random_tags_loop min_tags answers tags with
  | Some (tags, ev) =>
      Some (if (max_tags <? length tags)%nat then take max_tags tags else tags, ev)
  | None => None
  end.

(** ** customer_structure.py: [read_structure_file] *)

(** The structure file as [csv.reader] with the delimiter [;] hands it
    over: absent, unreadable ([open] or the reading raises), or its lines as
    lists of fields, the empty list for a blank line. *)
Inductive csv_file :=
| FileMissing
| FileBroken (e : exn)
| FileLines (lines : list (list string)).

(** A row of [csv.DictReader] with [fieldnames=['folder', 'asset_count']]:
    a blank line gives no row; a field that is missing is [None]; fields
    beyond the second go under the key [None], which nothing reads. *)
Definition dict_row (line : list string) : option entry :=
  match line with
  | [] => None
  | f :: [] => Some {| folder := f; asset_count := None |}
  | f :: c :: _ => Some {| folder := f; asset_count := Some c |}
  end.

Definition log_file_missing : event :=
  ELog "CustomerStructureReplicator" ERROR "Customer structure file not found".

Definition log_file_error (detail : string) : event :=
  ELog "CustomerStructureReplicator" ERROR
    ("Error reading customer structure file: " +:+ detail).

(** [read_structure_file].  [next(reader)] skips the header row; on a file
    without any row it raises [StopIteration], which the [except Exception]
    clause catches like every other error: the message then ends with the
    empty text of that exception. *)
Definition read_structure_file {S} (file : csv_file) : M S (list entry) :=
  match file with
  | FileMissing => emit log_file_missing;; mret []
  | FileBroken e => emit (log_file_error (exn_str e));; mret []
  | FileLines lines =>
      match omap dict_row lines with
      | [] => emit (log_file_error "");; mret []
      | _header :: rows => mret rows
      end
  end.

(** ** image_processor.py: the batch of random assets *)

(** Where a worker thread of the image processor stands in its loop. *)
Inductive pstate :=
| PIdle
| PHolding (image_path : path)
| PPrepared (image_path : path) (g : generated)
| PDone
| PCrashed (e : exn).

(** The [ImageProcessor] object: its own queue and threads, the control
    state of the threads it started, the history [ip_invoked] of its calls
    of [process_image] (worker, image), and the replicator it holds, whose
    record carries what the two share: the source directory's listing, the
    draws, the uploader, the counter of processed images and the rest of the
    environment. *)
Record ImageProcessor := {
  num_threads : Z;
  num_generations : Z;
  ip_task_queue : list path;
  ip_threads : list nat;
  ip_workers : list pstate;
  ip_invoked : list (nat * path);
  customer_replicator : Repl
}.

Definition set_ip_task_queue (q : list path) (p : ImageProcessor) : ImageProcessor :=
  {| num_threads := num_threads p; num_generations := num_generations p;
     ip_task_queue := q; ip_threads := ip_threads p; ip_workers := ip_workers p;
     ip_invoked := ip_invoked p; customer_replicator := customer_replicator p |}.

Definition set_ip_threads (ts : list nat) (p : ImageProcessor) : ImageProcessor :=
  {| num_threads := num_threads p; num_generations := num_generations p;
     ip_task_queue := ip_task_queue p; ip_threads := ts; ip_workers := ip_workers p;
     ip_invoked := ip_invoked p; customer_replicator := customer_replicator p |}.

Definition set_ip_workers (ws : list pstate) (p : ImageProcessor) : ImageProcessor :=
  {| num_threads := num_threads p; num_generations := num_generations p;
     ip_task_queue := ip_task_queue p; ip_threads := ip_threads p; ip_workers := ws;
     ip_invoked := ip_invoked p; customer_replicator := customer_replicator p |}.

Definition set_ip_invoked (h : list (nat * path)) (p : ImageProcessor) : ImageProcessor :=
  {| num_threads := num_threads p; num_generations := num_generations p;
     ip_task_queue := ip_task_queue p; ip_threads := ip_threads p;
     ip_workers := ip_workers p; ip_invoked := h;
     customer_replicator := customer_replicator p |}.

Definition set_customer_replicator (r : Repl) (p : ImageProcessor) : ImageProcessor :=
  {| num_threads := num_threads p; num_generations := num_generations p;
     ip_task_queue := ip_task_queue p; ip_threads := ip_threads p;
     ip_workers := ip_workers p; ip_invoked := ip_invoked p;
     customer_replicator := r |}.

(** [num_threads or int(os.getenv('NUM_THREADS', '4'))]: an argument that
    is there and not zero wins; [None] stands for [ValueError]. *)
Definition threads_setting (threads : option Z) (env : gmap string string)
  : option Z :=
  match threads with
  | Some n => if n =? 0 then PyStr.int (getenv env "NUM_THREADS" "4") else Some n
  | None => PyStr.int (getenv env "NUM_THREADS" "4")
  end.

(** [ImageProcessor.__init__] for the argument [--threads], in the
    environment [env], given what [get_aem_token] returns, the rows of the
    structure file, the listing of the source directory, and the draws, the
    remote's answers and the generation outcomes to come. *)
Definition ImageProcessor_init (threads : option Z) (env : gmap string string)
    (token : option string) (rows : list entry) (images : list path)
    (draws : list nat) (answers : list reply) (outcomes : list (option generated))
  : outcome ImageProcessor :=
  match threads_setting threads env with
  | None => Raise ValueError
  | Some nt =>
      match PyStr.int (getenv env "NUM_GENERATIONS" "1000") with
      | None => Raise ValueError
      | Some ng =>
          Ret {| num_threads := nt;
                 num_generations := ng;
                 ip_task_queue := [];
                 ip_threads := [];
                 ip_workers := [];
                 ip_invoked := [];
                 customer_replicator :=
                   CustomerStructureReplicator_init env rows images draws
                     {| uploader := AEMUploader_init env token;
                        images_processed := 0;
                        remote := answers;
                        studio := outcomes |} |}
      end
  end.

(** Calls into the replicator's record and, through it, into the uploader
    and [process_image]. *)
Definition in_replicator {A} (m : M Repl A) : M ImageProcessor A :=
  lift customer_replicator set_customer_replicator m.

Definition in_processor_sys {A} (m : M Sys A) : M ImageProcessor A :=
  in_replicator (in_sys m).

Definition set_ip_worker (i : nat) (w : pstate) : M ImageProcessor unit :=
  modify (fun p => set_ip_workers (<[i := w]> (ip_workers p)) p).

(** One atomic action of thread [i] in [ImageProcessor.worker]: the
    dequeue, or one of the two halves of [process_image], cut as for the
    replicator's workers. *)
Definition ip_worker_step (i : nat) : M ImageProcessor unit :=
  p ← get;
  match ip_workers p !! i with
  | Some PIdle =>
      match ip_task_queue p with
      | [] => set_ip_worker i PDone
      | image_path :: q =>
          modify (set_ip_task_queue q);; set_ip_worker i (PHolding image_path)
      end
  | Some (PHolding image_path) =>
      modify (fun p => set_ip_invoked (ip_invoked p ++ [(i, image_path)]) p);;
      g ← in_processor_sys (process_image_prepare image_path None);
      set_ip_worker i (match g with
                       | Some g => PPrepared image_path g
                       | None => PIdle
                       end)
  | Some (PPrepared image_path g) =>
      in_processor_sys (process_image_finish image_path g);;
      set_ip_worker i PIdle
  | _ => mret tt
  end.

Definition ip_thread_step (i : nat) : M ImageProcessor unit :=
  try_except (ip_worker_step i) (fun e => set_ip_worker i (PCrashed e)).

Definition ip_terminated (w : option pstate) : bool :=
  match w with
  | Some PDone | Some (PCrashed _) | None => true
  | _ => false
  end.

Fixpoint ip_run_schedule (schedule : list nat) : M ImageProcessor unit :=
  match schedule with
  | [] => mret tt
  | i :: rest => ip_thread_step i;; ip_run_schedule rest
  end.

Fixpoint ip_run_thread (fuel : nat) (i : nat) : M ImageProcessor unit :=
  match fuel with
  | O => mret tt
  | S fuel' =>
      p ← get;
      if ip_terminated (ip_workers p !! i) then mret tt
      else ip_thread_step i;; ip_run_thread fuel' i
  end.

(** [thread.join()] *)
Definition ip_join (i : nat) : M ImageProcessor unit :=
  p ← get; ip_run_thread (3 * length (ip_task_queue p) + 3) i.

Fixpoint ip_join_all (ts : list nat) : M ImageProcessor unit :=
  match ts with
  | [] => mret tt
  | i :: rest => ip_join i;; ip_join_all rest
  end.

Fixpoint ip_start_threads (todo : nat) : M ImageProcessor unit :=
  match todo with
  | O => mret tt
  | S todo' =>
      modify (fun p =>
        set_ip_threads (ip_threads p ++ [length (ip_workers p)])
          (set_ip_workers (ip_workers p ++ [PIdle]) p));;
      ip_start_threads todo'
  end.

(** [random.choices(seq, k=k)]: [k] draws with replacement. *)
Fixpoint random_choices (seq : list path) (k : nat) : M Repl (list path) :=
  match k with
  | O => mret []
  | S k' =>
      image_path ← random_choice seq;
      rest ← random_choices seq k';
      mret (image_path :: rest)
  end.

(** [ImageProcessor.process_directory], with the threads run as [schedule]
    picks them until the joins. *)
Definition process_directory (schedule : list nat) : M ImageProcessor unit :=
  p ← get;
  let source_images := img_dir (customer_replicator p) in
  if bool_decide (source_images = []) then
    root_log ERROR "No images found in the input directory!"
  else
    root_log INFO "Found source images";;
    root_log INFO "Will generate new images";;
    selected_images ←
      in_replicator (random_choices source_images (Z.to_nat (num_generations p)));
    modify (fun p => set_ip_task_queue (ip_task_queue p ++ selected_images) p);;
    ip_start_threads (Z.to_nat (Z.min (num_threads p) (num_generations p)));;
    ip_run_schedule schedule;;
    p ← get;
    ip_join_all (ip_threads p);;
    root_log INFO "Processing complete!".

(** [main], once the arguments are parsed and the processor is built. *)
Definition main (schedule : list nat) : M ImageProcessor unit :=
  p ← get;
  if enabled (customer_replicator p) then
    root_log INFO "Customer structure replication is enabled - will only process customer structure";;
    in_replicator (replicate_structure schedule)
  else if 0 <? num_generations p then
    root_log INFO "Processing regular batch of random assets";;
    process_directory schedule
  else
    root_log WARNING "No generations specified and customer structure replication is disabled - nothing to do".
(** ** Further notions: the upload client *)

(** An answer that makes one attempt of [_initiate_upload] fail: a transport
    error, a status other than 200, or a 200 whose body is no JSON. *)
Definition initiate_failed (r : reply) : bool :=
  match r with
  | Fault _ => true
  | Resp c b => negb (c =? 200) || match b with JInvalid => true | _ => false end
  end.

(** The initiate request of an upload to [destination_path], as an event. *)
Definition initiate_event (host destination_path : string) (r : reply) : event :=
  ECall POST Initiate (host +:+ destination_path +:+ ".initiateUpload.json") r.

(** Whether a finalize request was accepted, read off the reply. *)
Definition reply_completes (r : reply) : bool :=
  match r with
  | Resp c _ => status_in c [200; 201]
  | Fault _ => false
  end.

(** ** Further notions: the image processor *)

(** An uploader as [__init__] leaves it: with uploads disabled, or with
    every attribute set. *)
Definition initialised (u : AEMUploader) : bool :=
  negb (aem_enabled u) || configured u.

(** Whether the next local generation succeeds. *)
Definition generates (s : Sys) : bool :=
  match studio s with
  | Some _ :: _ => true
  | _ => false
  end.

(** How many of the next [n] local generations succeed. *)
Definition generated_among (n : nat) (s : Sys) : nat :=
  length (filter (fun o : option generated => is_Some o) (take n (studio s))).

(** The error [process_image] logs when it fails on [image_path]. *)
Definition log_process_failed (image_path : path) (e : exn) : event :=
  ELog "root" ERROR ("Error processing " +:+ name image_path +:+ ": " +:+ exn_str e).

(** Two workers, each holding a task for a folder of its own, before either
    has called [process_image]. *)
Definition demo_two_workers : Repl :=
  set_workers [Holding ("/customers/acme", 1, demo_image);
               Holding ("/customers/beta", 1, demo_image)]
    (set_sys (demo_sys demo_uploader [Resp 503 JFalsy]
                [Some demo_generated; Some demo_generated])
       (demo_repl demo_rows demo_pool demo_uploader)).

(** ** Further notions: the replicator *)


(** A request for [folder_path] whose answer settles that folder. *)
Definition settles (host folder_path : string) (e : event) : Prop :=
  folder_ok e = true /\
  match e with
  | ECall m st url r => folder_call host folder_path m st url r
  | _ => False
  end.

(** A replicator whose environment asks for a number of threads that is no
    number. *)
Definition demo_bad_threads : Repl :=
  CustomerStructureReplicator_init
    {[ "REPLICATE_CUSTOMER_STRUCTURE" := "true"; "NUM_THREADS" := "two" ]}
    [ {| folder := "/customers/acme"; asset_count := Some "2" |} ]
    demo_pool [5; 2; 7]%nat (demo_sys demo_uploader [] []).

(** A row with a negative count. *)
Definition demo_negative_row : entry :=
  {| folder := " /customers/acme "; asset_count := Some " -2" |}.

(** A pool of one worker: the tasks handed to [process_image] so far, the
    task the worker holds and the tasks still queued are, in this order, the
    tasks [tasks0] the pool started with. *)
Definition single_file (tasks0 : list task) (r : Repl) : Prop :=
  exists w, workers r = [w] /\
            map snd (invoked r) ++ held w ++ task_queue r = tasks0.

(** A fresh replicator that is to run one worker thread over two rows. *)
Definition demo_one_thread : Repl :=
  CustomerStructureReplicator_init
    {[ "REPLICATE_CUSTOMER_STRUCTURE" := "true"; "NUM_THREADS" := "1" ]}
    [ {| folder := "/customers/acme"; asset_count := Some "2" |};
      {| folder := "/customers/beta"; asset_count := Some "1" |} ]
    demo_pool [5; 2; 7]%nat
    (demo_sys demo_uploader [] [Some demo_generated; None; Some demo_generated]).

(** ** Further notions: names and tags *)

(** Every character of [s] satisfies [f]. *)
Fixpoint each (f : ascii -> bool) (s : string) : bool :=
  match s with
  | EmptyString => true
  | String c r => f c && each f r
  end.

(** The characters of a normalized file name: lower-case letters, digits
    and the underscore. *)
Definition name_char (c : ascii) : bool :=
  PyText.islower c || PyText.isdigit c || Ascii.eqb c "_".

(** What [normalize_filename] makes of one character: dropped, or kept in
    some form. *)
Definition normalize_char (c : ascii) : option ascii :=
  if PyText.is_ascii c then
    let c' := if Ascii.eqb c " " then "_"%char else c in
    if (PyText.isalnum c' || Ascii.eqb c' "_")%bool
    then Some (PyStr.lower_ascii c') else None
  else None.

(** A word of the file name that [get_random_tags] takes as a tag. *)
Definition tag_word (word : string) : bool :=
  negb ((PyStr.len word <? 3)%nat || existsb Unicode.isdigit (PyStr.chars word)
        || String.eqb word "firefly").

(** An answer of [randomname.get_name()] that adds at least one tag: an
    exception (the fallback tag is added) or a name that holds a word. *)
Definition productive (answer : option string) : bool :=
  match answer with
  | None => true
  | Some tag =>
      PyStr.truthy tag &&
      match PyText.split_ws (PyText.title (PyText.replace "-" " " tag)) with
      | [] => false
      | _ => true
      end
  end.

(** ** Further notions: the structure file *)

(** A line of the structure file with at least two fields. *)
Definition has_count (line : list string) : bool :=
  match line with
  | _ :: _ :: _ => true
  | _ => false
  end.

(** The lines that hold a field. *)
Definition non_blank (lines : list (list string)) : list (list string) :=
  filter (fun line => line <> []) lines.

(** ** Further notions: the batch of random assets *)

(** The uploader, counter and environment the image processor works on. *)
Definition ip_sys (p : ImageProcessor) : Sys := sys (customer_replicator p).

(** The image a worker has dequeued and not yet handed to [process_image]. *)
Definition ip_held (w : pstate) : list path :=
  match w with PHolding image_path => [image_path] | _ => [] end.

(** The image a worker has generated and not yet counted. *)
Definition ip_pending (w : pstate) : list path :=
  match w with PPrepared image_path _ => [image_path] | _ => [] end.

(** Atomic actions a worker still has before it, at most. *)
Definition ip_rank (w : option pstate) : nat :=
  match w with
  | Some PIdle => 1
  | Some (PHolding _) => 3
  | Some (PPrepared _ _) => 2
  | _ => 0
  end.

Definition ip_work_left (i : nat) (p : ImageProcessor) : nat :=
  3 * length (ip_task_queue p) + ip_rank (ip_workers p !! i).

(** What holds of the image processor's pool between any two atomic
    actions, for the images [tasks0] queued and the state [s0] of uploader,
    counter and environment at its start: every image is either handed to
    [process_image], held by a worker, or still queued; each call of
    [process_image] has consumed one local generation; the counter lags the
    successful generations by the images in flight; the uploader is as
    [__init__] left it; no worker has died; a worker has ended only once the
    queue was empty. *)
Record ip_inv (tasks0 : list path) (s0 : Sys) (p : ImageProcessor) : Prop := {
  ipi_threads : ip_threads p = seq 0 (length (ip_workers p));
  ipi_alive : Forall (fun w => forall e, w <> PCrashed e) (ip_workers p);
  ipi_tasks :
    map snd (ip_invoked p) ++ (ip_workers p ≫= ip_held) ++ ip_task_queue p ≡ₚ tasks0;
  ipi_studio : studio (ip_sys p) = drop (length (ip_invoked p)) (studio s0);
  ipi_count :
    images_processed (ip_sys p) + Z.of_nat (length (ip_workers p ≫= ip_pending))
    = images_processed s0 + Z.of_nat (generated_among (length (ip_invoked p)) s0);
  ipi_uploader : initialised (uploader (ip_sys p)) = true;
  ipi_drained : PDone ∈ ip_workers p -> ip_task_queue p = []
}.

(** What any number of atomic actions, by whichever workers, keep. *)
Definition ip_kept (tasks0 : list path) (s0 : Sys)
    (p : ImageProcessor) (res : outcome unit) (p' : ImageProcessor) : Prop :=
  res = Ret tt /\ ip_inv tasks0 s0 p' /\
  length (ip_workers p') = length (ip_workers p) /\
  (forall j, ip_terminated (ip_workers p !! j) = true ->
             ip_workers p' !! j = ip_workers p !! j) /\
  (length (ip_task_queue p') <= length (ip_task_queue p))%nat /\
  num_threads p' = num_threads p /\ num_generations p' = num_generations p.

(** An image processor whose pool has not run, as [__init__] leaves it. *)
Definition ip_fresh (p : ImageProcessor) : Prop :=
  ip_workers p = [] /\ ip_threads p = [] /\ ip_invoked p = [] /\
  ip_task_queue p = [].

Definition log_no_images : event :=
  ELog "root" ERROR "No images found in the input directory!".

Definition log_batch_complete : event := ELog "root" INFO "Processing complete!".

Definition log_replication_only : event :=
  ELog "root" INFO
    "Customer structure replication is enabled - will only process customer structure".

Definition log_nothing_to_do : event :=
  ELog "root" WARNING
    "No generations specified and customer structure replication is disabled - nothing to do".

(** An image processor with one source image to draw from, three images to
    generate and a request for two threads. *)
Definition demo_processor : ImageProcessor :=
  {| num_threads := 2;
     num_generations := 3;
     ip_task_queue := [];
     ip_threads := [];
     ip_workers := [];
     ip_invoked := [];
     customer_replicator :=
       CustomerStructureReplicator_init ∅ [] demo_pool [5; 2; 7]%nat
         (demo_sys demo_uploader []
            [Some demo_generated; None; Some demo_generated; Some demo_generated]) |}.

Definition log_found_sources : event := ELog "root" INFO "Found source images".
Definition log_will_generate : event := ELog "root" INFO "Will generate new images".
Definition log_regular_batch : event :=
  ELog "root" INFO "Processing regular batch of random assets".

(** The same processor with no thread to run. *)
Definition demo_processor_no_threads : ImageProcessor :=
  {| num_threads := 0;
     num_generations := 3;
     ip_task_queue := [];
     ip_threads := [];
     ip_workers := [];
     ip_invoked := [];
     customer_replicator := customer_replicator demo_processor |}.

(** The environment of a run that is to replicate a structure without
    having enabled uploads. *)
Definition demo_env_no_uploads : gmap string string :=
  {[ "REPLICATE_CUSTOMER_STRUCTURE" := "True"; "NUM_GENERATIONS" := "3" ]}.

(** The environment of a plain batch of three images on two threads. *)
Definition demo_env_batch : gmap string string :=
  {[ "NUM_GENERATIONS" := "3"; "NUM_THREADS" := "2"; "AEM_ENABLED" := "true" ]}.

(** ** Python strings beyond ASCII *)

(** [int] reads the decimal digits of every script and takes the white
    space of Unicode for space, but in an ASCII string only C's white space:
    a unit separator (U+001F) after the digits is an error there.  A
    superscript two is a digit for [isdigit] and none for [int]. *)
Example int_of_str :
  PyStr.int "3" = Some 3 /\ PyStr.int "３" = Some 3 /\ PyStr.int "١٢" = Some 12 /\
  PyStr.int " -7 " = Some (-7) /\ PyStr.int "1_000" = Some 1000 /\
  PyStr.int ("2" +:+ String (ascii_of_nat 31) "") = None /\
  PyStr.int ("３" +:+ String (ascii_of_nat 31) "") = None /\
  PyStr.int "²" = None /\ PyStr.int "1__0" = None /\ PyStr.int "many" = None /\
  PyStr.int "" = None.
Proof. by vm_compute. Qed.

(** [strip] removes the white space of Unicode, the unit separator and the
    no-break space (U+00A0) among it. *)
Example strip_of_str :
  PyStr.strip " /customers/acme " = "/customers/acme" /\
  PyStr.strip ("3" +:+ String (ascii_of_nat 31) "") = "3" /\
  PyStr.strip (String (ascii_of_nat 194) (String (ascii_of_nat 160) "３ ")) = "３".
Proof. by vm_compute. Qed.

(** [lower] and [title] follow the case mappings of Unicode, the final
    sigma among them; [len] counts characters, not bytes. *)
Example case_of_str :
  PyStr.lower "TRUE" = "true" /\ PyStr.lower "ÀB" = "àb" /\
  PyStr.lower "ΟΔΟΣ" = "οδος" /\ PyStr.lower "Σ" = "σ" /\
  PyText.title "calm river" = "Calm River" /\ PyText.title "île d'or" = "Île D'Or" /\
  PyStr.len "où" = 2%nat /\ String.length "où" = 3%nat.
Proof. by vm_compute. Qed.

(** On an ASCII string the characters are the bytes: [len] is the number of
    bytes, and lowering character by character is lowering byte by byte. *)
Lemma decode_isascii s :
  PyStr.isascii s = true ->
  Unicode.decode s = map Unicode.byte (list_ascii_of_string s).
Proof.
  induction s as [|c r IH]; [done|]. simpl.
  intros [Hc Hr]%andb_true_iff. by rewrite Hc, IH.
Qed.

Lemma len_isascii s : PyStr.isascii s = true -> PyStr.len s = String.length s.
Proof.
  intros Hs. unfold PyStr.len, PyStr.chars. rewrite decode_isascii by done.
  rewrite length_map. clear Hs. induction s as [|c r IH]; [done|]. simpl. by rewrite IH.
Qed.

Lemma lower_at_ascii before c after :
  (Unicode.byte c <? 128)%N = true ->
  Unicode.encode (Unicode.lower_at before (Unicode.byte c) after)
  = String (PyStr.lower_ascii c) EmptyString.
Proof.
  intros Hc. unfold Unicode.lower_at.
  destruct c as [[] [] [] [] [] [] [] []]; first [discriminate Hc | by vm_compute].
Qed.

Lemma encode_app cs1 cs2 :
  Unicode.encode (cs1 ++ cs2) = Unicode.encode cs1 +:+ Unicode.encode cs2.
Proof.
  induction cs1 as [|c cs1 IH]; [done|]. simpl. rewrite IH.
  generalize (Unicode.encode_char c). intros s.
  induction s as [|x s IHs]; [done|].
  change (String x (s +:+ (Unicode.encode cs1 +:+ Unicode.encode cs2))
          = String x ((s +:+ Unicode.encode cs1) +:+ Unicode.encode cs2)).
  by rewrite IHs.
Qed.

Lemma lower_by_character s : forall before,
  PyStr.isascii s = true ->
  Unicode.encode (Unicode.do_lower before (Unicode.decode s)) = PyStr.lower_bytes s.
Proof.
  induction s as [|c r IH]; intros before; [done|]. simpl.
  intros [Hc Hr]%andb_true_iff. rewrite Hc. simpl.
  by rewrite encode_app, lower_at_ascii, IH.
Qed.

(** ** Rules for [wp] *)

Section Rules.
Context {S : Type}.

Lemma wp_run {A} (m : M S A) s Q :
  wp m s Q <-> forall r s' ev, m s = (r, s', ev) -> Q r s' ev.
Proof.
  unfold wp. split.
  - intros H r s' ev E. rewrite E in H. exact H.
  - intros H. destruct (m s) as [[r s'] ev] eqn:E. simpl. auto.
Qed.

Lemma wp_mono {A} (m : M S A) s (Q Q' : outcome A -> S -> list event -> Prop) :
  wp m s Q -> (forall r s' ev, Q r s' ev -> Q' r s' ev) -> wp m s Q'.
Proof. unfold wp. auto. Qed.

Lemma wp_ret {A} (a : A) (s : S) Q : Q (Ret a) s [] -> wp (mret a) s Q.
Proof. unfold wp. simpl. auto. Qed.

Lemma wp_raise {A} e (s : S) (Q : outcome A -> S -> list event -> Prop) :
  Q (Raise e) s [] -> wp (raise e) s Q.
Proof. unfold wp. simpl. auto. Qed.

Lemma wp_emit e (s : S) Q : Q (Ret tt) s [e] -> wp (emit e) s Q.
Proof. unfold wp. simpl. auto. Qed.

Lemma wp_get (s : S) Q : Q (Ret s) s [] -> wp get s Q.
Proof. unfold wp. simpl. auto. Qed.

Lemma wp_put (s s0 : S) Q : Q (Ret tt) s0 [] -> wp (put s0) s Q.
Proof. unfold wp. simpl. auto. Qed.

Lemma wp_modify (f : S -> S) (s : S) Q : Q (Ret tt) (f s) [] -> wp (modify f) s Q.
Proof. unfold wp. simpl. auto. Qed.

Lemma wp_bind {A B} (m : M S A) (f : A -> M S B) s Q :
  wp m s (fun r s1 ev1 =>
    match r with
    | Ret a => wp (f a) s1 (fun r2 s2 ev2 => Q r2 s2 (ev1 ++ ev2))
    | Raise e => Q (Raise e) s1 ev1
    end) ->
  wp (m ≫= f) s Q.
Proof.
  unfold wp, mbind, M_bind.
  destruct (m s) as [[[a|e] s1] ev1]; simpl; [|auto].
  destruct (f a s1) as [[r2 s2] ev2]; simpl. auto.
Qed.

Lemma wp_try_except {A} (m : M S A) (h : exn -> M S A) s Q :
  wp m s (fun r s1 ev1 =>
    match r with
    | Ret a => Q (Ret a) s1 ev1
    | Raise e => wp (h e) s1 (fun r2 s2 ev2 => Q r2 s2 (ev1 ++ ev2))
    end) ->
  wp (try_except m h) s Q.
Proof.
  unfold wp, try_except.
  destruct (m s) as [[[a|e] s1] ev1]; simpl; [auto|].
  destruct (h e s1) as [[r2 s2] ev2]; simpl. auto.
Qed.

Lemma wp_try_finally {A} (m : M S A) (fin : M S unit) s Q :
  wp m s (fun r s1 ev1 =>
    wp fin s1 (fun r2 s2 ev2 =>
      match r2 with
      | Ret _ => Q r s2 (ev1 ++ ev2)
      | Raise e => Q (Raise e) s2 (ev1 ++ ev2)
      end)) ->
  wp (try_finally m fin) s Q.
Proof.
  unfold wp, try_finally.
  destruct (m s) as [[r s1] ev1]; simpl.
  destruct (fin s1) as [[[u|e] s2] ev2]; simpl; auto.
Qed.

Lemma wp_except_ValueError {A} (m h : M S A) s Q :
  wp m s (fun r s1 ev1 =>
    match r with
    | Raise ValueError => wp h s1 (fun r2 s2 ev2 => Q r2 s2 (ev1 ++ ev2))
    | _ => Q r s1 ev1
    end) ->
  wp (except_ValueError m h) s Q.
Proof.
  unfold wp, except_ValueError.
  destruct (m s) as [[[a|e] s1] ev1]; simpl; [auto|].
  destruct e; simpl; auto.
  destruct (h s1) as [[r2 s2] ev2]; simpl. auto.
Qed.

Lemma wp_getattr {A} nm (v : option A) (s : S) Q :
  match v with
  | Some a => Q (Ret a) s []
  | None => Q (Raise (AttributeError nm)) s []
  end ->
  wp (getattr nm v) s Q.
Proof. destruct v; unfold wp; simpl; auto. Qed.

Lemma wp_sleep secs (s : S) Q :
  0 <= secs -> Q (Ret tt) s [ESleep secs] -> wp (sleep secs) s Q.
Proof.
  intros Hs HQ. unfold sleep.
  destruct (secs <? 0) eqn:E; [lia|]. by apply wp_emit.
Qed.

Lemma wp_lift {T A} (proj : S -> T) (upd : T -> S -> S) (m : M T A) s Q :
  wp m (proj s) (fun r t' ev => Q r (upd t' s) ev) ->
  wp (lift proj upd m) s Q.
Proof.
  unfold wp, lift. destruct (m (proj s)) as [[r t'] ev]; simpl. auto.
Qed.

End Rules.

(** From the predicate back to the run. *)
Lemma wp_elim {S A} (m : M S A) s Q :
  wp m s Q -> exists r s' ev, m s = (r, s', ev) /\ Q r s' ev.
Proof.
  intros H. destruct (m s) as [[r s'] ev] eqn:E.
  exists r, s', ev. split; [done|]. unfold wp in H. by rewrite E in H.
Qed.

(** Apply the rule that fits the head of the computation. *)
Ltac wp_step :=
  lazymatch goal with
  | |- wp (mbind _ _) _ _ => apply wp_bind
  | |- wp (mret _) _ _ => apply wp_ret
  | |- wp (raise _) _ _ => apply wp_raise
  | |- wp (emit _) _ _ => apply wp_emit
  | |- wp get _ _ => apply wp_get
  | |- wp (put _) _ _ => apply wp_put
  | |- wp (modify _) _ _ => apply wp_modify
  | |- wp (try_except _ _) _ _ => apply wp_try_except
  | |- wp (except_ValueError _ _) _ _ => apply wp_except_ValueError
  | |- wp (try_finally _ _) _ _ => apply wp_try_finally
  | |- wp (lift _ _ _) _ _ => apply wp_lift
  | |- wp (getattr _ _) _ _ => apply wp_getattr
  end.

Ltac wp_steps := repeat (wp_step; simpl).

(** *** Requests among events *)

Lemma calls_in_nil P : calls_in P [].
Proof. constructor. Qed.

Lemma calls_in_app P ev1 ev2 :
  calls_in P (ev1 ++ ev2) <-> calls_in P ev1 /\ calls_in P ev2.
Proof. apply Forall_app. Qed.

Lemma calls_in_cons P e ev :
  calls_in P (e :: ev) <->
  match e with ECall m st url r => P m st url r | _ => True end /\ calls_in P ev.
Proof. apply Forall_cons. Qed.

Lemma calls_in_mono (P P' : method -> step -> string -> reply -> Prop) ev :
  calls_in P ev -> (forall m st url r, P m st url r -> P' m st url r) ->
  calls_in P' ev.
Proof.
  intros H HP. eapply Forall_impl; [exact H|].
  intros [] ?; simpl; auto.
Qed.

Lemma calls_app ev1 ev2 : calls (ev1 ++ ev2) = calls ev1 ++ calls ev2.
Proof. apply filter_app. Qed.

Lemma calls_of_app st ev1 ev2 :
  calls_of st (ev1 ++ ev2) = calls_of st ev1 ++ calls_of st ev2.
Proof. apply filter_app. Qed.

Lemma configured_inv u :
  configured u = true ->
  exists host tok dest flag lg,
    u = {| aem_enabled := true; aem_host := Some host; aem_token := Some tok;
           aem_destination := Some dest; put_into_date_folder := Some flag;
           logger := Some lg |}.
Proof.
  unfold configured. destruct u as [en h t d f l]; simpl.
  intros H. repeat (apply andb_prop in H; destruct H as [H ?]).
  repeat match goal with
         | H : bool_decide _ = true |- _ => apply bool_decide_eq_true in H; destruct H
         end.
  subst. repeat eexists.
Qed.

Lemma configured_init env token :
  aem_enabled (AEMUploader_init env token) = true ->
  configured (AEMUploader_init env token) = true.
Proof.
  unfold AEMUploader_init.
  destruct (String.eqb _ "true"); [reflexivity | discriminate].
Qed.

(** ** The uploader's primitives *)

Lemma wp_attr {A} nm (field : AEMUploader -> option A) s Q :
  wp (getattr nm (field (uploader s))) s Q -> wp (attr nm field) s Q.
Proof. intros H. unfold attr. apply wp_bind, wp_get. exact H. Qed.

Lemma wp_ulog lvl msg s Q :
  match logger (uploader s) with
  | Some lg => Q (Ret tt) s [ELog lg lvl msg]
  | None => Q (Raise (AttributeError "logger")) s []
  end ->
  wp (ulog lvl msg) s Q.
Proof.
  intros H. unfold ulog. apply wp_bind, wp_attr, wp_getattr.
  destruct (logger (uploader s)); [apply wp_emit|]; exact H.
Qed.

Lemma wp_request m st url s Q :
  match remote s with
  | [] => Q (Raise ConnectionError) s [ECall m st url (Fault ConnectionError)]
  | Fault e :: rs => Q (Raise e) (set_remote rs s) [ECall m st url (Fault e)]
  | Resp c b :: rs => Q (Ret (c, b)) (set_remote rs s) [ECall m st url (Resp c b)]
  end ->
  wp (request m st url) s Q.
Proof.
  unfold wp, request. destruct (remote s) as [|[c b|e] rs]; simpl; auto.
Qed.

Lemma wp_read_file p s Q :
  (if readable p then Q (Ret tt) s [] else Q (Raise OSError) s []) ->
  wp (read_file p) s Q.
Proof. unfold read_file. destruct (readable p); [apply wp_ret | apply wp_raise]. Qed.

Lemma wp_subscript {A} key (v : option A) s Q :
  match v with
  | Some a => Q (Ret a) s []
  | None => Q (Raise (KeyError key)) s []
  end ->
  wp (subscript key v) s Q.
Proof. destruct v; unfold wp; simpl; auto. Qed.

Ltac wp_sys_step :=
  lazymatch goal with
  | |- wp (attr _ _) _ _ => apply wp_attr
  | |- wp (ulog _ _) _ _ => apply wp_ulog
  | |- wp (request _ _ _) _ _ => apply wp_request
  | |- wp (read_file _) _ _ => apply wp_read_file
  | |- wp (subscript _ _) _ _ => apply wp_subscript
  | |- wp (sleep _) _ _ => apply wp_sleep; [lia|]
  | |- wp (if ?b then _ else _) _ _ => destruct b eqn:?
  | |- wp (match ?b with JInvalid => _ | _ => _ end) _ _ => destruct b
  | |- match ?l with [] => _ | _ :: _ => _ end =>
      destruct l as [|[?c ?b|?e] ?rs]
  | |- if ?b then _ else _ => destruct b eqn:?
  | |- match ?o with Some _ => _ | None => _ end => destruct o eqn:?
  | |- _ => wp_step
  end.

Ltac wp_sys := repeat (wp_sys_step; simpl).

(** A state whose uploader is configured, taken apart. *)
Ltac open_sys s Hc :=
  let host := fresh "host" in
  let tok := fresh "tok" in
  let dest := fresh "dest" in
  let flag := fresh "flag" in
  let lg := fresh "lg" in
  let Hu := fresh "Hu" in
  destruct (configured_inv _ Hc) as (host & tok & dest & flag & lg & Hu);
  destruct s as [?u ?n ?rem ?st]; simpl in Hu; subst; simpl in *.

(** Requests listed one by one. *)
Ltac solve_calls :=
  unfold calls_in; simpl;
  repeat (apply Forall_cons; split; [simpl; first [exact I | auto 8]|]);
  solve [constructor].

Lemma set_remote_frame s rs rs' :
  set_remote rs' (set_remote rs s) = set_remote rs' s.
Proof. reflexivity. Qed.

(** Only the remote's pending answers differ: this composes. *)
Lemma remote_frame_trans s s1 s2 :
  s1 = set_remote (remote s1) s -> s2 = set_remote (remote s2) s1 ->
  s2 = set_remote (remote s2) s.
Proof.
  destruct s, s1, s2. unfold set_remote. simpl. intros H1 H2.
  injection H1 as -> -> ->. injection H2 as -> -> ->. reflexivity.
Qed.

Lemma remote_frame_refl s : s = set_remote (remote s) s.
Proof. by destruct s. Qed.

Lemma remote_frame_uploader s s1 :
  s1 = set_remote (remote s1) s -> uploader s1 = uploader s.
Proof. intros ->. reflexivity. Qed.

(** *** [_create_folder] *)

Lemma create_folder_attempt_spec folder mr d k s :
  configured (uploader s) = true -> 0 <= d ->
  wp (create_folder_attempt folder mr d k) s (fun r s' ev =>
    s' = set_remote (remote s') s /\
    (exists fl, r = Ret fl /\ (fl = Continue -> k < mr - 1) /\
       existsb folder_ok ev = match fl with Return_ b => b | Continue => false end) /\
    calls_in (folder_call (host_of (uploader s)) folder) ev).
Proof.
  intros Hc Hd. open_sys s Hc.
  unfold create_folder_attempt, retry_or_fail.
  wp_sys.
  all: split; [reflexivity|]; split;
    [eexists; split; [reflexivity|]; split; [intros; (discriminate || lia)|]|].
  all: try (unfold host_of, folder_call; solve_calls).
  all: simpl in *;
    repeat match goal with
           | H : (?c =? 200) = _ |- _ => rewrite H
           | H : (?c =? 200) || _ = _ |- _ => rewrite H
           end; reflexivity.
Qed.

Lemma create_folder_loop_spec folder mr d todo : forall k s,
  configured (uploader s) = true -> 0 <= d ->
  (todo <> 0%nat -> Z.of_nat todo = mr - k) ->
  wp (create_folder_loop folder mr d todo k) s (fun r s' ev =>
    s' = set_remote (remote s') s /\
    (exists v, r = Ret v /\ (todo <> 0%nat -> is_Some v) /\
       existsb folder_ok ev = truth v) /\
    calls_in (folder_call (host_of (uploader s)) folder) ev).
Proof.
  induction todo as [|todo IH]; intros k s Hc Hd Hk; simpl.
  - apply wp_ret. repeat split; [by destruct s| |constructor].
    eexists; split; [reflexivity|]. split; [congruence|done].
  - apply wp_bind.
    eapply wp_mono; [by apply create_folder_attempt_spec|].
    intros r s1 ev1 (Hs1 & (fl & -> & Hfl & Hok) & Hc1). destruct fl as [b|].
    + apply wp_ret. rewrite app_nil_r. split; [done|]. split; [|done].
      exists (Some b). split_and!; [done|by eexists|done].
    + specialize (Hfl eq_refl).
      eapply wp_mono.
      * apply (IH (k + 1) s1); [by rewrite Hs1|done|lia].
      * simpl. intros r s2 ev2 (Hs2 & (v & -> & Hv & Hok2) & Hc2).
        split; [by eapply remote_frame_trans|].
        split; [exists v; split_and!; [done|intros _; apply Hv; lia|]|].
        { by rewrite existsb_app, Hok, Hok2. }
        apply calls_in_app. split; [done|]. by rewrite Hs1 in Hc2.
Qed.

Lemma create_folder_spec folder mr d s :
  configured (uploader s) = true -> 0 <= d ->
  wp (_create_folder folder mr d) s (fun r s' ev =>
    s' = set_remote (remote s') s /\
    (exists v, r = Ret v /\ (0 < mr -> is_Some v) /\
       existsb folder_ok ev = truth v) /\
    calls_in (folder_call (host_of (uploader s)) folder) ev).
Proof.
  intros Hc Hd. unfold _create_folder.
  eapply wp_mono; [apply create_folder_loop_spec; [done|done|lia]|].
  simpl. intros r s' ev (Hs & (v & -> & Hv & Hok) & Hcalls).
  split; [done|]. split; [|done]. exists v. split_and!; [done| |done].
  intros; apply Hv; lia.
Qed.

(** An attempt under scripted replies. *)
Lemma create_folder_attempt_fails folder mr d k s rs rest :
  configured (uploader s) = true -> 0 <= d ->
  attempt_fails rs = true -> remote s = rs ++ rest ->
  wp (create_folder_attempt folder mr d k) s (fun r s' ev =>
    s' = set_remote rest s /\
    r = Ret (if k <? mr - 1 then Continue else Return_ false) /\
    attempts ev = 1%nat /\
    sleeps ev = if k <? mr - 1 then [ESleep d] else []).
Proof.
  intros Hc Hd Hf Hr. open_sys s Hc. subst.
  unfold create_folder_attempt, retry_or_fail.
  destruct rs as [|[c b|e] [|[c' b'|e'] [|]]]; simpl in Hf; try discriminate.
  all: repeat match goal with
         | H : _ && _ = true |- _ => apply andb_prop in H; destruct H
         | H : negb _ = true |- _ => apply negb_true_iff in H
         end.
  all: wp_sys; try congruence.
  all: try match goal with
         | H : (?a =? 200) || _ = true, H' : (?a =? 200) || _ = false |- _ =>
             simpl in H'; congruence
         end.
  all: simpl in *; try congruence; auto.
Qed.

Lemma create_folder_attempt_succeeds folder mr d k s rs rest :
  configured (uploader s) = true -> 0 <= d ->
  attempt_succeeds rs = true -> remote s = rs ++ rest ->
  wp (create_folder_attempt folder mr d k) s (fun r s' ev =>
    s' = set_remote rest s /\
    r = Ret (Return_ true) /\
    attempts ev = 1%nat /\
    length (calls_of FolderCreate ev) = (length rs - 1)%nat /\
    Forall (eq (ESleep d)) (sleeps ev)).
Proof.
  intros Hc Hd Hf Hr. open_sys s Hc. subst.
  unfold create_folder_attempt, retry_or_fail.
  destruct rs as [|[c b|e] [|[c' b'|e'] [|]]]; simpl in Hf; try discriminate.
  all: repeat match goal with
         | H : _ && _ = true |- _ => apply andb_prop in H; destruct H
         | H : negb _ = true |- _ => apply negb_true_iff in H
         end.
  all: wp_sys; try congruence.
  all: simpl in *; try congruence; repeat split; auto; repeat constructor.
Qed.

Lemma attempts_app ev1 ev2 : attempts (ev1 ++ ev2) = (attempts ev1 + attempts ev2)%nat.
Proof. unfold attempts. by rewrite calls_of_app, length_app. Qed.

Lemma sleeps_app ev1 ev2 : sleeps (ev1 ++ ev2) = sleeps ev1 ++ sleeps ev2.
Proof. apply filter_app. Qed.

(** Failures followed by a success, with attempts to spare. *)
Lemma create_folder_loop_retries folder mr d fs : forall todo k s ok rest,
  configured (uploader s) = true -> 0 <= d ->
  Forall (fun rs => attempt_fails rs = true) fs ->
  attempt_succeeds ok = true ->
  (length fs < todo)%nat -> Z.of_nat todo = mr - k ->
  remote s = concat fs ++ ok ++ rest ->
  wp (create_folder_loop folder mr d todo k) s (fun r s' ev =>
    s' = set_remote rest s /\ r = Ret (Some true) /\
    attempts ev = S (length fs) /\
    Forall (eq (ESleep d)) (sleeps ev) /\
    (length fs <= length (sleeps ev))%nat).
Proof.
  induction fs as [|f fs IH]; intros todo k s ok rest Hc Hd Hfs Hok Hlen Hk Hr;
    (destruct todo as [|todo]; [simpl in Hlen; lia|]); simpl.
  - apply wp_bind. simpl in Hr.
    eapply wp_mono; [by eapply create_folder_attempt_succeeds|].
    simpl. intros r s1 ev1 (-> & -> & Hat & Hcr & Hsl). apply wp_ret.
    rewrite app_nil_r. repeat split; [done|done|lia].
  - apply Forall_cons in Hfs as [Hf Hfs]. simpl in Hlen.
    apply wp_bind. simpl in Hr. rewrite <- app_assoc in Hr.
    eapply wp_mono; [by eapply create_folder_attempt_fails|].
    simpl. intros r s1 ev1 (-> & -> & Hat & Hsl).
    assert ((k <? mr - 1) = true) as Hlt by (apply Z.ltb_lt; lia).
    rewrite Hlt in *.
    eapply wp_mono.
    + eapply (IH todo (k + 1)); [done|done|done|exact Hok|lia|lia|reflexivity].
    + simpl. intros r s2 ev2 (-> & -> & Hat2 & Hsl2 & Hn2).
      rewrite attempts_app, sleeps_app, Hsl, Hat, Hat2.
      split; [done|]. split; [done|]. split; [simpl; lia|].
      split; [|simpl; lia].
      apply Forall_app. split; [by repeat constructor|done].
Qed.

(** Failures up to the last attempt. *)
Lemma create_folder_loop_gives_up folder mr d fs : forall todo k s rest,
  configured (uploader s) = true -> 0 <= d ->
  Forall (fun rs => attempt_fails rs = true) fs ->
  (1 <= todo <= length fs)%nat -> Z.of_nat todo = mr - k ->
  remote s = concat fs ++ rest ->
  wp (create_folder_loop folder mr d todo k) s (fun r s' ev =>
    s' = set_remote (concat (drop todo fs) ++ rest) s /\
    r = Ret (Some false) /\
    attempts ev = todo /\
    sleeps ev = repeat (ESleep d) (todo - 1)).
Proof.
  induction fs as [|f fs IH]; intros todo k s rest Hc Hd Hfs Hlen Hk Hr;
    (destruct todo as [|todo]; [lia|]); simpl in *; [lia|].
  apply Forall_cons in Hfs as [Hf Hfs].
  apply wp_bind. rewrite <- app_assoc in Hr.
  eapply wp_mono; [by eapply create_folder_attempt_fails|].
  simpl. intros r s1 ev1 (-> & -> & Hat & Hsl).
  destruct todo as [|todo].
  - assert ((k <? mr - 1) = false) as Hlt by (apply Z.ltb_ge; lia).
    rewrite Hlt in *. apply wp_ret. rewrite app_nil_r. by rewrite drop_0.
  - assert ((k <? mr - 1) = true) as Hlt by (apply Z.ltb_lt; lia).
    rewrite Hlt in *.
    eapply wp_mono.
    + eapply (IH (S todo) (k + 1)); [done|done|done|lia|lia|reflexivity].
    + simpl. intros r s2 ev2 (-> & -> & Hat2 & Hsl2).
      rewrite attempts_app, sleeps_app, Hsl, Hat, Hat2, Hsl2.
      repeat split. simpl. by rewrite Nat.sub_0_r.
Qed.

(** The existence check answers 200 at once. *)
Lemma create_folder_exists folder mr d s b rest :
  configured (uploader s) = true -> 0 < mr ->
  remote s = Resp 200 b :: rest ->
  wp (_create_folder folder mr d) s (fun r s' ev =>
    s' = set_remote rest s /\ r = Ret (Some true) /\
    attempts ev = 1%nat /\ calls_of FolderCreate ev = [] /\ sleeps ev = []).
Proof.
  intros Hc Hmr Hr. unfold _create_folder.
  destruct (Z.to_nat mr) as [|todo] eqn:E; [lia|]. simpl.
  open_sys s Hc. subst. unfold create_folder_attempt. by wp_sys.
Qed.


(** *** [_ensure_folders_exist] *)

Lemma ensure_folders_loop_spec parts : forall cur s,
  configured (uploader s) = true ->
  wp (ensure_folders_loop parts cur) s (fun r s' ev =>
    s' = set_remote (remote s') s /\ (exists b, r = Ret b) /\
    calls_in folder_step ev).
Proof.
  induction parts as [|part parts IH]; intros cur s Hc; simpl.
  - apply wp_ret. repeat split; [by destruct s|by eexists|constructor].
  - destruct (negb (PyStr.truthy part)); [by apply IH|].
    apply wp_bind.
    eapply wp_mono; [by apply create_folder_spec|].
    simpl. intros r s1 ev1 (Hs1 & (v & -> & _ & _) & Hc1).
    assert (calls_in folder_step ev1) as Hc1'.
    { eapply calls_in_mono; [exact Hc1|].
      unfold folder_call, folder_step. intros m st url r' [(_ & -> & _)|(_ & -> & _)]; auto. }
    destruct (negb (truth v)).
    + apply wp_ret. rewrite app_nil_r. repeat split; eauto.
    + eapply wp_mono; [apply IH; by rewrite Hs1|].
      simpl. intros r s2 ev2 (Hs2 & Hb & Hc2).
      split; [by rewrite Hs2, Hs1|]. split; [done|].
      apply calls_in_app; by split.
Qed.

Lemma ensure_folders_exist_spec dest s :
  configured (uploader s) = true ->
  wp (_ensure_folders_exist dest) s (fun r s' ev =>
    s' = set_remote (remote s') s /\ (exists b, r = Ret b) /\
    calls_in folder_step ev /\
    (put_into_date_folder (uploader s) = Some false ->
     r = Ret true /\ s' = s /\ ev = [])).
Proof.
  intros Hc. unfold _ensure_folders_exist.
  destruct (configured_inv _ Hc) as (host & tok & d & flag & lg & Hu).
  apply wp_bind, wp_attr. rewrite Hu. apply wp_ret. simpl.
  destruct flag; simpl.
  - eapply wp_mono; [by apply ensure_folders_loop_spec|].
    simpl. intros r s' ev (Hs & Hb & Hcalls).
    repeat split; try done.
  - apply wp_ret. repeat split; [by destruct s|by eexists|constructor].
Qed.

(** *** [_initiate_upload] *)

Lemma granted_app ev1 ev2 :
  granted (ev1 ++ ev2) =
  match granted ev1 with Some b => Some b | None => granted ev2 end.
Proof.
  unfold granted. rewrite omap_app.
  by destruct (omap grant ev1).
Qed.

Lemma initiate_attempt_spec img dest mr d k s :
  configured (uploader s) = true -> 0 <= d ->
  wp (initiate_attempt img dest mr d k) s (fun r s' ev =>
    s' = set_remote (remote s') s /\
    calls_in (initiate_call (host_of (uploader s)) dest) ev /\
    exists fl, r = Ret fl /\ (fl = Continue -> k < mr - 1) /\
      match fl with
      | Return_ v => (if info_truthy v then v else None) = granted ev
      | Continue => granted ev = None
      end).
Proof.
  intros Hc Hd. open_sys s Hc.
  unfold initiate_attempt, retry_or_fail.
  wp_sys.
  all: split; [reflexivity|].
  all: split; [unfold host_of, initiate_call; solve_calls|].
  all: eexists; split; [reflexivity|]; split; [intros; (discriminate || lia)|].
  all: unfold granted; simpl; try reflexivity.
  all: repeat match goal with
         | H : (?c =? 200) = _ |- _ => rewrite H
         | |- context [match ?b with JInvalid => _ | _ => _ end] => destruct b
         end; try reflexivity.
Qed.

Lemma initiate_loop_spec img dest mr d todo : forall k s,
  configured (uploader s) = true -> 0 <= d ->
  wp (initiate_loop img dest mr d todo k) s (fun r s' ev =>
    s' = set_remote (remote s') s /\
    calls_in (initiate_call (host_of (uploader s)) dest) ev /\
    exists v, r = Ret v /\ (if info_truthy v then v else None) = granted ev).
Proof.
  induction todo as [|todo IH]; intros k s Hc Hd; simpl.
  - apply wp_ret. repeat split; [by destruct s|constructor|by eexists].
  - apply wp_bind.
    eapply wp_mono; [by apply initiate_attempt_spec|].
    simpl. intros r s1 ev1 (Hs1 & Hc1 & fl & -> & Hfl & Hg). destruct fl as [v|].
    + apply wp_ret. rewrite app_nil_r. repeat split; eauto.
    + eapply wp_mono; [apply (IH (k + 1) s1); [by rewrite Hs1|done]|].
      simpl. intros r s2 ev2 (Hs2 & Hc2 & v & -> & Hv).
      split; [by rewrite Hs2, Hs1|].
      split; [apply calls_in_app; split; [done|by rewrite Hs1 in Hc2]|].
      exists v. split; [done|]. by rewrite granted_app, Hg.
Qed.

Lemma initiate_upload_spec img dest mr d s :
  configured (uploader s) = true -> 0 <= d ->
  wp (_initiate_upload img dest mr d) s (fun r s' ev =>
    s' = set_remote (remote s') s /\
    calls_in (initiate_call (host_of (uploader s)) dest) ev /\
    exists v, r = Ret v /\ (if info_truthy v then v else None) = granted ev).
Proof. intros. by apply initiate_loop_spec. Qed.

(** *** [_upload_binary] *)

Lemma calls_cons_call m st url r ev :
  calls (ECall m st url r :: ev) = ECall m st url r :: calls ev.
Proof. reflexivity. Qed.

Lemma calls_cons_other e ev : is_call e = false -> calls (e :: ev) = calls ev.
Proof. intros H. unfold calls. rewrite filter_cons. by rewrite H. Qed.

Lemma transfer_shape_cons_ok uris ok uri e puts :
  call_url e = uri -> put_ok e = true ->
  transfer_shape uris ok puts -> transfer_shape (uri :: uris) ok (e :: puts).
Proof.
  intros Hu He [Hm Hs]. split; [simpl; by rewrite Hu, Hm|].
  destruct ok.
  - destruct Hs as [Hl Hf]. split; [simpl; by rewrite Hl|by constructor].
  - destruct Hs as (acc & refd & -> & Hacc & Hr).
    exists (e :: acc), refd. split; [done|]. split; [by constructor|done].
Qed.

Lemma transfer_shape_refused uris uri e :
  call_url e = uri -> put_ok e = false ->
  transfer_shape (uri :: uris) false [e].
Proof.
  intros Hu He. split; [simpl; by rewrite Hu|].
  exists [], e. by repeat split.
Qed.

Lemma upload_binary_loop_spec uris : forall s,
  configured (uploader s) = true ->
  wp (upload_binary_loop uris) s (fun r s' ev =>
    s' = set_remote (remote s') s /\
    calls_in transfer_step ev /\
    transfer_shape uris (match r with Ret b => b | Raise _ => false end) (calls ev)).
Proof.
  induction uris as [|uri uris IH]; intros s Hc; simpl.
  - open_sys s Hc. wp_sys.
    repeat split; [solve_calls|constructor].
  - open_sys s Hc. wp_sys.
    all: lazymatch goal with
         | |- wp (upload_binary_loop _) _ _ =>
             eapply wp_mono; [by apply IH|];
             simpl; intros r s2 ev2 (Hs2 & Hc2 & Hshape);
             (split; [by rewrite Hs2|]);
             (split; [apply calls_in_cons; split; [done|]; by apply calls_in_cons|]);
             rewrite calls_cons_other, calls_cons_call by done;
             apply transfer_shape_cons_ok; try done
         | |- _ =>
             split; [reflexivity|]; (split; [unfold transfer_step; solve_calls|]);
             apply transfer_shape_refused; try done
         end.
    all: simpl; simpl in *;
      by destruct ((c =? 200) || ((c =? 201) || ((c =? 204) || false))).
Qed.

Lemma upload_binary_spec img info s :
  configured (uploader s) = true ->
  wp (_upload_binary img info) s (fun r s' ev =>
    s' = set_remote (remote s') s /\
    calls_in transfer_step ev /\
    exists ok, r = Ret ok /\
      match info_uris info with
      | Some uris =>
          if readable img then transfer_shape uris ok (calls ev)
          else calls ev = [] /\ ok = false
      | None => calls ev = [] /\ ok = false
      end).
Proof.
  intros Hc. unfold _upload_binary.
  destruct (configured_inv _ Hc) as (host & tok & d & flag & lg & Hu).
  apply wp_try_except, wp_bind, wp_subscript.
  destruct (info_uris info) as [uris|]; simpl.
  - apply wp_bind, wp_ulog. rewrite Hu. simpl.
    apply wp_bind, wp_read_file. destruct (readable img); simpl.
    + eapply wp_mono; [by apply upload_binary_loop_spec|].
      simpl. intros r s1 ev1 (Hs1 & Hc1 & Hshape).
      destruct r as [b|e].
      * split; [done|]. split; [by apply calls_in_cons|]. by exists b.
      * apply wp_bind, wp_ulog. rewrite Hs1. simpl. rewrite Hu.
        apply wp_ret. simpl.
        split; [done|].
        split; [apply calls_in_cons; split; [done|]; apply calls_in_app; split;
                [done|solve_calls]|].
        exists false. split; [done|].
        rewrite calls_cons_other, calls_app by done.
        rewrite (calls_cons_other _ []) by done. by rewrite app_nil_r.
    + apply wp_bind, wp_ulog. rewrite Hu. apply wp_ret. simpl.
      split; [by destruct s|]. split; [solve_calls|]. by exists false.
  - apply wp_bind, wp_ulog. rewrite Hu. apply wp_ret. simpl.
    split; [by destruct s|]. split; [solve_calls|]. by exists false.
Qed.

(** *** [_complete_upload] *)

Lemma complete_upload_spec img info date tgs s :
  configured (uploader s) = true ->
  wp (_complete_upload img info date tgs) s (fun r s' ev =>
    s' = set_remote (remote s') s /\
    calls_in complete_step ev /\
    exists ok, r = Ret ok /\
      (ok = true -> exists e, calls ev = [e] /\ complete_ok e = true) /\
      (ok = false -> Forall (fun e => complete_ok e = false) (calls ev))).
Proof.
  intros Hc. open_sys s Hc. unfold _complete_upload.
  wp_sys.
  all: split; [reflexivity|].
  all: split; [unfold complete_step; solve_calls|].
  all: eexists; split; [reflexivity|]; split; [intros; try discriminate|intros; try discriminate].
  all: unfold calls; simpl; eauto.
  all: repeat constructor; simpl; done.
Qed.

(** *** [upload] *)

Lemma wp_ulog_cfg lvl msg s lg Q :
  logger (uploader s) = Some lg ->
  Q (Ret tt) s [ELog lg lvl msg] -> wp (ulog lvl msg) s Q.
Proof. intros Hl HQ. apply wp_ulog. by rewrite Hl. Qed.

Lemma configured_logger u : configured u = true -> is_Some (logger u).
Proof. intros H. destruct (configured_inv _ H) as (? & ? & ? & ? & lg & ->). by eexists. Qed.

Lemma calls_in_initiate host dest ev :
  calls_in (initiate_call host dest) ev -> calls_in initiate_step ev.
Proof.
  intros H. eapply calls_in_mono; [exact H|].
  unfold initiate_call, initiate_step. intros m st url r (-> & -> & _). done.
Qed.

Lemma transfer_shape_true uris puts :
  transfer_shape uris true puts ->
  map call_url puts = uris /\ Forall (fun e => put_ok e = true) puts.
Proof.
  intros [Hm [Hl Hf]]. split; [|done].
  rewrite Hm, Hl. apply firstn_all.
Qed.

Lemma transfer_shape_false_no_exists uris puts :
  transfer_shape uris true puts -> ~ Exists (fun e => put_ok e = false) puts.
Proof.
  intros [_ [_ Hf]] Hex. apply Exists_exists in Hex as (e & Hin & He).
  rewrite Forall_forall in Hf. specialize (Hf e Hin). congruence.
Qed.

Lemma upload_session_spec img dest date tgs s :
  configured (uploader s) = true ->
  wp (upload_session img dest date tgs) s (fun r s' ev =>
    s' = set_remote (remote s') s /\
    exists ok evI evT evC,
      r = Ret ok /\ ev = evI ++ evT ++ evC /\
      calls_in (initiate_call (host_of (uploader s)) dest) evI /\
      session_shape ok evI evT evC).
Proof.
  intros Hc. unfold upload_session.
  destruct (configured_logger _ Hc) as [lg Hlg].
  apply wp_bind. eapply wp_ulog_cfg; [done|]. simpl.
  apply wp_bind.
  eapply wp_mono; [by apply initiate_upload_spec|].
  simpl. intros r s1 ev1 (Hs1 & Hc1 & v & -> & Hg).
  assert (configured (uploader s1) = true) as Hcs1 by (by rewrite Hs1).
  pose (evI := ELog lg INFO ("Step 1: Initiating upload for " +:+ name img
                              +:+ " to " +:+ dest) :: ev1).
  assert (granted evI = granted ev1) as HgI by reflexivity.
  assert (calls_in (initiate_call (host_of (uploader s)) dest) evI) as HcI
    by (by apply calls_in_cons).
  destruct (info_truthy v) eqn:Hv; simpl.
  2: { apply wp_ret. split; [done|].
       exists false, evI, [], []. split; [done|].
       split; [subst evI; simpl; by rewrite !app_nil_r|].
       split; [done|].
       split; [by eapply calls_in_initiate|].
       split_and!; try done; try constructor.
       all: try (intros Hex; by apply Exists_nil in Hex).
       all: try (by rewrite HgI, <- Hg). }
  destruct v as [[| |u t c]|]; try discriminate.
  apply wp_bind. eapply wp_ulog_cfg; [by rewrite Hs1|]. simpl.
  apply wp_bind.
  eapply wp_mono; [by apply upload_binary_spec|].
  simpl. intros r s2 ev2 (Hs2 & Hc2 & okT & -> & HT).
  pose (evT := ELog lg INFO ("Step 2: Uploading binary for " +:+ name img) :: ev2).
  assert (calls evT = calls ev2) as HcT by (by apply calls_cons_other).
  assert (calls_in transfer_step evT) as HcT' by (by apply calls_in_cons).
  assert (okT = true -> exists uris, u = Some uris /\ transfer_shape uris true (calls ev2))
    as HokT.
  { intros ->. destruct u as [uris|]; [|by destruct HT].
    exists uris. split; [done|]. destruct (readable img); [done|by destruct HT]. }
  destruct okT; simpl.
  2: { apply wp_ret. split; [by eapply remote_frame_trans|].
       exists false, evI, evT, []. split; [done|].
       split; [subst evI evT; simpl; by rewrite !app_nil_r, <- ?app_assoc|].
       split; [done|].
       split; [by eapply calls_in_initiate|].
       split_and!; try done; try constructor.
       all: try (intros Hex; by apply Exists_nil in Hex).
       all: try (by split).
       all: match goal with
            | H : granted _ = None |- _ => rewrite HgI, <- Hg in H; discriminate
            end. }
  destruct (HokT eq_refl) as (uris & -> & Hshape).
  apply wp_bind. eapply wp_ulog_cfg; [by rewrite Hs2, Hs1|]. simpl.
  eapply wp_mono; [apply complete_upload_spec; by rewrite Hs2|].
  simpl. intros r s3 ev3 (Hs3 & Hc3 & okC & -> & HC1 & HC2).
  pose (evC := ELog lg INFO ("Step 3: Completing upload for " +:+ name img) :: ev3).
  assert (calls evC = calls ev3) as HcC by (by apply calls_cons_other).
  split; [eapply remote_frame_trans; [eapply remote_frame_trans; [exact Hs1|exact Hs2]|exact Hs3]|].
  exists okC, evI, evT, evC. split; [done|].
  split; [subst evI evT evC; simpl; by rewrite <- ?app_assoc|]. split; [done|].
  split; [by eapply calls_in_initiate|].
  split; [done|]. split; [by apply calls_in_cons|].
  rewrite HgI, <- Hg, HcT, HcC.
  apply transfer_shape_true in Hshape as Htrue.
  destruct Htrue as [Hurls Hall].
  split; [discriminate|].
  split; [intros _; by exists uris, t, c|].
  split; [intros Hex; by apply transfer_shape_false_no_exists in Hshape|].
  split; [|done].
  intros Hex. destruct okC; [|done].
  destruct (HC1 eq_refl) as (e & He & Hok). rewrite He in Hex.
  apply Exists_cons in Hex as [Hex|Hex]; [congruence|by apply Exists_nil in Hex].
Qed.

Lemma get_destination_path_spec date s :
  configured (uploader s) = true ->
  wp (_get_destination_path date) s (fun r s' ev =>
    s' = s /\ ev = [] /\ r = Ret (destination_of (uploader s) date)).
Proof.
  intros Hc. unfold _get_destination_path, destination_of.
  destruct (configured_inv _ Hc) as (host & tok & d & flag & lg & Hu).
  apply wp_bind, wp_attr. rewrite Hu. apply wp_ret. simpl.
  destruct flag.
  - apply wp_bind, wp_attr. rewrite Hu. apply wp_ret. simpl. by apply wp_ret.
  - apply wp_attr. rewrite Hu. by apply wp_ret.
Qed.

Lemma session_shape_nil : session_shape false [] [] [].
Proof.
  unfold session_shape. split_and!; try done; try constructor.
  all: intros Hex; by apply Exists_nil in Hex.
Qed.

Lemma upload_spec img date tgs s :
  configured (uploader s) = true ->
  wp (upload img date tgs) s (fun r s' ev =>
    s' = set_remote (remote s') s /\
    exists ok evF evI evT evC,
      r = Ret ok /\ ev = evF ++ evI ++ evT ++ evC /\
      calls_in folder_step evF /\
      calls_in (initiate_call (host_of (uploader s))
                  (destination_of (uploader s) date)) evI /\
      session_shape ok evI evT evC /\
      (put_into_date_folder (uploader s) = Some false -> evF = [])).
Proof.
  intros Hc. unfold upload.
  destruct (configured_logger _ Hc) as [lg Hlg].
  apply wp_bind, wp_get. simpl.
  assert (aem_enabled (uploader s) = true) as ->.
  { by destruct (configured_inv _ Hc) as (? & ? & ? & ? & ? & ->). }
  simpl. apply wp_try_except, wp_bind.
  eapply wp_mono; [by apply get_destination_path_spec|].
  simpl. intros r s0 ev0 (-> & -> & ->). simpl.
  apply wp_bind.
  eapply wp_mono; [by apply ensure_folders_exist_spec|].
  simpl. intros r s1 ev1 (Hs1 & (okF & ->) & HcF & Hoff).
  destruct okF; simpl.
  - eapply wp_mono; [apply upload_session_spec; by rewrite Hs1|].
    simpl. intros r s2 ev2 (Hs2 & ok & evI & evT & evC & -> & -> & HcI & Hshape).
    split; [by eapply remote_frame_trans|].
    exists ok, ev1, evI, evT, evC. split_and!; try done.
    + by rewrite Hs1 in HcI.
    + intros Hf. by destruct (Hoff Hf) as (_ & _ & ->).
  - apply wp_bind. eapply wp_ulog_cfg; [by rewrite Hs1|]. apply wp_ret. simpl.
    split; [done|].
    exists false, (ev1 ++ [ELog lg ERROR ("Failed to create required folders for "
                              +:+ destination_of (uploader s) date)]), [], [], [].
    split_and!; try done.
    + by rewrite !app_nil_r.
    + apply calls_in_app. split; [done|solve_calls].
    + constructor.
    + apply session_shape_nil.
    + intros Hf. by destruct (Hoff Hf) as (? & _ & _).
Qed.

(** Three signed URIs, the second transfer refused. *)
Lemma upload_binary_second_refused img u1 u2 u3 tok cu r1 r2 rest s :
  configured (uploader s) = true -> readable img = true ->
  remote s = r1 :: r2 :: rest ->
  reply_accepted r1 = true -> reply_accepted r2 = false ->
  wp (_upload_binary img (Some (JInfo (Some [u1; u2; u3]) tok cu))) s
    (fun res s' ev =>
       res = Ret false /\ s' = set_remote rest s /\
       calls ev = [ECall PUT Transfer u1 r1; ECall PUT Transfer u2 r2]).
Proof.
  intros Hc Hread Hr H1 H2. open_sys s Hc. subst.
  unfold _upload_binary.
  destruct r1 as [c1 b1|e1]; [|discriminate].
  unfold reply_accepted in H1. simpl in H1.
  destruct r2 as [c2 b2|e2]; unfold reply_accepted in H2; simpl in H2.
  - wp_sys; simpl in *; first [congruence | done | idtac].
    all: try (rewrite H1 in *; discriminate).
    all: try (rewrite H2 in *; discriminate).
  - wp_sys; simpl in *; first [congruence | done | idtac].
    all: try (rewrite H1 in *; discriminate).
Qed.

(** ** What a computation leaves alone *)

Section Preserves.
Context {S X : Type} (proj : S -> X).

Lemma preserves_ret {A} (a : A) : preserves proj (mret a).
Proof. by intros s. Qed.

Lemma preserves_raise {A} e : preserves proj (raise e : M S A).
Proof. by intros s. Qed.

Lemma preserves_emit e : preserves proj (emit e).
Proof. by intros s. Qed.

Lemma preserves_get : preserves proj get.
Proof. by intros s. Qed.

Lemma preserves_getattr {A} nm (v : option A) : preserves proj (getattr nm v).
Proof. by destruct v. Qed.

Lemma preserves_sleep secs : preserves proj (sleep secs).
Proof. unfold sleep. by destruct (secs <? 0). Qed.

Lemma preserves_root_log lvl msg : preserves proj (root_log lvl msg).
Proof. by intros s. Qed.

Lemma preserves_bind {A B} (m : M S A) (f : A -> M S B) :
  preserves proj m -> (forall a, preserves proj (f a)) ->
  preserves proj (m ≫= f).
Proof.
  intros Hm Hf s. specialize (Hm s). unfold state_after, mbind, M_bind in *.
  destruct (m s) as [[[a|e] s1] ev1]; simpl in *; [|done].
  specialize (Hf a s1). unfold state_after in Hf.
  destruct (f a s1) as [[r s2] ev2]; simpl in *. congruence.
Qed.

Lemma preserves_try_except {A} (m : M S A) (h : exn -> M S A) :
  preserves proj m -> (forall e, preserves proj (h e)) ->
  preserves proj (try_except m h).
Proof.
  intros Hm Hh s. specialize (Hm s). unfold state_after, try_except in *.
  destruct (m s) as [[[a|e] s1] ev1]; simpl in *; [done|].
  specialize (Hh e s1). unfold state_after in Hh.
  destruct (h e s1) as [[r s2] ev2]; simpl in *. congruence.
Qed.

Lemma preserves_except_ValueError {A} (m h : M S A) :
  preserves proj m -> preserves proj h ->
  preserves proj (except_ValueError m h).
Proof.
  intros Hm Hh s. specialize (Hm s). unfold state_after, except_ValueError in *.
  destruct (m s) as [[[a|e] s1] ev1]; simpl in *; [done|].
  destruct e; try done.
  specialize (Hh s1). unfold state_after in Hh.
  destruct (h s1) as [[r s2] ev2]; simpl in *. congruence.
Qed.

Lemma preserves_try_finally {A} (m : M S A) (fin : M S unit) :
  preserves proj m -> preserves proj fin ->
  preserves proj (try_finally m fin).
Proof.
  intros Hm Hf s. specialize (Hm s). unfold state_after, try_finally in *.
  destruct (m s) as [[r s1] ev1]; simpl in *.
  specialize (Hf s1). unfold state_after in Hf.
  destruct (fin s1) as [[[u|e] s2] ev2]; simpl in *; congruence.
Qed.

Lemma preserves_modify (f : S -> S) :
  (forall s, proj (f s) = proj s) -> preserves proj (modify f).
Proof. intros Hf s. apply Hf. Qed.

End Preserves.

Lemma preserves_in_sys {A X} (q : Sys -> X) (m : M Sys A) :
  preserves q m -> preserves (fun r => q (sys r)) (in_sys m).
Proof.
  intros Hm r. specialize (Hm (sys r)).
  unfold state_after, in_sys, lift in *.
  by destruct (m (sys r)) as [[o s'] ev].
Qed.

(** Decompose a computation along its structure. *)
Ltac preserves_step :=
  lazymatch goal with
  | |- preserves _ (mbind _ _) => apply preserves_bind; [|intros]
  | |- preserves _ (mret _) => apply preserves_ret
  | |- preserves _ (raise _) => apply preserves_raise
  | |- preserves _ (emit _) => apply preserves_emit
  | |- preserves _ (root_log _ _) => apply preserves_root_log
  | |- preserves _ get => apply preserves_get
  | |- preserves _ (getattr _ _) => apply preserves_getattr
  | |- preserves _ (sleep _) => apply preserves_sleep
  | |- preserves _ (try_except _ _) => apply preserves_try_except; [|intros]
  | |- preserves _ (except_ValueError _ _) => apply preserves_except_ValueError
  | |- preserves _ (try_finally _ _) => apply preserves_try_finally
  | |- preserves _ (in_sys _) => apply preserves_in_sys
  | |- preserves _ (if ?b then _ else _) => destruct b
  | |- preserves _ (match ?x with _ => _ end) => destruct x
  end.

Ltac preserves_auto := repeat (first [assumption | preserves_step]).

(** *** The uploader never writes its own attributes *)

Section UploaderFrame.
Context {X : Type} (q : Sys -> X).
(** [q] reads the uploader and the image counter only. *)
Hypothesis q_remote : forall rs s, q (set_remote rs s) = q s.

Lemma preserves_attr {A} nm (field : AEMUploader -> option A) :
  preserves q (attr nm field).
Proof.
  intros s. unfold state_after, attr, mbind, M_bind, get. simpl.
  by destruct (field (uploader s)).
Qed.

Lemma preserves_ulog lvl msg : preserves q (ulog lvl msg).
Proof.
  unfold ulog. apply preserves_bind; [apply preserves_attr|].
  intros. apply preserves_emit.
Qed.

Lemma preserves_request m st url : preserves q (request m st url).
Proof.
  intros s. unfold state_after, request.
  destruct (remote s) as [|[c b|e] rs]; simpl; auto.
Qed.

Lemma preserves_read_file p : preserves q (read_file p).
Proof. unfold read_file. by destruct (readable p). Qed.

Lemma preserves_subscript {A} key (v : option A) : preserves q (subscript key v).
Proof. by destruct v. Qed.

Ltac sys_step :=
  lazymatch goal with
  | |- preserves _ (attr _ _) => apply preserves_attr
  | |- preserves _ (ulog _ _) => apply preserves_ulog
  | |- preserves _ (request _ _ _) => apply preserves_request
  | |- preserves _ (read_file _) => apply preserves_read_file
  | |- preserves _ (subscript _ _) => apply preserves_subscript
  | |- _ => preserves_step
  end.

Ltac sys_auto := repeat (first [assumption | sys_step]).

Lemma preserves_retry_or_fail {A} k mr d (failed : A) :
  preserves q (retry_or_fail k mr d failed).
Proof. unfold retry_or_fail. sys_auto. Qed.

Lemma preserves_create_folder folder mr d : preserves q (_create_folder folder mr d).
Proof.
  unfold _create_folder. generalize 0. generalize (Z.to_nat mr).
  induction n as [|n IH]; intros k; simpl; [apply preserves_ret|].
  apply preserves_bind.
  - unfold create_folder_attempt. sys_auto; apply preserves_retry_or_fail.
  - intros [b|]; [apply preserves_ret|apply IH].
Qed.

Lemma preserves_ensure_folders dest : preserves q (_ensure_folders_exist dest).
Proof.
  unfold _ensure_folders_exist. sys_auto. generalize "".
  induction (PyStr.split "/" dest) as [|part parts IH]; intros cur; simpl.
  - apply preserves_ret.
  - destruct (negb (PyStr.truthy part)); [apply IH|].
    apply preserves_bind; [apply preserves_create_folder|].
    intros r. destruct (negb (truth r)); [apply preserves_ret|apply IH].
Qed.

Lemma preserves_initiate_upload img dest mr d :
  preserves q (_initiate_upload img dest mr d).
Proof.
  unfold _initiate_upload. generalize 0. generalize (Z.to_nat mr).
  induction n as [|n IH]; intros k; simpl; [apply preserves_ret|].
  apply preserves_bind.
  - unfold initiate_attempt. sys_auto; apply preserves_retry_or_fail.
  - intros [b|]; [apply preserves_ret|apply IH].
Qed.

Lemma preserves_upload_binary img info : preserves q (_upload_binary img info).
Proof.
  unfold _upload_binary. sys_auto.
  induction a as [|uri uris IH]; simpl; sys_auto.
Qed.

Lemma preserves_complete_upload img info date tgs :
  preserves q (_complete_upload img info date tgs).
Proof. unfold _complete_upload. sys_auto. Qed.

Lemma preserves_upload img date tgs : preserves q (upload img date tgs).
Proof.
  unfold upload, upload_session, _get_destination_path.
  sys_auto;
    first [apply preserves_ensure_folders | apply preserves_initiate_upload
          | apply preserves_upload_binary | apply preserves_complete_upload].
Qed.

End UploaderFrame.

(** ** [process_image] *)

Lemma append_assoc (a b c : string) : (a +:+ b) +:+ c = a +:+ b +:+ c.
Proof.
  induction a as [|x a IH]; [done|].
  change (String x ((a +:+ b) +:+ c) = String x (a +:+ b +:+ c)).
  by rewrite IH.
Qed.

(** The method is its two halves run one after the other. *)
Lemma process_image_halves image_path target_folder s :
  process_image image_path target_folder s =
  (g ← process_image_prepare image_path target_folder;
   match g with
   | Some g => process_image_finish image_path g
   | None => mret tt
   end) s.
Proof.
  unfold process_image, process_image_prepare, process_image_finish,
    process_image_failed, root_log, emit, try_except, mbind, M_bind, mret, M_ret.
  destruct (process_image_open image_path target_folder s) as [[[g|e] s1] ev1].
  - rewrite app_nil_r. simpl.
    destruct (process_image_close g s1) as [[[u|e] s2] ev2]; simpl;
      by rewrite <- ?app_assoc.
  - simpl. by rewrite app_nil_r.
Qed.

(** Neither half, nor the whole, lets an exception out. *)
Lemma process_image_prepare_returns image_path target_folder s :
  exists g, outcome_of (process_image_prepare image_path target_folder) s = Ret g.
Proof.
  unfold outcome_of, process_image_prepare, process_image_failed, root_log, emit,
    try_except, mbind, M_bind, mret, M_ret.
  destruct (process_image_open image_path target_folder s) as [[[g|e] s1] ev1];
    simpl; eauto.
Qed.

Lemma process_image_finish_returns image_path g s :
  outcome_of (process_image_finish image_path g) s = Ret tt.
Proof.
  unfold outcome_of, process_image_finish, process_image_failed, root_log, emit,
    try_except, mbind, M_bind, mret, M_ret.
  by destruct (process_image_close g s) as [[[[]|e] s1] ev1].
Qed.

Lemma process_image_returns image_path target_folder s :
  outcome_of (process_image image_path target_folder) s = Ret tt.
Proof.
  unfold outcome_of, process_image, process_image_failed, root_log, emit,
    try_except, mbind, M_bind, mret, M_ret.
  destruct (process_image_open image_path target_folder s) as [[[g|e] s1] ev1];
    simpl; [|done].
  by destruct (process_image_close g s1) as [[[[]|e] s2] ev2].
Qed.

(** The date-partitioning flag is never written. *)
Lemma preserves_flag_generate p : preserves flag_of (generate p).
Proof.
  intros s. unfold state_after, generate.
  by destruct (studio s) as [|[g|] gs].
Qed.

Lemma preserves_flag_open p t : preserves flag_of (process_image_open p t).
Proof.
  unfold process_image_open.
  apply preserves_bind; [apply preserves_flag_generate|]. intros g.
  apply preserves_bind; [apply preserves_get|]. intros s.
  apply preserves_bind; [|intros; apply preserves_ret].
  destruct (aem_enabled (uploader s)); [|apply preserves_ret].
  destruct t as [f|]; [|apply preserves_ret].
  destruct (PyStr.truthy f); [|apply preserves_ret].
  by apply preserves_modify.
Qed.

Lemma preserves_flag_close g : preserves flag_of (process_image_close g).
Proof.
  unfold process_image_close.
  apply preserves_bind; [apply preserves_get|]. intros s.
  apply preserves_bind.
  { destruct (aem_enabled (uploader s)); [|apply preserves_ret].
    apply preserves_bind; [by apply preserves_upload|].
    intros; apply preserves_ret. }
  intros _. apply preserves_bind; [|intros; apply preserves_root_log].
  by apply preserves_modify.
Qed.

(** ** The replication run never writes the date-partitioning flag *)

Lemma preserves_flag_prepare p t : preserves flag_of (process_image_prepare p t).
Proof.
  unfold process_image_prepare, process_image_failed.
  apply preserves_try_except.
  - apply preserves_bind; [apply preserves_flag_open|intros; apply preserves_ret].
  - intros e. apply preserves_bind; [apply preserves_root_log|intros; apply preserves_ret].
Qed.

Lemma preserves_flag_finish p g : preserves flag_of (process_image_finish p g).
Proof.
  unfold process_image_finish, process_image_failed.
  apply preserves_try_except; [apply preserves_flag_close|].
  intros e. apply preserves_root_log.
Qed.

Lemma preserves_flag_process_image p t : preserves flag_of (process_image p t).
Proof.
  unfold process_image, process_image_failed.
  apply preserves_try_except.
  - apply preserves_bind; [apply preserves_flag_open|intros; apply preserves_flag_close].
  - intros e. apply preserves_root_log.
Qed.

Lemma preserves_flag_rlog lvl msg : preserves date_flag (rlog lvl msg).
Proof. apply preserves_emit. Qed.

Ltac flag_step :=
  lazymatch goal with
  | |- preserves _ (rlog _ _) => apply preserves_flag_rlog
  | |- preserves _ (modify _) => by apply preserves_modify
  | |- preserves _ (in_sys (_create_folder _ _ _)) =>
      apply (preserves_in_sys flag_of), preserves_create_folder; reflexivity
  | |- preserves _ (in_sys (process_image_prepare _ _)) =>
      apply (preserves_in_sys flag_of), preserves_flag_prepare
  | |- preserves _ (in_sys (process_image_finish _ _)) =>
      apply (preserves_in_sys flag_of), preserves_flag_finish
  | |- _ => preserves_step
  end.

Ltac flag_auto := repeat (first [assumption | flag_step]).

Lemma preserves_flag_folder_structure folder :
  preserves date_flag (create_folder_structure folder).
Proof.
  unfold create_folder_structure. apply preserves_try_except; [|intros; flag_auto].
  generalize "/content/dam" at 3.
  induction (drop 3 _) as [|part parts IH]; intros cur; simpl; [flag_auto|].
  destruct (negb (PyStr.truthy part)); [apply IH|].
  flag_auto; apply IH.
Qed.

Lemma preserves_flag_int_asset_count e : preserves date_flag (int_asset_count e).
Proof. unfold int_asset_count. flag_auto. Qed.

Lemma preserves_flag_create_all structure :
  preserves date_flag (create_all_folders structure).
Proof.
  induction structure as [|e rest IH]; simpl; [flag_auto|].
  apply preserves_bind; [|intros; apply IH].
  unfold create_entry_folders.
  apply preserves_bind.
  - apply preserves_except_ValueError; [|flag_auto].
    apply preserves_bind; [apply preserves_flag_int_asset_count|intros; flag_auto].
  - intros [n|]; [|flag_auto].
    destruct (n =? 0); [flag_auto|].
    apply preserves_bind; [flag_auto|]. intros _.
    apply preserves_bind; [apply preserves_flag_folder_structure|].
    intros ok. flag_auto.
Qed.

Lemma preserves_flag_random_choice pool : preserves date_flag (random_choice pool).
Proof.
  intros r. unfold state_after, random_choice.
  by destruct (pool !! _).
Qed.

Lemma preserves_flag_queue_tasks todo folder n pool :
  forall total, preserves date_flag (queue_tasks todo folder n pool total).
Proof.
  induction todo as [|todo IH]; intros total; simpl; [flag_auto|].
  apply preserves_bind; [apply preserves_flag_random_choice|]. intros src.
  apply preserves_bind; [flag_auto|]. intros _. apply IH.
Qed.

Lemma preserves_flag_queue_all structure pool :
  forall total, preserves date_flag (queue_all structure pool total).
Proof.
  induction structure as [|e rest IH]; intros total; simpl; [flag_auto|].
  apply preserves_bind; [|intros; apply IH].
  unfold queue_entry.
  apply preserves_bind.
  - apply preserves_except_ValueError; [|flag_auto].
    apply preserves_bind; [apply preserves_flag_int_asset_count|intros; flag_auto].
  - intros [n|]; [|flag_auto].
    destruct (n =? 0); [flag_auto|]. apply preserves_flag_queue_tasks.
Qed.

Lemma preserves_flag_set_worker i w : preserves date_flag (set_worker i w).
Proof. unfold set_worker. flag_auto. Qed.

Lemma preserves_flag_worker_step i : preserves date_flag (worker_step i).
Proof.
  unfold worker_step.
  apply preserves_bind; [apply preserves_get|]. intros r.
  destruct (workers r !! i) as [[|t|t g|t| |e]|]; try apply preserves_ret.
  - destruct (task_queue r); [apply preserves_flag_set_worker|].
    apply preserves_bind; [flag_auto|intros; apply preserves_flag_set_worker].
  - flag_auto; apply preserves_flag_set_worker.
  - flag_auto; apply preserves_flag_set_worker.
  - flag_auto; apply preserves_flag_set_worker.
Qed.

Lemma preserves_flag_thread_step i : preserves date_flag (thread_step i).
Proof.
  unfold thread_step. apply preserves_try_except; [apply preserves_flag_worker_step|].
  intros. apply preserves_flag_set_worker.
Qed.

Lemma preserves_flag_run_schedule schedule : preserves date_flag (run_schedule schedule).
Proof.
  induction schedule as [|i rest IH]; simpl; [flag_auto|].
  apply preserves_bind; [apply preserves_flag_thread_step|intros; apply IH].
Qed.

Lemma preserves_flag_run_thread fuel i : preserves date_flag (run_thread fuel i).
Proof.
  induction fuel as [|fuel IH]; simpl; [flag_auto|].
  apply preserves_bind; [apply preserves_get|]. intros r.
  destruct (terminated _); [flag_auto|].
  apply preserves_bind; [apply preserves_flag_thread_step|intros; apply IH].
Qed.

Lemma preserves_flag_join_all ts : preserves date_flag (join_all ts).
Proof.
  induction ts as [|i rest IH]; simpl; [flag_auto|].
  apply preserves_bind; [|intros; apply IH].
  unfold join. apply preserves_bind; [apply preserves_get|].
  intros. apply preserves_flag_run_thread.
Qed.

Lemma preserves_flag_start_threads todo : preserves date_flag (start_threads todo).
Proof.
  induction todo as [|todo IH]; simpl; [flag_auto|].
  apply preserves_bind; [flag_auto|intros; apply IH].
Qed.

Lemma preserves_flag_run_workers n schedule : preserves date_flag (run_workers n schedule).
Proof.
  unfold run_workers.
  apply preserves_bind; [apply preserves_flag_start_threads|]. intros _.
  apply preserves_bind; [apply preserves_flag_run_schedule|]. intros _.
  apply preserves_bind; [apply preserves_get|]. intros. apply preserves_flag_join_all.
Qed.

Lemma preserves_flag_replicate_body structure schedule :
  preserves date_flag (replicate_body structure schedule).
Proof.
  unfold replicate_body.
  apply preserves_bind; [apply preserves_flag_create_all|]. intros _.
  apply preserves_bind; [apply preserves_get|]. intros r.
  destruct (bool_decide _); [flag_auto|].
  apply preserves_bind; [apply preserves_flag_queue_all|]. intros total.
  apply preserves_bind; [unfold requested_threads; flag_auto|]. intros requested.
  apply preserves_bind; [flag_auto|]. intros _.
  apply preserves_bind; [apply preserves_flag_run_workers|]. intros. flag_auto.
Qed.

(** ** [replicate_structure] *)

(** With the replicator enabled, rows to work on and the flag attribute
    there, the run is its [try] block started with the flag off, then the
    flag written back. *)
Lemma replicate_structure_run schedule r b :
  enabled r = true -> structure_file r <> [] -> date_flag r = Some b ->
  replicate_structure schedule r =
  finish_run b (replicate_body (structure_file r) schedule (with_date_flag false r)).
Proof.
  intros Hen Hst Hfl.
  unfold replicate_structure, mbind, M_bind, get. simpl. rewrite Hen. simpl.
  rewrite bool_decide_eq_false_2 by done.
  unfold date_flag, flag_of in Hfl.
  unfold rlog, emit, in_sys, lift, attr, mbind, M_bind, get, getattr. simpl.
  rewrite Hfl. simpl.
  unfold write_put_into_date_folder, in_sys, lift, modify, try_finally. simpl.
  replace (set_sys (set_uploader (set_put_into_date_folder false (uploader (sys r)))
                      (sys r)) (set_sys (sys r) r))
    with (with_date_flag false r) by reflexivity.
  destruct (replicate_body (structure_file r) schedule (with_date_flag false r))
    as [[[[[]|]|e] r1] ev1]; simpl; unfold with_date_flag, log_started, log_completed;
    rewrite ?app_nil_r; try reflexivity.
Qed.

Lemma date_flag_with_date_flag b r : date_flag (with_date_flag b r) = Some b.
Proof. reflexivity. Qed.

Lemma replicate_structure_flag schedule r :
  date_flag (state_after (replicate_structure schedule) r) = date_flag r.
Proof.
  destruct (enabled r) eqn:Hen.
  2: { unfold state_after, replicate_structure, mbind, M_bind, get. simpl.
       by rewrite Hen. }
  destruct (decide (structure_file r = [])) as [Hst|Hst].
  { unfold state_after, replicate_structure, mbind, M_bind, get. simpl.
    rewrite Hen. simpl. by rewrite bool_decide_eq_true_2. }
  destruct (date_flag r) as [b|] eqn:Hfl.
  - unfold state_after. rewrite (replicate_structure_run _ _ b) by done.
    by destruct (replicate_body _ _ _) as [[[[[]|]|e] r1] ev1].
  - unfold state_after, replicate_structure, mbind, M_bind, get. simpl.
    rewrite Hen. simpl. rewrite bool_decide_eq_false_2 by done.
    unfold date_flag, flag_of in Hfl.
    unfold rlog, emit, in_sys, lift, attr, mbind, M_bind, get, getattr. simpl.
    rewrite Hfl. simpl. exact Hfl.
Qed.

(** *** Building the task list *)

Lemma wp_random_choice pool r Q :
  pool <> [] ->
  (forall p, p ∈ pool -> Q (Ret p) (set_dice (tl (dice r)) r) []) ->
  wp (random_choice pool) r Q.
Proof.
  intros Hne HQ. unfold wp, random_choice.
  destruct (pool !! _) as [p|] eqn:E; simpl.
  - apply HQ. by eapply list_elem_of_lookup_2.
  - apply lookup_ge_None in E.
    assert (length pool <> 0)%nat by (by destruct pool).
    pose proof (Nat.mod_upper_bound (hd 0%nat (dice r)) (length pool)). lia.
Qed.

Lemma wp_random_choice_draw pool r Q :
  pool <> [] ->
  (forall p, pool !! (hd 0%nat (dice r) mod length pool)%nat = Some p ->
             Q (Ret p) (set_dice (tl (dice r)) r) []) ->
  wp (random_choice pool) r Q.
Proof.
  intros Hne HQ. unfold wp, random_choice.
  destruct (pool !! _) as [p|] eqn:E; simpl.
  - by apply HQ.
  - apply lookup_ge_None in E.
    assert (length pool <> 0)%nat by (by destruct pool).
    pose proof (Nat.mod_upper_bound (hd 0%nat (dice r)) (length pool)). lia.
Qed.

Lemma drawn_nil pool draws : drawn pool draws [].
Proof. unfold drawn. simpl. rewrite take_0. constructor. Qed.

Lemma drawn_app pool draws b1 b2 :
  drawn pool draws b1 -> drawn pool (drop (length b1) draws) b2 ->
  drawn pool draws (b1 ++ b2).
Proof.
  unfold drawn. intros H1 H2. rewrite length_app, <- take_take_drop.
  by apply Forall2_app.
Qed.

Lemma queue_tasks_drawn todo folder n pool : forall total r,
  pool <> [] ->
  wp (queue_tasks todo folder n pool total) r (fun res r' ev =>
    exists block,
      res = Ret (total + Z.of_nat todo) /\ ev = [] /\
      r' = set_dice (drop todo (dice r)) (set_task_queue (task_queue r ++ block) r) /\
      length block = todo /\
      Forall (fun t : task => t.1.1 = folder /\ t.1.2 = n /\ t.2 ∈ pool) block /\
      ((todo <= length (dice r))%nat -> drawn pool (dice r) block)).
Proof.
  induction todo as [|todo IH]; intros total r Hne; simpl.
  - apply wp_ret. exists []. rewrite app_nil_r, Z.add_0_r, drop_0.
    split_and!; try done; [by destruct r|intros _; apply drawn_nil].
  - apply wp_bind, wp_random_choice_draw; [done|]. intros p Hp. simpl.
    apply wp_bind, wp_modify. simpl.
    eapply wp_mono; [by apply IH|].
    simpl. intros res r' ev (block & -> & -> & -> & Hlen & Hall & Hdrawn).
    exists ((folder, n, p) :: block). split_and!.
    + f_equal. lia.
    + done.
    + simpl. rewrite <- app_assoc. simpl.
      destruct (dice r) as [|d ds]; simpl; [by rewrite drop_nil|done].
    + simpl. by rewrite Hlen.
    + constructor; [|done]. split_and!; [done|done|].
      by eapply list_elem_of_lookup_2.
    + intros Hdice. destruct (dice r) as [|d ds]; simpl in *; [lia|].
      unfold drawn. simpl. constructor; [done|].
      rewrite Hlen. specialize (Hdrawn ltac:(lia)). unfold drawn in Hdrawn.
      by rewrite Hlen in Hdrawn.
Qed.

Lemma queue_tasks_spec todo folder n pool : forall total r,
  pool <> [] ->
  wp (queue_tasks todo folder n pool total) r (fun res r' ev =>
    exists block,
      res = Ret (total + Z.of_nat todo) /\ ev = [] /\
      r' = set_dice (drop todo (dice r)) (set_task_queue (task_queue r ++ block) r) /\
      length block = todo /\
      Forall (fun t : task => t.1.1 = folder /\ t.1.2 = n /\ t.2 ∈ pool) block).
Proof.
  intros total r Hne. eapply wp_mono; [by apply queue_tasks_drawn|].
  simpl. intros res r' ev (block & ? & ? & ? & ? & ? & _). by exists block.
Qed.

Lemma queue_entry_drawn e pool total r :
  pool <> [] -> is_Some (asset_count e) ->
  wp (queue_entry e pool total) r (fun res r' ev =>
    exists block,
      res = Ret (total + Z.of_nat (length block)) /\ ev = [] /\
      r' = set_dice (drop (length block) (dice r))
             (set_task_queue (task_queue r ++ block) r) /\
      block_for pool e block /\
      ((length block <= length (dice r))%nat -> drawn pool (dice r) block)).
Proof.
  intros Hne [c Hc]. unfold queue_entry, int_asset_count, block_for. rewrite Hc.
  assert (r = set_dice (drop 0 (dice r)) (set_task_queue (task_queue r ++ []) r)) as Hr0.
  { rewrite app_nil_r, drop_0. by destruct r. }
  apply wp_bind, wp_except_ValueError.
  destruct (PyStr.int (PyStr.strip c)) as [n|] eqn:En.
  - wp_steps. destruct (n =? 0) eqn:E0.
    + apply Z.eqb_eq in E0. subst n. apply wp_ret. exists []. simpl.
      rewrite Z.add_0_r. split_and!; try done. intros _. apply drawn_nil.
    + eapply wp_mono; [by apply queue_tasks_drawn|].
      simpl. intros res r' ev (block & -> & -> & -> & Hlen & Hall & Hdrawn).
      exists block. rewrite Hlen. split_and!; done.
  - wp_steps. exists []. simpl. rewrite Z.add_0_r. split_and!; try done.
    intros _. apply drawn_nil.
Qed.

Lemma queue_entry_spec e pool total r :
  pool <> [] -> is_Some (asset_count e) ->
  wp (queue_entry e pool total) r (fun res r' ev =>
    exists block,
      res = Ret (total + Z.of_nat (length block)) /\ ev = [] /\
      r' = set_dice (drop (length block) (dice r))
             (set_task_queue (task_queue r ++ block) r) /\
      block_for pool e block).
Proof.
  intros Hne He. eapply wp_mono; [by apply queue_entry_drawn|].
  simpl. intros res r' ev (block & ? & ? & ? & ? & _). by exists block.
Qed.


(** A row whose count is no integer is passed over by the second loop. *)
Lemma queue_entry_non_numeric e pool total r :
  non_numeric e -> queue_entry e pool total r = (Ret total, r, []).
Proof.
  intros (c & Hc & Hn).
  unfold queue_entry, int_asset_count, except_ValueError, mbind, M_bind,
    mret, M_ret, raise.
  by rewrite Hc, Hn.
Qed.

Lemma queue_all_drawn structure pool : forall total r,
  pool <> [] -> Forall (fun e => is_Some (asset_count e)) structure ->
  wp (queue_all structure pool total) r (fun res r' ev =>
    exists blocks,
      res = Ret (total + Z.of_nat (length (concat blocks))) /\ ev = [] /\
      r' = set_dice (drop (length (concat blocks)) (dice r))
             (set_task_queue (task_queue r ++ concat blocks) r) /\
      Forall2 (block_for pool) structure blocks /\
      ((length (concat blocks) <= length (dice r))%nat ->
       drawn pool (dice r) (concat blocks))).
Proof.
  induction structure as [|e rest IH]; intros total r Hne Hall; simpl.
  - apply wp_ret. exists []. simpl. rewrite app_nil_r, Z.add_0_r, drop_0.
    split_and!; try done; try (by destruct r). intros _. apply drawn_nil.
  - apply Forall_cons in Hall as [He Hrest].
    apply wp_bind.
    eapply wp_mono; [by apply queue_entry_drawn|].
    simpl. intros res r1 ev1 (block & -> & -> & -> & Hblock & Hd1).
    eapply wp_mono; [by apply IH|].
    simpl. intros res r2 ev2 (blocks & -> & -> & -> & Hblocks & Hd2).
    exists (block :: blocks). simpl. rewrite length_app.
    split_and!.
    + f_equal. lia.
    + done.
    + rewrite drop_drop, <- app_assoc. done.
    + by constructor.
    + intros Hdice. apply drawn_app; [apply Hd1; lia|].
      apply Hd2. rewrite length_drop. lia.
Qed.

Lemma queue_all_spec structure pool : forall total r,
  pool <> [] -> Forall (fun e => is_Some (asset_count e)) structure ->
  wp (queue_all structure pool total) r (fun res r' ev =>
    exists blocks,
      res = Ret (total + Z.of_nat (length (concat blocks))) /\ ev = [] /\
      r' = set_dice (drop (length (concat blocks)) (dice r))
             (set_task_queue (task_queue r ++ concat blocks) r) /\
      Forall2 (block_for pool) structure blocks).
Proof.
  intros total r Hne Hall. eapply wp_mono; [by apply queue_all_drawn|].
  simpl. intros res r' ev (blocks & ? & ? & ? & ? & _). by exists blocks.
Qed.

(** *** Creating the folders *)

Lemma folders_frame_refl r : folders_frame r r.
Proof. by destruct r. Qed.

Lemma folders_frame_trans r r1 r2 :
  folders_frame r r1 -> folders_frame r1 r2 -> folders_frame r r2.
Proof.
  unfold folders_frame. destruct r, r1, r2. unfold set_sys, set_created_folders.
  simpl. intros H1 H2. injection H1 as -> -> -> -> -> -> -> -> -> ->.
  injection H2 as -> -> -> -> -> -> -> -> -> ->. reflexivity.
Qed.

Lemma wp_any {S A} (m : M S A) s : wp m s (fun _ _ _ => True).
Proof. by unfold wp. Qed.

Lemma folder_structure_loop_frame parts : forall cur r,
  wp (folder_structure_loop parts cur) r (fun _ r' _ => folders_frame r r').
Proof.
  induction parts as [|part parts IH]; intros cur r; simpl.
  - apply wp_ret, folders_frame_refl.
  - destruct (negb (PyStr.truthy part)); [apply IH|].
    apply wp_bind, wp_get. simpl.
    destruct (bool_decide _); [apply IH|].
    apply wp_bind, wp_emit. simpl. apply wp_bind, wp_lift.
    eapply wp_mono; [apply wp_any|]. simpl. intros [ok|e] s' ev _.
    2: { by destruct r. }
    destruct (negb (truth ok)).
    + wp_steps. by destruct r.
    + apply wp_bind, wp_modify. simpl.
      eapply wp_mono; [apply IH|]. simpl. intros _ r' _ Hf.
      eapply folders_frame_trans; [|exact Hf]. by destruct r.
Qed.

(** [create_folder_structure] answers with a boolean whatever happens. *)
Lemma create_folder_structure_returns folder r :
  wp (create_folder_structure folder) r (fun res r' _ =>
    (exists ok, res = Ret ok) /\ folders_frame r r').
Proof.
  unfold create_folder_structure. apply wp_try_except.
  eapply wp_mono; [apply folder_structure_loop_frame|].
  simpl. intros [ok|e] r' ev Hf; [eauto|].
  wp_steps. split; [by eexists|done].
Qed.

Lemma create_entry_folders_zero e r :
  counts e 0 -> create_entry_folders e r = (Ret tt, r, []).
Proof.
  intros (c & Hc & Hn).
  unfold create_entry_folders, int_asset_count, except_ValueError, mbind, M_bind,
    mret, M_ret.
  by rewrite Hc, Hn.
Qed.

Lemma create_entry_folders_non_numeric e r :
  non_numeric e -> create_entry_folders e r = (Ret tt, r, [log_invalid_count e]).
Proof.
  intros (c & Hc & Hn).
  unfold create_entry_folders, int_asset_count, except_ValueError, mbind, M_bind,
    mret, M_ret, raise, rlog, emit, log_invalid_count.
  by rewrite Hc, Hn.
Qed.

Lemma create_entry_folders_missing e r :
  asset_count e = None ->
  create_entry_folders e r = (Raise (AttributeError "strip"), r, []).
Proof.
  intros Hc.
  unfold create_entry_folders, int_asset_count, except_ValueError, mbind, M_bind,
    mret, M_ret, raise.
  by rewrite Hc.
Qed.

Lemma create_entry_folders_spec e r :
  is_Some (asset_count e) ->
  wp (create_entry_folders e) r (fun res r' ev =>
    res = Ret tt /\ folders_frame r r' /\
    (non_numeric e -> log_invalid_count e ∈ ev)).
Proof.
  intros [c Hc].
  destruct (PyStr.int (PyStr.strip c)) as [n|] eqn:En.
  - assert (~ non_numeric e) as Hnn.
    { intros (c' & Hc' & Hn'). congruence. }
    unfold create_entry_folders, int_asset_count. rewrite Hc, En.
    apply wp_bind, wp_except_ValueError. wp_steps.
    destruct (n =? 0); [apply wp_ret; split_and!; [done|apply folders_frame_refl|done]|].
    apply wp_bind, wp_emit. simpl. apply wp_bind.
    eapply wp_mono; [apply create_folder_structure_returns|].
    simpl. intros res r' ev [[ok ->] Hf].
    destruct (negb ok); wp_steps; split_and!; done.
  - unfold wp. rewrite create_entry_folders_non_numeric by (by exists c).
    simpl. split_and!; [done|apply folders_frame_refl|]. intros _. set_solver.
Qed.

Lemma create_all_folders_spec structure : forall r,
  Forall (fun e => is_Some (asset_count e)) structure ->
  wp (create_all_folders structure) r (fun res r' ev =>
    res = Ret tt /\ folders_frame r r' /\
    (forall e, e ∈ structure -> non_numeric e -> log_invalid_count e ∈ ev)).
Proof.
  induction structure as [|e rest IH]; intros r Hall; simpl.
  - apply wp_ret. split_and!; [done|apply folders_frame_refl|]. intros e He.
    by apply elem_of_nil in He.
  - apply Forall_cons in Hall as [He Hrest].
    apply wp_bind.
    eapply wp_mono; [by apply create_entry_folders_spec|].
    simpl. intros res r1 ev1 (-> & Hf1 & Hlog1).
    eapply wp_mono; [by apply IH|].
    simpl. intros res r2 ev2 (-> & Hf2 & Hlog2).
    split_and!; [done|by eapply folders_frame_trans|].
    intros e' He' Hnn. apply elem_of_app.
    apply elem_of_cons in He' as [->|He']; [left; auto|right; auto].
Qed.

(** A row without a count field ends the first loop. *)
Lemma create_all_folders_missing structure : forall r,
  Exists (fun e => asset_count e = None) structure ->
  wp (create_all_folders structure) r (fun res r' ev =>
    res = Raise (AttributeError "strip") /\ folders_frame r r').
Proof.
  induction structure as [|e rest IH]; intros r Hex; [by apply Exists_nil in Hex|].
  simpl. apply wp_bind.
  destruct (asset_count e) as [c|] eqn:Hc.
  - apply Exists_cons in Hex as [Hex|Hex]; [congruence|].
    eapply wp_mono; [apply create_entry_folders_spec; by rewrite Hc|].
    simpl. intros res r1 ev1 (-> & Hf1 & _).
    eapply wp_mono; [by apply IH|].
    simpl. intros res r2 ev2 (-> & Hf2). split; [done|].
    by eapply folders_frame_trans.
  - unfold wp. rewrite (create_entry_folders_missing e r Hc). simpl.
    split; [done|apply folders_frame_refl].
Qed.

(** *** The two ways the [try] block ends normally *)

Lemma folders_frame_fields r r' :
  folders_frame r r' ->
  img_dir r' = img_dir r /\ environ r' = environ r /\ task_queue r' = task_queue r /\
  invoked r' = invoked r /\ processed_count r' = processed_count r /\
  threads r' = threads r /\ workers r' = workers r /\ dice r' = dice r.
Proof. intros ->. by split_and!. Qed.

Lemma replicate_body_no_sources structure schedule r :
  Forall (fun e => is_Some (asset_count e)) structure -> img_dir r = [] ->
  wp (replicate_body structure schedule) r (fun res r' ev =>
    res = Ret (Return_ tt) /\ folders_frame r r' /\ log_no_sources ∈ ev).
Proof.
  intros Hall Hdir. unfold replicate_body. apply wp_bind.
  eapply wp_mono; [by apply create_all_folders_spec|].
  simpl. intros res r1 ev1 (-> & Hf & _).
  apply wp_bind, wp_get. simpl.
  destruct (folders_frame_fields _ _ Hf) as (Hd & _).
  rewrite bool_decide_eq_true_2 by congruence.
  apply wp_bind, wp_emit. apply wp_ret. simpl.
  split_and!; [done|done|]. unfold log_no_sources. set_solver.
Qed.

Lemma replicate_body_missing structure schedule r :
  Exists (fun e => asset_count e = None) structure ->
  wp (replicate_body structure schedule) r (fun res r' ev =>
    res = Raise (AttributeError "strip") /\ folders_frame r r').
Proof.
  intros Hex. unfold replicate_body. apply wp_bind.
  eapply wp_mono; [by apply create_all_folders_missing|].
  simpl. by intros res r1 ev1 (-> & Hf).
Qed.

(** ** The worker pool *)

Lemma bind_insert {B} (g : wstate -> list B) ws i w w' :
  ws !! i = Some w ->
  (<[i:=w']> ws ≫= g) ++ g w ≡ₚ (ws ≫= g) ++ g w'.
Proof.
  intros Hi.
  rewrite <- (take_drop_middle ws i w Hi) at 2.
  rewrite insert_take_drop by (by eapply lookup_lt_Some).
  rewrite !bind_app, !bind_cons. solve_Permutation.
Qed.

Lemma bind_insert_same {B} (g : wstate -> list B) ws i w w' :
  ws !! i = Some w -> g w' = g w -> (<[i:=w']> ws ≫= g) ≡ₚ (ws ≫= g).
Proof.
  intros Hi Hg. pose proof (bind_insert g ws i w w' Hi) as H.
  rewrite Hg in H. by apply Permutation_app_inv_r in H.
Qed.

Lemma elem_of_insert_inv (ws : list wstate) i w x :
  x ∈ <[i:=w]> ws -> x = w \/ x ∈ ws.
Proof.
  intros Hx. apply list_elem_of_lookup in Hx as [j Hj].
  destruct (decide (i = j)) as [->|Hne].
  - destruct (decide (j < length ws)%nat).
    + rewrite list_lookup_insert_eq in Hj by done. left. congruence.
    + rewrite list_insert_ge in Hj by lia. right. by eapply list_elem_of_lookup_2.
  - rewrite list_lookup_insert_ne in Hj by done. right. by eapply list_elem_of_lookup_2.
Qed.

Lemma Forall_insert_alive (ws : list wstate) i w :
  Forall (fun w => forall e, w <> Crashed e) ws -> (forall e, w <> Crashed e) ->
  Forall (fun w => forall e, w <> Crashed e) (<[i:=w]> ws).
Proof.
  intros Hall Hw. apply Forall_forall. intros x Hx.
  apply elem_of_insert_inv in Hx as [->|Hx]; [done|].
  rewrite Forall_forall in Hall. by apply Hall.
Qed.

Lemma wp_prepare p t s :
  wp (process_image_prepare p t) s (fun res _ _ => exists g, res = Ret g).
Proof. apply process_image_prepare_returns. Qed.

Lemma wp_finish p g s :
  wp (process_image_finish p g) s (fun res _ _ => res = Ret tt).
Proof. apply process_image_finish_returns. Qed.

Section PoolStep.
Variables (tasks0 : list task) (c0 : Z).

(** What a change of worker [i] from [w] to [w'] does to the invariant's
    sides. *)
Lemma step_stable (ws : list wstate) i w w' j :
  ws !! i = Some w -> terminated (Some w) = false ->
  terminated (ws !! j) = true -> <[i:=w']> ws !! j = ws !! j.
Proof.
  intros Hi Hw Hj. destruct (decide (i = j)) as [->|Hne].
  - rewrite Hi in Hj. congruence.
  - by apply list_lookup_insert_ne.
Qed.

Lemma rank_insert (ws : list wstate) i w w' :
  ws !! i = Some w -> rank (<[i:=w']> ws !! i) = rank (Some w').
Proof.
  intros Hi. rewrite list_lookup_insert_eq; [done|]. by eapply lookup_lt_Some.
Qed.

Lemma thread_step_spec i r :
  pool_inv tasks0 c0 r ->
  wp (thread_step i) r (fun res r' ev =>
    res = Ret tt /\ pool_inv tasks0 c0 r' /\
    length (workers r') = length (workers r) /\
    (forall j, terminated (workers r !! j) = true ->
               workers r' !! j = workers r !! j) /\
    (terminated (workers r !! i) = false ->
     (work_left i r' < work_left i r)%nat) /\
    (length (task_queue r') <= length (task_queue r))%nat).
Proof.
  intros [Hth Hal Hta Hco Hdr].
  unfold thread_step. apply wp_try_except.
  unfold worker_step. apply wp_bind, wp_get. simpl.
  destruct (workers r !! i) as [w|] eqn:Hi.
  2: { apply wp_ret. split_and!; try done. }
  assert (i < length (workers r))%nat as Hlt by (by eapply lookup_lt_Some).
  destruct w as [|t|t g|t| |e].
  - (* the dequeue *)
    destruct (task_queue r) as [|t q] eqn:Hq.
    + unfold set_worker. apply wp_modify. unfold work_left. simpl.
      rewrite length_insert, (rank_insert _ _ _ _ Hi), Hi, Hq. simpl.
      split_and!; try done; try lia.
      * constructor; simpl; rewrite ?length_insert; try done.
        -- by apply Forall_insert_alive.
        -- by rewrite (bind_insert_same held _ _ Idle), Hq.
        -- by rewrite (bind_insert_same in_flight _ _ Idle).
      * intros j Hj. by eapply step_stable.
    + unfold set_worker. apply wp_bind, wp_modify. simpl. apply wp_modify.
      unfold work_left. simpl.
      rewrite length_insert, (rank_insert _ _ _ _ Hi), Hi, Hq. simpl.
      assert (Done ∉ workers r) as Hnd by (intros Hd; by specialize (Hdr Hd)).
      split_and!; try done; try lia.
      * constructor; simpl; rewrite ?length_insert; try done.
        -- by apply Forall_insert_alive.
        -- rewrite <- Hta.
           pose proof (bind_insert held _ _ _ (Holding t) Hi) as Hp. simpl in Hp.
           rewrite app_nil_r in Hp. rewrite Hp. solve_Permutation.
        -- by rewrite (bind_insert_same in_flight _ _ Idle).
        -- intros Hd. apply elem_of_insert_inv in Hd as [Hd|Hd]; done.
      * intros j Hj. by eapply step_stable.
  - (* the call of process_image, first half *)
    apply wp_bind, wp_modify. simpl. apply wp_bind, wp_lift.
    eapply wp_mono; [apply wp_prepare|]. simpl. intros res s' ev [g ->].
    unfold set_worker. apply wp_modify. unfold work_left. simpl.
    rewrite length_insert, (rank_insert _ _ _ _ Hi), Hi.
    split_and!; try done.
    + constructor; simpl; rewrite ?length_insert; try done.
      * apply Forall_insert_alive; [done|]. by destruct g.
      * rewrite <- Hta, map_app. simpl.
        pose proof (bind_insert held _ i _
                      (match g with Some g0 => Prepared t g0 | None => Handled t end)
                      Hi) as Hp.
        assert (held (match g with Some g0 => Prepared t g0 | None => Handled t end) = [])
          as Hh by (by destruct g).
        rewrite Hh, app_nil_r in Hp. simpl in Hp. rewrite <- Hp.
        solve_Permutation.
      * pose proof (bind_insert in_flight _ i _
                      (match g with Some g0 => Prepared t g0 | None => Handled t end)
                      Hi) as Hp.
        assert (in_flight (match g with Some g0 => Prepared t g0 | None => Handled t end)
                = [t]) as Hh by (by destruct g).
        rewrite Hh in Hp. simpl in Hp. rewrite app_nil_r in Hp.
        rewrite Hp, !length_app. simpl. lia.
      * intros Hd. apply elem_of_insert_inv in Hd as [Hd|Hd]; [by destruct g|auto].
    + intros j Hj. by eapply step_stable.
    + intros _. destruct g; simpl; lia.
  - (* the call of process_image, second half *)
    apply wp_bind, wp_lift.
    eapply wp_mono; [apply wp_finish|]. simpl. intros res s' ev ->.
    unfold set_worker. apply wp_modify. unfold work_left. simpl.
    rewrite length_insert, (rank_insert _ _ _ _ Hi), Hi.
    split_and!; try done; try (simpl; lia).
    + constructor; simpl; rewrite ?length_insert; try done.
      * by apply Forall_insert_alive.
      * by rewrite (bind_insert_same held _ _ (Prepared t g)).
      * by rewrite (bind_insert_same in_flight _ _ (Prepared t g)).
      * intros Hd. apply elem_of_insert_inv in Hd as [Hd|Hd]; [done|auto].
    + intros j Hj. by eapply step_stable.
  - (* the counter *)
    apply wp_bind, wp_modify. simpl. apply wp_bind, wp_emit. simpl.
    unfold set_worker. apply wp_modify. unfold work_left. simpl.
    rewrite length_insert, (rank_insert _ _ _ _ Hi), Hi.
    split_and!; try done; try (simpl; lia).
    + constructor; simpl; rewrite ?length_insert; try done.
      * by apply Forall_insert_alive.
      * by rewrite (bind_insert_same held _ _ (Handled t)).
      * pose proof (bind_insert in_flight _ i _ Idle Hi) as Hp. simpl in Hp.
        rewrite app_nil_r in Hp. rewrite <- Hp, length_app in Hco. simpl in Hco. lia.
      * intros Hd. apply elem_of_insert_inv in Hd as [Hd|Hd]; [done|auto].
    + intros j Hj. by eapply step_stable.
  - apply wp_ret. by split_and!.
  - apply wp_ret. by split_and!.
Qed.

End PoolStep.

Section PoolRun.
Variables (tasks0 : list task) (c0 : Z).


Lemma pool_kept_refl r : pool_inv tasks0 c0 r -> pool_kept tasks0 c0 r (Ret tt) r.
Proof. intros. by split_and!. Qed.

Lemma pool_kept_trans r r1 r2 res :
  pool_kept tasks0 c0 r (Ret tt) r1 -> pool_kept tasks0 c0 r1 res r2 -> pool_kept tasks0 c0 r res r2.
Proof.
  intros (_ & _ & Hl1 & Hs1 & Hq1) (-> & Hi2 & Hl2 & Hs2 & Hq2).
  split_and!; try done; try lia.
  intros j Hj. rewrite <- (Hs1 j Hj). apply Hs2. by rewrite (Hs1 j Hj).
Qed.

Lemma run_schedule_spec schedule : forall r,
  pool_inv tasks0 c0 r ->
  wp (run_schedule schedule) r (fun res r' _ => pool_kept tasks0 c0 r res r').
Proof.
  induction schedule as [|i rest IH]; intros r Hinv; simpl.
  - apply wp_ret. by apply pool_kept_refl.
  - apply wp_bind.
    eapply wp_mono; [by apply thread_step_spec|].
    simpl. intros res r1 ev1 (-> & Hinv1 & Hl1 & Hs1 & _ & Hq1).
    eapply wp_mono; [by apply IH|].
    simpl. intros res r2 ev2 Hpost.
    eapply pool_kept_trans; [|exact Hpost]. by split_and!.
Qed.

(** A joined thread has ended: the fuel covers what it has left. *)
Lemma run_thread_spec fuel i : forall r,
  pool_inv tasks0 c0 r -> (work_left i r <= fuel)%nat ->
  wp (run_thread fuel i) r (fun res r' _ =>
    pool_kept tasks0 c0 r res r' /\ terminated (workers r' !! i) = true).
Proof.
  induction fuel as [|fuel IH]; intros r Hinv Hfuel; simpl.
  - apply wp_ret. split; [by apply pool_kept_refl|].
    unfold work_left in Hfuel.
    destruct (workers r !! i) as [[]|]; simpl in *; try done; lia.
  - apply wp_bind, wp_get. simpl.
    destruct (terminated (workers r !! i)) eqn:Ht.
    + apply wp_ret. split; [by apply pool_kept_refl|done].
    + apply wp_bind.
      eapply wp_mono; [by apply thread_step_spec|].
      simpl. intros res r1 ev1 (-> & Hinv1 & Hl1 & Hs1 & Hdec & Hq1).
      specialize (Hdec Ht).
      eapply wp_mono; [apply IH; [done|lia]|].
      simpl. intros res r2 ev2 [Hpost Hterm]. split; [|done].
      eapply pool_kept_trans; [|exact Hpost]. by split_and!.
Qed.

Lemma join_spec i r :
  pool_inv tasks0 c0 r ->
  wp (join i) r (fun res r' _ =>
    pool_kept tasks0 c0 r res r' /\ terminated (workers r' !! i) = true).
Proof.
  intros Hinv. unfold join. apply wp_bind, wp_get. simpl.
  eapply wp_mono; [apply run_thread_spec; [done|]|].
  - unfold work_left. destruct (workers r !! i) as [[]|]; simpl; lia.
  - simpl. by intros res r' ev [Hp Ht].
Qed.

Lemma join_all_spec ts : forall r,
  pool_inv tasks0 c0 r ->
  wp (join_all ts) r (fun res r' _ =>
    pool_kept tasks0 c0 r res r' /\
    forall i, i ∈ ts -> terminated (workers r' !! i) = true).
Proof.
  induction ts as [|i rest IH]; intros r Hinv; simpl.
  - apply wp_ret. split; [by apply pool_kept_refl|].
    intros i Hi. by apply elem_of_nil in Hi.
  - apply wp_bind.
    eapply wp_mono; [by apply join_spec|].
    simpl. intros res r1 ev1 [Hp1 Ht1].
    destruct Hp1 as (-> & Hinv1 & Hl1 & Hs1 & Hq1).
    eapply wp_mono; [by apply IH|].
    simpl. intros res r2 ev2 [Hp2 Ht2]. split.
    + eapply pool_kept_trans; [|exact Hp2]. by split_and!.
    + intros j Hj. apply elem_of_cons in Hj as [->|Hj]; [|by apply Ht2].
      destruct Hp2 as (_ & _ & _ & Hs2 & _). by rewrite (Hs2 _ Ht1).
Qed.

End PoolRun.

Lemma start_threads_spec todo : forall r k,
  workers r = replicate k Idle -> threads r = seq 0 k ->
  wp (start_threads todo) r (fun res r' ev =>
    res = Ret tt /\ ev = [] /\
    r' = set_threads (seq 0 (k + todo)) (set_workers (replicate (k + todo) Idle) r)).
Proof.
  induction todo as [|todo IH]; intros r k Hw Ht; simpl.
  - apply wp_ret. rewrite Nat.add_0_r, <- Hw, <- Ht. split_and!; try done.
    by destruct r.
  - apply wp_bind, wp_modify. simpl.
    eapply wp_mono; [apply (IH _ (S k))|].
    + simpl. rewrite Hw. by rewrite <- replicate_cons_app.
    + simpl. rewrite Ht, Hw, length_replicate.
      change (0%nat :: seq 1 k) with (seq 0 (S k)). by rewrite seq_S.
    + simpl. intros res r' ev (-> & -> & ->).
      rewrite Nat.add_succ_r. split_and!; try done.
Qed.

Lemma bind_all_done {B} (g : wstate -> list B) ws :
  g Done = [] -> Forall (eq Done) ws -> ws ≫= g = [].
Proof.
  intros Hg. induction 1 as [|w ws <- _ IH]; [done|].
  by rewrite bind_cons, Hg, IH.
Qed.

Lemma bind_all_idle {B} (g : wstate -> list B) n :
  g Idle = [] -> replicate n Idle ≫= g = [].
Proof.
  intros Hg. induction n as [|n IH]; [done|].
  change (replicate (S n) Idle) with (Idle :: replicate n Idle).
  by rewrite bind_cons, Hg, IH.
Qed.

Lemma pool_inv_started r n :
  pool_fresh r ->
  pool_inv (task_queue r) (processed_count r)
    (set_threads (seq 0 n) (set_workers (replicate n Idle) r)).
Proof.
  intros (Hw & Ht & Hi). constructor; simpl.
  - by rewrite length_replicate.
  - apply Forall_forall. intros w Hw'. apply elem_of_replicate in Hw' as [-> _]. done.
  - by rewrite Hi, bind_all_idle.
  - rewrite Hi, bind_all_idle by done. simpl. lia.
  - intros Hd. apply elem_of_replicate in Hd as [Hd _]. done.
Qed.


(** With at least one worker requested, the pool handles every queued task
    once and counts it, whatever the schedule. *)
Lemma run_workers_spec R schedule r :
  1 <= R -> pool_fresh r -> workers_exhaustive R schedule r.
Proof.
  intros HR Hfresh. pose proof Hfresh as (Hw & Ht & Hi).
  set (T := length (task_queue r)).
  set (n := Z.to_nat (Z.min R (Z.of_nat T))).
  unfold workers_exhaustive. fold T.
  change (wp (run_workers (Z.min R (Z.of_nat T)) schedule) r (fun res r' _ =>
    res = Ret tt /\
    Z.of_nat (length (threads r')) = Z.min R (Z.of_nat T) /\
    Forall (eq Done) (workers r') /\
    map snd (invoked r') ≡ₚ task_queue r /\
    length (invoked r') = T /\
    processed_count r' = processed_count r + Z.of_nat T /\
    length (workers r') = length (threads r') /\
    task_queue r' = [])).
  unfold run_workers. fold n. apply wp_bind.
  eapply wp_mono; [apply (start_threads_spec n r 0); by rewrite ?Hw, ?Ht|].
  simpl. intros res r1 ev1 (-> & -> & ->).
  pose proof (pool_inv_started r n Hfresh) as Hinv1.
  set (r1 := set_threads _ _) in *.
  apply wp_bind.
  eapply wp_mono; [by eapply run_schedule_spec|].
  simpl. intros res r2 ev2 (-> & Hinv2 & Hl2 & Hs2 & Hq2).
  apply wp_bind, wp_get. simpl.
  eapply wp_mono; [by eapply join_all_spec|].
  simpl. intros res r3 ev3 [(-> & Hinv3 & Hl3 & Hs3 & Hq3) Hterm].
  assert (length (workers r3) = n) as Hlen.
  { rewrite Hl3, Hl2. subst r1. simpl. apply length_replicate. }
  assert (Forall (eq Done) (workers r3)) as Hdone.
  { apply Forall_forall. intros w Hin.
    apply list_elem_of_lookup in Hin as [i Hi3].
    assert (i ∈ threads r2) as Hith.
    { rewrite (inv_threads _ _ _ Hinv2), <- Hl3.
      apply elem_of_seq. apply lookup_lt_Some in Hi3. lia. }
    specialize (Hterm i Hith). rewrite Hi3 in Hterm.
    destruct Hinv3 as [_ Hal _ _ _]. rewrite Forall_forall in Hal.
    assert (w ∈ workers r3) as Hw3 by (by eapply list_elem_of_lookup_2).
    specialize (Hal w Hw3). destruct w; try done. by specialize (Hal e). }
  assert (task_queue r3 = []) as Hempty.
  { destruct (workers r3) as [|w ws] eqn:Ews.
    - simpl in Hlen. apply length_zero_iff_nil.
      assert (length (task_queue r1) = T) as HT by done. lia.
    - apply (inv_drained _ _ _ Hinv3). rewrite Ews.
      apply Forall_cons in Hdone as [<- _]. set_solver. }
  pose proof (inv_tasks _ _ _ Hinv3) as Htasks.
  pose proof (inv_count _ _ _ Hinv3) as Hcount.
  rewrite (bind_all_done held), Hempty, !app_nil_r in Htasks by done.
  rewrite (bind_all_done in_flight) in Hcount by done. simpl in Hcount.
  assert (length (invoked r3) = T) as HlenI.
  { rewrite <- (length_map snd). by rewrite Htasks. }
  split_and!; try done.
  - rewrite (inv_threads _ _ _ Hinv3), length_seq, Hlen. lia.
  - lia.
  - by rewrite (inv_threads _ _ _ Hinv3), length_seq.
Qed.


(** The pool never lets an exception out. *)
Lemma thread_step_returns i r : wp (thread_step i) r (fun res _ _ => res = Ret tt).
Proof.
  unfold thread_step, wp, try_except.
  destruct (worker_step i r) as [[[[]|e] r1] ev1]; by simpl.
Qed.

Lemma run_schedule_returns schedule : forall r,
  wp (run_schedule schedule) r (fun res _ _ => res = Ret tt).
Proof.
  induction schedule as [|i rest IH]; intros r; simpl; [by apply wp_ret|].
  apply wp_bind. eapply wp_mono; [apply thread_step_returns|].
  simpl. intros res r1 ev1 ->. eapply wp_mono; [apply IH|]. by simpl.
Qed.

Lemma run_thread_returns fuel i : forall r,
  wp (run_thread fuel i) r (fun res _ _ => res = Ret tt).
Proof.
  induction fuel as [|fuel IH]; intros r; simpl; [by apply wp_ret|].
  apply wp_bind, wp_get. simpl.
  destruct (terminated _); [by apply wp_ret|].
  apply wp_bind. eapply wp_mono; [apply thread_step_returns|].
  simpl. intros res r1 ev1 ->. eapply wp_mono; [apply IH|]. by simpl.
Qed.

Lemma join_all_returns ts : forall r,
  wp (join_all ts) r (fun res _ _ => res = Ret tt).
Proof.
  induction ts as [|i rest IH]; intros r; simpl; [by apply wp_ret|].
  apply wp_bind. unfold join. apply wp_bind, wp_get. simpl.
  eapply wp_mono; [apply run_thread_returns|].
  simpl. intros res r1 ev1 ->. eapply wp_mono; [apply IH|]. by simpl.
Qed.

Lemma start_threads_returns todo : forall r,
  wp (start_threads todo) r (fun res _ _ => res = Ret tt).
Proof.
  induction todo as [|todo IH]; intros r; simpl; [by apply wp_ret|].
  apply wp_bind, wp_modify. simpl. eapply wp_mono; [apply IH|]. by simpl.
Qed.

Lemma run_workers_returns n schedule r :
  wp (run_workers n schedule) r (fun res _ _ => res = Ret tt).
Proof.
  unfold run_workers. apply wp_bind.
  eapply wp_mono; [apply start_threads_returns|]. simpl. intros res r1 ev1 ->.
  apply wp_bind.
  eapply wp_mono; [apply run_schedule_returns|]. simpl. intros res r2 ev2 ->.
  apply wp_bind, wp_get. simpl.
  eapply wp_mono; [apply join_all_returns|]. by simpl.
Qed.

(** ** [create_folder_structure]: the ancestors in order *)

Lemma string_length_append (a b : string) :
  String.length (a +:+ b) = (String.length a + String.length b)%nat.
Proof.
  induction a as [|x a IH]; [done|].
  change (S (String.length (a +:+ b)) = S (String.length a + String.length b)).
  by rewrite IH.
Qed.

Lemma ancestors_longer segments : forall cur a,
  a ∈ ancestors_from cur segments -> (String.length cur < String.length a)%nat.
Proof.
  induction segments as [|seg rest IH]; intros cur a Ha; simpl in Ha.
  - by apply elem_of_nil in Ha.
  - apply elem_of_cons in Ha as [->|Ha].
    + rewrite !string_length_append. simpl. lia.
    + apply IH in Ha. rewrite !string_length_append in Ha. simpl in Ha. lia.
Qed.

Lemma filter_ext_in {A} (P Q : A -> Prop) `{!forall x, Decision (P x)}
    `{!forall x, Decision (Q x)} (l : list A) :
  (forall x, x ∈ l -> P x <-> Q x) -> filter P l = filter Q l.
Proof.
  induction l as [|x l IH]; intros Hl; [done|].
  rewrite !filter_cons.
  assert (P x <-> Q x) as Hx by (apply Hl; left).
  rewrite IH by (intros y Hy; apply Hl; by right).
  destruct (decide (P x)), (decide (Q x)); tauto.
Qed.

Lemma ensured_false_block host a rest ev_a :
  calls_in (folder_call host a) ev_a -> existsb folder_ok ev_a = false ->
  ensured host (a :: rest) false ev_a.
Proof. apply ensured_stop. Qed.

Lemma folder_structure_loop_spec parts : forall cur r,
  configured (uploader (sys r)) = true ->
  wp (folder_structure_loop parts cur) r (fun res r' ev =>
    let todo :=
      filter (fun a => a ∉ created_folders r)
        (ancestors_from cur (filter (fun seg => PyStr.truthy seg = true) parts)) in
    exists ok,
      res = Ret ok /\
      ensured (host_of (uploader (sys r))) todo ok ev /\
      folders_frame r r' /\
      sys r' = set_remote (remote (sys r')) (sys r) /\
      created_folders r ⊆ created_folders r' /\
      (ok = true -> created_folders r' = created_folders r ∪ list_to_set todo)).
Proof.
  induction parts as [|part parts IH]; intros cur r Hc; simpl.
  - apply wp_ret. exists true. split_and!; try done.
    + constructor.
    + apply folders_frame_refl.
    + apply remote_frame_refl.
    + intros _. simpl. by rewrite (right_id_L ∅ (∪)).
  - destruct (PyStr.truthy part) eqn:Hpart; simpl.
    2: { rewrite filter_cons_False by congruence. by apply IH. }
    rewrite filter_cons_True by done. simpl.
    set (cur' := cur +:+ "/" +:+ part).
    apply wp_bind, wp_get. simpl.
    destruct (bool_decide (cur' ∈ created_folders r)) eqn:Hin.
    { apply bool_decide_eq_true in Hin.
      rewrite filter_cons_False by (intros Hn; by apply Hn). by apply IH. }
    apply bool_decide_eq_false in Hin.
    rewrite filter_cons_True by done.
    apply wp_bind, wp_emit. simpl. apply wp_bind, wp_lift.
    eapply wp_mono; [by apply create_folder_spec|].
    simpl. intros res s1 ev1 (Hs1 & (v & -> & _ & Hok) & Hcalls).
    destruct (truth v) eqn:Hv; simpl.
    + apply wp_bind, wp_modify. simpl.
      eapply wp_mono; [apply IH; simpl; by rewrite Hs1|].
      simpl. intros res r2 ev2 (ok & -> & Hens & Hf & Hsys & Hsub & Hcr).
      assert (filter (fun a => a ∉ {[cur']} ∪ created_folders r)
                (ancestors_from cur' (filter (fun seg => PyStr.truthy seg = true) parts))
              = filter (fun a => a ∉ created_folders r)
                (ancestors_from cur' (filter (fun seg => PyStr.truthy seg = true) parts)))
        as Hfilter.
      { apply filter_ext_in. intros a Ha. apply ancestors_longer in Ha.
        assert (a <> cur') as Hne by (intros ->; lia).
        rewrite not_elem_of_union, not_elem_of_singleton. tauto. }
      rewrite Hfilter in Hens, Hcr.
      exists ok. split; [done|]. split_and!.
      * replace (ELog "CustomerStructureReplicator" INFO
                   ("-> Creating folder: " +:+ cur') :: ev1 ++ ev2)
          with ((ELog "CustomerStructureReplicator" INFO
                   ("-> Creating folder: " +:+ cur') :: ev1) ++ ev2) by done.
        apply ensured_next.
        -- apply calls_in_cons. by split.
        -- simpl. congruence.
        -- by rewrite (remote_frame_uploader _ _ Hs1) in Hens.
      * eapply folders_frame_trans; [|exact Hf]. by destruct r.
      * simpl in Hsys. eapply remote_frame_trans; [exact Hs1|exact Hsys].
      * simpl in Hsub. etrans; [apply union_subseteq_r|exact Hsub].
      * intros Hok'. rewrite (Hcr Hok'). simpl.
        rewrite (comm_L (∪) {[cur']} (created_folders r)).
        by rewrite <- (assoc_L (∪)).
    + apply wp_bind, wp_emit. apply wp_ret. simpl.
      exists false. split; [done|]. split_and!.
      * apply ensured_stop.
        -- apply calls_in_cons. split; [done|]. apply calls_in_app.
           split; [done|solve_calls].
        -- simpl. by rewrite existsb_app, Hok.
      * by destruct r.
      * exact Hs1.
      * done.
      * discriminate.
Qed.

Lemma create_folder_structure_spec folder r :
  configured (uploader (sys r)) = true ->
  wp (create_folder_structure folder) r (fun res r' ev =>
    let todo := filter (fun a => a ∉ created_folders r) (ancestors folder) in
    exists ok,
      res = Ret ok /\
      ensured (host_of (uploader (sys r))) todo ok ev /\
      created_folders r ⊆ created_folders r' /\
      (ok = true -> created_folders r' = created_folders r ∪ list_to_set todo)).
Proof.
  intros Hc. unfold create_folder_structure. apply wp_try_except.
  eapply wp_mono; [by apply folder_structure_loop_spec|].
  simpl. intros res r' ev (ok & -> & Hens & _ & _ & Hsub & Hcr).
  exists ok. by split_and!.
Qed.



(** *** The first loop of [replicate_structure], row by row *)

Lemma create_folder_structure_ensured folder r :
  configured (uploader (sys r)) = true ->
  wp (create_folder_structure folder) r (fun res r' ev =>
    let todo := filter (fun a => a ∉ created_folders r) (ancestors folder) in
    exists ok,
      res = Ret ok /\
      ensured (host_of (uploader (sys r))) todo ok ev /\
      folders_frame r r' /\
      sys r' = set_remote (remote (sys r')) (sys r) /\
      created_folders r ⊆ created_folders r' /\
      (ok = true -> created_folders r' = created_folders r ∪ list_to_set todo)).
Proof.
  intros Hc. unfold create_folder_structure. apply wp_try_except.
  eapply wp_mono; [by apply folder_structure_loop_spec|].
  simpl. intros res r' ev (ok & -> & Hens & Hf & Hs & Hsub & Hcr).
  exists ok. by split_and!.
Qed.

Lemma create_entry_folders_created e r :
  configured (uploader (sys r)) = true -> is_Some (asset_count e) ->
  wp (create_entry_folders e) r (fun res r' ev =>
    res = Ret tt /\ folders_frame r r' /\
    sys r' = set_remote (remote (sys r')) (sys r) /\
    forall rest ev_rest,
      folders_created (host_of (uploader (sys r))) (created_folders r') rest ev_rest ->
      folders_created (host_of (uploader (sys r))) (created_folders r) (e :: rest)
        (ev ++ ev_rest)).
Proof.
  intros Hc [c Hcnt].
  destruct (PyStr.int (PyStr.strip c)) as [n|] eqn:En.
  - destruct (n =? 0) eqn:E0.
    + apply Z.eqb_eq in E0. subst n.
      assert (counts e 0) as Hz by (by exists c).
      unfold wp. rewrite (create_entry_folders_zero e r Hz). simpl.
      split_and!; [done|apply folders_frame_refl|apply remote_frame_refl|].
      intros rest ev_rest Hrest. by apply created_zero.
    + apply Z.eqb_neq in E0.
      assert (counts e n) as Hn by (by exists c).
      unfold create_entry_folders, int_asset_count. rewrite Hcnt, En.
      apply wp_bind, wp_except_ValueError. wp_steps.
      assert ((n =? 0) = false) as -> by (by apply Z.eqb_neq).
      apply wp_bind, wp_emit. simpl. apply wp_bind.
      eapply wp_mono; [by apply create_folder_structure_ensured|].
      simpl. intros res r' ev (ok & -> & Hens & Hf & Hs & Hsub & Hcr).
      destruct ok; simpl.
      * apply wp_ret. split_and!; [done|done|done|].
        intros rest ev_rest Hrest. rewrite app_nil_r.
        change (ELog "CustomerStructureReplicator" INFO
                  ("Creating folder structure for " +:+ PyStr.strip (folder e)))
          with (log_creating_structure e).
        change ((log_creating_structure e :: ev) ++ ev_rest)
          with (log_creating_structure e :: ev ++ ev_rest).
        by apply (created_row _ _ _ _ n _ true ev ev_rest Hn E0 Hens Hsub Hcr).
      * apply wp_emit. split_and!; [done|done|done|].
        intros rest ev_rest Hrest.
        change (ELog "CustomerStructureReplicator" INFO
                  ("Creating folder structure for " +:+ PyStr.strip (folder e)))
          with (log_creating_structure e).
        change (ELog "CustomerStructureReplicator" ERROR
                  ("Failed to create folder structure for " +:+ PyStr.strip (folder e)))
          with (log_structure_failed e).
        simpl. rewrite <- app_assoc.
        by apply (created_row _ _ _ _ n _ false ev ev_rest Hn E0 Hens Hsub Hcr).
  - assert (non_numeric e) as Hnn by (by exists c).
    unfold wp. rewrite (create_entry_folders_non_numeric e r Hnn). simpl.
    split_and!; [done|apply folders_frame_refl|apply remote_frame_refl|].
    intros rest ev_rest Hrest. by apply created_invalid.
Qed.

(** The first loop gives every row its turn, in order. *)
Lemma create_all_folders_created structure : forall r,
  configured (uploader (sys r)) = true ->
  Forall (fun e => is_Some (asset_count e)) structure ->
  wp (create_all_folders structure) r (fun res r' ev =>
    res = Ret tt /\ folders_frame r r' /\
    sys r' = set_remote (remote (sys r')) (sys r) /\
    folders_created (host_of (uploader (sys r))) (created_folders r) structure ev).
Proof.
  induction structure as [|e rest IH]; intros r Hc Hall; simpl.
  - apply wp_ret.
    split_and!; [done|apply folders_frame_refl|apply remote_frame_refl|constructor].
  - apply Forall_cons in Hall as [He Hrest].
    apply wp_bind.
    eapply wp_mono; [by apply create_entry_folders_created|].
    simpl. intros res r1 ev1 (-> & Hf1 & Hs1 & Hrow).
    pose proof (remote_frame_uploader _ _ Hs1) as Hu1.
    eapply wp_mono; [apply IH; [by rewrite Hu1|done]|].
    simpl. intros res r2 ev2 (-> & Hf2 & Hs2 & Hrows).
    split_and!; [done|by eapply folders_frame_trans|by eapply remote_frame_trans|].
    apply Hrow. by rewrite <- Hu1.
Qed.

(** ** The destination root after [process_image] *)

Lemma destination_under_root u date host root :
  aem_destination u = Some root ->
  forall m st url r,
    initiate_call host (destination_of u date) m st url r ->
    under_root host root m st url r.
Proof.
  intros Hd m st url r (_ & _ & ->) _. unfold destination_of. rewrite Hd. simpl.
  destruct (default false (put_into_date_folder u)).
  - eexists. by rewrite !append_assoc.
  - by eexists.
Qed.

Lemma upload_under_root img date tgs s root :
  configured (uploader s) = true ->
  aem_destination (uploader s) = Some root ->
  wp (upload img date tgs) s (fun res s' ev =>
    (exists ok, res = Ret ok) /\ uploader s' = uploader s /\
    calls_in (under_root (host_of (uploader s)) root) ev).
Proof.
  intros Hc Hd.
  eapply wp_mono; [by apply upload_spec|].
  simpl. intros res s' ev (Hs & ok & evF & evI & evT & evC & -> & -> & HF & HI & Hsh & _).
  split; [by eexists|]. split; [by eapply remote_frame_uploader|].
  destruct Hsh as (_ & HT & HC & _).
  rewrite !calls_in_app. split_and!.
  - eapply calls_in_mono; [exact HF|].
    intros m st url r [-> | ->] ?; done.
  - eapply calls_in_mono; [exact HI|]. by apply destination_under_root.
  - eapply calls_in_mono; [exact HT|]. intros m st url r [_ ->] ?; done.
  - eapply calls_in_mono; [exact HC|]. intros m st url r [_ ->] ?; done.
Qed.

Lemma process_image_close_spec g s root :
  configured (uploader s) = true ->
  aem_destination (uploader s) = Some root ->
  wp (process_image_close g) s (fun res s' ev =>
    res = Ret tt /\ uploader s' = uploader s /\
    calls_in (under_root (host_of (uploader s)) root) ev).
Proof.
  intros Hc Hd. unfold process_image_close.
  apply wp_bind, wp_get. simpl.
  assert (aem_enabled (uploader s) = true) as ->.
  { by destruct (configured_inv _ Hc) as (? & ? & ? & ? & ? & ->). }
  apply wp_bind, wp_bind.
  eapply wp_mono; [by apply upload_under_root|].
  simpl. intros res s1 ev1 ([ok ->] & Hu & Hcalls).
  apply wp_ret. rewrite app_nil_r.
  apply wp_bind, wp_modify. simpl. apply wp_emit. simpl.
  split_and!; [done|done|].
  apply calls_in_app. split; [done|solve_calls].
Qed.

(** A call without target folder keeps the destination root and uploads
    below it. *)
Lemma process_image_plain_spec p s root :
  configured (uploader s) = true ->
  aem_destination (uploader s) = Some root ->
  wp (process_image p None) s (fun res s' ev =>
    res = Ret tt /\ uploader s' = uploader s /\
    calls_in (under_root (host_of (uploader s)) root) ev).
Proof.
  intros Hc Hd. unfold process_image. apply wp_try_except, wp_bind.
  unfold process_image_open. apply wp_bind.
  assert (aem_enabled (uploader s) = true) as Hen.
  { by destruct (configured_inv _ Hc) as (? & ? & ? & ? & ? & ->). }
  unfold wp at 1, generate.
  destruct (studio s) as [|[g|] gs]; simpl.
  - unfold process_image_failed. apply wp_emit. split_and!; [done|done|solve_calls].
  - apply wp_bind, wp_get. simpl. rewrite Hen. apply wp_bind, wp_ret. simpl.
    apply wp_ret. simpl.
    eapply wp_mono; [by apply process_image_close_spec|].
    simpl. intros res s1 ev1 (-> & Hu & Hcalls). done.
  - unfold process_image_failed. apply wp_emit. split_and!; [done|done|solve_calls].
Qed.

Lemma process_images_spec queue : forall s root,
  configured (uploader s) = true ->
  aem_destination (uploader s) = Some root ->
  wp (process_images queue) s (fun res s' ev =>
    res = Ret tt /\ uploader s' = uploader s /\
    calls_in (under_root (host_of (uploader s)) root) ev).
Proof.
  induction queue as [|p rest IH]; intros s root Hc Hd; simpl.
  - apply wp_ret. split_and!; [done|done|constructor].
  - apply wp_bind.
    eapply wp_mono; [by apply process_image_plain_spec|].
    simpl. intros res s1 ev1 (-> & Hu1 & Hc1).
    eapply wp_mono; [apply (IH s1 root); by rewrite Hu1|].
    simpl. intros res s2 ev2 (-> & Hu2 & Hc2).
    split_and!; [done|congruence|].
    apply calls_in_app. split; [done|]. by rewrite Hu1 in Hc2.
Qed.

(** A call with a non-empty target folder, when the image is generated,
    leaves that folder as the destination root. *)
Lemma process_image_target_spec p f g gs s :
  configured (uploader s) = true -> PyStr.truthy f = true ->
  studio s = Some g :: gs ->
  wp (process_image p (Some f)) s (fun res s' ev =>
    res = Ret tt /\
    uploader s' = set_aem_destination f (uploader s) /\
    calls_in (under_root (host_of (uploader s)) f) ev).
Proof.
  intros Hc Hf Hst. unfold process_image. apply wp_try_except, wp_bind.
  unfold process_image_open. apply wp_bind.
  assert (aem_enabled (uploader s) = true) as Hen.
  { by destruct (configured_inv _ Hc) as (? & ? & ? & ? & ? & ->). }
  unfold wp at 1, generate. rewrite Hst. simpl.
  apply wp_bind, wp_get. simpl. rewrite Hen, Hf. apply wp_bind, wp_modify. simpl.
  apply wp_ret. simpl.
  set (s1 := set_uploader _ _).
  assert (configured (uploader s1) = true) as Hc1.
  { subst s1. simpl.
    by destruct (configured_inv _ Hc) as (? & ? & ? & ? & ? & ->). }
  eapply wp_mono; [apply (process_image_close_spec g s1 f); [done|done]|].
  simpl. intros res s2 ev2 (-> & Hu & Hcalls). split_and!; [done|done|].
  subst s1. simpl in Hcalls.
  by destruct (configured_inv _ Hc) as (? & ? & ? & ? & ? & Hu0); rewrite Hu0 in *.
Qed.

(** *** A whole run: the rows' tasks are the tasks handled *)

Lemma replicate_body_handles structure schedule r R :
  Forall (fun e => is_Some (asset_count e)) structure -> img_dir r <> [] ->
  PyStr.int (getenv (environ r) "NUM_THREADS" "4") = Some R -> 1 <= R ->
  pool_fresh r -> task_queue r = [] ->
  wp (replicate_body structure schedule) r (fun res r' ev =>
    res = Ret Continue /\
    (forall e, e ∈ structure -> non_numeric e -> log_invalid_count e ∈ ev) /\
    exists blocks,
      Forall2 (block_for (img_dir r)) structure blocks /\
      Z.of_nat (length (threads r')) = Z.min R (Z.of_nat (length (concat blocks))) /\
      length (workers r') = length (threads r') /\
      Forall (eq Done) (workers r') /\
      task_queue r' = [] /\
      map snd (invoked r') ≡ₚ concat blocks /\
      processed_count r' = processed_count r + Z.of_nat (length (concat blocks))).
Proof.
  intros Hall Hdir HR HR1 Hfresh Hq. unfold replicate_body. apply wp_bind.
  eapply wp_mono; [by apply create_all_folders_spec|].
  simpl. intros res r1 ev1 (-> & Hf & Hlogs).
  apply wp_bind, wp_get. simpl.
  destruct (folders_frame_fields _ _ Hf)
    as (Hd & Henv & Hq1 & Hi1 & Hp1 & Ht1 & Hw1 & _).
  rewrite bool_decide_eq_false_2 by congruence.
  apply wp_bind.
  eapply wp_mono; [apply queue_all_spec; [congruence|done]|].
  simpl. intros res r2 ev2 (blocks & -> & -> & -> & Hblocks).
  apply wp_bind. unfold requested_threads. apply wp_bind, wp_get. simpl.
  rewrite Henv, HR. apply wp_ret. simpl.
  apply wp_bind, wp_emit. simpl. apply wp_bind.
  set (r2 := set_dice _ _).
  assert (pool_fresh r2) as Hfresh2.
  { destruct Hfresh as (Hw & Ht & Hi). subst r2. split_and!; simpl; congruence. }
  assert (task_queue r2 = concat blocks) as Hq2.
  { subst r2. simpl. by rewrite Hq1, Hq. }
  pose proof (run_workers_spec R schedule r2 HR1 Hfresh2) as Hpool.
  unfold workers_exhaustive in Hpool. rewrite Hq2 in Hpool.
  destruct Hpool as (Hret & Hth & Hdone & Hperm & _ & Hcount & Hlen & Hempty).
  unfold wp. unfold outcome_of, state_after in Hret, Hth, Hdone, Hperm, Hcount, Hlen, Hempty.
  destruct (run_workers _ schedule r2) as [[res3 r3] ev3] eqn:E.
  simpl in *. subst res3. split; [done|]. split.
  - intros e He Hnn. apply elem_of_app. left. by apply Hlogs.
  - exists blocks. split_and!; try done.
    + by rewrite <- Hd.
    + by rewrite Hcount, Hp1.
Qed.

(** From a fresh replicator with the override installed, at least one worker
    requested and a non-empty pool, the run goes through all its phases and
    its pool handles the tasks of the rows. *)
Lemma replicate_structure_handles_blocks schedule r R b :
  enabled r = true -> structure_file r <> [] -> date_flag r = Some b ->
  Forall (fun e => is_Some (asset_count e)) (structure_file r) ->
  img_dir r <> [] ->
  PyStr.int (getenv (environ r) "NUM_THREADS" "4") = Some R -> 1 <= R ->
  pool_fresh r -> task_queue r = [] ->
  pool_exhaustive R schedule r /\
  run_continues schedule r /\
  (forall e, e ∈ structure_file r -> non_numeric e ->
             log_invalid_count e ∈ events_of (replicate_structure schedule) r).
Proof.
  intros Hen Hst Hfl Hall Hdir HR HR1 Hfresh Hq.
  unfold pool_exhaustive, run_continues, outcome_of, state_after, events_of.
  rewrite (replicate_structure_run schedule r b Hen Hst Hfl).
  destruct (wp_elim _ _ _
              (replicate_body_handles (structure_file r) schedule
                 (with_date_flag false r) R Hall Hdir HR HR1 Hfresh Hq))
    as (res & r1 & ev1 & E & -> & Hlogs & blocks & Hblocks & Hth & Hlen & Hdone
        & Hempty & Hperm & Hcount).
  rewrite E. simpl. split_and!.
  - by exists blocks.
  - done.
  - right. apply elem_of_app. right. by left.
  - intros e He Hnn. right. apply elem_of_app. left. by apply Hlogs.
Qed.

(** *** A whole run starts with the first loop over the rows *)

Lemma configured_with_flag b u :
  configured u = true -> configured (set_put_into_date_folder b u) = true.
Proof. intros Hc. by destruct (configured_inv _ Hc) as (? & ? & ? & ? & ? & ->). Qed.

Lemma replicate_body_first_loop structure schedule r :
  configured (uploader (sys r)) = true ->
  Forall (fun e => is_Some (asset_count e)) structure ->
  wp (replicate_body structure schedule) r (fun _ _ ev =>
    exists ev1 ev2,
      ev = ev1 ++ ev2 /\
      folders_created (host_of (uploader (sys r))) (created_folders r) structure ev1).
Proof.
  intros Hc Hall. unfold replicate_body. apply wp_bind.
  eapply wp_mono; [by apply create_all_folders_created|].
  simpl. intros res r1 ev1 (-> & _ & _ & Hrows).
  eapply wp_mono; [apply wp_any|]. simpl. intros res2 r2 ev2 _. by exists ev1, ev2.
Qed.

Lemma replicate_structure_first_loop schedule r b :
  enabled r = true -> structure_file r <> [] -> date_flag r = Some b ->
  configured (uploader (sys r)) = true ->
  Forall (fun e => is_Some (asset_count e)) (structure_file r) ->
  exists ev1 ev2,
    events_of (replicate_structure schedule) r = log_started :: ev1 ++ ev2 /\
    folders_created (host_of (uploader (sys r))) (created_folders r)
      (structure_file r) ev1.
Proof.
  intros Hen Hst Hfl Hc Hall. unfold events_of.
  rewrite (replicate_structure_run schedule r b Hen Hst Hfl).
  assert (configured (uploader (sys (with_date_flag false r))) = true) as Hc'
    by (by apply configured_with_flag).
  destruct (wp_elim _ _ _
              (replicate_body_first_loop (structure_file r) schedule
                 (with_date_flag false r) Hc' Hall))
    as (res & r1 & ev & E & ev1 & ev2 & -> & Hrows).
  rewrite E.
  assert (host_of (uploader (sys (with_date_flag false r))) = host_of (uploader (sys r)))
    as Hhost by reflexivity.
  rewrite Hhost in Hrows. change (created_folders (with_date_flag false r))
    with (created_folders r) in Hrows.
  destruct res as [[[]|]|e]; simpl.
  - by exists ev1, ev2.
  - exists ev1, (ev2 ++ [log_completed]). by rewrite app_assoc.
  - by exists ev1, ev2.
Qed.

(** ** Main results *)


(** C1 (as the code behaves): an uploader built with uploads disabled has no
    [logger] attribute, so [upload], which logs before it returns true, raises
    [AttributeError] for every asset, capture time and tag list; it makes no
    request and leaves the state as it was. *)
Theorem upload_disabled_raises env token img date tgs s :
  aem_enabled (AEMUploader_init env token) = false ->
  uploader s = AEMUploader_init env token ->
  upload img date tgs s = (Raise (AttributeError "logger"), s, []).
Proof.
  intros Hoff Hu.
  assert (logger (uploader s) = None) as Hlog.
  { rewrite Hu. unfold AEMUploader_init in *.
    by destruct (String.eqb _ "true"). }
  assert (wp (upload img date tgs) s (fun r s' ev =>
            r = Raise (AttributeError "logger") /\ s' = s /\ ev = [])) as H.
  { unfold upload. apply wp_bind, wp_get. simpl. rewrite Hu, Hoff. simpl.
    apply wp_bind, wp_ulog. by rewrite Hlog. }
  destruct (wp_elim _ _ _ H) as (r & s' & ev & E & -> & -> & ->). exact E.
Qed.

Lemma upload_disabled_raises_witness :
  upload demo_image demo_date ["findme"]
    (demo_sys (AEMUploader_init ∅ None) [] [])
  = (Raise (AttributeError "logger"), demo_sys (AEMUploader_init ∅ None) [] [], []).
Proof. apply (upload_disabled_raises ∅ None); reflexivity. Defined.

(** C3: [_create_folder] with the default bounds (3 attempts, 2 seconds) on
    a configured uploader: when the existence check answers 200 it returns
    true after one attempt and no creation request; after [N < 3] failed
    attempts and a successful one it returns true after [N + 1] attempts,
    pausing 2 seconds after each failure; after 3 failed attempts it returns
    false after exactly 3 attempts with two pauses of 2 seconds; and for
    every behaviour of the remote it returns a boolean and does not raise. *)
Theorem ensure_folder_retry_bound folder s :
  configured (uploader s) = true ->
  (forall b rest,
     remote s = Resp 200 b :: rest ->
     exists ev,
       _create_folder folder 3 2 s = (Ret (Some true), set_remote rest s, ev) /\
       attempts ev = 1%nat /\ calls_of FolderCreate ev = []) /\
  (forall fs ok rest,
     Forall (fun rs => attempt_fails rs = true) fs ->
     attempt_succeeds ok = true -> (length fs < 3)%nat ->
     remote s = concat fs ++ ok ++ rest ->
     exists ev,
       _create_folder folder 3 2 s = (Ret (Some true), set_remote rest s, ev) /\
       attempts ev = S (length fs) /\
       Forall (eq (ESleep 2)) (sleeps ev) /\ (length fs <= length (sleeps ev))%nat) /\
  (forall fs rest,
     Forall (fun rs => attempt_fails rs = true) fs -> (3 <= length fs)%nat ->
     remote s = concat fs ++ rest ->
     exists ev,
       _create_folder folder 3 2 s
       = (Ret (Some false), set_remote (concat (drop 3 fs) ++ rest) s, ev) /\
       attempts ev = 3%nat /\ sleeps ev = [ESleep 2; ESleep 2]) /\
  (exists b s' ev, _create_folder folder 3 2 s = (Ret (Some b), s', ev)).
Proof.
  intros Hc. split_and!.
  - intros b rest Hr.
    destruct (wp_elim _ _ _ (create_folder_exists folder 3 2 s b rest Hc eq_refl Hr))
      as (r & s' & ev & E & -> & -> & Hat & Hcr & _).
    by exists ev.
  - intros fs ok rest Hfs Hok Hlen Hr.
    destruct (wp_elim _ _ _
                (create_folder_loop_retries folder 3 2 fs 3 0 s ok rest
                   Hc ltac:(lia) Hfs Hok Hlen eq_refl Hr))
      as (r & s' & ev & E & -> & -> & Hat & Hsl & Hn).
    by exists ev.
  - intros fs rest Hfs Hlen Hr.
    destruct (wp_elim _ _ _
                (create_folder_loop_gives_up folder 3 2 fs 3 0 s rest
                   Hc ltac:(lia) Hfs ltac:(lia) eq_refl Hr))
      as (r & s' & ev & E & -> & -> & Hat & Hsl).
    by exists ev.
  - destruct (wp_elim _ _ _ (create_folder_spec folder 3 2 s Hc ltac:(lia)))
      as (r & s' & ev & E & _ & (v & -> & Hv & _) & _).
    destruct (Hv ltac:(lia)) as [b ->]. by exists b, s', ev.
Qed.

Lemma ensure_folder_retry_bound_witness :
  exists ev,
    _create_folder "/content/dam/customers" 3 2
      (demo_sys demo_uploader
         [Fault ConnectionError; Resp 404 JFalsy; Resp 500 JFalsy;
          Resp 404 JFalsy; Resp 201 JFalsy; Resp 200 JFalsy] [])
    = (Ret (Some true), demo_sys demo_uploader [Resp 200 JFalsy] [], ev) /\
    attempts ev = 3%nat /\
    Forall (eq (ESleep 2)) (sleeps ev) /\ (2 <= length (sleeps ev))%nat.
Proof.
  destruct (ensure_folder_retry_bound "/content/dam/customers"
              (demo_sys demo_uploader
                 [Fault ConnectionError; Resp 404 JFalsy; Resp 500 JFalsy;
                  Resp 404 JFalsy; Resp 201 JFalsy; Resp 200 JFalsy] []) eq_refl)
    as (_ & H & _).
  apply (H [[Fault ConnectionError]; [Resp 404 JFalsy; Resp 500 JFalsy]]
           [Resp 404 JFalsy; Resp 201 JFalsy] [Resp 200 JFalsy]).
  - repeat constructor.
  - reflexivity.
  - simpl. lia.
  - reflexivity.
Defined.

(** C4: on a configured uploader [upload] does not raise, and its events
    fall into four consecutive parts: the folder requests, then the requests
    of the initiate step, then of the binary transfer, then of the finalize
    step, related as [session_shape] says: no transfer and no finalize
    request without a granted initiate; a finalize request only after every
    signed URI of the grant got an accepted transfer; a failure at one step
    leaves the later parts without requests and makes [upload] return false. *)
Theorem upload_protocol_order img date tgs s :
  configured (uploader s) = true ->
  exists ok s' evF evI evT evC,
    upload img date tgs s = (Ret ok, s', evF ++ evI ++ evT ++ evC) /\
    calls_in folder_step evF /\
    session_shape ok evI evT evC.
Proof.
  intros Hc.
  destruct (wp_elim _ _ _ (upload_spec img date tgs s Hc))
    as (r & s' & ev & E & _ & ok & evF & evI & evT & evC & -> & -> & HF & _ & Hsh & _).
  by exists ok, s', evF, evI, evT, evC.
Qed.

Lemma upload_protocol_order_witness :
  exists ok s' evF evI evT evC,
    upload demo_image demo_date ["findme"]
      (demo_sys demo_uploader
         [Resp 200 demo_grant; Resp 201 JFalsy; Resp 503 JFalsy] [])
    = (Ret ok, s', evF ++ evI ++ evT ++ evC) /\
    calls_in folder_step evF /\
    session_shape ok evI evT evC.
Proof. apply upload_protocol_order. reflexivity. Defined.

(** C5: for the signed URIs [uris] of a grant and a readable file, on a
    configured uploader, [_upload_binary] returns a boolean; its requests are
    PUT transfers to a prefix of [uris] in order, one each; it returns true
    exactly when every URI got a transfer answered 200, 201 or 204; when it
    returns false the last transfer is the refused one and no later URI was
    tried.  With three URIs and the second transfer refused there are
    exactly two transfers and the result is false. *)
Theorem upload_binary_transfers img uris tok cu s :
  configured (uploader s) = true -> readable img = true ->
  (exists ok s' ev,
     _upload_binary img (Some (JInfo (Some uris) tok cu)) s = (Ret ok, s', ev) /\
     calls_in transfer_step ev /\
     transfer_shape uris ok (calls ev)) /\
  (forall u1 u2 u3 r1 r2 rest,
     uris = [u1; u2; u3] -> remote s = r1 :: r2 :: rest ->
     reply_accepted r1 = true -> reply_accepted r2 = false ->
     exists ev,
       _upload_binary img (Some (JInfo (Some uris) tok cu)) s
       = (Ret false, set_remote rest s, ev) /\
       calls ev = [ECall PUT Transfer u1 r1; ECall PUT Transfer u2 r2]).
Proof.
  intros Hc Hread. split.
  - destruct (wp_elim _ _ _
                (upload_binary_spec img (Some (JInfo (Some uris) tok cu)) s Hc))
      as (r & s' & ev & E & _ & Hcalls & ok & -> & Hshape).
    simpl in Hshape. rewrite Hread in Hshape. by exists ok, s', ev.
  - intros u1 u2 u3 r1 r2 rest -> Hr H1 H2.
    destruct (wp_elim _ _ _
                (upload_binary_second_refused img u1 u2 u3 tok cu r1 r2 rest s
                   Hc Hread Hr H1 H2))
      as (r & s' & ev & E & -> & -> & Hcalls).
    by exists ev.
Qed.

Lemma upload_binary_transfers_witness :
  exists ev,
    _upload_binary demo_image (Some demo_grant)
      (demo_sys demo_uploader [Resp 201 JFalsy; Resp 503 JFalsy; Resp 200 JFalsy] [])
    = (Ret false, demo_sys demo_uploader [Resp 200 JFalsy] [], ev) /\
    calls ev = [ECall PUT Transfer "https://blob/1" (Resp 201 JFalsy);
                ECall PUT Transfer "https://blob/2" (Resp 503 JFalsy)].
Proof.
  destruct (upload_binary_transfers demo_image
              ["https://blob/1"; "https://blob/2"; "https://blob/3"]
              (Some "upload-token") (Some "/content/dam/images.completeUpload.json")
              (demo_sys demo_uploader
                 [Resp 201 JFalsy; Resp 503 JFalsy; Resp 200 JFalsy] [])
              eq_refl eq_refl) as [_ H].
  exact (H "https://blob/1" "https://blob/2" "https://blob/3"
           (Resp 201 JFalsy) (Resp 503 JFalsy) [Resp 200 JFalsy]
           eq_refl eq_refl eq_refl eq_refl).
Defined.






(** C2: whatever the run does, the date-partitioning flag after
    [replicate_structure] is the flag before it.  When the override is
    installed (replicator enabled, rows to work on, flag attribute there), the
    run is its [try] block started with the flag false, followed on every
    exit, normal or exceptional, by writing the saved value back
    ([finish_run]); the block ends with the flag still false, and neither the
    block, nor either of its loops, nor the pool, nor any single atomic action
    of a worker thread ever changes the flag. *)
Theorem date_flag_restored schedule r :
  date_flag (state_after (replicate_structure schedule) r) = date_flag r /\
  (forall b,
     enabled r = true -> structure_file r <> [] -> date_flag r = Some b ->
     replicate_structure schedule r
     = finish_run b (replicate_body (structure_file r) schedule (with_date_flag false r)) /\
     date_flag (with_date_flag false r) = Some false /\
     date_flag (state_after (replicate_body (structure_file r) schedule)
                  (with_date_flag false r)) = Some false) /\
  (forall structure, preserves date_flag (replicate_body structure schedule)) /\
  (forall structure, preserves date_flag (create_all_folders structure)) /\
  (forall structure pool total, preserves date_flag (queue_all structure pool total)) /\
  (forall n, preserves date_flag (run_workers n schedule)) /\
  (forall i, preserves date_flag (thread_step i)).
Proof.
  split_and!.
  - apply replicate_structure_flag.
  - intros b Hen Hst Hfl. split_and!.
    + by apply replicate_structure_run.
    + reflexivity.
    + by rewrite preserves_flag_replicate_body.
  - intros. apply preserves_flag_replicate_body.
  - intros. apply preserves_flag_create_all.
  - intros. apply preserves_flag_queue_all.
  - intros. apply preserves_flag_run_workers.
  - intros. apply preserves_flag_thread_step.
Qed.

Lemma date_flag_restored_witness :
  replicate_structure [0; 1]%nat demo_broken_row
  = finish_run true
      (replicate_body (structure_file demo_broken_row) [0; 1]%nat
         (with_date_flag false demo_broken_row)) /\
  date_flag (with_date_flag false demo_broken_row) = Some false /\
  date_flag (state_after (replicate_body (structure_file demo_broken_row) [0; 1]%nat)
               (with_date_flag false demo_broken_row)) = Some false.
Proof.
  destruct (date_flag_restored [0; 1]%nat demo_broken_row) as (_ & H & _).
  apply (H true).
  - reflexivity.
  - discriminate.
  - reflexivity.
Defined.

(** C10: on a configured uploader, a call of [process_image] with a
    non-empty target folder whose image is generated leaves that folder as
    the uploader's destination root; any number of later calls without a
    target folder return normally, leave it there, and send every initiate
    request to a path below it. *)
Theorem destination_root_overridden p f g gs later s :
  configured (uploader s) = true -> PyStr.truthy f = true ->
  studio s = Some g :: gs ->
  aem_destination (uploader (state_after (process_image p (Some f)) s)) = Some f /\
  outcome_of (process_images later) (state_after (process_image p (Some f)) s)
  = Ret tt /\
  aem_destination
    (uploader (state_after (process_images later)
                 (state_after (process_image p (Some f)) s))) = Some f /\
  calls_in (under_root (host_of (uploader s)) f)
    (events_of (process_images later) (state_after (process_image p (Some f)) s)).
Proof.
  intros Hc Hf Hst.
  pose proof (process_image_target_spec p f g gs s Hc Hf Hst) as H1.
  unfold wp in H1. destruct H1 as (_ & Hu1 & _).
  set (s1 := state_after (process_image p (Some f)) s).
  change (uploader s1 = set_aem_destination f (uploader s)) in Hu1.
  assert (configured (uploader s1) = true) as Hc1.
  { rewrite Hu1. by destruct (configured_inv _ Hc) as (? & ? & ? & ? & ? & ->). }
  assert (aem_destination (uploader s1) = Some f) as Hd1 by (by rewrite Hu1).
  assert (host_of (uploader s1) = host_of (uploader s)) as Hh1 by (by rewrite Hu1).
  pose proof (process_images_spec later s1 f Hc1 Hd1) as H2.
  unfold wp in H2. destruct H2 as (Hret & Hu2 & Hcalls).
  split_and!; [done|done| |].
  - unfold state_after. by rewrite Hu2.
  - unfold events_of. by rewrite <- Hh1.
Qed.

Lemma destination_root_overridden_witness :
  aem_destination
    (uploader (state_after (process_image demo_image (Some "/customers/acme"))
                 (demo_sys demo_uploader [] [Some demo_generated; Some demo_generated])))
  = Some "/customers/acme" /\
  outcome_of (process_images [demo_image])
    (state_after (process_image demo_image (Some "/customers/acme"))
       (demo_sys demo_uploader [] [Some demo_generated; Some demo_generated]))
  = Ret tt /\
  aem_destination
    (uploader
       (state_after (process_images [demo_image])
          (state_after (process_image demo_image (Some "/customers/acme"))
             (demo_sys demo_uploader [] [Some demo_generated; Some demo_generated]))))
  = Some "/customers/acme" /\
  calls_in (under_root (host_of demo_uploader) "/customers/acme")
    (events_of (process_images [demo_image])
       (state_after (process_image demo_image (Some "/customers/acme"))
          (demo_sys demo_uploader [] [Some demo_generated; Some demo_generated]))).
Proof.
  apply (destination_root_overridden demo_image "/customers/acme" demo_generated
           [Some demo_generated] [demo_image]
           (demo_sys demo_uploader [] [Some demo_generated; Some demo_generated]));
    reflexivity.
Defined.

(** C6 (as stated, for every requested count): it fails for a requested
    count of 0.  A fresh replicator with one row of one asset, source images
    and [NUM_THREADS=0] returns normally from its run with no worker
    launched: the one task is still queued, nothing was handed to
    [process_image] and the counter has not moved. *)
Lemma worker_pool_zero_requested :
  enabled demo_no_threads = true /\ date_flag demo_no_threads = Some false /\
  Forall (fun e => is_Some (asset_count e)) (structure_file demo_no_threads) /\
  img_dir demo_no_threads <> [] /\
  PyStr.int (getenv (environ demo_no_threads) "NUM_THREADS" "4") = Some 0 /\
  pool_fresh demo_no_threads /\ task_queue demo_no_threads = [] /\
  outcome_of (replicate_structure []) demo_no_threads = Ret tt /\
  threads (state_after (replicate_structure []) demo_no_threads) = [] /\
  length (task_queue (state_after (replicate_structure []) demo_no_threads)) = 1%nat /\
  invoked (state_after (replicate_structure []) demo_no_threads) = [] /\
  processed_count (state_after (replicate_structure []) demo_no_threads) = 0 /\
  ~ pool_exhaustive 0 [] demo_no_threads.
Proof.
  split_and!.
  - reflexivity.
  - reflexivity.
  - repeat constructor. by eexists.
  - discriminate.
  - by vm_compute.
  - by split_and!.
  - reflexivity.
  - by vm_compute.
  - by vm_compute.
  - by vm_compute.
  - by vm_compute.
  - by vm_compute.
  - intros (blocks & _ & _ & _ & _ & _ & Hq & _). vm_compute in Hq. discriminate.
Qed.

(** C6 (amended): for a requested worker count of at least 1.  From a fresh
    replicator (no thread started yet, empty queue) whose run reaches the
    pool (replication enabled, rows that all have a count field, source
    images, a [NUM_THREADS] that reads as [R >= 1]), under every schedule of
    the threads: [replicate_structure] returns; with [T] the number of tasks
    of the rows, it has started [min(R, T)] worker threads, all of which have
    ended; the queue is empty; the tasks handed to [process_image] are the
    queued tasks, each once; and the counter has advanced by [T]. *)
Theorem worker_pool_exhaustive R schedule r b :
  enabled r = true -> structure_file r <> [] -> date_flag r = Some b ->
  Forall (fun e => is_Some (asset_count e)) (structure_file r) ->
  img_dir r <> [] ->
  PyStr.int (getenv (environ r) "NUM_THREADS" "4") = Some R -> 1 <= R ->
  pool_fresh r -> task_queue r = [] ->
  pool_exhaustive R schedule r.
Proof.
  intros Hen Hst Hfl Hall Hdir HR HR1 Hfresh Hq.
  by destruct (replicate_structure_handles_blocks schedule r R b
                 Hen Hst Hfl Hall Hdir HR HR1 Hfresh Hq) as [H _].
Qed.

Lemma worker_pool_exhaustive_witness :
  pool_exhaustive 2 [0; 0; 1]%nat (demo_repl demo_rows demo_pool demo_uploader).
Proof.
  apply (worker_pool_exhaustive 2 [0; 0; 1]%nat
           (demo_repl demo_rows demo_pool demo_uploader) false).
  - reflexivity.
  - discriminate.
  - reflexivity.
  - repeat constructor; by eexists.
  - discriminate.
  - reflexivity.
  - lia.
  - by split_and!.
  - reflexivity.
Defined.

(** C8 (as stated, for every local-input failure): it fails when the source
    assets are missing: with a valid row and no source image the run returns
    early, without logging its completion and without handling any task. *)
Lemma missing_sources_end_the_run :
  ~ run_continues [] demo_no_sources /\
  invoked (state_after (replicate_structure []) demo_no_sources) = [].
Proof.
  split; [|by vm_compute].
  intros [_ H]. vm_compute in H.
  repeat (apply elem_of_cons in H as [H|H]; [discriminate|]).
  by apply elem_of_nil in H.
Qed.

(** C8 (amended): in a run whose override is installed and whose rows all
    have a count field.  When no source image is found, the failure is
    logged and the run returns normally at once, with the flag restored and
    no task enqueued, handed to a worker or counted.  When there are source
    images, from a fresh replicator whose [NUM_THREADS] reads as [R >= 1]:
    the run returns normally and logs its completion; a row whose count is
    no integer is logged and skipped, that is, it changes nothing in either
    loop and no task is made for it; and the run goes on with the other
    rows, whose tasks are all handed to [process_image] and counted
    ([pool_exhaustive]).  On a configured uploader the events of the run
    begin with those of the first loop over all the rows in order, in which
    such a row has its error message and nothing else
    ([folders_created]). *)
Theorem local_input_failures schedule r b :
  enabled r = true -> structure_file r <> [] -> date_flag r = Some b ->
  Forall (fun e => is_Some (asset_count e)) (structure_file r) ->
  (img_dir r = [] ->
   exists r' ev,
     replicate_structure schedule r = (Ret tt, r', ev) /\
     log_no_sources ∈ ev /\
     task_queue r' = task_queue r /\ invoked r' = invoked r /\
     processed_count r' = processed_count r /\ threads r' = threads r /\
     date_flag r' = Some b) /\
  (forall R,
     img_dir r <> [] ->
     PyStr.int (getenv (environ r) "NUM_THREADS" "4") = Some R -> 1 <= R ->
     pool_fresh r -> task_queue r = [] ->
     run_continues schedule r /\
     pool_exhaustive R schedule r /\
     (forall e, e ∈ structure_file r -> non_numeric e ->
        log_invalid_count e ∈ events_of (replicate_structure schedule) r /\
        (forall r0, create_entry_folders e r0 = (Ret tt, r0, [log_invalid_count e])) /\
        (forall total r0,
           queue_entry e (img_dir r) total r0 = (Ret total, r0, [])) /\
        block_for (img_dir r) e []) /\
     (configured (uploader (sys r)) = true ->
      exists ev1 ev2,
        events_of (replicate_structure schedule) r = log_started :: ev1 ++ ev2 /\
        folders_created (host_of (uploader (sys r))) (created_folders r)
          (structure_file r) ev1)).
Proof.
  intros Hen Hst Hfl Hall. split.
  - intros Hdir.
    rewrite (replicate_structure_run schedule r b Hen Hst Hfl).
    destruct (wp_elim _ _ _
                (replicate_body_no_sources (structure_file r) schedule
                   (with_date_flag false r) Hall Hdir))
      as (res & r1 & ev1 & E & -> & Hf & Hlog).
    rewrite E. simpl.
    destruct (folders_frame_fields _ _ Hf) as (_ & _ & Hq & Hi & Hp & Ht & _).
    eexists _, _. split; [reflexivity|].
    split_and!; try done. by right.
  - intros R Hdir HR HR1 Hfresh Hq.
    destruct (replicate_structure_handles_blocks schedule r R b
                Hen Hst Hfl Hall Hdir HR HR1 Hfresh Hq) as (Hpool & Hrun & Hlogs).
    split_and!; [done|done| |].
    + intros e He Hnn. split_and!.
      * by apply Hlogs.
      * intros r0. by apply create_entry_folders_non_numeric.
      * intros total r0. by apply queue_entry_non_numeric.
      * destruct Hnn as (c & Hcnt & Hn). unfold block_for. by rewrite Hcnt, Hn.
    + intros Hc. by apply (replicate_structure_first_loop schedule r b).
Qed.

Lemma local_input_failures_witness :
  (exists r' ev,
     replicate_structure [0]%nat demo_no_sources = (Ret tt, r', ev) /\
     log_no_sources ∈ ev /\
     task_queue r' = task_queue demo_no_sources /\
     invoked r' = invoked demo_no_sources /\
     processed_count r' = processed_count demo_no_sources /\
     threads r' = threads demo_no_sources /\
     date_flag r' = Some false) /\
  run_continues [0; 1; 1]%nat (demo_repl demo_rows demo_pool demo_uploader) /\
  pool_exhaustive 2 [0; 1; 1]%nat (demo_repl demo_rows demo_pool demo_uploader) /\
  log_invalid_count {| folder := "/customers/gamma"; asset_count := Some "many" |}
    ∈ events_of (replicate_structure [0; 1; 1]%nat)
        (demo_repl demo_rows demo_pool demo_uploader).
Proof.
  split.
  - destruct (local_input_failures [0]%nat demo_no_sources false) as [H _].
    + reflexivity.
    + discriminate.
    + reflexivity.
    + repeat constructor; by eexists.
    + apply H. reflexivity.
  - destruct (local_input_failures [0; 1; 1]%nat
                (demo_repl demo_rows demo_pool demo_uploader) false) as [_ H].
    + reflexivity.
    + discriminate.
    + reflexivity.
    + repeat constructor; by eexists.
    + destruct (H 2) as (Hrun & Hpool & Hrows & _).
      * discriminate.
      * reflexivity.
      * lia.
      * by split_and!.
      * reflexivity.
      * split_and!; [done|done|].
        apply (Hrows {| folder := "/customers/gamma"; asset_count := Some "many" |}).
        -- do 2 right. by left.
        -- by exists "many".
Defined.

(** *** The scenarios of the specification, run *)

(** Two rows, 3 and 0 assets, four source images: three tasks for the first
    folder, none for the second. *)
Example scenario_two_rows_tasks :
  map (fun t : task => t.1.1)
    (task_queue
       (state_after
          (queue_all
             [ {| folder := "/customers/acme"; asset_count := Some "3" |};
               {| folder := "/customers/beta"; asset_count := Some "0" |} ]
             demo_pool 0)
          (demo_repl demo_rows demo_pool demo_uploader)))
  = ["/customers/acme"; "/customers/acme"; "/customers/acme"].
Proof. by vm_compute. Qed.

(** The folder requests of that structure name the first folder's path only. *)
Example scenario_two_rows_folders :
  map call_url
    (calls
       (events_of
          (create_all_folders
             [ {| folder := "/customers/acme"; asset_count := Some "3" |};
               {| folder := "/customers/beta"; asset_count := Some "0" |} ])
          (set_sys (demo_sys demo_uploader [Resp 200 JFalsy; Resp 200 JFalsy] [])
             (demo_repl demo_rows demo_pool demo_uploader))))
  = ["http://localhost:4502/content/dam/customers.json";
     "http://localhost:4502/content/dam/customers/acme.json"].
Proof. by vm_compute. Qed.

(** A count written with the digits of another script, here a full-width
    three between spaces, is a count as any other. *)
Example scenario_full_width_count :
  counts {| folder := "/customers/acme"; asset_count := Some " ３ " |} 3 /\
  map (fun t : task => t.1.1)
    (task_queue
       (state_after
          (queue_all [ {| folder := "/customers/acme"; asset_count := Some " ３ " |} ]
             demo_pool 0)
          (demo_repl demo_rows demo_pool demo_uploader)))
  = ["/customers/acme"; "/customers/acme"; "/customers/acme"].
Proof. split; [by exists " ３ "|by vm_compute]. Qed.

(** A row without a count field ends the run with an exception, after which
    the flag is back at its value before the run. *)
Example broken_row_raises_and_restores :
  outcome_of (replicate_structure []) demo_broken_row = Raise (AttributeError "strip") /\
  date_flag (state_after (replicate_structure []) demo_broken_row) = Some true /\
  date_flag demo_broken_row = Some true.
Proof. by vm_compute. Qed.

(** With its [logger] attribute there, a disabled uploader would answer
    true without any request. *)
Example upload_disabled_with_logger :
  upload demo_image demo_date ["findme"]
    (demo_sys {| aem_enabled := false; aem_host := None; aem_token := None;
                 aem_destination := None; put_into_date_folder := None;
                 logger := Some "AEMUploader" |} [Resp 200 JFalsy] [])
  = (Ret true,
     demo_sys {| aem_enabled := false; aem_host := None; aem_token := None;
                 aem_destination := None; put_into_date_folder := None;
                 logger := Some "AEMUploader" |} [Resp 200 JFalsy] [],
     [ELog "AEMUploader" INFO "AEM upload is disabled"]).
Proof. reflexivity. Qed.
(** ** More on the upload client *)

(** *** Scripted runs of [_initiate_upload] *)

Lemma initiate_attempt_failed img dest mr d k s r rest :
  configured (uploader s) = true -> readable img = true -> 0 <= d ->
  initiate_failed r = true -> remote s = r :: rest ->
  wp (initiate_attempt img dest mr d k) s (fun res s' ev =>
    s' = set_remote rest s /\
    res = Ret (if k <? mr - 1 then Continue else Return_ None) /\
    calls ev = [initiate_event (host_of (uploader s)) dest r] /\
    sleeps ev = if k <? mr - 1 then [ESleep d] else []).
Proof.
  intros Hc Hr Hd Hf Hrem. open_sys s Hc. subst.
  unfold initiate_attempt, retry_or_fail.
  destruct r as [c b|e]; simpl in Hf; wp_sys.
  all: try congruence.
  all: try (rewrite Heqb1 in Hf; simpl in Hf; discriminate).
  all: by repeat split.
Qed.

Lemma initiate_attempt_granted img dest mr d k s b rest :
  configured (uploader s) = true -> readable img = true ->
  b <> JInvalid -> remote s = Resp 200 b :: rest ->
  wp (initiate_attempt img dest mr d k) s (fun res s' ev =>
    s' = set_remote rest s /\
    res = Ret (Return_ (Some b)) /\
    calls ev = [initiate_event (host_of (uploader s)) dest (Resp 200 b)] /\
    sleeps ev = []).
Proof.
  intros Hc Hr Hb Hrem. open_sys s Hc. subst.
  unfold initiate_attempt, retry_or_fail.
  wp_sys; try congruence.
  all: by repeat split.
Qed.

Lemma initiate_attempt_unreadable img dest mr d k s :
  configured (uploader s) = true -> readable img = false -> 0 <= d ->
  wp (initiate_attempt img dest mr d k) s (fun res s' ev =>
    s' = s /\
    res = Ret (if k <? mr - 1 then Continue else Return_ None) /\
    calls ev = [] /\
    sleeps ev = if k <? mr - 1 then [ESleep d] else []).
Proof.
  intros Hc Hr Hd. open_sys s Hc.
  unfold initiate_attempt, retry_or_fail.
  wp_sys; try congruence.
  all: by repeat split.
Qed.

Lemma initiate_loop_retries img dest mr d fs : forall todo k s b rest,
  configured (uploader s) = true -> readable img = true -> 0 <= d ->
  Forall (fun r => initiate_failed r = true) fs -> b <> JInvalid ->
  (length fs < todo)%nat -> Z.of_nat todo = mr - k ->
  remote s = fs ++ Resp 200 b :: rest ->
  wp (initiate_loop img dest mr d todo k) s (fun res s' ev =>
    s' = set_remote rest s /\ res = Ret (Some b) /\
    calls ev = map (initiate_event (host_of (uploader s)) dest) (fs ++ [Resp 200 b]) /\
    sleeps ev = repeat (ESleep d) (length fs)).
Proof.
  induction fs as [|f fs IH]; intros todo k s b rest Hc Hr Hd Hfs Hb Hlen Hk Hrem;
    (destruct todo as [|todo]; [simpl in Hlen; lia|]); simpl in *.
  - apply wp_bind.
    eapply wp_mono; [by eapply initiate_attempt_granted|].
    simpl. intros r s1 ev1 (-> & -> & Hcalls & Hsl).
    apply wp_ret. by rewrite app_nil_r.
  - apply Forall_cons in Hfs as [Hf Hfs].
    apply wp_bind.
    eapply wp_mono; [by eapply initiate_attempt_failed|].
    simpl. intros r s1 ev1 (-> & -> & Hcalls & Hsl).
    assert ((k <? mr - 1) = true) as Hlt by (apply Z.ltb_lt; lia).
    rewrite Hlt in *.
    eapply wp_mono.
    + eapply (IH todo (k + 1)); [done|done|done|done|done|lia|lia|reflexivity].
    + simpl. intros r s2 ev2 (-> & -> & Hcalls2 & Hsl2).
      rewrite calls_app, sleeps_app, Hcalls, Hsl, Hcalls2, Hsl2.
      by repeat split.
Qed.

Lemma initiate_loop_gives_up img dest mr d fs : forall todo k s rest,
  configured (uploader s) = true -> readable img = true -> 0 <= d ->
  Forall (fun r => initiate_failed r = true) fs ->
  length fs = todo -> (1 <= todo)%nat -> Z.of_nat todo = mr - k ->
  remote s = fs ++ rest ->
  wp (initiate_loop img dest mr d todo k) s (fun res s' ev =>
    s' = set_remote rest s /\ res = Ret None /\
    calls ev = map (initiate_event (host_of (uploader s)) dest) fs /\
    sleeps ev = repeat (ESleep d) (todo - 1)).
Proof.
  induction fs as [|f fs IH]; intros todo k s rest Hc Hr Hd Hfs Hlen Hpos Hk Hrem;
    (destruct todo as [|todo]; [lia|]); simpl in *; [lia|].
  apply Forall_cons in Hfs as [Hf Hfs].
  apply wp_bind.
  eapply wp_mono; [by eapply initiate_attempt_failed|].
  simpl. intros r s1 ev1 (-> & -> & Hcalls & Hsl).
  destruct todo as [|todo].
  - assert ((k <? mr - 1) = false) as Hlt by (apply Z.ltb_ge; lia).
    rewrite Hlt in *. apply wp_ret. rewrite app_nil_r.
    destruct fs; [|simpl in Hlen; lia]. by repeat split.
  - assert ((k <? mr - 1) = true) as Hlt by (apply Z.ltb_lt; lia).
    rewrite Hlt in *.
    eapply wp_mono.
    + eapply (IH (S todo) (k + 1)); [done|done|done|done|lia|lia|lia|reflexivity].
    + simpl. intros r s2 ev2 (-> & -> & Hcalls2 & Hsl2).
      rewrite calls_app, sleeps_app, Hcalls, Hsl, Hcalls2, Hsl2.
      repeat split. simpl. by rewrite Nat.sub_0_r.
Qed.

Lemma initiate_loop_unreadable img dest mr d : forall todo k s,
  configured (uploader s) = true -> readable img = false -> 0 <= d ->
  (1 <= todo)%nat -> Z.of_nat todo = mr - k ->
  wp (initiate_loop img dest mr d todo k) s (fun res s' ev =>
    s' = s /\ res = Ret None /\ calls ev = [] /\
    sleeps ev = repeat (ESleep d) (todo - 1)).
Proof.
  induction todo as [|todo IH]; intros k s Hc Hr Hd Hpos Hk; [lia|]. simpl.
  apply wp_bind.
  eapply wp_mono; [by eapply initiate_attempt_unreadable|].
  simpl. intros r s1 ev1 (-> & -> & Hcalls & Hsl).
  destruct todo as [|todo].
  - assert ((k <? mr - 1) = false) as Hlt by (apply Z.ltb_ge; lia).
    rewrite Hlt in *. apply wp_ret. rewrite app_nil_r. by repeat split.
  - assert ((k <? mr - 1) = true) as Hlt by (apply Z.ltb_lt; lia).
    rewrite Hlt in *.
    eapply wp_mono.
    + eapply (IH (k + 1)); [done|done|done|lia|lia].
    + simpl. intros r s2 ev2 (-> & -> & Hcalls2 & Hsl2).
      rewrite calls_app, sleeps_app, Hcalls, Hsl, Hcalls2, Hsl2.
      repeat split. simpl. by rewrite Nat.sub_0_r.
Qed.

(** *** Counting requests *)

Lemma calls_of_nil_in (P : method -> step -> string -> reply -> Prop) st ev :
  calls_in P ev -> (forall m st' url r, P m st' url r -> st' <> st) ->
  calls_of st ev = [].
Proof.
  intros Hev HP. induction ev as [|e ev IH]; [done|].
  apply calls_in_cons in Hev as [He Hev].
  unfold calls_of in *. rewrite filter_cons, (IH Hev).
  destruct e as [m st' url r| |]; simpl; try done.
  rewrite bool_decide_eq_false_2; [done|]. by eapply HP.
Qed.

Lemma calls_of_in (P : method -> step -> string -> reply -> Prop) st ev :
  calls_in P ev ->
  Forall (fun e => match e with ECall m st' url r => P m st' url r | _ => True end)
    (calls_of st ev).
Proof.
  intros Hev. apply Forall_forall. intros e [_ He]%list_elem_of_filter.
  by eapply Forall_forall in Hev.
Qed.

Lemma calls_of_calls st ev : calls_of st (calls ev) = calls_of st ev.
Proof.
  unfold calls_of, calls. induction ev as [|e ev IH]; [done|].
  rewrite !filter_cons. destruct e; simpl; rewrite ?filter_cons; simpl;
    by rewrite IH.
Qed.

Lemma create_folder_attempt_count folder mr d k s :
  configured (uploader s) = true -> 0 <= d ->
  wp (create_folder_attempt folder mr d k) s (fun r s' ev =>
    s' = set_remote (remote s') s /\ (exists fl, r = Ret fl) /\
    attempts ev = 1%nat /\
    (length (calls_of FolderCreate ev) <= 1)%nat /\
    (length (sleeps ev) <= 1)%nat).
Proof.
  intros Hc Hd. open_sys s Hc.
  unfold create_folder_attempt, retry_or_fail.
  wp_sys.
  all: split; [reflexivity|]; split; [by eexists|].
  all: unfold attempts; simpl; repeat split; lia.
Qed.

Lemma create_folder_loop_count folder mr d todo : forall k s,
  configured (uploader s) = true -> 0 <= d ->
  wp (create_folder_loop folder mr d todo k) s (fun r s' ev =>
    s' = set_remote (remote s') s /\
    (attempts ev <= todo)%nat /\
    (length (calls_of FolderCreate ev) <= attempts ev)%nat /\
    (length (sleeps ev) <= attempts ev)%nat).
Proof.
  induction todo as [|todo IH]; intros k s Hc Hd; simpl.
  - apply wp_ret. unfold attempts. simpl. by destruct s.
  - apply wp_bind.
    eapply wp_mono; [by apply create_folder_attempt_count|].
    simpl. intros r s1 ev1 (Hs1 & (fl & ->) & Hat & Hcr & Hsl). destruct fl as [v|].
    + apply wp_ret. rewrite app_nil_r. split_and!; [done|lia..].
    + eapply wp_mono; [apply (IH (k + 1) s1); [by rewrite Hs1|done]|].
      simpl. intros r s2 ev2 (Hs2 & Hat2 & Hcr2 & Hsl2).
      split; [by eapply remote_frame_trans|].
      rewrite attempts_app, calls_of_app, sleeps_app, !length_app. lia.
Qed.

Lemma initiate_attempt_count img dest mr d k s :
  configured (uploader s) = true -> 0 <= d ->
  wp (initiate_attempt img dest mr d k) s (fun r s' ev =>
    s' = set_remote (remote s') s /\ (exists fl, r = Ret fl) /\
    (length (calls ev) <= 1)%nat /\ (length (sleeps ev) <= 1)%nat).
Proof.
  intros Hc Hd. open_sys s Hc.
  unfold initiate_attempt, retry_or_fail.
  wp_sys.
  all: split; [reflexivity|]; split; [by eexists|].
  all: simpl; split; lia.
Qed.

Lemma initiate_loop_count img dest mr d todo : forall k s,
  configured (uploader s) = true -> 0 <= d ->
  wp (initiate_loop img dest mr d todo k) s (fun r s' ev =>
    s' = set_remote (remote s') s /\
    (length (calls ev) <= todo)%nat /\ (length (sleeps ev) <= todo)%nat).
Proof.
  induction todo as [|todo IH]; intros k s Hc Hd; simpl.
  - apply wp_ret. simpl. by destruct s.
  - apply wp_bind.
    eapply wp_mono; [by apply initiate_attempt_count|].
    simpl. intros r s1 ev1 (Hs1 & (fl & ->) & Hca & Hsl). destruct fl as [v|].
    + apply wp_ret. rewrite app_nil_r. split_and!; [done|lia..].
    + eapply wp_mono; [apply (IH (k + 1) s1); [by rewrite Hs1|done]|].
      simpl. intros r s2 ev2 (Hs2 & Hca2 & Hsl2).
      split; [by eapply remote_frame_trans|].
      rewrite calls_app, sleeps_app, !length_app. lia.
Qed.

Lemma complete_upload_count img info date tgs s :
  configured (uploader s) = true ->
  wp (_complete_upload img info date tgs) s (fun r s' ev =>
    (length (calls ev) <= 1)%nat).
Proof.
  intros Hc. open_sys s Hc. unfold _complete_upload.
  wp_sys. all: simpl; lia.
Qed.

Lemma wp_and {S A} (m : M S A) s (Q1 Q2 : outcome A -> S -> list event -> Prop) :
  wp m s Q1 -> wp m s Q2 -> wp m s (fun r s' ev => Q1 r s' ev /\ Q2 r s' ev).
Proof. by split. Qed.

Lemma calls_of_length st ev : (length (calls_of st ev) <= length (calls ev))%nat.
Proof. rewrite <- calls_of_calls. apply length_filter. Qed.

Lemma folder_step_not st :
  st = Initiate \/ st = Transfer \/ st = Complete ->
  forall m st' url r, folder_step m st' url r -> st' <> st.
Proof. intros Hst m st' url r [->| ->]; destruct Hst as [->|[->| ->]]; done. Qed.

Lemma upload_session_count img dest date tgs s :
  configured (uploader s) = true ->
  wp (upload_session img dest date tgs) s (fun r s' ev =>
    (exists ok, r = Ret ok) /\
    calls_of FolderCheck ev = [] /\ calls_of FolderCreate ev = [] /\
    (length (calls_of Initiate ev) <= 3)%nat /\
    (length (calls_of Complete ev) <= 1)%nat).
Proof.
  intros Hc. unfold upload_session.
  destruct (configured_logger _ Hc) as [lg Hlg].
  apply wp_bind. eapply wp_ulog_cfg; [done|]. simpl.
  apply wp_bind.
  eapply wp_mono;
    [apply wp_and; [by apply (initiate_upload_spec img dest 3 2)
                   |by apply (initiate_loop_count img dest 3 2 3 0)]|].
  simpl. intros r s1 ev1 ((Hs1 & Hc1 & v & -> & _) & (_ & Hn1 & _)).
  assert (configured (uploader s1) = true) as Hcs1 by (by rewrite Hs1).
  assert (calls_of FolderCheck ev1 = [] /\ calls_of FolderCreate ev1 = [] /\
          calls_of Complete ev1 = []) as (HA1 & HB1 & HC1).
  { split_and!; eapply calls_of_nil_in; try exact Hc1;
      by intros m st url r (_ & -> & _). }
  pose proof (calls_of_length Initiate ev1) as HI1.
  destruct (info_truthy v) eqn:Hv; simpl.
  2: { apply wp_ret. rewrite app_nil_r. split; [by eexists|].
       unfold calls_of in *. rewrite !filter_cons. simpl.
       split_and!; try done; try lia. by rewrite HC1; simpl; lia. }
  apply wp_bind. eapply wp_ulog_cfg; [by rewrite Hs1|]. simpl.
  apply wp_bind.
  eapply wp_mono; [by apply upload_binary_spec|].
  simpl. intros r s2 ev2 (Hs2 & Hc2 & okT & -> & _).
  assert (calls_of FolderCheck ev2 = [] /\ calls_of FolderCreate ev2 = [] /\
          calls_of Initiate ev2 = [] /\ calls_of Complete ev2 = [])
    as (HA2 & HB2 & HI2 & HC2).
  { split_and!; eapply calls_of_nil_in; try exact Hc2;
      by intros m st url r (_ & ->). }
  destruct okT; simpl.
  2: { apply wp_ret. rewrite app_nil_r. split; [by eexists|].
       unfold calls_of in *. rewrite !filter_cons, !filter_app, !filter_cons. simpl.
       rewrite HA1, HB1, HC1, HA2, HB2, HI2, HC2, ?length_app. simpl.
       split_and!; try done; lia. }
  apply wp_bind. eapply wp_ulog_cfg; [by rewrite Hs2, Hs1|]. simpl.
  eapply wp_mono;
    [apply wp_and; [apply complete_upload_spec|apply complete_upload_count];
     by rewrite Hs2|].
  simpl. intros r s3 ev3 ((Hs3 & Hc3 & okC & -> & _) & Hn3).
  assert (calls_of FolderCheck ev3 = [] /\ calls_of FolderCreate ev3 = [] /\
          calls_of Initiate ev3 = []) as (HA3 & HB3 & HI3).
  { split_and!; eapply calls_of_nil_in; try exact Hc3;
      by intros m st url r (_ & ->). }
  pose proof (calls_of_length Complete ev3) as HC3.
  split; [by eexists|].
  unfold calls_of in *.
  rewrite !filter_cons, !filter_app, !filter_cons, !filter_app, !filter_cons. simpl.
  rewrite HA1, HB1, HC1, HA2, HB2, HI2, HC2, HA3, HB3, HI3, ?length_app. simpl.
  split_and!; try done; lia.
Qed.

Lemma upload_count img date tgs s :
  configured (uploader s) = true ->
  wp (upload img date tgs) s (fun r s' ev =>
    (length (calls_of Initiate ev) <= 3)%nat /\
    (length (calls_of Complete ev) <= 1)%nat).
Proof.
  intros Hc. unfold upload.
  destruct (configured_logger _ Hc) as [lg Hlg].
  apply wp_bind, wp_get. simpl.
  assert (aem_enabled (uploader s) = true) as ->.
  { by destruct (configured_inv _ Hc) as (? & ? & ? & ? & ? & ->). }
  simpl. apply wp_try_except, wp_bind.
  eapply wp_mono; [by apply get_destination_path_spec|].
  simpl. intros r s0 ev0 (-> & -> & ->). simpl.
  apply wp_bind.
  eapply wp_mono; [by apply ensure_folders_exist_spec|].
  simpl. intros r s1 ev1 (Hs1 & (okF & ->) & HcF & _).
  assert (calls_of Initiate ev1 = [] /\ calls_of Complete ev1 = []) as (HI1 & HC1).
  { split; eapply calls_of_nil_in; try exact HcF; apply folder_step_not; auto. }
  destruct okF; simpl.
  - eapply wp_mono; [apply upload_session_count; by rewrite Hs1|].
    simpl. intros r s2 ev2 ((ok & ->) & _ & _ & HI & HC).
    rewrite !calls_of_app, HI1, HC1. simpl. lia.
  - apply wp_bind. eapply wp_ulog_cfg; [by rewrite Hs1|]. apply wp_ret. simpl.
    rewrite !calls_of_app, HI1, HC1. simpl. lia.
Qed.

(** *** Scripted runs of the later steps *)

Lemma complete_upload_scripted img info date tgs s tok cu r rest :
  configured (uploader s) = true ->
  info_token info = Some tok -> info_complete info = Some cu ->
  remote s = r :: rest ->
  wp (_complete_upload img info date tgs) s (fun res s' ev =>
    res = Ret (reply_completes r) /\ s' = set_remote rest s /\
    calls ev = [ECall POST Complete (host_of (uploader s) +:+ cu) r]).
Proof.
  intros Hc Ht Hcu Hrem. open_sys s Hc. subst. unfold _complete_upload.
  rewrite Ht, Hcu. destruct r as [c b|e]; wp_sys.
  all: by repeat split.
Qed.

Lemma complete_upload_missing_key img info date tgs s :
  configured (uploader s) = true ->
  info_token info = None \/ info_complete info = None ->
  wp (_complete_upload img info date tgs) s (fun res s' ev =>
    res = Ret false /\ s' = s /\ calls ev = []).
Proof.
  intros Hc Hk. open_sys s Hc. unfold _complete_upload.
  destruct Hk as [Hk|Hk]; rewrite Hk; wp_sys.
  all: by repeat split.
Qed.

Lemma upload_binary_loop_accepted uris : forall s puts rest,
  configured (uploader s) = true ->
  length puts = length uris -> Forall (fun r => reply_accepted r = true) puts ->
  remote s = puts ++ rest ->
  wp (upload_binary_loop uris) s (fun res s' ev =>
    res = Ret true /\ s' = set_remote rest s /\
    calls ev = zip_with (ECall PUT Transfer) uris puts).
Proof.
  induction uris as [|uri uris IH]; intros s puts rest Hc Hlen Hacc Hrem;
    destruct puts as [|p puts]; try discriminate; simpl in *.
  - destruct (configured_logger _ Hc) as [lg Hlg].
    apply wp_bind. eapply wp_ulog_cfg; [done|]. apply wp_ret. simpl.
    repeat split. destruct s; simpl in *; by subst.
  - apply Forall_cons in Hacc as [Hp Hacc].
    destruct (configured_logger _ Hc) as [lg Hlg].
    apply wp_bind. eapply wp_ulog_cfg; [done|]. simpl.
    apply wp_bind, wp_request. rewrite Hrem.
    destruct p as [c b|e]; [|discriminate]. simpl in *. rewrite Hp. simpl.
    eapply wp_mono.
    + apply (IH (set_remote (puts ++ rest) s) puts rest); [done|lia|done|done].
    + simpl. intros res s' ev (-> & -> & Hcalls).
      split; [done|]. split; [apply set_remote_frame|].
      rewrite calls_cons_other by done. rewrite calls_cons_call. by rewrite Hcalls.
Qed.

Lemma upload_binary_accepted img uris tok cu s puts rest :
  configured (uploader s) = true -> readable img = true ->
  length puts = length uris -> Forall (fun r => reply_accepted r = true) puts ->
  remote s = puts ++ rest ->
  wp (_upload_binary img (Some (JInfo (Some uris) tok cu))) s (fun res s' ev =>
    res = Ret true /\ s' = set_remote rest s /\
    calls ev = zip_with (ECall PUT Transfer) uris puts).
Proof.
  intros Hc Hr Hlen Hacc Hrem. unfold _upload_binary.
  destruct (configured_logger _ Hc) as [lg Hlg].
  apply wp_try_except. simpl. apply wp_bind, wp_ret. simpl.
  apply wp_bind. eapply wp_ulog_cfg; [done|]. simpl.
  apply wp_bind, wp_read_file. rewrite Hr. simpl.
  eapply wp_mono; [by eapply upload_binary_loop_accepted|].
  simpl. intros res s' ev (-> & -> & Hcalls). by repeat split.
Qed.

Lemma upload_binary_no_uris img b s :
  configured (uploader s) = true -> info_uris (Some b) = None ->
  wp (_upload_binary img (Some b)) s (fun res s' ev =>
    res = Ret false /\ s' = s /\ calls ev = []).
Proof.
  intros Hc Hb. unfold _upload_binary. rewrite Hb. open_sys s Hc.
  wp_sys. by repeat split.
Qed.

(** *** Whole uploads *)

(** Without date-partitioning [upload] is its three protocol steps at the
    literal destination. *)
Lemma upload_flag_off img date tgs s dest Q :
  configured (uploader s) = true ->
  put_into_date_folder (uploader s) = Some false ->
  aem_destination (uploader s) = Some dest ->
  wp (upload_session img dest date tgs) s (fun r s' ev =>
    (exists ok, r = Ret ok) /\ Q r s' ev) ->
  wp (upload img date tgs) s Q.
Proof.
  intros Hc Hf Hd Hsession. unfold upload.
  apply wp_bind, wp_get. simpl.
  assert (aem_enabled (uploader s) = true) as ->.
  { by destruct (configured_inv _ Hc) as (? & ? & ? & ? & ? & ->). }
  simpl. apply wp_try_except, wp_bind.
  eapply wp_mono; [by apply get_destination_path_spec|].
  simpl. intros r s0 ev0 (-> & -> & ->). simpl.
  assert (destination_of (uploader s) date = dest) as ->.
  { unfold destination_of. by rewrite Hf, Hd. }
  apply wp_bind.
  eapply wp_mono; [by apply ensure_folders_exist_spec|].
  simpl. intros r s1 ev1 (_ & _ & _ & Hoff).
  destruct (Hoff Hf) as (-> & -> & ->). simpl.
  eapply wp_mono; [exact Hsession|].
  simpl. by intros r s2 ev2 ((ok & ->) & HQ).
Qed.

Lemma upload_session_granted img dest date tgs s fs b rest Q :
  configured (uploader s) = true -> readable img = true ->
  Forall (fun r => initiate_failed r = true) fs -> (length fs < 3)%nat ->
  b <> JInvalid -> remote s = fs ++ Resp 200 b :: rest ->
  (forall lg ev1,
     logger (uploader s) = Some lg ->
     calls ev1 = map (initiate_event (host_of (uploader s)) dest) (fs ++ [Resp 200 b]) ->
     wp (if negb (info_truthy (Some b)) then mret false
         else
           ulog INFO ("Step 2: Uploading binary for " +:+ name img);;
           ok ← _upload_binary img (Some b);
           if negb ok then mret false
           else
             ulog INFO ("Step 3: Completing upload for " +:+ name img);;
             _complete_upload img (Some b) date tgs)
       (set_remote rest s) (fun r s' ev => Q r s' (ev1 ++ ev))) ->
  wp (upload_session img dest date tgs) s Q.
Proof.
  intros Hc Hr Hfs Hlen Hb Hrem Hrest. unfold upload_session.
  destruct (configured_logger _ Hc) as [lg Hlg].
  apply wp_bind. eapply wp_ulog_cfg; [done|]. simpl.
  apply wp_bind. unfold _initiate_upload. change (Z.to_nat 3) with 3%nat.
  eapply wp_mono;
    [eapply (initiate_loop_retries img dest 3 2 fs 3 0); try done; lia|].
  simpl. intros r s1 ev1 (-> & -> & Hcalls & _).
  specialize (Hrest lg (ELog lg INFO ("Step 1: Initiating upload for " +:+ name img
                                     +:+ " to " +:+ dest) :: ev1) Hlg).
  apply Hrest. by rewrite calls_cons_other.
Qed.

Lemma upload_session_unusable img dest date tgs s fs b rest :
  configured (uploader s) = true -> readable img = true ->
  Forall (fun r => initiate_failed r = true) fs -> (length fs < 3)%nat ->
  b <> JInvalid -> info_uris (Some b) = None ->
  remote s = fs ++ Resp 200 b :: rest ->
  wp (upload_session img dest date tgs) s (fun res s' ev =>
    (exists ok, res = Ret ok) /\
    res = Ret false /\ s' = set_remote rest s /\
    calls ev = map (initiate_event (host_of (uploader s)) dest) (fs ++ [Resp 200 b])).
Proof.
  intros Hc Hr Hfs Hlen Hb Hu Hrem.
  eapply upload_session_granted; try done.
  intros lg ev1 Hlg Hcalls.
  destruct (info_truthy (Some b)) eqn:Ht; simpl.
  2: { apply wp_ret. rewrite app_nil_r. split; [by eexists|]. by repeat split. }
  apply wp_bind. eapply wp_ulog_cfg; [done|]. simpl.
  apply wp_bind.
  eapply wp_mono; [by apply upload_binary_no_uris|].
  simpl. intros r s2 ev2 (-> & -> & Hcalls2). simpl.
  apply wp_ret. split; [by eexists|]. split; [done|]. split; [done|].
  rewrite app_nil_r, calls_app, Hcalls. simpl.
  rewrite calls_cons_other by done. by rewrite Hcalls2, app_nil_r.
Qed.

Lemma upload_session_transferred img dest date tgs s fs uris tok cu puts fin rest :
  configured (uploader s) = true -> readable img = true ->
  Forall (fun r => initiate_failed r = true) fs -> (length fs < 3)%nat ->
  length puts = length uris -> Forall (fun r => reply_accepted r = true) puts ->
  remote s = fs ++ Resp 200 (JInfo (Some uris) (Some tok) (Some cu))
                :: puts ++ fin :: rest ->
  wp (upload_session img dest date tgs) s (fun res s' ev =>
    (exists ok, res = Ret ok) /\
    res = Ret (reply_completes fin) /\ s' = set_remote rest s /\
    calls ev =
      map (initiate_event (host_of (uploader s)) dest)
        (fs ++ [Resp 200 (JInfo (Some uris) (Some tok) (Some cu))])
      ++ zip_with (ECall PUT Transfer) uris puts
      ++ [ECall POST Complete (host_of (uploader s) +:+ cu) fin]).
Proof.
  intros Hc Hr Hfs Hlen Hpl Hacc Hrem.
  eapply upload_session_granted; try done; try discriminate.
  intros lg ev1 Hlg Hcalls. simpl.
  apply wp_bind. eapply wp_ulog_cfg; [done|]. simpl.
  apply wp_bind.
  eapply wp_mono; [by eapply (upload_binary_accepted img uris _ _ _ puts (fin :: rest))|].
  simpl. intros r s2 ev2 (-> & -> & Hcalls2). simpl.
  apply wp_bind. eapply wp_ulog_cfg; [done|]. simpl.
  eapply wp_mono; [by eapply (complete_upload_scripted _ _ _ _ _ tok cu fin rest)|].
  simpl. intros r s3 ev3 (-> & -> & Hcalls3).
  split; [by eexists|]. split; [done|]. split; [by rewrite set_remote_frame|].
  rewrite calls_app, Hcalls. simpl.
  rewrite calls_cons_other by done. rewrite calls_app, Hcalls2.
  rewrite calls_cons_other by done. by rewrite Hcalls3.
Qed.


Lemma upload_initiate_urls img date tgs s dest flag :
  configured (uploader s) = true ->
  put_into_date_folder (uploader s) = Some flag ->
  aem_destination (uploader s) = Some dest ->
  Forall (fun e =>
            call_url e =
            host_of (uploader s)
            +:+ (if flag
                 then dest +:+ "/" +:+ strftime_Y date +:+ "/" +:+ strftime_m date
                 else dest)
            +:+ ".initiateUpload.json")
    (calls_of Initiate (events_of (upload img date tgs) s)) /\
  (flag = false ->
   calls_of FolderCheck (events_of (upload img date tgs) s) = [] /\
   calls_of FolderCreate (events_of (upload img date tgs) s) = []).
Proof.
  intros Hc Hf Hd.
  destruct (upload_spec img date tgs s Hc)
    as (_ & ok & evF & evI & evT & evC & _ & Hev & HcF & HcI & Hshape & Hoff).
  destruct Hshape as (_ & HcT & HcC & _).
  unfold events_of. rewrite Hev.
  assert (destination_of (uploader s) date =
          if flag then dest +:+ "/" +:+ strftime_Y date +:+ "/" +:+ strftime_m date
          else dest) as Hdest.
  { unfold destination_of. by rewrite Hf, Hd. }
  rewrite Hdest in HcI.
  split.
  - rewrite !calls_of_app.
    rewrite (calls_of_nil_in folder_step Initiate evF HcF)
      by (apply folder_step_not; auto).
    rewrite (calls_of_nil_in transfer_step Initiate evT HcT)
      by (by intros m st url r (_ & ->)).
    rewrite (calls_of_nil_in complete_step Initiate evC HcC)
      by (by intros m st url r (_ & ->)).
    simpl. rewrite app_nil_r.
    apply Forall_forall. intros e [Hst He]%list_elem_of_filter.
    eapply Forall_forall in HcI; [|exact He].
    destruct e as [m st url r| |]; simpl in *; try done.
    by destruct HcI as (_ & _ & ->).
  - intros ->. rewrite (Hoff Hf). simpl. rewrite !calls_of_app.
    rewrite !(calls_of_nil_in _ _ evI HcI) by (by intros m st url r (_ & -> & _)).
    rewrite !(calls_of_nil_in _ _ evT HcT) by (by intros m st url r (_ & ->)).
    by rewrite !(calls_of_nil_in _ _ evC HcC) by (by intros m st url r (_ & ->)).
Qed.

(** ** Results on the upload client *)

(** X1: [_initiate_upload] with [max_retries] attempts and pauses of
    [retry_delay] seconds, on a configured uploader: when the first [N]
    answers fail (transport error, status other than 200, or a 200 whose
    body is no JSON) with [N < max_retries] and the next answers 200 with a
    JSON body, it returns that body after exactly [N + 1] requests, all to
    [{host}{destination}.initiateUpload.json], and [N] pauses; when the
    first [max_retries] answers fail it returns [None] after exactly
    [max_retries] requests and [max_retries - 1] pauses; when the local file
    cannot be read it returns [None] without any request, after
    [max_retries - 1] pauses. *)
Theorem initiate_upload_retry_bound img dest mr d s :
  configured (uploader s) = true -> 0 <= d ->
  (forall fs b rest,
     readable img = true ->
     Forall (fun r => initiate_failed r = true) fs -> b <> JInvalid ->
     Z.of_nat (length fs) < mr ->
     remote s = fs ++ Resp 200 b :: rest ->
     exists ev,
       _initiate_upload img dest mr d s = (Ret (Some b), set_remote rest s, ev) /\
       calls ev = map (initiate_event (host_of (uploader s)) dest)
                    (fs ++ [Resp 200 b]) /\
       sleeps ev = repeat (ESleep d) (length fs)) /\
  (forall fs rest,
     readable img = true ->
     Forall (fun r => initiate_failed r = true) fs ->
     1 <= mr -> Z.of_nat (length fs) = mr ->
     remote s = fs ++ rest ->
     exists ev,
       _initiate_upload img dest mr d s = (Ret None, set_remote rest s, ev) /\
       calls ev = map (initiate_event (host_of (uploader s)) dest) fs /\
       sleeps ev = repeat (ESleep d) (length fs - 1)) /\
  (readable img = false -> 1 <= mr ->
   exists ev,
     _initiate_upload img dest mr d s = (Ret None, s, ev) /\
     calls ev = [] /\
     sleeps ev = repeat (ESleep d) (Z.to_nat mr - 1)).
Proof.
  intros Hc Hd. unfold _initiate_upload. split_and!.
  - intros fs b rest Hr Hfs Hb Hlen Hrem.
    destruct (wp_elim _ s _
      (initiate_loop_retries img dest mr d fs (Z.to_nat mr) 0 s b rest
         Hc Hr Hd Hfs Hb ltac:(lia) ltac:(lia) Hrem))
      as (r & s' & ev & Heq & -> & -> & Hcalls & Hsl).
    by exists ev.
  - intros fs rest Hr Hfs Hmr Hlen Hrem.
    destruct (wp_elim _ s _
      (initiate_loop_gives_up img dest mr d fs (Z.to_nat mr) 0 s rest
         Hc Hr Hd Hfs ltac:(lia) ltac:(lia) ltac:(lia) Hrem))
      as (r & s' & ev & Heq & -> & -> & Hcalls & Hsl).
    exists ev. split_and!; [done|done|]. rewrite Hsl. f_equal. lia.
  - intros Hr Hmr.
    destruct (wp_elim _ s _
      (initiate_loop_unreadable img dest mr d (Z.to_nat mr) 0 s
         Hc Hr Hd ltac:(lia) ltac:(lia)))
      as (r & s' & ev & Heq & -> & -> & Hcalls & Hsl).
    by exists ev.
Qed.

Lemma initiate_upload_retry_bound_witness :
  exists ev,
    _initiate_upload demo_image "/content/dam/images" 3 2
      (demo_sys demo_uploader
         [Fault ConnectionError; Resp 200 JInvalid; Resp 200 demo_grant;
          Resp 201 JFalsy] [])
    = (Ret (Some demo_grant), demo_sys demo_uploader [Resp 201 JFalsy] [], ev) /\
    calls ev = map (initiate_event "http://localhost:4502" "/content/dam/images")
                 [Fault ConnectionError; Resp 200 JInvalid; Resp 200 demo_grant] /\
    sleeps ev = [ESleep 2; ESleep 2].
Proof.
  destruct (initiate_upload_retry_bound demo_image "/content/dam/images" 3 2
              (demo_sys demo_uploader
                 [Fault ConnectionError; Resp 200 JInvalid; Resp 200 demo_grant;
                  Resp 201 JFalsy] []) eq_refl ltac:(lia)) as (H & _).
  apply (H [Fault ConnectionError; Resp 200 JInvalid] demo_grant [Resp 201 JFalsy]).
  - reflexivity.
  - repeat constructor.
  - discriminate.
  - simpl. lia.
  - reflexivity.
Defined.

(** X2: whatever the remote answers, one [upload] on a configured uploader
    issues at most three initiate requests and at most one finalize
    request. *)
Theorem upload_request_ceiling img date tgs s :
  configured (uploader s) = true ->
  (length (calls_of Initiate (events_of (upload img date tgs) s)) <= 3)%nat /\
  (length (calls_of Complete (events_of (upload img date tgs) s)) <= 1)%nat.
Proof. intros Hc. exact (upload_count img date tgs s Hc). Qed.

Lemma upload_request_ceiling_witness :
  (length (calls_of Initiate
             (events_of (upload demo_image demo_date ["findme"])
                (demo_sys demo_uploader
                   [Resp 500 JFalsy; Resp 500 JFalsy; Resp 500 JFalsy;
                    Resp 200 demo_grant] []))) <= 3)%nat /\
  (length (calls_of Complete
             (events_of (upload demo_image demo_date ["findme"])
                (demo_sys demo_uploader
                   [Resp 500 JFalsy; Resp 500 JFalsy; Resp 500 JFalsy;
                    Resp 200 demo_grant] []))) <= 1)%nat.
Proof. apply upload_request_ceiling. reflexivity. Defined.

(** X3: whatever the remote answers, [_create_folder] on a configured
    uploader makes at most [max_retries] attempts (existence checks), at most
    one creation request and at most one pause per attempt; and
    [_initiate_upload] issues at most [max_retries] requests. *)
Theorem retry_loops_ceiling folder img dest mr d s :
  configured (uploader s) = true -> 0 <= d ->
  (attempts (events_of (_create_folder folder mr d) s) <= Z.to_nat mr)%nat /\
  (length (calls_of FolderCreate (events_of (_create_folder folder mr d) s))
   <= attempts (events_of (_create_folder folder mr d) s))%nat /\
  (length (sleeps (events_of (_create_folder folder mr d) s))
   <= attempts (events_of (_create_folder folder mr d) s))%nat /\
  (length (calls (events_of (_initiate_upload img dest mr d) s)) <= Z.to_nat mr)%nat.
Proof.
  intros Hc Hd.
  destruct (create_folder_loop_count folder mr d (Z.to_nat mr) 0 s Hc Hd)
    as (_ & H1 & H2 & H3).
  destruct (initiate_loop_count img dest mr d (Z.to_nat mr) 0 s Hc Hd)
    as (_ & H4 & _).
  by split_and!.
Qed.

Lemma retry_loops_ceiling_witness :
  (attempts (events_of (_create_folder "/content/dam/customers" 3 2)
               (demo_sys demo_uploader [Resp 404 JFalsy; Resp 500 JFalsy] []))
   <= Z.to_nat 3)%nat.
Proof.
  apply (retry_loops_ceiling "/content/dam/customers" demo_image
           "/content/dam/images" 3 2
           (demo_sys demo_uploader [Resp 404 JFalsy; Resp 500 JFalsy] []));
    [reflexivity|lia].
Defined.

(** X4: [upload] and [_create_folder] never write an attribute of the
    uploader and touch neither the image processor's counter nor the
    outcomes of later generations: of the state they only consume answers of
    the remote.  This holds for every state, configured or not, and whatever
    the outcome. *)
Theorem upload_keeps_configuration img date tgs folder mr d s :
  (uploader (state_after (upload img date tgs) s) = uploader s /\
   images_processed (state_after (upload img date tgs) s) = images_processed s /\
   studio (state_after (upload img date tgs) s) = studio s) /\
  (uploader (state_after (_create_folder folder mr d) s) = uploader s /\
   images_processed (state_after (_create_folder folder mr d) s) = images_processed s /\
   studio (state_after (_create_folder folder mr d) s) = studio s).
Proof.
  split.
  - pose proof (preserves_upload
                  (fun s => (uploader s, images_processed s, studio s))
                  (fun _ _ => eq_refl) img date tgs s) as H.
    simpl in H. by injection H.
  - pose proof (preserves_create_folder
                  (fun s => (uploader s, images_processed s, studio s))
                  (fun _ _ => eq_refl) folder mr d s) as H.
    simpl in H. by injection H.
Qed.

(** X5: the initiate requests of an [upload] on a configured uploader all go
    to [{host}{destination}.initiateUpload.json], where the destination is
    [aem_destination] as it stands when date-partitioning is off, and
    [aem_destination/YYYY/MM] of the given date when it is on; with
    date-partitioning off the upload issues no folder request at all. *)
Theorem upload_initiate_url img date tgs s dest flag :
  configured (uploader s) = true ->
  put_into_date_folder (uploader s) = Some flag ->
  aem_destination (uploader s) = Some dest ->
  Forall (fun e =>
            call_url e =
            host_of (uploader s)
            +:+ (if flag
                 then dest +:+ "/" +:+ strftime_Y date +:+ "/" +:+ strftime_m date
                 else dest)
            +:+ ".initiateUpload.json")
    (calls_of Initiate (events_of (upload img date tgs) s)) /\
  (flag = false ->
   calls_of FolderCheck (events_of (upload img date tgs) s) = [] /\
   calls_of FolderCreate (events_of (upload img date tgs) s) = []).
Proof. apply upload_initiate_urls. Qed.

Lemma upload_initiate_url_witness :
  Forall (fun e =>
            call_url e =
            "http://localhost:4502"
            +:+ ("/content/dam/images" +:+ "/" +:+ "2021" +:+ "/" +:+ "03")
            +:+ ".initiateUpload.json")
    (calls_of Initiate
       (events_of (upload demo_image demo_date ["findme"])
          (demo_sys (set_put_into_date_folder true demo_uploader)
             [Resp 200 JFalsy; Resp 200 JFalsy; Resp 200 JFalsy; Resp 200 JFalsy;
              Resp 200 JFalsy; Resp 503 JFalsy] []))).
Proof.
  apply (upload_initiate_url demo_image demo_date ["findme"]
           (demo_sys (set_put_into_date_folder true demo_uploader)
              [Resp 200 JFalsy; Resp 200 JFalsy; Resp 200 JFalsy; Resp 200 JFalsy;
               Resp 200 JFalsy; Resp 503 JFalsy] [])
           "/content/dam/images" true); reflexivity.
Defined.



(** X7: [_complete_upload] on a configured uploader issues exactly one
    request and never retries: with an upload token and a completion URI in
    the grant it posts once to [{host}{completeURI}], consumes that one
    answer and returns true exactly when the answer is 200 or 201 (a
    transport error gives false); when the grant lacks the token or the
    completion URI it returns false without any request. *)
Theorem complete_upload_single_request img info date tgs s :
  configured (uploader s) = true ->
  (forall tok cu r rest,
     info_token info = Some tok -> info_complete info = Some cu ->
     remote s = r :: rest ->
     exists ev,
       _complete_upload img info date tgs s
       = (Ret (reply_completes r), set_remote rest s, ev) /\
       calls ev = [ECall POST Complete (host_of (uploader s) +:+ cu) r]) /\
  (info_token info = None \/ info_complete info = None ->
   exists ev,
     _complete_upload img info date tgs s = (Ret false, s, ev) /\ calls ev = []).
Proof.
  intros Hc. split.
  - intros tok cu r rest Ht Hcu Hrem.
    destruct (wp_elim _ _ _
      (complete_upload_scripted img info date tgs s tok cu r rest Hc Ht Hcu Hrem))
      as (res & s' & ev & Heq & -> & -> & Hcalls).
    by exists ev.
  - intros Hk.
    destruct (wp_elim _ _ _ (complete_upload_missing_key img info date tgs s Hc Hk))
      as (res & s' & ev & Heq & -> & -> & Hcalls).
    by exists ev.
Qed.

Lemma complete_upload_single_request_witness :
  exists ev,
    _complete_upload demo_image (Some demo_grant) demo_date ["findme"]
      (demo_sys demo_uploader [Resp 500 JFalsy; Resp 200 JFalsy] [])
    = (Ret false, demo_sys demo_uploader [Resp 200 JFalsy] [], ev) /\
    calls ev = [ECall POST Complete
                  ("http://localhost:4502" +:+ "/content/dam/images.completeUpload.json")
                  (Resp 500 JFalsy)].
Proof.
  destruct (complete_upload_single_request demo_image (Some demo_grant) demo_date
              ["findme"]
              (demo_sys demo_uploader [Resp 500 JFalsy; Resp 200 JFalsy] [])
              eq_refl) as [H _].
  exact (H "upload-token" "/content/dam/images.completeUpload.json"
           (Resp 500 JFalsy) [Resp 200 JFalsy] eq_refl eq_refl eq_refl).
Defined.

(** X8: an initiate answer of status 200 whose JSON body is of no use (an
    empty object, or an object without [uploadURIs]) is not retried: with
    date-partitioning off and a readable file, [upload] returns false after
    that single initiate request (preceded by the failed ones, fewer than
    three), without any transfer or finalize request. *)
Theorem upload_unusable_grant img date tgs s dest fs b rest :
  configured (uploader s) = true ->
  put_into_date_folder (uploader s) = Some false ->
  aem_destination (uploader s) = Some dest ->
  readable img = true ->
  Forall (fun r => initiate_failed r = true) fs -> (length fs < 3)%nat ->
  b <> JInvalid -> info_uris (Some b) = None ->
  remote s = fs ++ Resp 200 b :: rest ->
  exists ev,
    upload img date tgs s = (Ret false, set_remote rest s, ev) /\
    calls ev = map (initiate_event (host_of (uploader s)) dest) (fs ++ [Resp 200 b]).
Proof.
  intros Hc Hf Hd Hr Hfs Hlen Hb Hu Hrem.
  destruct (wp_elim _ _ _
    (upload_flag_off img date tgs s dest _ Hc Hf Hd
       (upload_session_unusable img dest date tgs s fs b rest
          Hc Hr Hfs Hlen Hb Hu Hrem)))
    as (res & s' & ev & Heq & -> & -> & Hcalls).
  by exists ev.
Qed.

Lemma upload_unusable_grant_witness :
  exists ev,
    upload demo_image demo_date ["findme"]
      (demo_sys demo_uploader [Resp 200 JFalsy; Resp 201 JFalsy] [])
    = (Ret false, demo_sys demo_uploader [Resp 201 JFalsy] [], ev) /\
    calls ev = [initiate_event "http://localhost:4502" "/content/dam/images"
                  (Resp 200 JFalsy)].
Proof.
  apply (upload_unusable_grant demo_image demo_date ["findme"]
           (demo_sys demo_uploader [Resp 200 JFalsy; Resp 201 JFalsy] [])
           "/content/dam/images" [] JFalsy [Resp 201 JFalsy]);
    try reflexivity.
  - constructor.
  - simpl. lia.
  - discriminate.
Defined.

(** X9: the successful path of [upload], request by request.  With
    date-partitioning off and a readable file, when the remote (after fewer
    than three failed initiate answers) grants the signed URIs [uris], a
    token and a completion URI, accepts one transfer per URI and then
    answers [fin] to the finalize request, the requests of the upload are
    exactly: the initiate requests to [{host}{destination}.initiateUpload.json],
    one PUT per signed URI in order, and one POST to [{host}{completeURI}];
    it consumes exactly these answers and returns true when [fin] is 200 or
    201 and false otherwise. *)
Theorem upload_request_sequence img date tgs s dest fs uris tok cu puts fin rest :
  configured (uploader s) = true ->
  put_into_date_folder (uploader s) = Some false ->
  aem_destination (uploader s) = Some dest ->
  readable img = true ->
  Forall (fun r => initiate_failed r = true) fs -> (length fs < 3)%nat ->
  length puts = length uris -> Forall (fun r => reply_accepted r = true) puts ->
  remote s = fs ++ Resp 200 (JInfo (Some uris) (Some tok) (Some cu))
                :: puts ++ fin :: rest ->
  exists ev,
    upload img date tgs s = (Ret (reply_completes fin), set_remote rest s, ev) /\
    calls ev =
      map (initiate_event (host_of (uploader s)) dest)
        (fs ++ [Resp 200 (JInfo (Some uris) (Some tok) (Some cu))])
      ++ zip_with (ECall PUT Transfer) uris puts
      ++ [ECall POST Complete (host_of (uploader s) +:+ cu) fin].
Proof.
  intros Hc Hf Hd Hr Hfs Hlen Hpl Hacc Hrem.
  destruct (wp_elim _ _ _
    (upload_flag_off img date tgs s dest _ Hc Hf Hd
       (upload_session_transferred img dest date tgs s fs uris tok cu puts fin rest
          Hc Hr Hfs Hlen Hpl Hacc Hrem)))
    as (res & s' & ev & Heq & -> & -> & Hcalls).
  by exists ev.
Qed.

Lemma upload_request_sequence_witness :
  exists ev,
    upload demo_image demo_date ["findme"]
      (demo_sys demo_uploader
         [Resp 503 JFalsy; Resp 200 demo_grant; Resp 200 JFalsy; Resp 201 JFalsy;
          Resp 204 JFalsy; Resp 201 JFalsy; Resp 404 JFalsy] [])
    = (Ret true, demo_sys demo_uploader [Resp 404 JFalsy] [], ev) /\
    calls ev =
      [initiate_event "http://localhost:4502" "/content/dam/images" (Resp 503 JFalsy);
       initiate_event "http://localhost:4502" "/content/dam/images" (Resp 200 demo_grant);
       ECall PUT Transfer "https://blob/1" (Resp 200 JFalsy);
       ECall PUT Transfer "https://blob/2" (Resp 201 JFalsy);
       ECall PUT Transfer "https://blob/3" (Resp 204 JFalsy);
       ECall POST Complete
         ("http://localhost:4502" +:+ "/content/dam/images.completeUpload.json")
         (Resp 201 JFalsy)].
Proof.
  apply (upload_request_sequence demo_image demo_date ["findme"]
           (demo_sys demo_uploader
              [Resp 503 JFalsy; Resp 200 demo_grant; Resp 200 JFalsy; Resp 201 JFalsy;
               Resp 204 JFalsy; Resp 201 JFalsy; Resp 404 JFalsy] [])
           "/content/dam/images" [Resp 503 JFalsy]
           ["https://blob/1"; "https://blob/2"; "https://blob/3"]
           "upload-token" "/content/dam/images.completeUpload.json"
           [Resp 200 JFalsy; Resp 201 JFalsy; Resp 204 JFalsy]
           (Resp 201 JFalsy) [Resp 404 JFalsy]);
    try reflexivity.
  - repeat constructor.
  - simpl. lia.
  - repeat constructor.
Defined.
(** ** More on [process_image] *)

Lemma initialised_cases u :
  initialised u = true -> aem_enabled u = false \/ configured u = true.
Proof.
  unfold initialised. destruct (aem_enabled u); simpl; auto.
Qed.

Lemma configured_enabled u : configured u = true -> aem_enabled u = true.
Proof. intros Hc. by destruct (configured_inv _ Hc) as (? & ? & ? & ? & ? & ->). Qed.

Lemma configured_set_destination f u :
  configured u = true -> configured (set_aem_destination f u) = true.
Proof. intros Hc. by destruct (configured_inv _ Hc) as (? & ? & ? & ? & ? & ->). Qed.

(** A failed generation: the error is logged and nothing else happens. *)
Lemma process_image_not_generated p target s :
  generates s = false ->
  process_image p target s
  = (Ret tt, set_studio (tl (studio s)) s, [log_process_failed p OSError]).
Proof.
  intros Hg. unfold generates in Hg.
  unfold process_image, try_except, process_image_open, generate.
  unfold mbind, M_bind.
  destruct s as [u n rem st]. simpl in *.
  by destruct st as [|[g|] gs].
Qed.

Lemma process_image_close_effect g s :
  initialised (uploader s) = true ->
  wp (process_image_close g) s (fun res s' ev =>
    res = Ret tt /\
    uploader s' = uploader s /\
    images_processed s' = images_processed s + 1 /\
    studio s' = studio s /\
    (aem_enabled (uploader s) = false -> remote s' = remote s /\ calls ev = [])).
Proof.
  intros Hi. unfold process_image_close.
  apply wp_bind, wp_get. simpl.
  destruct (initialised_cases _ Hi) as [Hoff|Hc].
  - rewrite Hoff. apply wp_bind, wp_ret. simpl.
    apply wp_bind, wp_modify. simpl. apply wp_emit. by split_and!.
  - rewrite (configured_enabled _ Hc).
    apply wp_bind, wp_bind.
    eapply wp_mono; [by apply upload_spec|].
    simpl. intros res s1 ev1 (Hs1 & ok & evF & evI & evT & evC & -> & _).
    apply wp_ret. rewrite app_nil_r.
    apply wp_bind, wp_modify. simpl. apply wp_emit. simpl.
    rewrite Hs1. simpl. by split_and!.
Qed.

Lemma process_image_effect p target s :
  initialised (uploader s) = true ->
  wp (process_image p target) s (fun res s' ev =>
    res = Ret tt /\
    images_processed s' = images_processed s + (if generates s then 1 else 0) /\
    studio s' = tl (studio s) /\
    initialised (uploader s') = true /\
    (aem_enabled (uploader s) = false ->
     uploader s' = uploader s /\ remote s' = remote s /\ calls ev = [])).
Proof.
  intros Hi. destruct (generates s) eqn:Hg.
  2: { unfold wp. rewrite (process_image_not_generated p target s Hg). simpl.
       split_and!; try done. lia. }
  unfold generates in Hg. destruct (studio s) as [|[g|] gs] eqn:Hst; try discriminate.
  unfold process_image. apply wp_try_except, wp_bind.
  unfold process_image_open. apply wp_bind.
  unfold wp at 1, generate. rewrite Hst. simpl.
  apply wp_bind, wp_get. simpl.
  set (s0 := set_studio gs s).
  assert (wp (process_image_close g) s0 (fun res s' ev =>
            res = Ret tt /\
            images_processed s' = images_processed s + 1 /\
            studio s' = gs /\ initialised (uploader s') = true /\
            (aem_enabled (uploader s) = false ->
             uploader s' = uploader s /\ remote s' = remote s /\ calls ev = [])))
    as Hplain.
  { eapply wp_mono; [by apply (process_image_close_effect g s0)|].
    simpl. intros res s' ev (-> & Hu & Hn & Hs & Hoff).
    split_and!; try done. { by rewrite Hu. }
    intros Hen. by destruct (Hoff Hen). }
  destruct (aem_enabled (uploader s)) eqn:Hen.
  2: { apply wp_bind, wp_ret. simpl. apply wp_ret. simpl.
       eapply wp_mono; [exact Hplain|]. simpl. by intros res s' ev (-> & ?). }
  destruct target as [f|]; [destruct (PyStr.truthy f) eqn:Hf|].
  2,3: apply wp_bind, wp_ret; simpl; apply wp_ret; simpl;
    (eapply wp_mono; [exact Hplain|]); simpl; by intros res s' ev (-> & ?).
  apply wp_bind, wp_modify. simpl. apply wp_ret. simpl.
  destruct (initialised_cases _ Hi) as [Hoff|Hc]; [congruence|].
  eapply wp_mono.
  { apply (process_image_close_effect g).
    unfold initialised. simpl. rewrite (configured_set_destination f _ Hc).
    apply orb_true_r. }
  simpl. intros res s' ev (-> & Hu & Hn & Hs & _).
  split_and!; try done.
  rewrite Hu. simpl. unfold initialised.
  rewrite (configured_set_destination f _ Hc). apply orb_true_r.
Qed.

Lemma process_images_effect queue : forall s,
  initialised (uploader s) = true ->
  wp (process_images queue) s (fun res s' ev =>
    res = Ret tt /\
    images_processed s'
    = images_processed s + Z.of_nat (generated_among (length queue) s) /\
    studio s' = drop (length queue) (studio s) /\
    (aem_enabled (uploader s) = false ->
     uploader s' = uploader s /\ remote s' = remote s /\ calls ev = [])).
Proof.
  induction queue as [|p rest IH]; intros s Hi; simpl.
  - apply wp_ret. unfold generated_among. simpl. split_and!; try done. lia.
  - apply wp_bind.
    eapply wp_mono; [by apply process_image_effect|].
    simpl. intros res s1 ev1 (-> & Hn1 & Hs1 & Hi1 & Hoff1).
    eapply wp_mono; [by apply (IH s1)|].
    simpl. intros res s2 ev2 (-> & Hn2 & Hs2 & Hoff2).
    split_and!; try done.
    + rewrite Hn2, Hn1. unfold generated_among, generates. rewrite Hs1.
      destruct (studio s) as [|[g|] gs]; simpl; rewrite ?filter_cons; simpl;
        try lia.
      rewrite take_nil. simpl. lia.
    + rewrite Hs2, Hs1. destruct (studio s); [|done]. simpl. by rewrite drop_nil.
    + intros Hen. destruct (Hoff1 Hen) as (Hu1 & Hr1 & Hc1).
      destruct Hoff2 as (Hu2 & Hr2 & Hc2); [by rewrite Hu1|].
      rewrite calls_app, Hc1, Hc2. split_and!; [congruence|congruence|done].
Qed.

(** ** Results on [process_image] *)

(** X10: on an uploader as [__init__] leaves it (uploads disabled, or
    enabled with every attribute set), [process_image] never raises; it
    consumes one local generation; and the processor's counter goes up by
    one exactly when that generation succeeded, whatever the remote answers
    to the upload: an image whose upload failed is counted all the same. *)
Theorem process_image_counts_generated p target s :
  initialised (uploader s) = true ->
  outcome_of (process_image p target) s = Ret tt /\
  images_processed (state_after (process_image p target) s)
  = images_processed s + (if generates s then 1 else 0) /\
  studio (state_after (process_image p target) s) = tl (studio s) /\
  initialised (uploader (state_after (process_image p target) s)) = true.
Proof.
  intros Hi.
  destruct (process_image_effect p target s Hi) as (H1 & H2 & H3 & H4 & _).
  by split_and!.
Qed.

Lemma process_image_counts_generated_witness :
  outcome_of (process_image demo_image (Some "/customers/acme"))
    (demo_sys demo_uploader [Resp 500 JFalsy] [Some demo_generated]) = Ret tt /\
  images_processed
    (state_after (process_image demo_image (Some "/customers/acme"))
       (demo_sys demo_uploader [Resp 500 JFalsy] [Some demo_generated]))
  = 0 + 1.
Proof.
  destruct (process_image_counts_generated demo_image (Some "/customers/acme")
              (demo_sys demo_uploader [Resp 500 JFalsy] [Some demo_generated])
              eq_refl) as (H1 & H2 & _).
  split; [exact H1|exact H2].
Defined.

(** X11: with uploads disabled, [process_image] issues no request, consumes
    no answer of the remote and leaves the uploader object as it is, also
    when a target folder is given: [upload] is not called and the
    destination is not overridden. *)
Theorem process_image_uploads_disabled p target s :
  aem_enabled (uploader s) = false ->
  calls (events_of (process_image p target) s) = [] /\
  uploader (state_after (process_image p target) s) = uploader s /\
  remote (state_after (process_image p target) s) = remote s.
Proof.
  intros Hoff.
  assert (initialised (uploader s) = true) as Hi.
  { unfold initialised. by rewrite Hoff. }
  destruct (process_image_effect p target s Hi) as (_ & _ & _ & _ & H).
  destruct (H Hoff) as (Hu & Hr & Hc). by split_and!.
Qed.

Lemma process_image_uploads_disabled_witness :
  calls (events_of (process_image demo_image (Some "/customers/acme"))
           (demo_sys (AEMUploader_init ∅ None) [Resp 200 JFalsy]
              [Some demo_generated])) = [] /\
  uploader (state_after (process_image demo_image (Some "/customers/acme"))
              (demo_sys (AEMUploader_init ∅ None) [Resp 200 JFalsy]
                 [Some demo_generated]))
  = AEMUploader_init ∅ None /\
  remote (state_after (process_image demo_image (Some "/customers/acme"))
            (demo_sys (AEMUploader_init ∅ None) [Resp 200 JFalsy]
               [Some demo_generated]))
  = [Resp 200 JFalsy].
Proof.
  apply (process_image_uploads_disabled demo_image (Some "/customers/acme")
           (demo_sys (AEMUploader_init ∅ None) [Resp 200 JFalsy]
              [Some demo_generated])).
  reflexivity.
Defined.

(** X12: when the local generation fails, [process_image] logs the error
    and does nothing else, in every state and for every target folder: no
    request, no override of the destination, no count; it returns
    normally. *)
Theorem process_image_generation_failed p target s :
  generates s = false ->
  process_image p target s
  = (Ret tt, set_studio (tl (studio s)) s, [log_process_failed p OSError]).
Proof. apply process_image_not_generated. Qed.

Lemma process_image_generation_failed_witness :
  process_image demo_image (Some "/customers/acme")
    (demo_sys demo_uploader [Resp 200 JFalsy] [None; Some demo_generated])
  = (Ret tt, demo_sys demo_uploader [Resp 200 JFalsy] [Some demo_generated],
     [log_process_failed demo_image OSError]).
Proof.
  apply (process_image_generation_failed demo_image (Some "/customers/acme")
           (demo_sys demo_uploader [Resp 200 JFalsy] [None; Some demo_generated])).
  reflexivity.
Defined.

(** X13: a thread of [ImageProcessor.worker] that works through a queue of
    images on an initialised uploader returns normally, consumes one local
    generation per image, and leaves the counter advanced by the number of
    generations that succeeded. *)
Theorem process_images_counts queue s :
  initialised (uploader s) = true ->
  outcome_of (process_images queue) s = Ret tt /\
  images_processed (state_after (process_images queue) s)
  = images_processed s + Z.of_nat (generated_among (length queue) s) /\
  studio (state_after (process_images queue) s) = drop (length queue) (studio s).
Proof.
  intros Hi.
  destruct (process_images_effect queue s Hi) as (H1 & H2 & H3 & _).
  by split_and!.
Qed.

Lemma process_images_counts_witness :
  images_processed
    (state_after (process_images [demo_image; demo_image; demo_image])
       (demo_sys demo_uploader [] [Some demo_generated; None; Some demo_generated]))
  = 0 + Z.of_nat 2.
Proof.
  apply (process_images_counts [demo_image; demo_image; demo_image]
           (demo_sys demo_uploader [] [Some demo_generated; None; Some demo_generated])).
  reflexivity.
Defined.
(** ** Two workers and the one destination *)

(** The first request of an upload without date-partitioning is the initiate
    request at the destination as it stands. *)
Lemma initiate_loop_first_request img dest mr d todo k s rp rest :
  configured (uploader s) = true -> readable img = true -> 0 <= d ->
  remote s = rp :: rest ->
  wp (initiate_loop img dest mr d (S todo) k) s (fun res s' ev =>
    exists ev', calls ev = initiate_event (host_of (uploader s)) dest rp :: ev').
Proof.
  intros Hc Hr Hd Hrem. simpl. apply wp_bind.
  destruct (initiate_failed rp) eqn:Hf.
  - eapply wp_mono; [by eapply initiate_attempt_failed|].
    simpl. intros r s1 ev1 (_ & -> & Hcalls & _).
    destruct (k <? mr - 1).
    + eapply wp_mono; [apply wp_any|]. simpl. intros r s2 ev2 _.
      exists (calls ev2). by rewrite calls_app, Hcalls.
    + apply wp_ret. exists []. by rewrite app_nil_r.
  - destruct rp as [c b|e]; [|discriminate]. simpl in Hf.
    apply orb_false_iff in Hf as [Hc200 Hb].
    apply negb_false_iff, Z.eqb_eq in Hc200. subst c.
    eapply wp_mono;
      [eapply initiate_attempt_granted; try done; by intros ->|].
    simpl. intros r s1 ev1 (_ & -> & Hcalls & _).
    apply wp_ret. exists []. by rewrite app_nil_r.
Qed.

Lemma upload_first_request img date tgs s dest rp rest :
  configured (uploader s) = true ->
  put_into_date_folder (uploader s) = Some false ->
  aem_destination (uploader s) = Some dest ->
  readable img = true -> remote s = rp :: rest ->
  wp (upload img date tgs) s (fun res s' ev =>
    exists ev', calls ev = initiate_event (host_of (uploader s)) dest rp :: ev').
Proof.
  intros Hc Hf Hd Hr Hrem.
  apply (upload_flag_off img date tgs s dest _ Hc Hf Hd).
  apply wp_and.
  { eapply wp_mono; [by apply upload_session_spec|].
    simpl. intros r s' ev (_ & ok & _ & _ & _ & -> & _). by eexists. }
  unfold upload_session.
  destruct (configured_logger _ Hc) as [lg Hlg].
  apply wp_bind. eapply wp_ulog_cfg; [done|]. simpl.
  apply wp_bind. unfold _initiate_upload. change (Z.to_nat 3) with 3%nat.
  eapply wp_mono; [by eapply initiate_loop_first_request|].
  simpl. intros r s1 ev1 [ev' Hcalls].
  destruct r as [v|e]; [|exists ev'; by rewrite calls_cons_other].
  eapply wp_mono; [apply wp_any|]. simpl. intros r s2 ev2 _.
  exists (ev' ++ calls ev2).
  rewrite calls_cons_other by done. by rewrite calls_app, Hcalls.
Qed.

(** The first half of [process_image] in a worker that holds a task for a
    non-empty folder: the image is generated and the destination
    overridden. *)
Lemma thread_step_holding i r t g gs :
  workers r !! i = Some (Holding t) ->
  aem_enabled (uploader (sys r)) = true -> PyStr.truthy t.1.1 = true ->
  studio (sys r) = Some g :: gs ->
  wp (thread_step i) r (fun res r' ev =>
    res = Ret tt /\ ev = [] /\
    workers r' = <[i := Prepared t g]> (workers r) /\
    sys r' = set_uploader (set_aem_destination t.1.1 (uploader (sys r)))
               (set_studio gs (sys r))).
Proof.
  intros Hi Hen Hf Hst.
  unfold thread_step. apply wp_try_except.
  unfold worker_step. apply wp_bind, wp_get. simpl. rewrite Hi.
  apply wp_bind, wp_modify. simpl. apply wp_bind, wp_lift. simpl.
  unfold process_image_prepare. apply wp_try_except, wp_bind.
  unfold process_image_open. apply wp_bind.
  unfold wp at 1, generate. rewrite Hst. simpl.
  apply wp_bind, wp_get. simpl. rewrite Hen.
  destruct t as [[f n] p]. simpl in *. rewrite Hf.
  apply wp_bind, wp_modify. simpl. apply wp_ret. simpl. apply wp_ret. simpl.
  unfold set_worker. apply wp_modify. simpl. by split_and!.
Qed.

(** The second half: the upload goes to the destination as it stands. *)
Lemma thread_step_prepared i r t g dest rp rest :
  workers r !! i = Some (Prepared t g) ->
  configured (uploader (sys r)) = true -> date_flag r = Some false ->
  aem_destination (uploader (sys r)) = Some dest ->
  readable (output_path g) = true -> remote (sys r) = rp :: rest ->
  wp (thread_step i) r (fun res r' ev =>
    res = Ret tt /\ workers r' = <[i := Handled t]> (workers r) /\
    (exists ev',
       calls ev = initiate_event (host_of (uploader (sys r))) dest rp :: ev') /\
    Forall (fun e => call_url e = host_of (uploader (sys r)) +:+ dest
                                  +:+ ".initiateUpload.json")
      (calls_of Initiate ev)).
Proof.
  intros Hi Hc Hf Hd Hr Hrem.
  unfold thread_step. apply wp_try_except.
  unfold worker_step. apply wp_bind, wp_get. simpl. rewrite Hi.
  apply wp_bind, wp_lift.
  unfold process_image_finish. apply wp_try_except.
  unfold process_image_close. apply wp_bind, wp_get. simpl.
  rewrite (configured_enabled _ Hc).
  apply wp_bind, wp_bind.
  pose proof (upload_initiate_urls (output_path g) (random_date g) (tags g)
                (sys r) dest false Hc Hf Hd) as [Hurls _].
  eapply wp_mono;
    [apply wp_and;
     [apply wp_and; [by apply upload_spec|by eapply upload_first_request]
     |exact (Hurls : wp _ (sys r) (fun _ _ ev =>
                Forall (fun e => call_url e = host_of (uploader (sys r)) +:+ dest
                                              +:+ ".initiateUpload.json")
                  (calls_of Initiate ev)))]|].
  simpl.
  intros res s1 ev1 (((_ & ok & _ & _ & _ & _ & -> & _) & [ev' Hcalls]) & Hurls1).
  apply wp_ret. rewrite app_nil_r.
  apply wp_bind, wp_modify. simpl. apply wp_emit. simpl.
  unfold set_worker. apply wp_modify. simpl.
  split_and!; [done|done|..].
  - exists ev'. rewrite app_nil_r, calls_app, Hcalls. simpl. by rewrite app_nil_r.
  - rewrite app_nil_r, calls_of_app. simpl. by rewrite app_nil_r.
Qed.

(** X14: the uploader's destination is shared by the workers.  Let worker
    [i] hold a task for folder [f1] and worker [j] a task for another folder
    [f2], on a configured uploader without date-partitioning, with both
    images generated, the first one readable, and an answer of the remote to
    come.
    When worker [i] runs its task without interruption, its upload opens
    with the initiate request at [{host}{f1}.initiateUpload.json].  When
    worker [j] overrides the destination between worker [i]'s override and
    worker [i]'s upload, the upload of worker [i]'s image opens with the
    initiate request at [{host}{f2}.initiateUpload.json], and every initiate
    request of it goes there: the asset of one task lands in the folder of
    the other. *)
Theorem destination_shared_between_workers i j t1 t2 g1 g2 gs rp rest r :
  i <> j ->
  workers r !! i = Some (Holding t1) -> workers r !! j = Some (Holding t2) ->
  configured (uploader (sys r)) = true -> date_flag r = Some false ->
  PyStr.truthy t1.1.1 = true -> PyStr.truthy t2.1.1 = true ->
  studio (sys r) = Some g1 :: Some g2 :: gs ->
  readable (output_path g1) = true ->
  remote (sys r) = rp :: rest ->
  (workers (state_after (run_schedule [i; i]) r) !! i = Some (Handled t1) /\
   exists ev',
     calls (events_of (run_schedule [i; i]) r)
     = initiate_event (host_of (uploader (sys r))) t1.1.1 rp :: ev') /\
  (workers (state_after (run_schedule [i; j; i]) r) !! i = Some (Handled t1) /\
   workers (state_after (run_schedule [i; j; i]) r) !! j = Some (Prepared t2 g2) /\
   (exists ev',
      calls (events_of (run_schedule [i; j; i]) r)
      = initiate_event (host_of (uploader (sys r))) t2.1.1 rp :: ev') /\
   Forall (fun e => call_url e = host_of (uploader (sys r)) +:+ t2.1.1
                                 +:+ ".initiateUpload.json")
     (calls_of Initiate (events_of (run_schedule [i; j; i]) r))).
Proof.
  intros Hij Hi Hj Hc Hf Hf1 Hf2 Hst Hr Hrem.
  assert (i < length (workers r))%nat as Hli by (by eapply lookup_lt_Some).
  assert (j < length (workers r))%nat as Hlj by (by eapply lookup_lt_Some).
  pose proof (configured_enabled _ Hc) as Hen.
  split.
  - enough (wp (run_schedule [i; i]) r (fun _ r' ev =>
             workers r' !! i = Some (Handled t1) /\
             exists ev', calls ev
               = initiate_event (host_of (uploader (sys r))) t1.1.1 rp :: ev'))
      as H by exact H.
    simpl. apply wp_bind.
    eapply wp_mono; [by eapply thread_step_holding|].
    simpl. intros ? r1 ? (-> & -> & Hw1 & Hs1).
    apply wp_bind.
    eapply wp_mono.
    { eapply (thread_step_prepared i r1 t1 g1 t1.1.1 rp rest).
      - rewrite Hw1. by apply list_lookup_insert_eq.
      - rewrite Hs1. simpl. by apply configured_set_destination.
      - unfold date_flag, flag_of. rewrite Hs1. simpl. exact Hf.
      - by rewrite Hs1.
      - done.
      - by rewrite Hs1. }
    simpl. intros ? r2 ev2 (-> & Hw2 & [ev' Hcalls] & _).
    apply wp_ret. rewrite app_nil_r. split.
    + rewrite Hw2, Hw1. apply list_lookup_insert_eq. by rewrite length_insert.
    + exists ev'. rewrite Hcalls, Hs1. simpl.
      by destruct (configured_inv _ Hc) as (? & ? & ? & ? & ? & ->).
  - enough (wp (run_schedule [i; j; i]) r (fun _ r' ev =>
             workers r' !! i = Some (Handled t1) /\
             workers r' !! j = Some (Prepared t2 g2) /\
             (exists ev', calls ev
                = initiate_event (host_of (uploader (sys r))) t2.1.1 rp :: ev') /\
             Forall (fun e => call_url e = host_of (uploader (sys r)) +:+ t2.1.1
                                           +:+ ".initiateUpload.json")
               (calls_of Initiate ev)))
      as H by exact H.
    simpl. apply wp_bind.
    eapply wp_mono; [by eapply thread_step_holding|].
    simpl. intros ? r1 ? (-> & -> & Hw1 & Hs1).
    apply wp_bind.
    eapply wp_mono.
    { eapply (thread_step_holding j r1 t2 g2 gs).
      - rewrite Hw1. by rewrite list_lookup_insert_ne.
      - by rewrite Hs1.
      - done.
      - by rewrite Hs1. }
    simpl. intros ? r2 ? (-> & -> & Hw2 & Hs2).
    apply wp_bind.
    eapply wp_mono.
    { eapply (thread_step_prepared i r2 t1 g1 t2.1.1 rp rest).
      - rewrite Hw2, Hw1. rewrite list_lookup_insert_ne by done.
        by apply list_lookup_insert_eq.
      - rewrite Hs2, Hs1. simpl. by do 2 apply configured_set_destination.
      - unfold date_flag, flag_of. rewrite Hs2, Hs1. simpl. exact Hf.
      - by rewrite Hs2.
      - done.
      - by rewrite Hs2, Hs1. }
    simpl. intros ? r3 ev3 (-> & Hw3 & [ev' Hcalls] & Hurls).
    apply wp_ret. rewrite app_nil_r.
    assert (host_of (uploader (sys r2)) = host_of (uploader (sys r))) as Hhost.
    { rewrite Hs2, Hs1. simpl.
      by destruct (configured_inv _ Hc) as (? & ? & ? & ? & ? & ->). }
    rewrite Hhost in *.
    split_and!.
    + rewrite Hw3. apply list_lookup_insert_eq.
      by rewrite Hw2, Hw1, !length_insert.
    + rewrite Hw3, list_lookup_insert_ne by done. rewrite Hw2.
      apply list_lookup_insert_eq. by rewrite Hw1, length_insert.
    + by exists ev'.
    + done.
Qed.

Lemma destination_shared_between_workers_witness :
  workers (state_after (run_schedule [0; 1; 0]%nat) demo_two_workers) !! 0%nat
  = Some (Handled ("/customers/acme", 1, demo_image)) /\
  workers (state_after (run_schedule [0; 1; 0]%nat) demo_two_workers) !! 1%nat
  = Some (Prepared ("/customers/beta", 1, demo_image) demo_generated) /\
  (exists ev',
     calls (events_of (run_schedule [0; 1; 0]%nat) demo_two_workers)
     = initiate_event "http://localhost:4502" "/customers/beta" (Resp 503 JFalsy)
       :: ev') /\
  Forall (fun e => call_url e = "http://localhost:4502" +:+ "/customers/beta"
                                +:+ ".initiateUpload.json")
    (calls_of Initiate (events_of (run_schedule [0; 1; 0]%nat) demo_two_workers)).
Proof.
  apply (destination_shared_between_workers 0 1
           ("/customers/acme", 1, demo_image) ("/customers/beta", 1, demo_image)
           demo_generated demo_generated [] (Resp 503 JFalsy) []
           demo_two_workers); try reflexivity.
  lia.
Defined.
(** ** More on [create_folder_structure] *)




(** Folders that are all on record cost nothing. *)
Lemma folder_structure_loop_cached parts : forall cur r,
  (forall a, a ∈ ancestors_from cur (filter (fun seg => PyStr.truthy seg = true) parts) ->
             a ∈ created_folders r) ->
  folder_structure_loop parts cur r = (Ret true, r, []).
Proof.
  induction parts as [|part parts IH]; intros cur r Hall; simpl; [done|].
  destruct (PyStr.truthy part) eqn:Hpart; simpl.
  2: { apply IH. intros a Ha. apply Hall. by rewrite filter_cons_False by congruence. }
  rewrite filter_cons_True in Hall by done. simpl in Hall.
  unfold mbind, M_bind, get. simpl.
  rewrite bool_decide_eq_true_2 by (apply Hall; left).
  rewrite IH; [done|]. intros a Ha. apply Hall. by right.
Qed.

Lemma create_folder_structure_cached f r :
  (forall a, a ∈ ancestors f -> a ∈ created_folders r) ->
  create_folder_structure f r = (Ret true, r, []).
Proof.
  intros Hall. unfold create_folder_structure, try_except.
  by rewrite folder_structure_loop_cached.
Qed.

Lemma settles_in host a ev :
  calls_in (folder_call host a) ev -> existsb folder_ok ev = true ->
  exists e, e ∈ ev /\ settles host a e.
Proof.
  intros Hcalls Hok. apply existsb_exists in Hok as (e & He & Hok).
  apply list_elem_of_In in He. exists e. split; [done|]. split; [done|].
  eapply Forall_forall in Hcalls; [|exact He].
  by destruct e.
Qed.

(** What the loop puts on record was settled by a request of its own. *)
Lemma folder_structure_loop_recorded parts : forall cur r,
  configured (uploader (sys r)) = true ->
  wp (folder_structure_loop parts cur) r (fun res r' ev =>
    sys r' = set_remote (remote (sys r')) (sys r) /\
    forall a, a ∈ created_folders r' ->
      a ∈ created_folders r \/
      (a ∈ ancestors_from cur (filter (fun seg => PyStr.truthy seg = true) parts) /\
       exists e, e ∈ ev /\ settles (host_of (uploader (sys r))) a e)).
Proof.
  induction parts as [|part parts IH]; intros cur r Hc; simpl.
  - apply wp_ret. split; [apply remote_frame_refl|auto].
  - destruct (PyStr.truthy part) eqn:Hpart; simpl.
    2: { rewrite filter_cons_False by congruence. by apply IH. }
    rewrite filter_cons_True by done. simpl.
    set (cur' := cur +:+ "/" +:+ part).
    apply wp_bind, wp_get. simpl.
    destruct (bool_decide (cur' ∈ created_folders r)) eqn:Hin.
    { eapply wp_mono; [by apply IH|]. simpl. intros res r' ev [Hs Hrec].
      split; [done|]. intros a Ha. destruct (Hrec a Ha) as [?|[? ?]]; [by left|].
      right. split; [by right|done]. }
    apply wp_bind, wp_emit. simpl. apply wp_bind, wp_lift.
    eapply wp_mono; [by apply create_folder_spec|].
    simpl. intros res s1 ev1 (Hs1 & (v & -> & _ & Hok) & Hcalls).
    destruct (truth v) eqn:Hv; simpl.
    + apply wp_bind, wp_modify. simpl.
      eapply wp_mono; [apply IH; simpl; by rewrite Hs1|].
      simpl. intros res r2 ev2 [Hs2 Hrec].
      split; [eapply remote_frame_trans; [exact Hs1|exact Hs2]|].
      intros a Ha. destruct (Hrec a Ha) as [Hold|[Hanc (e & He & Hset)]].
      * apply elem_of_union in Hold as [->%elem_of_singleton|Hold]; [|by left].
        right. split; [by left|].
        destruct (settles_in _ _ _ Hcalls Hok) as (e & He & Hset).
        exists e. split; [|done]. right. apply elem_of_app. by left.
      * right. split; [by right|].
        exists e. split; [right; apply elem_of_app; by right|].
        by rewrite (remote_frame_uploader _ _ Hs1) in Hset.
    + apply wp_bind, wp_emit. apply wp_ret. simpl.
      split; [done|]. intros a Ha. by left.
Qed.

Lemma create_folder_structure_recorded f r :
  configured (uploader (sys r)) = true ->
  wp (create_folder_structure f) r (fun res r' ev =>
    (exists ok, res = Ret ok) /\
    sys r' = set_remote (remote (sys r')) (sys r) /\
    forall a, a ∈ created_folders r' ->
      a ∈ created_folders r \/
      (a ∈ ancestors f /\
       exists e, e ∈ ev /\ settles (host_of (uploader (sys r))) a e)).
Proof.
  intros Hc. unfold create_folder_structure. apply wp_try_except.
  eapply wp_mono;
    [apply wp_and; [by apply folder_structure_loop_spec
                   |by apply folder_structure_loop_recorded]|].
  simpl. intros res r' ev ((ok & -> & _) & Hs & Hrec).
  split; [by eexists|]. by split.
Qed.

Lemma create_entry_folders_recorded e r :
  configured (uploader (sys r)) = true ->
  wp (create_entry_folders e) r (fun res r' ev =>
    sys r' = set_remote (remote (sys r')) (sys r) /\
    forall a, a ∈ created_folders r' ->
      a ∈ created_folders r \/
      (a ∈ ancestors (PyStr.strip (folder e)) /\
       exists e', e' ∈ ev /\ settles (host_of (uploader (sys r))) a e')).
Proof.
  intros Hc. unfold create_entry_folders, int_asset_count.
  apply wp_bind, wp_except_ValueError.
  destruct (asset_count e) as [c|]; simpl.
  2: { apply wp_bind, wp_raise. split; [apply remote_frame_refl|auto]. }
  destruct (PyStr.int (PyStr.strip c)) as [n|]; simpl.
  2: { apply wp_bind, wp_raise. simpl. apply wp_bind, wp_emit. apply wp_ret. simpl.
       apply wp_ret. split; [apply remote_frame_refl|auto]. }
  apply wp_bind, wp_ret. simpl. apply wp_ret. simpl.
  destruct (n =? 0).
  { apply wp_ret. split; [apply remote_frame_refl|auto]. }
  apply wp_bind, wp_emit. simpl. apply wp_bind.
  eapply wp_mono; [by apply create_folder_structure_recorded|].
  simpl. intros res r' ev ((ok & ->) & Hs & Hrec).
  assert (forall extra, forall a, a ∈ created_folders r' ->
            a ∈ created_folders r \/
            (a ∈ ancestors (PyStr.strip (folder e)) /\
             exists e', e' ∈ ELog "CustomerStructureReplicator" INFO
                               ("Creating folder structure for "
                                +:+ PyStr.strip (folder e)) :: ev ++ extra /\
                        settles (host_of (uploader (sys r))) a e')) as Hrec'.
  { intros extra a Ha. destruct (Hrec a Ha) as [?|[? (e' & He' & Hset)]]; [by left|].
    right. split; [done|]. exists e'. split; [|done].
    right. apply elem_of_app. by left. }
  destruct ok; simpl.
  - apply wp_ret. split; [done|]. apply (Hrec' []).
  - apply wp_emit. split; [done|]. apply Hrec'.
Qed.

Lemma create_all_folders_recorded structure : forall r,
  configured (uploader (sys r)) = true ->
  wp (create_all_folders structure) r (fun res r' ev =>
    sys r' = set_remote (remote (sys r')) (sys r) /\
    forall a, a ∈ created_folders r' ->
      a ∈ created_folders r \/
      exists e', e' ∈ ev /\ settles (host_of (uploader (sys r))) a e').
Proof.
  induction structure as [|e rest IH]; intros r Hc; simpl.
  - apply wp_ret. split; [apply remote_frame_refl|auto].
  - apply wp_bind.
    eapply wp_mono; [by apply create_entry_folders_recorded|].
    simpl. intros res r1 ev1 [Hs1 Hrec1].
    assert (forall a, a ∈ created_folders r1 ->
              a ∈ created_folders r \/
              exists e', e' ∈ ev1 /\ settles (host_of (uploader (sys r))) a e')
      as Hrec1'.
    { intros a Ha. destruct (Hrec1 a Ha) as [?|[_ ?]]; auto. }
    destruct res as [[]|ex]; [|by split].
    eapply wp_mono; [apply (IH r1); by rewrite Hs1|].
    simpl. intros res r2 ev2 [Hs2 Hrec2].
    split; [eapply remote_frame_trans; [exact Hs1|exact Hs2]|].
    intros a Ha. destruct (Hrec2 a Ha) as [Hold|(e' & He' & Hset)].
    + destruct (Hrec1' a Hold) as [?|(e' & He' & Hset)]; [by left|].
      right. exists e'. split; [apply elem_of_app; by left|done].
    + right. exists e'. split; [apply elem_of_app; by right|].
      by rewrite (remote_frame_uploader _ _ Hs1) in Hset.
Qed.

(** ** Results on [create_folder_structure] *)



(** X16: the record of created folders saves requests.  After
    [create_folder_structure] has succeeded for a folder, on a configured
    uploader, a further call for the same folder, or for any folder all of
    whose ancestors are among that folder's, returns true at once: no
    request, no event, no change of state. *)
Theorem folder_structure_cached f r r1 ev :
  configured (uploader (sys r)) = true ->
  create_folder_structure f r = (Ret true, r1, ev) ->
  create_folder_structure f r1 = (Ret true, r1, []) /\
  (forall g, (forall a, a ∈ ancestors g -> a ∈ ancestors f) ->
             create_folder_structure g r1 = (Ret true, r1, [])).
Proof.
  intros Hc Heq.
  assert (forall a, a ∈ ancestors f -> a ∈ created_folders r1) as Hall.
  { pose proof (create_folder_structure_spec f r Hc) as Hspec.
    unfold wp in Hspec. rewrite Heq in Hspec. simpl in Hspec.
    destruct Hspec as (ok & [= <-] & _ & _ & Hcr).
    rewrite (Hcr eq_refl). intros a Ha.
    destruct (decide (a ∈ created_folders r)) as [Hin|Hnin].
    - apply elem_of_union. by left.
    - apply elem_of_union. right. apply elem_of_list_to_set.
      by apply list_elem_of_filter. }
  split.
  - by apply create_folder_structure_cached.
  - intros g Hg. apply create_folder_structure_cached. auto.
Qed.

Lemma folder_structure_cached_witness :
  create_folder_structure "/customers/acme"
    (state_after (create_folder_structure "/customers/acme")
       (set_sys (demo_sys demo_uploader [Resp 200 JFalsy; Resp 200 JFalsy] [])
          (demo_repl demo_rows demo_pool demo_uploader)))
  = (Ret true,
     state_after (create_folder_structure "/customers/acme")
       (set_sys (demo_sys demo_uploader [Resp 200 JFalsy; Resp 200 JFalsy] [])
          (demo_repl demo_rows demo_pool demo_uploader)),
     []).
Proof.
  destruct (folder_structure_cached "/customers/acme"
              (set_sys (demo_sys demo_uploader [Resp 200 JFalsy; Resp 200 JFalsy] [])
                 (demo_repl demo_rows demo_pool demo_uploader))
              (state_after (create_folder_structure "/customers/acme")
                 (set_sys (demo_sys demo_uploader [Resp 200 JFalsy; Resp 200 JFalsy] [])
                    (demo_repl demo_rows demo_pool demo_uploader)))
              (events_of (create_folder_structure "/customers/acme")
                 (set_sys (demo_sys demo_uploader [Resp 200 JFalsy; Resp 200 JFalsy] [])
                    (demo_repl demo_rows demo_pool demo_uploader)))
              eq_refl) as [H _].
  - by vm_compute.
  - exact H.
Defined.

(** X17: the record of created folders is sound.  On a configured uploader,
    every folder that the folder-creation loop of [replicate_structure] (and
    so every call of [create_folder_structure] in it) adds to
    [created_folders] was settled by a request for that very folder: an
    existence check answered 200 or a creation answered 200 or 201.  A
    folder whose creation failed is never recorded. *)
Theorem created_folders_sound structure r a :
  configured (uploader (sys r)) = true ->
  a ∈ created_folders (state_after (create_all_folders structure) r) ->
  a ∈ created_folders r \/
  exists e, e ∈ events_of (create_all_folders structure) r /\
            settles (host_of (uploader (sys r))) a e.
Proof.
  intros Hc Ha.
  destruct (create_all_folders_recorded structure r Hc) as [_ Hrec].
  by apply Hrec.
Qed.

Lemma created_folders_sound_witness :
  "/content/dam/customers" ∈ (∅ : gset string) \/
  exists e,
    e ∈ events_of
          (create_all_folders
             [ {| folder := "/customers/acme"; asset_count := Some "3" |} ])
          (set_sys (demo_sys demo_uploader [Resp 200 JFalsy; Resp 503 JFalsy] [])
             (demo_repl demo_rows demo_pool demo_uploader)) /\
    settles "http://localhost:4502" "/content/dam/customers" e.
Proof.
  apply (created_folders_sound
           [ {| folder := "/customers/acme"; asset_count := Some "3" |} ]
           (set_sys (demo_sys demo_uploader [Resp 200 JFalsy; Resp 503 JFalsy] [])
              (demo_repl demo_rows demo_pool demo_uploader))
           "/content/dam/customers").
  - reflexivity.
  - apply (bool_decide_unpack _). by vm_compute.
Defined.
(** ** More on [replicate_structure] *)

Lemma replicate_body_thread_count structure schedule r :
  Forall (fun e => is_Some (asset_count e)) structure -> img_dir r <> [] ->
  PyStr.int (getenv (environ r) "NUM_THREADS" "4") = None ->
  wp (replicate_body structure schedule) r (fun res r' ev =>
    res = Raise ValueError /\
    exists blocks,
      Forall2 (block_for (img_dir r)) structure blocks /\
      task_queue r' = task_queue r ++ concat blocks /\
      invoked r' = invoked r /\ threads r' = threads r /\
      workers r' = workers r /\ processed_count r' = processed_count r).
Proof.
  intros Hall Hdir HR. unfold replicate_body. apply wp_bind.
  eapply wp_mono; [by apply create_all_folders_spec|].
  simpl. intros res r1 ev1 (-> & Hf & _).
  apply wp_bind, wp_get. simpl.
  destruct (folders_frame_fields _ _ Hf)
    as (Hd & Henv & Hq1 & Hi1 & Hp1 & Ht1 & Hw1 & _).
  rewrite bool_decide_eq_false_2 by congruence.
  apply wp_bind.
  eapply wp_mono; [apply queue_all_spec; [congruence|done]|].
  simpl. intros res r2 ev2 (blocks & -> & -> & -> & Hblocks).
  apply wp_bind. unfold requested_threads. apply wp_bind, wp_get. simpl.
  rewrite Henv, HR. apply wp_raise. split; [done|].
  exists blocks. simpl. rewrite <- Hd. split_and!; try done. by rewrite Hq1.
Qed.

Lemma init_disabled_no_flag env token :
  aem_enabled (AEMUploader_init env token) = false ->
  put_into_date_folder (AEMUploader_init env token) = None.
Proof. unfold AEMUploader_init. by destruct (String.eqb _ _). Qed.

(** Without the flag attribute the run ends at its first read of it. *)
Lemma replicate_structure_no_flag schedule r :
  enabled r = true -> structure_file r <> [] -> date_flag r = None ->
  replicate_structure schedule r
  = (Raise (AttributeError "put_into_date_folder"), r, [log_started]).
Proof.
  intros Hen Hst Hfl. unfold date_flag, flag_of in Hfl.
  unfold replicate_structure, mbind, M_bind, get. simpl. rewrite Hen. simpl.
  rewrite bool_decide_eq_false_2 by done.
  unfold rlog, emit, in_sys, lift, attr, mbind, M_bind, get, getattr. simpl.
  rewrite Hfl. simpl. by destruct r.
Qed.

(** ** Results on [replicate_structure] *)

(** X18: replication needs the upload client.  When the replicator is
    enabled and the structure file has rows, but the uploader was built with
    uploads disabled, [replicate_structure] raises [AttributeError] at its
    first read of [put_into_date_folder], after the start message and before
    any folder, task or thread: the state is unchanged. *)
Theorem replicate_needs_upload_client schedule r env token :
  enabled r = true -> structure_file r <> [] ->
  aem_enabled (AEMUploader_init env token) = false ->
  uploader (sys r) = AEMUploader_init env token ->
  replicate_structure schedule r
  = (Raise (AttributeError "put_into_date_folder"), r, [log_started]).
Proof.
  intros Hen Hst Hoff Hu. apply replicate_structure_no_flag; try done.
  unfold date_flag, flag_of. rewrite Hu. by apply init_disabled_no_flag.
Qed.

Lemma replicate_needs_upload_client_witness :
  replicate_structure [0]%nat
    (demo_repl demo_rows demo_pool (AEMUploader_init ∅ None))
  = (Raise (AttributeError "put_into_date_folder"),
     demo_repl demo_rows demo_pool (AEMUploader_init ∅ None), [log_started]).
Proof.
  apply (replicate_needs_upload_client [0]%nat
           (demo_repl demo_rows demo_pool (AEMUploader_init ∅ None)) ∅ None);
    [reflexivity|discriminate|reflexivity|reflexivity].
Defined.

(** X19: a row without a count field (a line of the structure file without
    the delimiter) aborts the run.  With the replicator enabled and the flag
    attribute there, if some row has no [asset_count], [replicate_structure]
    raises [AttributeError] (for [None.strip]) out of its first loop: no
    task is enqueued, no thread started, no image processed; the
    date-partitioning flag is written back all the same. *)
Theorem row_without_count_aborts schedule r b :
  enabled r = true -> date_flag r = Some b ->
  Exists (fun e => asset_count e = None) (structure_file r) ->
  exists r' ev,
    replicate_structure schedule r = (Raise (AttributeError "strip"), r', ev) /\
    task_queue r' = task_queue r /\ invoked r' = invoked r /\
    threads r' = threads r /\ processed_count r' = processed_count r /\
    date_flag r' = Some b.
Proof.
  intros Hen Hfl Hex.
  assert (structure_file r <> []) as Hst.
  { intros Hnil. rewrite Hnil in Hex. by apply Exists_nil in Hex. }
  rewrite (replicate_structure_run schedule r b Hen Hst Hfl).
  destruct (wp_elim _ _ _
              (replicate_body_missing (structure_file r) schedule
                 (with_date_flag false r) Hex))
    as (res & r1 & ev1 & E & -> & Hf).
  rewrite E. simpl.
  destruct (folders_frame_fields _ _ Hf) as (_ & _ & Hq & Hi & Hp & Ht & _).
  eexists _, _. split; [reflexivity|]. simpl. by split_and!.
Qed.

Lemma row_without_count_aborts_witness :
  exists r' ev,
    replicate_structure [0]%nat demo_broken_row
    = (Raise (AttributeError "strip"), r', ev) /\
    task_queue r' = task_queue demo_broken_row /\
    invoked r' = invoked demo_broken_row /\
    threads r' = threads demo_broken_row /\
    processed_count r' = processed_count demo_broken_row /\
    date_flag r' = Some true.
Proof.
  apply (row_without_count_aborts [0]%nat demo_broken_row true).
  - reflexivity.
  - reflexivity.
  - apply Exists_cons_tl, Exists_cons_hd. reflexivity.
Defined.

(** X20: a [NUM_THREADS] that is no integer aborts the run after the tasks
    were enqueued.  With rows that all have a count field and a non-empty
    source pool, [replicate_structure] raises [ValueError] at
    [int(os.getenv('NUM_THREADS', '4'))]: the rows' tasks stay in the queue,
    no thread is started and no image processed; the date-partitioning flag
    is written back. *)
Theorem thread_count_not_numeric schedule r b :
  enabled r = true -> structure_file r <> [] -> date_flag r = Some b ->
  Forall (fun e => is_Some (asset_count e)) (structure_file r) ->
  img_dir r <> [] ->
  PyStr.int (getenv (environ r) "NUM_THREADS" "4") = None ->
  exists r' ev blocks,
    replicate_structure schedule r = (Raise ValueError, r', ev) /\
    Forall2 (block_for (img_dir r)) (structure_file r) blocks /\
    task_queue r' = task_queue r ++ concat blocks /\
    invoked r' = invoked r /\ threads r' = threads r /\
    processed_count r' = processed_count r /\
    date_flag r' = Some b.
Proof.
  intros Hen Hst Hfl Hall Hdir HR.
  rewrite (replicate_structure_run schedule r b Hen Hst Hfl).
  destruct (wp_elim _ _ _
              (replicate_body_thread_count (structure_file r) schedule
                 (with_date_flag false r) Hall Hdir HR))
    as (res & r1 & ev1 & E & -> & blocks & Hblocks & Hq & Hi & Ht & _ & Hp).
  rewrite E. simpl.
  eexists _, _, blocks. split; [reflexivity|]. simpl. by split_and!.
Qed.

Lemma thread_count_not_numeric_witness :
  exists r' ev blocks,
    replicate_structure [0]%nat demo_bad_threads = (Raise ValueError, r', ev) /\
    Forall2 (block_for (img_dir demo_bad_threads))
      (structure_file demo_bad_threads) blocks /\
    task_queue r' = task_queue demo_bad_threads ++ concat blocks /\
    invoked r' = invoked demo_bad_threads /\
    threads r' = threads demo_bad_threads /\
    processed_count r' = processed_count demo_bad_threads /\
    date_flag r' = Some false.
Proof.
  apply (thread_count_not_numeric [0]%nat demo_bad_threads false).
  - reflexivity.
  - discriminate.
  - reflexivity.
  - repeat constructor. by eexists.
  - discriminate.
  - by vm_compute.
Defined.

(** X21: a row with a negative count gets its folders but no asset.  Only a
    count of exactly 0 skips the folder creation: for a count [n < 0] the
    first loop announces and calls [create_folder_structure] for the row's
    folder as it does for a positive count, and logs an error when that
    fails, while the second loop enqueues no task for the row and draws no
    source image. *)
Theorem negative_count_row e n pool total r :
  counts e n -> n < 0 ->
  (exists ok r1 ev1,
     create_folder_structure (PyStr.strip (folder e)) r = (Ret ok, r1, ev1) /\
     create_entry_folders e r
     = (Ret tt, r1,
        log_creating_structure e :: ev1
        ++ (if ok then [] else [log_structure_failed e]))) /\
  queue_entry e pool total r = (Ret total, r, []).
Proof.
  intros (c & Hc & Hn) Hneg. split.
  - destruct (wp_elim _ _ _ (create_folder_structure_returns (PyStr.strip (folder e)) r))
      as (res & r1 & ev1 & E & (ok & ->) & _).
    exists ok, r1, ev1. split; [done|].
    unfold create_entry_folders, int_asset_count, except_ValueError.
    rewrite Hc, Hn. unfold mbind, M_bind, mret, M_ret. simpl.
    assert ((n =? 0) = false) as -> by (apply Z.eqb_neq; lia).
    unfold mbind, M_bind, rlog, emit. simpl. rewrite E.
    destruct ok; simpl; [|done]. by rewrite app_nil_r.
  - unfold queue_entry, int_asset_count, except_ValueError.
    rewrite Hc, Hn. unfold mbind, M_bind, mret, M_ret. simpl.
    assert ((n =? 0) = false) as -> by (apply Z.eqb_neq; lia).
    by destruct n.
Qed.

Lemma negative_count_row_witness :
  queue_entry demo_negative_row demo_pool 0
    (demo_repl demo_rows demo_pool demo_uploader)
  = (Ret 0, demo_repl demo_rows demo_pool demo_uploader, []).
Proof.
  apply (negative_count_row demo_negative_row (-2) demo_pool 0
           (demo_repl demo_rows demo_pool demo_uploader)).
  - exists " -2". split; reflexivity.
  - lia.
Defined.

(** *** One worker *)

Lemma thread_step_single_file tasks0 i r :
  single_file tasks0 r ->
  wp (thread_step i) r (fun res r' _ => res = Ret tt /\ single_file tasks0 r').
Proof.
  intros (w & Hw & Ht).
  unfold thread_step. apply wp_try_except.
  unfold worker_step. apply wp_bind, wp_get. simpl. rewrite Hw.
  destruct i as [|i]; simpl.
  2: { apply wp_ret. split; [done|]. by exists w. }
  unfold set_worker.
  destruct w as [|t|t g|t| |e]; simpl in *.
  - destruct (task_queue r) as [|t q] eqn:Hq.
    + apply wp_modify. split; [done|]. exists Done. simpl. by rewrite Hw, Hq.
    + apply wp_bind, wp_modify. simpl. apply wp_modify. split; [done|].
      exists (Holding t). simpl. by rewrite Hw.
  - apply wp_bind, wp_modify. simpl. apply wp_bind, wp_lift.
    eapply wp_mono; [apply wp_prepare|]. simpl. intros res s' ev [g ->].
    apply wp_modify. split; [done|]. simpl. rewrite Hw. simpl.
    eexists. split; [reflexivity|]. simpl. rewrite map_app. simpl.
    rewrite <- Ht, <- app_assoc. by destruct g.
  - apply wp_bind, wp_lift.
    eapply wp_mono; [apply wp_finish|]. simpl. intros res s' ev ->.
    apply wp_modify. split; [done|]. simpl. rewrite Hw. by exists (Handled t).
  - apply wp_bind, wp_modify. simpl. apply wp_bind, wp_emit. simpl.
    apply wp_modify. split; [done|]. simpl. rewrite Hw. by exists Idle.
  - apply wp_ret. split; [done|]. by exists Done.
  - apply wp_ret. split; [done|]. by exists (Crashed e).
Qed.

Lemma run_schedule_single_file tasks0 schedule : forall r,
  single_file tasks0 r ->
  wp (run_schedule schedule) r (fun res r' _ => res = Ret tt /\ single_file tasks0 r').
Proof.
  induction schedule as [|i rest IH]; intros r Hinv; simpl.
  - by apply wp_ret.
  - apply wp_bind.
    eapply wp_mono; [by apply thread_step_single_file|].
    simpl. intros res r1 ev1 (-> & Hinv1).
    eapply wp_mono; [by apply IH|]. simpl. by intros res r2 ev2 ?.
Qed.

Lemma run_thread_single_file tasks0 fuel i : forall r,
  single_file tasks0 r ->
  wp (run_thread fuel i) r (fun res r' _ => res = Ret tt /\ single_file tasks0 r').
Proof.
  induction fuel as [|fuel IH]; intros r Hinv; simpl.
  - by apply wp_ret.
  - apply wp_bind, wp_get. simpl.
    destruct (terminated (workers r !! i)); [by apply wp_ret|].
    apply wp_bind.
    eapply wp_mono; [by apply thread_step_single_file|].
    simpl. intros res r1 ev1 (-> & Hinv1).
    eapply wp_mono; [by apply IH|]. simpl. by intros res r2 ev2 ?.
Qed.

Lemma join_all_single_file tasks0 ts : forall r,
  single_file tasks0 r ->
  wp (join_all ts) r (fun res r' _ => res = Ret tt /\ single_file tasks0 r').
Proof.
  induction ts as [|i rest IH]; intros r Hinv; simpl.
  - by apply wp_ret.
  - apply wp_bind. unfold join. apply wp_bind, wp_get. simpl.
    eapply wp_mono; [by apply run_thread_single_file|].
    simpl. intros res r1 ev1 (-> & Hinv1).
    eapply wp_mono; [by apply IH|]. simpl. by intros res r2 ev2 ?.
Qed.

(** One worker hands the tasks to [process_image] in the order of the
    queue. *)
Lemma run_workers_single_file schedule r :
  pool_fresh r ->
  map snd (invoked (state_after
                      (run_workers (Z.min 1 (Z.of_nat (length (task_queue r)))) schedule)
                      r))
  = task_queue r.
Proof.
  intros Hfresh.
  destruct (run_workers_spec 1 schedule r ltac:(lia) Hfresh)
    as (_ & _ & Hdone & _ & Hlen & _).
  destruct (task_queue r) as [|t q] eqn:Hq.
  { simpl in Hlen. by destruct (invoked _). }
  assert (Z.min 1 (Z.of_nat (length (t :: q))) = 1) as Hmin by (simpl; lia).
  rewrite Hmin in *.
  assert (wp (run_workers 1 schedule) r (fun _ r' _ => single_file (t :: q) r'))
    as Hsf.
  { unfold run_workers. change (Z.to_nat 1) with 1%nat. simpl.
    apply wp_bind, wp_bind, wp_modify. simpl. apply wp_ret. simpl.
    destruct Hfresh as (Hw & Ht & Hi).
    apply wp_bind.
    eapply wp_mono.
    { apply (run_schedule_single_file (t :: q)).
      exists Idle. simpl. by rewrite Hw, Hi, Hq. }
    simpl. intros res r1 ev1 (-> & Hinv1).
    apply wp_bind, wp_get. simpl.
    eapply wp_mono; [by apply join_all_single_file|].
    simpl. by intros res r2 ev2 (-> & Hinv2). }
  unfold wp in Hsf. unfold state_after in *.
  destruct (run_workers 1 schedule r) as [[res r'] ev]. simpl in *.
  destruct Hsf as (w & Hw & Ht).
  rewrite Hw in Hdone. apply Forall_cons in Hdone as [<- _]. simpl in Ht.
  assert (length (map snd (invoked r') ++ task_queue r') = length (t :: q))
    as Hl by (by rewrite Ht).
  rewrite length_app, length_map, Hlen in Hl.
  assert (task_queue r' = []) as Hnil
    by (destruct (task_queue r'); [done|simpl in Hl; lia]).
  by rewrite Hnil, app_nil_r in Ht.
Qed.

(** X22: with one worker thread ([NUM_THREADS] reads as 1) the assets are
    produced in the order of the structure file.  From a fresh replicator
    with rows that all have a count field and a non-empty source pool, the
    calls of [process_image] made by the run are, in this order, the tasks of
    the first row, then those of the second row, and so on. *)
Theorem single_thread_row_order schedule r b :
  enabled r = true -> structure_file r <> [] -> date_flag r = Some b ->
  Forall (fun e => is_Some (asset_count e)) (structure_file r) ->
  img_dir r <> [] ->
  PyStr.int (getenv (environ r) "NUM_THREADS" "4") = Some 1 ->
  pool_fresh r -> task_queue r = [] ->
  outcome_of (replicate_structure schedule) r = Ret tt /\
  exists blocks,
    Forall2 (block_for (img_dir r)) (structure_file r) blocks /\
    map snd (invoked (state_after (replicate_structure schedule) r))
    = concat blocks.
Proof.
  intros Hen Hst Hfl Hall Hdir HR Hfresh Hq.
  unfold outcome_of, state_after.
  rewrite (replicate_structure_run schedule r b Hen Hst Hfl).
  enough (wp (replicate_body (structure_file r) schedule) (with_date_flag false r)
            (fun res r' _ =>
               res = Ret Continue /\
               exists blocks,
                 Forall2 (block_for (img_dir r)) (structure_file r) blocks /\
                 map snd (invoked r') = concat blocks)) as Hbody.
  { destruct (wp_elim _ _ _ Hbody) as (res & r1 & ev1 & E & -> & blocks & Hb & Hi).
    rewrite E. simpl. split; [done|]. by exists blocks. }
  unfold replicate_body. apply wp_bind.
  eapply wp_mono; [by apply create_all_folders_spec|].
  simpl. intros res r1 ev1 (-> & Hf & _).
  apply wp_bind, wp_get. simpl.
  destruct (folders_frame_fields _ _ Hf)
    as (Hd & Henv & Hq1 & Hi1 & Hp1 & Ht1 & Hw1 & _).
  simpl in *.
  rewrite bool_decide_eq_false_2 by congruence.
  apply wp_bind.
  eapply wp_mono; [apply queue_all_spec; [congruence|done]|].
  simpl. intros res r2 ev2 (blocks & -> & -> & -> & Hblocks).
  apply wp_bind. unfold requested_threads. apply wp_bind, wp_get. simpl.
  rewrite Henv, HR. apply wp_ret. simpl.
  apply wp_bind, wp_emit. simpl. apply wp_bind.
  set (r2 := set_dice _ _).
  assert (pool_fresh r2) as Hfresh2.
  { destruct Hfresh as (Hw & Ht & Hi). subst r2. split_and!; simpl; congruence. }
  assert (task_queue r2 = concat blocks) as Hq2.
  { subst r2. simpl. by rewrite Hq1, Hq. }
  pose proof (run_workers_single_file schedule r2 Hfresh2) as Horder.
  pose proof (run_workers_returns
                (Z.min 1 (Z.of_nat (length (task_queue r2)))) schedule r2) as Hret.
  rewrite Hq2 in Horder, Hret.
  replace (0 + Z.of_nat (length (concat blocks)))
    with (Z.of_nat (length (concat blocks))) by lia.
  unfold wp in *. unfold state_after in Horder.
  destruct (run_workers _ schedule r2) as [[res3 r3] ev3]. simpl in *.
  subst res3. split; [done|]. exists blocks. split; [|done]. by rewrite <- Hd.
Qed.

Lemma single_thread_row_order_witness :
  outcome_of (replicate_structure [0; 0; 3]%nat) demo_one_thread = Ret tt /\
  exists blocks,
    Forall2 (block_for (img_dir demo_one_thread))
      (structure_file demo_one_thread) blocks /\
    map snd (invoked (state_after (replicate_structure [0; 0; 3]%nat) demo_one_thread))
    = concat blocks.
Proof.
  apply (single_thread_row_order [0; 0; 3]%nat demo_one_thread false).
  - reflexivity.
  - discriminate.
  - reflexivity.
  - repeat constructor; by eexists.
  - discriminate.
  - by vm_compute.
  - by split_and!.
  - reflexivity.
Defined.
(** ** The structure file *)

Lemma omap_dict_row lines :
  omap dict_row lines
  = map (fun line => {| folder := hd "" line; asset_count := line !! 1%nat |})
      (non_blank lines).
Proof.
  unfold non_blank. induction lines as [|line lines IH]; [done|].
  destruct line as [|f [|c rest]].
  - rewrite filter_cons_False by (by intros H; apply H). exact IH.
  - rewrite filter_cons_True by done. simpl. f_equal. exact IH.
  - rewrite filter_cons_True by done. simpl. f_equal. exact IH.
Qed.

Lemma rows_have_counts data :
  Forall (fun line => has_count line = true) data <->
  Forall (fun e => is_Some (asset_count e))
    (map (fun line => {| folder := hd "" line; asset_count := line !! 1%nat |}) data).
Proof.
  rewrite Forall_map. apply Forall_iff. intros [|f [|c rest]]; simpl; split; try done;
    first [by intros [? ?] | by eexists].
Qed.

Lemma rows_lack_count data :
  Exists (fun line => has_count line = false) data ->
  Exists (fun e => asset_count e = None)
    (map (fun line => {| folder := hd "" line; asset_count := line !! 1%nat |}) data).
Proof.
  intros Hex. rewrite Exists_map. eapply Exists_impl; [exact Hex|].
  by intros [|f [|c rest]].
Qed.

(** X23: [read_structure_file] never raises.  For a missing or unreadable
    file, and for a file without any non-blank line, it logs one error and
    returns the empty list.  Otherwise it returns one row per non-blank line
    after the first non-blank line, in the order of the file: the first
    non-blank line is dropped as the header whatever it holds, blank lines
    are skipped also before it, a row's folder is the line's first field and
    its count the second.  Every row has a count exactly when every such
    line has at least two fields; and a run of [replicate_structure] on the
    rows of a file in which some such line has a single field raises
    [AttributeError]. *)
Theorem read_structure_file_rows (r : Repl) file :
  (exists rows ev, read_structure_file file r = (Ret rows, r, ev)) /\
  (match file with
   | FileMissing => True
   | FileBroken _ => True
   | FileLines lines => non_blank lines = []
   end ->
   exists e, read_structure_file file r = (Ret [], r, [e])) /\
  (forall lines header data,
     file = FileLines lines -> non_blank lines = header :: data ->
     let rows :=
       map (fun line => {| folder := hd "" line; asset_count := line !! 1%nat |}) data in
     read_structure_file file r = (Ret rows, r, []) /\
     (Forall (fun line => has_count line = true) data <->
      Forall (fun e => is_Some (asset_count e)) rows) /\
     (forall schedule r' b,
        structure_file r' = rows -> enabled r' = true -> date_flag r' = Some b ->
        Exists (fun line => has_count line = false) data ->
        outcome_of (replicate_structure schedule) r' = Raise (AttributeError "strip"))).
Proof.
  split_and!.
  - destruct file as [|e|lines]; simpl; try (by eexists _, _).
    destruct (omap dict_row lines); by eexists _, _.
  - destruct file as [|e|lines]; simpl; intros Hb; try (by eexists).
    rewrite omap_dict_row, Hb. by eexists.
  - intros lines header data -> Hb. simpl. rewrite omap_dict_row, Hb. simpl.
    split; [done|]. split; [apply rows_have_counts|].
    intros schedule r' b Hrows Hen Hfl Hex.
    apply rows_lack_count in Hex. rewrite <- Hrows in Hex.
    assert (structure_file r' <> []) as Hst.
    { intros Hnil. rewrite Hnil in Hex. by apply Exists_nil in Hex. }
    unfold outcome_of.
    rewrite (replicate_structure_run schedule r' b Hen Hst Hfl).
    destruct (wp_elim _ _ _
                (replicate_body_missing (structure_file r') schedule
                   (with_date_flag false r') Hex))
      as (res & r1 & ev1 & E & -> & _).
    by rewrite E.
Qed.

Lemma read_structure_file_rows_witness :
  read_structure_file
    (FileLines [ []; ["folder"; "asset_count"]; ["/customers/acme"; "3"]; [];
                 ["/customers/beta"] ])
    (demo_repl demo_rows demo_pool demo_uploader)
  = (Ret [ {| folder := "/customers/acme"; asset_count := Some "3" |};
           {| folder := "/customers/beta"; asset_count := None |} ],
     demo_repl demo_rows demo_pool demo_uploader, []).
Proof.
  destruct (read_structure_file_rows (demo_repl demo_rows demo_pool demo_uploader)
              (FileLines [ []; ["folder"; "asset_count"]; ["/customers/acme"; "3"];
                           []; ["/customers/beta"] ])) as (_ & _ & H).
  destruct (H _ ["folder"; "asset_count"]
              [ ["/customers/acme"; "3"]; ["/customers/beta"] ] eq_refl eq_refl)
    as [H1 _].
  exact H1.
Defined.
(** ** The batch of random assets *)

(** *** The two halves of [process_image] without a target folder *)

Lemma prepare_plain image_path s :
  exists ev,
    process_image_prepare image_path None s
    = (Ret (match studio s with Some g :: _ => Some g | _ => None end),
       set_studio (tl (studio s)) s, ev).
Proof.
  unfold process_image_prepare, try_except, process_image_open, generate,
    process_image_failed, root_log, emit.
  unfold mbind, M_bind, get, mret, M_ret.
  destruct s as [u n rem st]. simpl.
  destruct st as [|[g|] gs]; simpl; try (by eexists).
  destruct (aem_enabled u); simpl; by eexists.
Qed.

Lemma finish_plain image_path g s :
  initialised (uploader s) = true ->
  wp (process_image_finish image_path g) s (fun res s' ev =>
    res = Ret tt /\ uploader s' = uploader s /\
    images_processed s' = images_processed s + 1 /\ studio s' = studio s).
Proof.
  intros Hi. unfold process_image_finish. apply wp_try_except.
  eapply wp_mono; [by apply process_image_close_effect|].
  simpl. by intros res s' ev (-> & Hu & Hn & Hs & _).
Qed.

Lemma generated_among_S n s :
  generated_among (S n) s
  = (generated_among n s
     + match drop n (studio s) with Some _ :: _ => 1 | _ => 0 end)%nat.
Proof.
  unfold generated_among. generalize (studio s). clear s.
  induction n as [|n IH]; intros l.
  - destruct l as [|[g|] l]; simpl; rewrite ?take_0; done.
  - destruct l as [|o l]; [done|]. simpl.
    destruct o as [g|].
    + rewrite !filter_cons_True by (by eexists). simpl. by rewrite IH.
    + rewrite !filter_cons_False by (by intros [? ?]). by rewrite IH.
Qed.

Lemma tl_drop {A} n (l : list A) : tl (drop n l) = drop (S n) l.
Proof.
  revert l. induction n as [|n IH]; intros [|x l]; simpl; done.
Qed.

(** *** Lists of workers *)

Lemma ip_bind_insert {B} (g : pstate -> list B) ws i w w' :
  ws !! i = Some w ->
  (<[i:=w']> ws ≫= g) ++ g w ≡ₚ (ws ≫= g) ++ g w'.
Proof.
  intros Hi.
  rewrite <- (take_drop_middle ws i w Hi) at 2.
  rewrite insert_take_drop by (by eapply lookup_lt_Some).
  rewrite !bind_app, !bind_cons. solve_Permutation.
Qed.

Lemma ip_bind_insert_same {B} (g : pstate -> list B) ws i w w' :
  ws !! i = Some w -> g w' = g w -> (<[i:=w']> ws ≫= g) ≡ₚ (ws ≫= g).
Proof.
  intros Hi Hg. pose proof (ip_bind_insert g ws i w w' Hi) as H.
  rewrite Hg in H. by apply Permutation_app_inv_r in H.
Qed.

Lemma ip_elem_of_insert_inv (ws : list pstate) i w x :
  x ∈ <[i:=w]> ws -> x = w \/ x ∈ ws.
Proof.
  intros Hx. apply list_elem_of_lookup in Hx as [j Hj].
  destruct (decide (i = j)) as [->|Hne].
  - destruct (decide (j < length ws)%nat).
    + rewrite list_lookup_insert_eq in Hj by done. left. congruence.
    + rewrite list_insert_ge in Hj by lia. right. by eapply list_elem_of_lookup_2.
  - rewrite list_lookup_insert_ne in Hj by done. right. by eapply list_elem_of_lookup_2.
Qed.

Lemma ip_Forall_insert_alive (ws : list pstate) i w :
  Forall (fun w => forall e, w <> PCrashed e) ws -> (forall e, w <> PCrashed e) ->
  Forall (fun w => forall e, w <> PCrashed e) (<[i:=w]> ws).
Proof.
  intros Hall Hw. apply Forall_forall. intros x Hx.
  apply ip_elem_of_insert_inv in Hx as [->|Hx]; [done|].
  rewrite Forall_forall in Hall. by apply Hall.
Qed.

(** *** One atomic action *)

Section BatchStep.
Variables (tasks0 : list path) (s0 : Sys).

Lemma ip_step_stable (ws : list pstate) i w w' j :
  ws !! i = Some w -> ip_terminated (Some w) = false ->
  ip_terminated (ws !! j) = true -> <[i:=w']> ws !! j = ws !! j.
Proof.
  intros Hi Hw Hj. destruct (decide (i = j)) as [->|Hne].
  - rewrite Hi in Hj. congruence.
  - by apply list_lookup_insert_ne.
Qed.

Lemma ip_rank_insert (ws : list pstate) i w w' :
  ws !! i = Some w -> ip_rank (<[i:=w']> ws !! i) = ip_rank (Some w').
Proof.
  intros Hi. rewrite list_lookup_insert_eq; [done|]. by eapply lookup_lt_Some.
Qed.

Lemma ip_thread_step_spec i p :
  ip_inv tasks0 s0 p ->
  wp (ip_thread_step i) p (fun res p' ev =>
    res = Ret tt /\ ip_inv tasks0 s0 p' /\
    length (ip_workers p') = length (ip_workers p) /\
    (forall j, ip_terminated (ip_workers p !! j) = true ->
               ip_workers p' !! j = ip_workers p !! j) /\
    (ip_terminated (ip_workers p !! i) = false ->
     (ip_work_left i p' < ip_work_left i p)%nat) /\
    (length (ip_task_queue p') <= length (ip_task_queue p))%nat /\
    num_threads p' = num_threads p /\ num_generations p' = num_generations p).
Proof.
  intros [Hth Hal Hta Hst Hco Hup Hdr].
  unfold ip_thread_step. apply wp_try_except.
  unfold ip_worker_step. apply wp_bind, wp_get. simpl.
  destruct (ip_workers p !! i) as [w|] eqn:Hi.
  2: { apply wp_ret. split_and!; try done. }
  assert (i < length (ip_workers p))%nat as Hlt by (by eapply lookup_lt_Some).
  destruct w as [|x|x g| |e].
  - (* the dequeue *)
    destruct (ip_task_queue p) as [|x q] eqn:Hq.
    + unfold set_ip_worker. apply wp_modify. unfold ip_work_left, ip_sys in *. simpl.
      rewrite length_insert, (ip_rank_insert _ _ _ _ Hi), Hi, Hq. simpl.
      split_and!; try done; try lia.
      * constructor; unfold ip_sys; simpl; rewrite ?length_insert; try done.
        -- by apply ip_Forall_insert_alive.
        -- by rewrite (ip_bind_insert_same ip_held _ _ PIdle), Hq.
        -- by rewrite (ip_bind_insert_same ip_pending _ _ PIdle).
      * intros j Hj. by eapply ip_step_stable.
    + unfold set_ip_worker. apply wp_bind, wp_modify. simpl. apply wp_modify.
      unfold ip_work_left, ip_sys in *. simpl.
      rewrite length_insert, (ip_rank_insert _ _ _ _ Hi), Hi, Hq. simpl.
      assert (PDone ∉ ip_workers p) as Hnd by (intros Hd; by specialize (Hdr Hd)).
      split_and!; try done; try lia.
      * constructor; unfold ip_sys; simpl; rewrite ?length_insert; try done.
        -- by apply ip_Forall_insert_alive.
        -- rewrite <- Hta.
           pose proof (ip_bind_insert ip_held _ _ _ (PHolding x) Hi) as Hp.
           simpl in Hp. rewrite app_nil_r in Hp. rewrite Hp. solve_Permutation.
        -- by rewrite (ip_bind_insert_same ip_pending _ _ PIdle).
        -- intros Hd. apply ip_elem_of_insert_inv in Hd as [Hd|Hd]; done.
      * intros j Hj. by eapply ip_step_stable.
  - (* the call of process_image, first half *)
    apply wp_bind, wp_modify. simpl.
    apply wp_bind. unfold in_processor_sys, in_replicator, in_sys.
    apply wp_lift, wp_lift. simpl.
    destruct (prepare_plain x (sys (customer_replicator p))) as [ev E].
    unfold wp at 1. rewrite E. simpl.
    unfold set_ip_worker. apply wp_modify.
    unfold ip_work_left, ip_sys in *. simpl.
    rewrite length_insert, (ip_rank_insert _ _ _ _ Hi), Hi.
    set (w' := match match studio (sys (customer_replicator p)) with
                     | Some g :: _ => Some g
                     | _ => None
                     end with
               | Some g => PPrepared x g
               | None => PIdle
               end).
    assert (ip_held w' = []) as Hh.
    { subst w'. by destruct (studio _) as [|[g|] gs]. }
    assert (length (ip_pending w')
            = match drop (length (ip_invoked p)) (studio s0) with
              | Some _ :: _ => 1%nat
              | _ => 0%nat
              end) as Hpe.
    { subst w'. rewrite <- Hst. by destruct (studio _) as [|[g|] gs]. }
    split_and!; try done.
    + constructor; unfold ip_sys; simpl; rewrite ?length_insert; try done.
      * apply ip_Forall_insert_alive; [done|].
        subst w'. by destruct (studio _) as [|[g|] gs].
      * rewrite <- Hta, map_app. simpl.
        pose proof (ip_bind_insert ip_held _ i _ w' Hi) as Hp.
        rewrite Hh, app_nil_r in Hp. simpl in Hp. rewrite <- Hp.
        solve_Permutation.
      * rewrite Hst, length_app. simpl. rewrite Nat.add_1_r. apply tl_drop.
      * pose proof (ip_bind_insert ip_pending _ i _ w' Hi) as Hp.
        simpl in Hp. rewrite app_nil_r in Hp.
        apply Permutation_length in Hp. rewrite length_app in Hp.
        rewrite length_app. simpl. rewrite Nat.add_1_r, generated_among_S.
        rewrite Hpe in Hp. lia.
      * intros Hd. apply ip_elem_of_insert_inv in Hd as [Hd|Hd]; [|auto].
        subst w'. by destruct (studio _) as [|[g|] gs].
    + intros j Hj. by eapply ip_step_stable.
    + intros _. subst w'. destruct (studio _) as [|[g|] gs]; simpl; lia.
  - (* the call of process_image, second half *)
    apply wp_bind. unfold in_processor_sys, in_replicator, in_sys.
    apply wp_lift, wp_lift. simpl.
    eapply wp_mono; [by apply finish_plain|].
    simpl. intros res s' ev (-> & Hu' & Hn' & Hs').
    unfold set_ip_worker. apply wp_modify.
    unfold ip_work_left, ip_sys in *. simpl.
    rewrite length_insert, (ip_rank_insert _ _ _ _ Hi), Hi.
    split_and!; try done; try (simpl; lia).
    + constructor; unfold ip_sys; simpl; rewrite ?length_insert; try done.
      * by apply ip_Forall_insert_alive.
      * by rewrite (ip_bind_insert_same ip_held _ _ (PPrepared x g)).
      * by rewrite Hs'.
      * pose proof (ip_bind_insert ip_pending _ i _ PIdle Hi) as Hp.
        simpl in Hp. rewrite app_nil_r in Hp.
        apply Permutation_length in Hp. rewrite length_app in Hp. simpl in Hp.
        rewrite Hn'. lia.
      * by rewrite Hu'.
      * intros Hd. apply ip_elem_of_insert_inv in Hd as [Hd|Hd]; [done|auto].
    + intros j Hj. by eapply ip_step_stable.
  - apply wp_ret. by split_and!.
  - apply wp_ret. by split_and!.
Qed.

End BatchStep.

(** *** Any number of actions, and the joins *)

Section BatchRun.
Variables (tasks0 : list path) (s0 : Sys).

Lemma ip_kept_refl p : ip_inv tasks0 s0 p -> ip_kept tasks0 s0 p (Ret tt) p.
Proof. intros. by split_and!. Qed.

Lemma ip_kept_trans p p1 p2 res :
  ip_kept tasks0 s0 p (Ret tt) p1 -> ip_kept tasks0 s0 p1 res p2 ->
  ip_kept tasks0 s0 p res p2.
Proof.
  intros (_ & _ & Hl1 & Hs1 & Hq1 & Hn1 & Hg1) (-> & Hi2 & Hl2 & Hs2 & Hq2 & Hn2 & Hg2).
  split_and!; try done; try lia; try congruence.
  intros j Hj. rewrite <- (Hs1 j Hj). apply Hs2. by rewrite (Hs1 j Hj).
Qed.

Lemma ip_run_schedule_spec schedule : forall p,
  ip_inv tasks0 s0 p ->
  wp (ip_run_schedule schedule) p (fun res p' _ => ip_kept tasks0 s0 p res p').
Proof.
  induction schedule as [|i rest IH]; intros p Hinv; simpl.
  - apply wp_ret. by apply ip_kept_refl.
  - apply wp_bind.
    eapply wp_mono; [by apply ip_thread_step_spec|].
    simpl. intros res p1 ev1 (-> & Hinv1 & Hl1 & Hs1 & _ & Hq1 & Hn1 & Hg1).
    eapply wp_mono; [by apply IH|].
    simpl. intros res p2 ev2 Hpost.
    eapply ip_kept_trans; [|exact Hpost]. by split_and!.
Qed.

Lemma ip_run_thread_spec fuel i : forall p,
  ip_inv tasks0 s0 p -> (ip_work_left i p <= fuel)%nat ->
  wp (ip_run_thread fuel i) p (fun res p' _ =>
    ip_kept tasks0 s0 p res p' /\ ip_terminated (ip_workers p' !! i) = true).
Proof.
  induction fuel as [|fuel IH]; intros p Hinv Hfuel; simpl.
  - apply wp_ret. split; [by apply ip_kept_refl|].
    unfold ip_work_left in Hfuel.
    destruct (ip_workers p !! i) as [[]|]; simpl in *; try done; lia.
  - apply wp_bind, wp_get. simpl.
    destruct (ip_terminated (ip_workers p !! i)) eqn:Ht.
    + apply wp_ret. split; [by apply ip_kept_refl|done].
    + apply wp_bind.
      eapply wp_mono; [by apply ip_thread_step_spec|].
      simpl. intros res p1 ev1 (-> & Hinv1 & Hl1 & Hs1 & Hdec & Hq1 & Hn1 & Hg1).
      specialize (Hdec Ht).
      eapply wp_mono; [apply IH; [done|lia]|].
      simpl. intros res p2 ev2 [Hpost Hterm]. split; [|done].
      eapply ip_kept_trans; [|exact Hpost]. by split_and!.
Qed.

Lemma ip_join_spec i p :
  ip_inv tasks0 s0 p ->
  wp (ip_join i) p (fun res p' _ =>
    ip_kept tasks0 s0 p res p' /\ ip_terminated (ip_workers p' !! i) = true).
Proof.
  intros Hinv. unfold ip_join. apply wp_bind, wp_get. simpl.
  eapply wp_mono; [apply ip_run_thread_spec; [done|]|].
  - unfold ip_work_left. destruct (ip_workers p !! i) as [[]|]; simpl; lia.
  - simpl. by intros res p' ev [Hp Ht].
Qed.

Lemma ip_join_all_spec ts : forall p,
  ip_inv tasks0 s0 p ->
  wp (ip_join_all ts) p (fun res p' _ =>
    ip_kept tasks0 s0 p res p' /\
    forall i, i ∈ ts -> ip_terminated (ip_workers p' !! i) = true).
Proof.
  induction ts as [|i rest IH]; intros p Hinv; simpl.
  - apply wp_ret. split; [by apply ip_kept_refl|].
    intros i Hi. by apply elem_of_nil in Hi.
  - apply wp_bind.
    eapply wp_mono; [by apply ip_join_spec|].
    simpl. intros res p1 ev1 [Hp1 Ht1].
    destruct Hp1 as (-> & Hinv1 & Hl1 & Hs1 & Hq1 & Hn1 & Hg1).
    eapply wp_mono; [by apply IH|].
    simpl. intros res p2 ev2 [Hp2 Ht2]. split.
    + eapply ip_kept_trans; [|exact Hp2]. by split_and!.
    + intros j Hj. apply elem_of_cons in Hj as [->|Hj]; [|by apply Ht2].
      destruct Hp2 as (_ & _ & _ & Hs2 & _). by rewrite (Hs2 _ Ht1).
Qed.

End BatchRun.

Lemma ip_start_threads_spec todo : forall p k,
  ip_workers p = replicate k PIdle -> ip_threads p = seq 0 k ->
  wp (ip_start_threads todo) p (fun res p' ev =>
    res = Ret tt /\ ev = [] /\
    p' = set_ip_threads (seq 0 (k + todo))
           (set_ip_workers (replicate (k + todo) PIdle) p)).
Proof.
  induction todo as [|todo IH]; intros p k Hw Ht; simpl.
  - apply wp_ret. rewrite Nat.add_0_r, <- Hw, <- Ht. split_and!; try done.
    by destruct p.
  - apply wp_bind, wp_modify. simpl.
    eapply wp_mono; [apply (IH _ (S k))|].
    + simpl. rewrite Hw. by rewrite <- replicate_cons_app.
    + simpl. rewrite Ht, Hw, length_replicate.
      change (0%nat :: seq 1 k) with (seq 0 (S k)). by rewrite seq_S.
    + simpl. intros res p' ev (-> & -> & ->).
      rewrite Nat.add_succ_r. split_and!; try done.
Qed.

Lemma ip_bind_all_idle {B} (g : pstate -> list B) n :
  g PIdle = [] -> replicate n PIdle ≫= g = [].
Proof.
  intros Hg. induction n as [|n IH]; [done|].
  change (replicate (S n) PIdle) with (PIdle :: replicate n PIdle).
  by rewrite bind_cons, Hg, IH.
Qed.

Lemma ip_bind_all_done {B} (g : pstate -> list B) ws :
  g PDone = [] -> Forall (eq PDone) ws -> ws ≫= g = [].
Proof.
  intros Hg. induction 1 as [|w ws <- _ IH]; [done|].
  by rewrite bind_cons, Hg, IH.
Qed.

Lemma random_choices_spec pool k : forall r,
  pool <> [] ->
  wp (random_choices pool k) r (fun res r' ev =>
    exists selected,
      res = Ret selected /\ ev = [] /\ r' = set_dice (drop k (dice r)) r /\
      length selected = k /\ Forall (fun x => x ∈ pool) selected).
Proof.
  induction k as [|k IH]; intros r Hne; simpl.
  - apply wp_ret. exists []. rewrite drop_0. split_and!; try done. by destruct r.
  - apply wp_bind, wp_random_choice; [done|]. intros x Hx. simpl.
    apply wp_bind.
    eapply wp_mono; [by apply IH|].
    simpl. intros res r' ev (sel & -> & -> & -> & Hlen & Hall).
    apply wp_ret. exists (x :: sel). simpl.
    split_and!; [done|done| |lia|by constructor].
    destruct r as [? ? ? ? ? ? ? ? ? d ? ?]. unfold set_dice. simpl. f_equal.
    destruct d; simpl; [by rewrite drop_nil|done].
Qed.

(** *** The whole batch *)

Lemma ip_inv_started p selected n :
  ip_workers p = [] -> ip_invoked p = [] -> ip_task_queue p = selected ->
  initialised (uploader (ip_sys p)) = true ->
  ip_inv selected (ip_sys p)
    (set_ip_threads (seq 0 n) (set_ip_workers (replicate n PIdle) p)).
Proof.
  intros Hw Hi Hq Hu. constructor; unfold ip_sys; simpl.
  - by rewrite length_replicate.
  - apply Forall_forall. intros w Hw'. apply elem_of_replicate in Hw' as [-> _]. done.
  - by rewrite Hi, ip_bind_all_idle, Hq.
  - by rewrite Hi.
  - rewrite Hi, ip_bind_all_idle by done. unfold generated_among. simpl. lia.
  - done.
  - intros Hd. apply elem_of_replicate in Hd as [Hd _]. done.
Qed.

Lemma process_directory_spec schedule p :
  ip_fresh p -> img_dir (customer_replicator p) <> [] ->
  initialised (uploader (ip_sys p)) = true -> 1 <= num_threads p ->
  wp (process_directory schedule) p (fun res p' ev =>
    res = Ret tt /\
    length (ip_threads p') = Z.to_nat (Z.min (num_threads p) (num_generations p)) /\
    Forall (eq PDone) (ip_workers p') /\
    ip_task_queue p' = [] /\
    length (ip_invoked p') = Z.to_nat (num_generations p) /\
    Forall (fun it : nat * path => it.2 ∈ img_dir (customer_replicator p))
      (ip_invoked p') /\
    images_processed (ip_sys p')
    = images_processed (ip_sys p)
      + Z.of_nat (generated_among (Z.to_nat (num_generations p)) (ip_sys p)) /\
    studio (ip_sys p') = drop (Z.to_nat (num_generations p)) (studio (ip_sys p)) /\
    log_batch_complete ∈ ev).
Proof.
  intros (Hw & Ht & Hi & Hq) Hdir Hu Hnt.
  set (G := Z.to_nat (num_generations p)).
  set (n := Z.to_nat (Z.min (num_threads p) (num_generations p))).
  unfold process_directory. apply wp_bind, wp_get. simpl.
  rewrite bool_decide_eq_false_2 by done.
  apply wp_bind, wp_emit. simpl. apply wp_bind, wp_emit. simpl.
  apply wp_bind. unfold in_replicator at 1. apply wp_lift.
  eapply wp_mono; [by apply random_choices_spec|].
  simpl. intros res r' ev (sel & -> & -> & -> & Hlen & Hsel). fold G in Hlen.
  apply wp_bind, wp_modify. simpl. rewrite Hq. simpl.
  set (p0 := set_ip_task_queue sel (set_customer_replicator _ p)).
  apply wp_bind. fold n.
  eapply wp_mono; [apply (ip_start_threads_spec n p0 0); by subst p0|].
  simpl. intros res p1 ev1 (-> & -> & ->).
  assert (ip_sys p0 = ip_sys p) as Hsys0 by (subst p0; by destruct p).
  pose proof (ip_inv_started p0 sel n Hw Hi eq_refl) as Hinv1.
  rewrite Hsys0 in Hinv1. specialize (Hinv1 Hu).
  set (p1 := set_ip_threads _ _) in *.
  apply wp_bind.
  eapply wp_mono; [by eapply ip_run_schedule_spec|].
  simpl. intros res p2 ev2 (-> & Hinv2 & Hl2 & Hs2 & Hq2 & _).
  apply wp_bind, wp_get. simpl. apply wp_bind.
  eapply wp_mono; [by eapply ip_join_all_spec|].
  simpl. intros res p3 ev3 [(-> & Hinv3 & Hl3 & Hs3 & Hq3 & _) Hterm].
  apply wp_emit.
  assert (length (ip_workers p3) = n) as Hlenw.
  { rewrite Hl3, Hl2. subst p1. simpl. apply length_replicate. }
  assert (Forall (eq PDone) (ip_workers p3)) as Hdone.
  { apply Forall_forall. intros w Hin.
    apply list_elem_of_lookup in Hin as [i Hi3].
    assert (i ∈ ip_threads p2) as Hith.
    { rewrite (ipi_threads _ _ _ Hinv2), <- Hl3.
      apply elem_of_seq. apply lookup_lt_Some in Hi3. lia. }
    specialize (Hterm i Hith). rewrite Hi3 in Hterm.
    pose proof (ipi_alive _ _ _ Hinv3) as Hal. rewrite Forall_forall in Hal.
    assert (w ∈ ip_workers p3) as Hw3 by (by eapply list_elem_of_lookup_2).
    specialize (Hal w Hw3). destruct w; try done. by specialize (Hal e). }
  assert (ip_task_queue p3 = []) as Hempty.
  { destruct (ip_workers p3) as [|w ws] eqn:Ews.
    - simpl in Hlenw. apply length_zero_iff_nil.
      assert (length (ip_task_queue p1) = G) as HT by done.
      subst n G. lia.
    - apply (ipi_drained _ _ _ Hinv3). rewrite Ews.
      apply Forall_cons in Hdone as [<- _]. left. }
  pose proof (ipi_tasks _ _ _ Hinv3) as Htasks.
  pose proof (ipi_count _ _ _ Hinv3) as Hcount.
  pose proof (ipi_studio _ _ _ Hinv3) as Hstudio.
  rewrite (ip_bind_all_done ip_held), Hempty, !app_nil_r in Htasks by done.
  rewrite (ip_bind_all_done ip_pending) in Hcount by done. simpl in Hcount.
  assert (length (ip_invoked p3) = G) as HlenI.
  { rewrite <- (length_map snd). by rewrite Htasks. }
  rewrite HlenI in Hcount, Hstudio.
  split_and!; try done.
  - by rewrite (ipi_threads _ _ _ Hinv3), length_seq.
  - apply Forall_forall. intros it Hit.
    assert (it.2 ∈ sel) as Hin.
    { rewrite <- Htasks. apply list_elem_of_fmap. by exists it. }
    rewrite Forall_forall in Hsel. by apply Hsel.
  - lia.
  - unfold log_batch_complete. do 2 right.
    apply elem_of_app. right. apply elem_of_app. right. left.
Qed.

(** Without a worker nothing runs. *)
Lemma ip_run_schedule_idle schedule p :
  ip_workers p = [] -> ip_run_schedule schedule p = (Ret tt, p, []).
Proof.
  intros Hw. induction schedule as [|i rest IH]; [done|]. simpl.
  unfold mbind, M_bind, ip_thread_step, try_except, ip_worker_step.
  unfold mbind, M_bind, get. simpl. rewrite Hw, lookup_nil. simpl.
  by rewrite IH.
Qed.

Lemma process_directory_no_threads schedule p :
  ip_fresh p -> img_dir (customer_replicator p) <> [] -> num_threads p <= 0 ->
  wp (process_directory schedule) p (fun res p' ev =>
    res = Ret tt /\
    ev = [log_found_sources; log_will_generate; log_batch_complete] /\
    ip_workers p' = [] /\ ip_threads p' = [] /\ ip_invoked p' = [] /\
    length (ip_task_queue p') = Z.to_nat (num_generations p) /\
    Forall (fun x => x ∈ img_dir (customer_replicator p)) (ip_task_queue p') /\
    ip_sys p' = ip_sys p).
Proof.
  intros (Hw & Ht & Hi & Hq) Hdir Hnt.
  unfold process_directory. apply wp_bind, wp_get. simpl.
  rewrite bool_decide_eq_false_2 by done.
  apply wp_bind, wp_emit. simpl. apply wp_bind, wp_emit. simpl.
  apply wp_bind. unfold in_replicator at 1. apply wp_lift.
  eapply wp_mono; [by apply random_choices_spec|].
  simpl. intros res r' ev (sel & -> & -> & -> & Hlen & Hsel).
  apply wp_bind, wp_modify. simpl. rewrite Hq. simpl.
  assert (Z.to_nat (Z.min (num_threads p) (num_generations p)) = 0%nat) as -> by lia.
  simpl. apply wp_bind, wp_ret. simpl. apply wp_bind.
  unfold wp at 1. rewrite ip_run_schedule_idle by done. simpl.
  apply wp_bind, wp_get. simpl. rewrite Ht. simpl.
  apply wp_bind, wp_ret. simpl. apply wp_emit.
  by split_and!.
Qed.

(** ** Results on the batch and on [main] *)

(** X24: the batch of [process_directory] is exhaustive.  From an image
    processor whose pool has not run, with source images, an initialised
    uploader and at least one thread asked for, and for every schedule of
    its worker threads: [process_directory] returns normally; it starts
    [min(num_threads, num_generations)] threads (none when that is negative)
    and all of them have ended; [process_image] was called exactly
    [num_generations] times, each time on a source image, and the queue is
    empty; each call consumed one local generation, and the counter of
    processed images has advanced by the number of generations that
    succeeded. *)
Theorem process_directory_exhaustive schedule p :
  ip_fresh p -> img_dir (customer_replicator p) <> [] ->
  initialised (uploader (ip_sys p)) = true -> 1 <= num_threads p ->
  outcome_of (process_directory schedule) p = Ret tt /\
  length (ip_threads (state_after (process_directory schedule) p))
  = Z.to_nat (Z.min (num_threads p) (num_generations p)) /\
  Forall (eq PDone) (ip_workers (state_after (process_directory schedule) p)) /\
  ip_task_queue (state_after (process_directory schedule) p) = [] /\
  length (ip_invoked (state_after (process_directory schedule) p))
  = Z.to_nat (num_generations p) /\
  Forall (fun it : nat * path => it.2 ∈ img_dir (customer_replicator p))
    (ip_invoked (state_after (process_directory schedule) p)) /\
  images_processed (ip_sys (state_after (process_directory schedule) p))
  = images_processed (ip_sys p)
    + Z.of_nat (generated_among (Z.to_nat (num_generations p)) (ip_sys p)) /\
  studio (ip_sys (state_after (process_directory schedule) p))
  = drop (Z.to_nat (num_generations p)) (studio (ip_sys p)).
Proof.
  intros Hfresh Hdir Hu Hnt.
  destruct (process_directory_spec schedule p Hfresh Hdir Hu Hnt)
    as (H1 & H2 & H3 & H4 & H5 & H6 & H7 & H8 & _).
  by split_and!.
Qed.

Lemma process_directory_exhaustive_witness :
  outcome_of (process_directory [0; 1; 1; 0; 5]%nat) demo_processor = Ret tt /\
  length (ip_threads (state_after (process_directory [0; 1; 1; 0; 5]%nat) demo_processor))
  = 2%nat /\
  length (ip_invoked (state_after (process_directory [0; 1; 1; 0; 5]%nat) demo_processor))
  = 3%nat /\
  images_processed
    (ip_sys (state_after (process_directory [0; 1; 1; 0; 5]%nat) demo_processor))
  = 0 + Z.of_nat 2.
Proof.
  destruct (process_directory_exhaustive [0; 1; 1; 0; 5]%nat demo_processor)
    as (H1 & H2 & _ & _ & H5 & _ & H7 & _).
  - by split_and!.
  - discriminate.
  - reflexivity.
  - simpl. lia.
  - split_and!; [exact H1|exact H2|exact H5|exact H7].
Defined.

(** X25: what [process_directory] does without sources or without threads.
    With no source image it logs an error and changes nothing.  With source
    images but a thread count of zero or less ([NUM_THREADS=0]), it selects
    and enqueues [num_generations] source images, starts no thread, calls
    [process_image] for none of them and reports completion: the images
    stay in the queue and the counter does not move. *)
Theorem process_directory_idle schedule p :
  ip_fresh p ->
  (img_dir (customer_replicator p) = [] ->
   process_directory schedule p = (Ret tt, p, [log_no_images])) /\
  (img_dir (customer_replicator p) <> [] -> num_threads p <= 0 ->
   exists p',
     process_directory schedule p
     = (Ret tt, p', [log_found_sources; log_will_generate; log_batch_complete]) /\
     ip_workers p' = [] /\ ip_threads p' = [] /\ ip_invoked p' = [] /\
     length (ip_task_queue p') = Z.to_nat (num_generations p) /\
     Forall (fun x => x ∈ img_dir (customer_replicator p)) (ip_task_queue p') /\
     ip_sys p' = ip_sys p).
Proof.
  intros Hfresh. split.
  - intros Hdir. unfold process_directory, mbind, M_bind, get. simpl.
    by rewrite bool_decide_eq_true_2.
  - intros Hdir Hnt.
    destruct (wp_elim _ _ _ (process_directory_no_threads schedule p Hfresh Hdir Hnt))
      as (res & p' & ev & E & -> & -> & H).
    by exists p'.
Qed.

Lemma process_directory_idle_witness :
  exists p',
    process_directory [0; 1]%nat demo_processor_no_threads
    = (Ret tt, p', [log_found_sources; log_will_generate; log_batch_complete]) /\
    ip_workers p' = [] /\ ip_threads p' = [] /\ ip_invoked p' = [] /\
    length (ip_task_queue p') = Z.to_nat 3 /\
    Forall (fun x => x ∈ demo_pool) (ip_task_queue p') /\
    ip_sys p' = ip_sys demo_processor_no_threads.
Proof.
  destruct (process_directory_idle [0; 1]%nat demo_processor_no_threads) as [_ H].
  - by split_and!.
  - apply H; [discriminate|]. simpl. lia.
Defined.

(** *** From [__init__] to [main] *)

Lemma init_fields threads env token rows images draws answers outcomes p :
  ImageProcessor_init threads env token rows images draws answers outcomes = Ret p ->
  ip_fresh p /\
  img_dir (customer_replicator p) = images /\
  structure_file (customer_replicator p) = rows /\
  enabled (customer_replicator p)
  = String.eqb (PyStr.lower (getenv env "REPLICATE_CUSTOMER_STRUCTURE" "false")) "true" /\
  ip_sys p = {| uploader := AEMUploader_init env token; images_processed := 0;
                remote := answers; studio := outcomes |} /\
  threads_setting threads env = Some (num_threads p) /\
  PyStr.int (getenv env "NUM_GENERATIONS" "1000") = Some (num_generations p).
Proof.
  unfold ImageProcessor_init.
  destruct (threads_setting threads env) as [nt|]; [|discriminate].
  destruct (PyStr.int (getenv env "NUM_GENERATIONS" "1000")) as [ng|]; [|discriminate].
  intros [= <-]. by split_and!.
Qed.

Lemma init_initialised env token : initialised (AEMUploader_init env token) = true.
Proof.
  unfold initialised.
  destruct (aem_enabled (AEMUploader_init env token)) eqn:Hen; [|done].
  simpl. by apply configured_init.
Qed.

(** X26: replication needs [AEM_ENABLED].  For a processor built by
    [__init__] in an environment in which [REPLICATE_CUSTOMER_STRUCTURE]
    reads as true and [AEM_ENABLED] does not, and a structure file with
    rows, [main] raises [AttributeError] (the uploader has no
    [put_into_date_folder]) right after announcing the replication: nothing
    is created, queued or processed. *)
Theorem main_replication_needs_uploads
    threads env token rows images draws answers outcomes schedule p :
  ImageProcessor_init threads env token rows images draws answers outcomes = Ret p ->
  String.eqb (PyStr.lower (getenv env "REPLICATE_CUSTOMER_STRUCTURE" "false")) "true"
  = true ->
  String.eqb (PyStr.lower (getenv env "AEM_ENABLED" "false")) "true" = false ->
  rows <> [] ->
  main schedule p
  = (Raise (AttributeError "put_into_date_folder"), p,
     [log_replication_only; log_started]).
Proof.
  intros Hinit Hrep Hup Hrows.
  destruct (init_fields _ _ _ _ _ _ _ _ _ Hinit)
    as (_ & _ & Hst & Hen & Hsys & _).
  rewrite Hrep in Hen.
  assert (replicate_structure schedule (customer_replicator p)
          = (Raise (AttributeError "put_into_date_folder"),
             customer_replicator p, [log_started])) as Hrun.
  { apply replicate_structure_no_flag; [done|by rewrite Hst|].
    unfold date_flag, flag_of. unfold ip_sys in Hsys. rewrite Hsys. simpl.
    apply init_disabled_no_flag. unfold AEMUploader_init. by rewrite Hup. }
  unfold main, mbind, M_bind, get. simpl. rewrite Hen.
  unfold root_log, emit, in_replicator, lift. simpl. rewrite Hrun. simpl.
  by destruct p.
Qed.

Lemma main_replication_needs_uploads_witness :
  exists p,
    ImageProcessor_init None demo_env_no_uploads None demo_rows demo_pool
      [5; 2; 7]%nat [] [Some demo_generated] = Ret p /\
    main [0]%nat p
    = (Raise (AttributeError "put_into_date_folder"), p,
       [log_replication_only; log_started]).
Proof.
  eexists. split; [reflexivity|].
  apply (main_replication_needs_uploads None demo_env_no_uploads None demo_rows
           demo_pool [5; 2; 7]%nat [] [Some demo_generated]).
  - reflexivity.
  - reflexivity.
  - reflexivity.
  - discriminate.
Defined.

(** X27: a plain run.  For a processor built by [__init__] in an
    environment in which [REPLICATE_CUSTOMER_STRUCTURE] does not read as
    true: when [NUM_GENERATIONS] is zero or less, [main] logs a warning and
    does nothing; when it is positive, with at least one thread and a source
    image, [main] returns normally after calling [process_image] exactly
    [NUM_GENERATIONS] times, each time on a source image, and the counter of
    processed images is the number of local generations, among the first
    [NUM_GENERATIONS], that succeeded, for every schedule of the threads
    and whatever the remote answers. *)
Theorem main_regular_batch
    threads env token rows images draws answers outcomes schedule p :
  ImageProcessor_init threads env token rows images draws answers outcomes = Ret p ->
  String.eqb (PyStr.lower (getenv env "REPLICATE_CUSTOMER_STRUCTURE" "false")) "true"
  = false ->
  (num_generations p <= 0 -> main schedule p = (Ret tt, p, [log_nothing_to_do])) /\
  (1 <= num_generations p -> 1 <= num_threads p -> images <> [] ->
   outcome_of (main schedule) p = Ret tt /\
   length (ip_invoked (state_after (main schedule) p))
   = Z.to_nat (num_generations p) /\
   Forall (fun it : nat * path => it.2 ∈ images)
     (ip_invoked (state_after (main schedule) p)) /\
   images_processed (ip_sys (state_after (main schedule) p))
   = Z.of_nat (length (filter (fun o : option generated => is_Some o)
                         (take (Z.to_nat (num_generations p)) outcomes)))).
Proof.
  intros Hinit Hrep.
  destruct (init_fields _ _ _ _ _ _ _ _ _ Hinit)
    as (Hfresh & Hdir & _ & Hen & Hsys & _).
  rewrite Hrep in Hen. split.
  - intros Hng. unfold main, mbind, M_bind, get. simpl. rewrite Hen.
    by assert ((0 <? num_generations p) = false) as -> by (apply Z.ltb_ge; lia).
  - intros Hng Hnt Himg.
    assert (initialised (uploader (ip_sys p)) = true) as Hu.
    { rewrite Hsys. apply init_initialised. }
    assert (img_dir (customer_replicator p) <> []) as Hdir' by (by rewrite Hdir).
    pose proof (process_directory_spec schedule p Hfresh Hdir' Hu Hnt) as Hspec.
    enough (wp (main schedule) p (fun res p' _ =>
              res = Ret tt /\
              length (ip_invoked p') = Z.to_nat (num_generations p) /\
              Forall (fun it : nat * path => it.2 ∈ images) (ip_invoked p') /\
              images_processed (ip_sys p')
              = Z.of_nat (length (filter (fun o : option generated => is_Some o)
                                    (take (Z.to_nat (num_generations p)) outcomes)))))
      as H by exact H.
    unfold main. apply wp_bind, wp_get. simpl. rewrite Hen.
    assert ((0 <? num_generations p) = true) as -> by (apply Z.ltb_lt; lia).
    apply wp_bind, wp_emit. simpl.
    eapply wp_mono; [exact Hspec|].
    simpl. intros res p' ev (-> & _ & _ & _ & H5 & H6 & H7 & _).
    rewrite Hdir in H6. rewrite Hsys in H7. unfold generated_among in H7.
    simpl in H7. by split_and!.
Qed.

Lemma main_regular_batch_witness :
  exists p,
    ImageProcessor_init None demo_env_batch (Some "token") [] demo_pool
      [5; 2; 7]%nat []
      [Some demo_generated; None; Some demo_generated; Some demo_generated]
    = Ret p /\
    outcome_of (main [1; 0; 0; 1]%nat) p = Ret tt /\
    length (ip_invoked (state_after (main [1; 0; 0; 1]%nat) p)) = 3%nat /\
    images_processed (ip_sys (state_after (main [1; 0; 0; 1]%nat) p)) = Z.of_nat 2.
Proof.
  eexists. split; [reflexivity|].
  destruct (main_regular_batch None demo_env_batch (Some "token") [] demo_pool
              [5; 2; 7]%nat []
              [Some demo_generated; None; Some demo_generated; Some demo_generated]
              [1; 0; 0; 1]%nat _ eq_refl eq_refl) as [_ H].
  destruct H as (H1 & H2 & _ & H4).
  - simpl. lia.
  - simpl. lia.
  - discriminate.
  - split_and!; [exact H1|exact H2|exact H4].
Defined.
(** ** Names and tags *)

Lemma is_ascii_byte c : PyText.is_ascii c = (Unicode.byte c <? 128)%N.
Proof. by destruct c as [[] [] [] [] [] [] [] []]. Qed.

Lemma isascii_keep_is_ascii s : PyStr.isascii (PyText.keep PyText.is_ascii s) = true.
Proof.
  induction s as [|c r IH]; [done|]. simpl.
  destruct (PyText.is_ascii c) eqn:Hc; [|done].
  simpl. by rewrite <- is_ascii_byte, Hc.
Qed.

Lemma isascii_keep f s : PyStr.isascii s = true -> PyStr.isascii (PyText.keep f s) = true.
Proof.
  induction s as [|c r IH]; [done|]. simpl.
  intros [Hc Hr]%andb_true_iff. destruct (f c); simpl; [|by apply IH].
  by rewrite Hc, IH.
Qed.

Lemma isascii_replace s :
  PyStr.isascii s = true -> PyStr.isascii (PyText.replace " " "_" s) = true.
Proof.
  induction s as [|c r IH]; [done|]. simpl.
  intros [Hc Hr]%andb_true_iff. rewrite (IH Hr), andb_true_r.
  by destruct (Ascii.eqb c " ").
Qed.

(** The name that [normalize_filename] lowers has ASCII characters only, so
    that it is lowered byte by byte. *)
Lemma normalize_filename_bytes s :
  normalize_filename s
  = PyStr.lower_bytes
      (PyText.keep (fun c => (PyText.isalnum c || Ascii.eqb c "_")%bool)
         (PyText.replace " " "_" (PyText.keep PyText.is_ascii s))).
Proof.
  unfold normalize_filename, PyStr.lower.
  by rewrite isascii_keep by apply isascii_replace, isascii_keep_is_ascii.
Qed.

Lemma normalize_filename_cons c r :
  normalize_filename (String c r)
  = match normalize_char c with
    | Some d => String d (normalize_filename r)
    | None => normalize_filename r
    end.
Proof.
  rewrite !normalize_filename_bytes. unfold normalize_char. simpl.
  destruct (PyText.is_ascii c); simpl; [|done].
  by destruct (PyText.isalnum _ || Ascii.eqb _ "_")%bool.
Qed.

Lemma normalize_char_name c d : normalize_char c = Some d -> name_char d = true.
Proof.
  intros H.
  destruct c as [[] [] [] [] [] [] [] []]; vm_compute in H;
    first [discriminate | injection H as <-; reflexivity].
Qed.

Lemma normalize_char_fixed c : name_char c = true -> normalize_char c = Some c.
Proof.
  intros H.
  destruct c as [[] [] [] [] [] [] [] []]; vm_compute in H;
    first [discriminate | reflexivity].
Qed.

Lemma normalize_filename_chars s : each name_char (normalize_filename s) = true.
Proof.
  induction s as [|c r IH]; [done|].
  rewrite normalize_filename_cons.
  destruct (normalize_char c) as [d|] eqn:Hd; [|done].
  simpl. by rewrite (normalize_char_name _ _ Hd), IH.
Qed.

Lemma normalize_filename_fixed s :
  each name_char s = true -> normalize_filename s = s.
Proof.
  induction s as [|c r IH]; [done|]. simpl.
  intros [Hc Hr]%andb_true_iff.
  by rewrite normalize_filename_cons, (normalize_char_fixed _ Hc), IH.
Qed.

Lemma normalize_filename_length s :
  (String.length (normalize_filename s) <= String.length s)%nat.
Proof.
  induction s as [|c r IH]; [done|].
  rewrite normalize_filename_cons.
  destruct (normalize_char c); simpl; lia.
Qed.

(** X28: [normalize_filename] returns a name made of lower-case ASCII
    letters, digits and underscores only, never longer than its argument; a
    name that is already of this form is returned as it is, so normalizing
    twice is normalizing once. *)
Theorem normalize_filename_normal s :
  each name_char (normalize_filename s) = true /\
  (String.length (normalize_filename s) <= String.length s)%nat /\
  (each name_char s = true -> normalize_filename s = s) /\
  normalize_filename (normalize_filename s) = normalize_filename s.
Proof.
  split_and!.
  - apply normalize_filename_chars.
  - apply normalize_filename_length.
  - apply normalize_filename_fixed.
  - apply normalize_filename_fixed, normalize_filename_chars.
Qed.

Lemma normalize_filename_normal_witness :
  normalize_filename "calm_river3" = "calm_river3".
Proof.
  destruct (normalize_filename_normal "calm_river3") as (_ & _ & H & _).
  apply H. reflexivity.
Defined.

Lemma filename_tags_filter words :
  filename_tags words = filter (fun w => tag_word w = true) words.
Proof.
  induction words as [|w ws IH]; [done|]. simpl.
  destruct (tag_word w) eqn:Hw.
  - rewrite filter_cons_True by done.
    unfold tag_word in Hw. apply negb_true_iff in Hw. by rewrite Hw, IH.
  - rewrite filter_cons_False by congruence.
    unfold tag_word in Hw. apply negb_false_iff in Hw. by rewrite Hw.
Qed.

Lemma random_tags_loop_grows min_tags answers : forall tags ts ev,
  random_tags_loop min_tags answers tags = Some (ts, ev) ->
  (exists more, ts = tags ++ more) /\ (min_tags <= length ts)%nat.
Proof.
  induction answers as [|a rest IH]; intros tags ts ev; simpl;
    destruct (length tags <? min_tags)%nat eqn:Hlt.
  - discriminate.
  - intros [= <- <-]. apply Nat.ltb_ge in Hlt. split; [|done].
    exists []. by rewrite app_nil_r.
  - destruct a as [tag|].
    + destruct (PyStr.truthy tag).
      * intros H. destruct (IH _ _ _ H) as [[more ->] Hlen]. split; [|done].
        rewrite <- app_assoc. by eexists.
      * apply IH.
    + destruct (random_tags_loop _ _ _) as [[ts' ev']|] eqn:H; [|discriminate].
      intros [= <- <-]. destruct (IH _ _ _ H) as [[more ->] Hlen]. split; [|done].
      rewrite <- app_assoc. by eexists.
  - intros [= <- <-]. apply Nat.ltb_ge in Hlt. split; [|done].
    exists []. by rewrite app_nil_r.
Qed.

Lemma random_tags_loop_enough min_tags tags answers :
  (min_tags <= length tags)%nat ->
  random_tags_loop min_tags answers tags = Some (tags, []).
Proof.
  intros Hlen. apply Nat.ltb_ge in Hlen.
  destruct answers; simpl; by rewrite Hlen.
Qed.

Lemma random_tags_loop_ends min_tags answers : forall tags,
  (min_tags <= length tags + length (filter (fun a => productive a = true) answers))%nat ->
  is_Some (random_tags_loop min_tags answers tags).
Proof.
  induction answers as [|a rest IH]; intros tags Hlen; simpl;
    destruct (length tags <? min_tags)%nat eqn:Hlt; try (by eexists).
  - apply Nat.ltb_lt in Hlt. simpl in Hlen. lia.
  - rewrite filter_cons in Hlen.
    destruct a as [tag|]; simpl in Hlen.
    + destruct (PyStr.truthy tag); simpl in Hlen.
      * apply IH. rewrite length_app.
        destruct (PyText.split_ws _); simpl in *.
        -- destruct (decide (false = true)); [done|]. lia.
        -- destruct (decide (true = true)); simpl in *; lia.
      * apply IH. destruct (decide (false = true)); [done|]. lia.
    + destruct (IH (tags ++ ["Tag_" +:+ PyStr.dec (Z.of_nat (length tags + 1))]))
        as [[ts ev] ->]; [|by eexists].
      rewrite length_app. simpl.
      destruct (decide (true = true)); simpl in *; lia.
Qed.

Lemma random_tags_loop_goes_on min_tags answers : forall tags,
  (length tags < min_tags)%nat ->
  Forall (fun a => productive a = false) answers ->
  random_tags_loop min_tags answers tags = None.
Proof.
  induction answers as [|a rest IH]; intros tags Hlen Hall; simpl;
    (assert ((length tags <? min_tags)%nat = true) as -> by (by apply Nat.ltb_lt));
    [done|].
  apply Forall_cons in Hall as [Ha Hall].
  destruct a as [tag|]; [|discriminate]. simpl in Ha.
  destruct (PyStr.truthy tag); simpl in Ha; [|by apply IH].
  destruct (PyText.split_ws _); [|discriminate].
  rewrite app_nil_r. by apply IH.
Qed.

(** X29: the tags of an image.  When [get_random_tags] returns, with the
    processor's bounds [min_tags] and [max_tags], its list is the first
    [max_tags] elements of: the tag ["findme"], then the words of the
    lower-cased file stem between single spaces that have at least three
    characters, no digit, and are not ["firefly"], in their order, then
    tags from random names.  It holds at most [max_tags] and at least
    [min(min_tags, max_tags)] tags. *)
Theorem get_random_tags_shape min_tags max_tags stem answers ts ev :
  get_random_tags min_tags max_tags stem answers = Some (ts, ev) ->
  (exists more,
     ts = take max_tags
            (("findme"
              :: filter (fun w => tag_word w = true)
                   (PyStr.split " " (PyStr.lower stem)))
             ++ more)) /\
  (length ts <= max_tags)%nat /\
  (Nat.min min_tags max_tags <= length ts)%nat.
Proof.
  unfold get_random_tags. rewrite filename_tags_filter.
  destruct (random_tags_loop _ _ _) as [[ts' ev']|] eqn:Hloop; [|discriminate].
  intros [= <- <-].
  destruct (random_tags_loop_grows _ _ _ _ _ Hloop) as [[more ->] Hlen].
  assert ((if (max_tags <? length (["findme"] ++ filter (fun w => tag_word w = true)
                                      (PyStr.split " " (PyStr.lower stem)) ++ more))%nat
           then take max_tags (["findme"] ++ filter (fun w => tag_word w = true)
                                 (PyStr.split " " (PyStr.lower stem)) ++ more)
           else ["findme"] ++ filter (fun w => tag_word w = true)
                  (PyStr.split " " (PyStr.lower stem)) ++ more)
          = take max_tags (["findme"] ++ filter (fun w => tag_word w = true)
                             (PyStr.split " " (PyStr.lower stem)) ++ more)) as Hcap.
  { destruct (max_tags <? _)%nat eqn:Hlt; [done|].
    apply Nat.ltb_ge in Hlt. by rewrite take_ge. }
  rewrite <- app_assoc in *. rewrite Hcap. split_and!.
  - by exists more.
  - rewrite length_take. lia.
  - rewrite length_take. lia.
Qed.

Lemma get_random_tags_shape_witness :
  (exists more,
     ["findme"; "île"; "sunset"; "Calm"; "River"]
     = take 10
         (("findme"
           :: filter (fun w => tag_word w = true)
                (PyStr.split " " (PyStr.lower "Firefly Île où x² 1234 Sunset")))
          ++ more)) /\
  (length ["findme"; "île"; "sunset"; "Calm"; "River"] <= 10)%nat /\
  (Nat.min 5 10 <= length ["findme"; "île"; "sunset"; "Calm"; "River"])%nat.
Proof.
  apply (get_random_tags_shape 5 10 "Firefly Île où x² 1234 Sunset"
           [Some "calm-river"; None]
           ["findme"; "île"; "sunset"; "Calm"; "River"] []).
  by vm_compute.
Defined.

(** X30: when [get_random_tags] returns.  If the file name alone gives
    [min_tags - 1] tags or more, no random name is asked for and nothing is
    logged.  Otherwise the loop ends as soon as enough answers of
    [randomname.get_name()] add a tag (a name that holds a word, or an
    exception, which adds the fallback tag): answers of which
    [min_tags - 1] are of this kind always suffice.  Answers that add
    nothing (an empty name, or a name without a word) never end it: as long
    as the library gives only such names, the loop goes on. *)
Theorem get_random_tags_returns min_tags max_tags stem answers :
  ((min_tags <= 1 + length (filter (fun w => tag_word w = true)
                              (PyStr.split " " (PyStr.lower stem))))%nat ->
   exists ts, get_random_tags min_tags max_tags stem answers = Some (ts, [])) /\
  ((min_tags <= 1 + length (filter (fun a => productive a = true) answers))%nat ->
   is_Some (get_random_tags min_tags max_tags stem answers)) /\
  ((1 + length (filter (fun w => tag_word w = true)
                  (PyStr.split " " (PyStr.lower stem))) < min_tags)%nat ->
   Forall (fun a => productive a = false) answers ->
   get_random_tags min_tags max_tags stem answers = None).
Proof.
  unfold get_random_tags. rewrite filename_tags_filter. split_and!.
  - intros Hlen. rewrite random_tags_loop_enough by (simpl; lia). by eexists.
  - intros Hlen.
    destruct (random_tags_loop_ends min_tags answers
                (["findme"] ++ filter (fun w => tag_word w = true)
                   (PyStr.split " " (PyStr.lower stem))))
      as [[ts ev] ->]; [simpl; lia|by eexists].
  - intros Hlen Hall. by rewrite random_tags_loop_goes_on by (simpl; lia || done).
Qed.

Lemma get_random_tags_returns_witness :
  is_Some (get_random_tags 5 10 "img" [Some ""; None; Some "big-old-tree"; None; Some "x"]) /\
  get_random_tags 5 10 "img" [Some ""; Some "-"; Some " "] = None /\
  get_random_tags 5 10 "où né là dû" [] = None.
Proof.
  destruct (get_random_tags_returns 5 10 "img" [Some ""; None; Some "big-old-tree"; None; Some "x"])
    as (_ & H & _).
  split_and!.
  - apply H. vm_compute. lia.
  - destruct (get_random_tags_returns 5 10 "img" [Some ""; Some "-"; Some " "])
      as (_ & _ & H').
    apply H'.
    + vm_compute. lia.
    + repeat constructor.
  - destruct (get_random_tags_returns 5 10 "où né là dû" []) as (_ & _ & H').
    apply H'.
    + vm_compute. lia.
    + constructor.
Defined.
